(** * PiZero_VT100: the terminal renderer [CTRenderer]

    A shallow embedding of [src/VT100/src/TRenderer.cpp] (class [CTRenderer],
    declared in [src/VT100/include/TRenderer.h]): the escape-sequence
    interpreter [Write(char)], the pixel buffer with its depth-aware raw pixel
    access, the scroll engine and the cursor/font state, followed by the
    properties of the specification that concern them.

    Conventions of the embedding.
    - An [unsigned] is a [Z] in [0, 2^32); arithmetic on it is wrapped with
      [u32] where the source computes it.  A [char] is the [Z] value the
      [char] holds (the model does not fix the signedness of [char]).
    - The pixel buffer [m_pBuffer8] is the list of its bytes; the 16 and 32
      bit views of the union are little-endian groups of 2 and 4 bytes.
    - A C++ object is the record [CTRenderer]; a member function is a
      function from the object to the updated object (paired with the
      returned value when there is one).  The collaborators reached through
      singletons (timer, heap, configuration, buzzer, display) are fields of
      the same record.
    - The spin lock is not modelled: the embedding is sequential.
    - An access outside an array, a null dereference and a loop that does not
      terminate (cell width 0) are undefined in the source; the model is
      total there, and every theorem states the well-formedness it needs. *)

From Stdlib Require Import ZArith Lia Bool Ascii List.
From stdpp Require Import base tactics option list numbers.
Import ListNotations.

#[local] Open Scope Z_scope.

(** ** Machine integers and characters *)

Definition u32 (z : Z) : Z := z mod 4294967296.
Definition u64 (z : Z) : Z := z mod 18446744073709551616.

(** [(int)(a - b)]: the signed reading of an unsigned difference. *)
Definition s32 (z : Z) : Z :=
  if u32 z <? 2147483648 then u32 z else u32 z - 4294967296.

Definition chr (a : ascii) : Z := Z.of_nat (nat_of_ascii a).
Arguments chr a%_char.

Definition is_digit (c : Z) : bool := (chr "0" <=? c) && (c <=? chr "9").
Arguments is_digit : simpl never.

(** ** Loops *)

(** [for (i = lo; i < hi; i++) body(i)] *)
Definition for_range {S : Type} (lo hi : Z) (body : Z -> S -> S) (s : S) : S :=
  foldl (fun acc i => body i acc) s (seqZ lo (hi - lo)).

(** [for (i = lo; i < hi; i += step) body(i)], for [step > 0]; the source
    loop does not terminate for [step = 0] and [lo < hi]. *)
Definition for_step {S : Type} (lo hi step : Z) (body : Z -> S -> S) (s : S) : S :=
  foldl (fun acc k => body (lo + k * step) acc) s
        (seqZ 0 ((hi - lo + step - 1) / step)).

(** [n] calls of [f] in a row. *)
Definition repeat_call {S : Type} (n : Z) (f : S -> S) (s : S) : S :=
  Nat.iter (Z.to_nat n) f s.

(** ** Byte arrays *)

Definition rd (b : list Z) (i : Z) : Z := default 0 (b !! Z.to_nat i).
Definition wr (b : list Z) (i : Z) (v : Z) : list Z := <[Z.to_nat i := v]> b.

(** Little-endian store and load of an [n]-byte unsigned at byte address [a]. *)
Fixpoint store_le (n : nat) (b : list Z) (a v : Z) : list Z :=
  match n with
  | O => b
  | S k => store_le k (wr b a (v mod 256)) (a + 1) (v / 256)
  end.

Fixpoint load_le (n : nat) (b : list Z) (a : Z) : Z :=
  match n with
  | O => 0
  | S k => rd b a + 256 * load_le k b (a + 1)
  end.

(** [memmove(b + dst, b + src, n)] inside one array; the ranges must lie in
    the array.  [memcpy] is used by the source only with [dst <= src], where a
    forward copy gives the same bytes. *)
Definition memmove (b : list Z) (dst src n : Z) : list Z :=
  take (Z.to_nat dst) b ++ take (Z.to_nat n) (drop (Z.to_nat src) b)
    ++ drop (Z.to_nat (dst + n)) b.

(** Overwrite [b] from byte address [a] with the bytes [bs]. *)
Definition blit (b : list Z) (a : Z) (bs : list Z) : list Z :=
  take (Z.to_nat a) b ++ bs ++ drop (Z.to_nat a + length bs) b.

(** The bytes of one raw colour at the buffer depth, as the fill loops of
    [ClearDisplayEnd], [Scroll], [InsertLines] and [DeleteLines] write them:
    at depth 1 a whole byte [0xFF] or [0], else the colour truncated to the
    element type, low byte first. *)
Definition fill_unit (depth color : Z) : list Z :=
  if depth =? 1 then [if color =? 0 then 0 else 255]
  else if depth =? 8 then [color mod 256]
  else if depth =? 16 then [color mod 256; color / 256 mod 256]
  else if depth =? 32 then
    [color mod 256; color / 256 mod 256; color / 65536 mod 256;
     color / 16777216 mod 256]
  else [].

(** [count] consecutive elements of the fill pattern. *)
Definition fill_elems (depth color : Z) (count : Z) : list Z :=
  concat (replicate (Z.to_nat count) (fill_unit depth color)).

(** ** Types of the Circle library and of the repository *)

(** A [TFont] is referred to by reference only; it is modelled by a handle. *)
Definition TFont : Type := Z.

(** A [float] is kept as its 32-bit pattern; it is only handed to
    [AdjustBrightness565]. *)
Definition float32 : Type := Z.

Inductive TFontFlags : Type :=
  | FontFlagsNone
  | FontFlagsDoubleWidth
  | FontFlagsDoubleHeight
  | FontFlagsDoubleBoth.

Inductive EFontSelection : Type :=
  | VT100Font8x20
  | VT100Font10x20
  | VT100Font10x20Solid
  | VT100GraphicsFont8x20
  | VT100GraphicsFont10x20
  | VT100GraphicsFont10x20Solid.

(** What the renderer reads from a [CCharGenerator] of the Circle library. *)
Record CCharGenerator : Type := mkCharGen {
  GetCharWidth : Z;
  GetCharHeight : Z;
  GetUnderline : Z;
  GetPixelLine : Z -> Z -> Z;       (* character, row -> pixel line *)
  GetPixel : Z -> Z -> bool         (* column, pixel line -> glyph pixel? *)
}.

Record TArea : Type := mkArea { x1 : Z; x2 : Z; y1 : Z; y2 : Z }.

(** One [CBcmFrameBuffer::SetArea] call: the area and the bytes pushed. *)
Definition TFrame : Type := (TArea * list Z)%type.

Inductive TState : Type :=
  | StateStart
  | StateEscape
  | StateVT52Row
  | StateVT52Col
  | StateBracket
  | StateNumber1
  | StateQuestionMark
  | StateSemicolon
  | StateNumber2
  | StateNumber3
  | StateAutoPage
  | StateFontChange
  | StateSkipTillCRLF
  | StateG0
  | StateG1.

Inductive ECharacterSet : Type := CharSetUS | CharSetGraphics.

Inductive EColorSelection : Type :=
  | TerminalColorBlack
  | TerminalColorWhite
  | TerminalColorAmber
  | TerminalColorGreen.

Record TRendererState : Type := mkRendererState {
  font : option TFont;
  fontFlags : TFontFlags;
  foreground : Z;
  background : Z;
  defaultForeground : Z;
  defaultBackground : Z;
  cursorX : Z;
  cursorY : Z;
  cursorOn : bool;
  cursorBlock : bool;
  cursorVisible : bool;
  blinking : bool;
  blinkTicks : Z;
  nextBlink : Z;
  scrollStart : Z;
  scrollEnd : Z;
  reverseAttribute : bool;
  boldAttribute : bool;
  underlineAttribute : bool;
  blinkAttribute : bool;
  insertOn : bool;
  autoPage : bool;
  delayedUpdate : bool;
  lastUpdateTicks : Z;
  parserState : TState;
  param1 : Z;
  param2 : Z;
  g0CharSet : ECharacterSet;
  g1CharSet : ECharacterSet;
  useG1 : bool
}.

(** ** The renderer object

    The members of [CTRenderer] in declaration order, then the collaborators:
    [m_pFrameBuffer] is the list of frames pushed to the display (latest
    first); [CTimer_ticks]/[CTimer_reads] are the readings [GetTicks] returns
    and how many were taken; [heap_grants]/[heap_requests] say which [new]
    succeeds; [CTConfig_*] are the configuration values the renderer reads;
    [CHAL_beeps] counts the margin bells. *)
Record CTRenderer : Type := mkCTRenderer {
  m_pFont : option TFont;
  m_FontFlags : TFontFlags;
  m_pCharGen : option CCharGenerator;
  m_pGraphicsCharGen : option CCharGenerator;
  m_CurrentFontSelection : EFontSelection;
  m_G0CharSet : ECharacterSet;
  m_G1CharSet : ECharacterSet;
  m_bUseG1 : bool;
  m_pCursorPixels : option (list Z);
  m_pBuffer8 : list Z;
  m_pFrameBuffer : list TFrame;
  m_nDisplayIndex : Z;
  m_nSize : Z;
  m_nPitch : Z;
  m_nWidth : Z;
  m_nHeight : Z;
  m_nUsedWidth : Z;
  m_nUsedHeight : Z;
  m_nDepth : Z;
  m_UpdateArea : TArea;
  m_State : TState;
  m_nScrollStart : Z;
  m_nScrollEnd : Z;
  m_nCursorX : Z;
  m_nCursorY : Z;
  m_bCursorOn : bool;
  m_bCursorBlock : bool;
  m_bBlinkingCursor : bool;
  m_bCursorVisible : bool;
  m_nCursorBlinkPeriodTicks : Z;
  m_nNextCursorBlink : Z;
  m_ForegroundColor : Z;
  m_BackgroundColor : Z;
  m_DefaultForegroundColor : Z;
  m_DefaultBackgroundColor : Z;
  m_BoldScaleFactor : float32;
  m_DimScaleFactor : float32;
  m_ReverseBackgroundScaleFactor : float32;
  m_ReverseForegroundScaleFactor : float32;
  m_bReverseAttribute : bool;
  m_bBoldAttribute : bool;
  m_bDimAttribute : bool;
  m_bUnderlineAttribute : bool;
  m_bBlinkAttribute : bool;
  m_bInsertOn : bool;
  m_bVT52Mode : bool;
  m_nParam1 : Z;
  m_nParam2 : Z;
  m_bAutoPage : bool;
  m_bDelayedUpdate : bool;
  m_nLastUpdateTicks : Z;
  m_bSmoothScrollEnabled : bool;
  m_bSmoothScrollActive : bool;
  m_bSmoothScrollDown : bool;
  m_nSmoothScrollStartY : Z;
  m_nSmoothScrollEndY : Z;
  m_nSmoothScrollOffset : Z;
  m_nSmoothScrollStep : Z;
  m_nSmoothScrollLastTick : Z;
  m_nSmoothScrollTickInterval : Z;
  m_pSmoothScrollSnapshot : option (list Z);
  m_pSmoothScrollCompose : option (list Z);
  m_nSmoothScrollBufferSize : Z;
  m_nSmoothScrollStartTick : Z;
  m_nSmoothScrollDebounceUntil : Z;
  m_nScrollStatsLastLogTick : Z;
  m_ScrollNormalTicksAccum : Z;
  m_ScrollSmoothTicksAccum : Z;
  m_ScrollNormalCount : Z;
  m_ScrollSmoothCount : Z;
  m_SavedState : TRendererState;
  CTimer_ticks : nat -> Z;
  CTimer_reads : nat;
  heap_grants : nat -> bool;
  heap_requests : nat;
  CTConfig_TabStops : list bool;
  CTConfig_WrapAroundEnabled : Z;
  CTConfig_MarginBellEnabled : Z;
  CTConfig_BuzzerVolume : Z;
  CTConfig_FontSelection : EFontSelection;
  CTConfig_TextColorIndex : EColorSelection;
  CTConfig_BackgroundColorIndex : EColorSelection;
  CTConfig_CursorType : Z;
  CTConfig_CursorBlinking : Z;
  CHAL_beeps : nat
}.

(** Field update.  [eta_CTRenderer] rebuilds a renderer from its own fields in
    reader style; the setter of a field is obtained by abstracting that field's
    projection out of it, so that [set_f v s] is [s] with field [f] equal to [v]
    and every other field unchanged. *)
Definition rpure {E T : Type} (x : T) : E -> T := fun _ => x.
Definition rap {E A B : Type} (f : E -> A -> B) (x : E -> A) : E -> B :=
  fun e => f e (x e).

Definition eta_CTRenderer : CTRenderer -> CTRenderer :=
  rap (rap (rap (rap (rap (rap (rap (rap (rap (rap (rap (rap (rap (rap (rap
    (rap (rap (rap (rap (rap (rap (rap (rap (rap (rap (rap (rap (rap (rap (rap
    (rap (rap (rap (rap (rap (rap (rap (rap (rap (rap (rap (rap (rap (rap (rap
    (rap (rap (rap (rap (rap (rap (rap (rap (rap (rap (rap (rap (rap (rap (rap
    (rap (rap (rap (rap (rap (rap (rap (rap (rap (rap (rap (rap (rap (rap (rap
    (rap (rap (rap (rap (rap (rap (rap (rap (rap (rap (rpure mkCTRenderer)
    m_pFont) m_FontFlags) m_pCharGen) m_pGraphicsCharGen)
    m_CurrentFontSelection) m_G0CharSet) m_G1CharSet) m_bUseG1)
    m_pCursorPixels) m_pBuffer8) m_pFrameBuffer) m_nDisplayIndex) m_nSize)
    m_nPitch) m_nWidth) m_nHeight) m_nUsedWidth) m_nUsedHeight) m_nDepth)
    m_UpdateArea) m_State) m_nScrollStart) m_nScrollEnd) m_nCursorX)
    m_nCursorY) m_bCursorOn) m_bCursorBlock) m_bBlinkingCursor)
    m_bCursorVisible) m_nCursorBlinkPeriodTicks) m_nNextCursorBlink)
    m_ForegroundColor) m_BackgroundColor) m_DefaultForegroundColor)
    m_DefaultBackgroundColor) m_BoldScaleFactor) m_DimScaleFactor)
    m_ReverseBackgroundScaleFactor) m_ReverseForegroundScaleFactor)
    m_bReverseAttribute) m_bBoldAttribute) m_bDimAttribute)
    m_bUnderlineAttribute) m_bBlinkAttribute) m_bInsertOn) m_bVT52Mode)
    m_nParam1) m_nParam2) m_bAutoPage) m_bDelayedUpdate) m_nLastUpdateTicks)
    m_bSmoothScrollEnabled) m_bSmoothScrollActive) m_bSmoothScrollDown)
    m_nSmoothScrollStartY) m_nSmoothScrollEndY) m_nSmoothScrollOffset)
    m_nSmoothScrollStep) m_nSmoothScrollLastTick) m_nSmoothScrollTickInterval)
    m_pSmoothScrollSnapshot) m_pSmoothScrollCompose)
    m_nSmoothScrollBufferSize) m_nSmoothScrollStartTick)
    m_nSmoothScrollDebounceUntil) m_nScrollStatsLastLogTick)
    m_ScrollNormalTicksAccum) m_ScrollSmoothTicksAccum) m_ScrollNormalCount)
    m_ScrollSmoothCount) m_SavedState) CTimer_ticks) CTimer_reads)
    heap_grants) heap_requests) CTConfig_TabStops) CTConfig_WrapAroundEnabled)
    CTConfig_MarginBellEnabled) CTConfig_BuzzerVolume) CTConfig_FontSelection)
    CTConfig_TextColorIndex) CTConfig_BackgroundColorIndex)
    CTConfig_CursorType) CTConfig_CursorBlinking) CHAL_beeps.

Ltac setter_for proj :=
  let e := eval unfold eta_CTRenderer in eta_CTRenderer in
  match eval pattern proj in e with
  | ?g _ =>
      let r := eval cbv beta delta [rpure rap] in (fun v s => g (fun _ => v) s) in
      exact r
  end.

Definition set_m_pFont : (option TFont) -> CTRenderer -> CTRenderer :=
  ltac:(setter_for m_pFont).
Definition set_m_FontFlags : TFontFlags -> CTRenderer -> CTRenderer :=
  ltac:(setter_for m_FontFlags).
Definition set_m_pCharGen : (option CCharGenerator) -> CTRenderer -> CTRenderer :=
  ltac:(setter_for m_pCharGen).
Definition set_m_pGraphicsCharGen : (option CCharGenerator) -> CTRenderer -> CTRenderer :=
  ltac:(setter_for m_pGraphicsCharGen).
Definition set_m_CurrentFontSelection : EFontSelection -> CTRenderer -> CTRenderer :=
  ltac:(setter_for m_CurrentFontSelection).
Definition set_m_G0CharSet : ECharacterSet -> CTRenderer -> CTRenderer :=
  ltac:(setter_for m_G0CharSet).
Definition set_m_G1CharSet : ECharacterSet -> CTRenderer -> CTRenderer :=
  ltac:(setter_for m_G1CharSet).
Definition set_m_bUseG1 : bool -> CTRenderer -> CTRenderer :=
  ltac:(setter_for m_bUseG1).
Definition set_m_pCursorPixels : (option (list Z)) -> CTRenderer -> CTRenderer :=
  ltac:(setter_for m_pCursorPixels).
Definition set_m_pBuffer8 : (list Z) -> CTRenderer -> CTRenderer :=
  ltac:(setter_for m_pBuffer8).
Definition set_m_pFrameBuffer : (list TFrame) -> CTRenderer -> CTRenderer :=
  ltac:(setter_for m_pFrameBuffer).
Definition set_m_nDisplayIndex : Z -> CTRenderer -> CTRenderer :=
  ltac:(setter_for m_nDisplayIndex).
Definition set_m_nSize : Z -> CTRenderer -> CTRenderer :=
  ltac:(setter_for m_nSize).
Definition set_m_nPitch : Z -> CTRenderer -> CTRenderer :=
  ltac:(setter_for m_nPitch).
Definition set_m_nWidth : Z -> CTRenderer -> CTRenderer :=
  ltac:(setter_for m_nWidth).
Definition set_m_nHeight : Z -> CTRenderer -> CTRenderer :=
  ltac:(setter_for m_nHeight).
Definition set_m_nUsedWidth : Z -> CTRenderer -> CTRenderer :=
  ltac:(setter_for m_nUsedWidth).
Definition set_m_nUsedHeight : Z -> CTRenderer -> CTRenderer :=
  ltac:(setter_for m_nUsedHeight).
Definition set_m_nDepth : Z -> CTRenderer -> CTRenderer :=
  ltac:(setter_for m_nDepth).
Definition set_m_UpdateArea : TArea -> CTRenderer -> CTRenderer :=
  ltac:(setter_for m_UpdateArea).
Definition set_m_State : TState -> CTRenderer -> CTRenderer :=
  ltac:(setter_for m_State).
Definition set_m_nScrollStart : Z -> CTRenderer -> CTRenderer :=
  ltac:(setter_for m_nScrollStart).
Definition set_m_nScrollEnd : Z -> CTRenderer -> CTRenderer :=
  ltac:(setter_for m_nScrollEnd).
Definition set_m_nCursorX : Z -> CTRenderer -> CTRenderer :=
  ltac:(setter_for m_nCursorX).
Definition set_m_nCursorY : Z -> CTRenderer -> CTRenderer :=
  ltac:(setter_for m_nCursorY).
Definition set_m_bCursorOn : bool -> CTRenderer -> CTRenderer :=
  ltac:(setter_for m_bCursorOn).
Definition set_m_bCursorBlock : bool -> CTRenderer -> CTRenderer :=
  ltac:(setter_for m_bCursorBlock).
Definition set_m_bBlinkingCursor : bool -> CTRenderer -> CTRenderer :=
  ltac:(setter_for m_bBlinkingCursor).
Definition set_m_bCursorVisible : bool -> CTRenderer -> CTRenderer :=
  ltac:(setter_for m_bCursorVisible).
Definition set_m_nCursorBlinkPeriodTicks : Z -> CTRenderer -> CTRenderer :=
  ltac:(setter_for m_nCursorBlinkPeriodTicks).
Definition set_m_nNextCursorBlink : Z -> CTRenderer -> CTRenderer :=
  ltac:(setter_for m_nNextCursorBlink).
Definition set_m_ForegroundColor : Z -> CTRenderer -> CTRenderer :=
  ltac:(setter_for m_ForegroundColor).
Definition set_m_BackgroundColor : Z -> CTRenderer -> CTRenderer :=
  ltac:(setter_for m_BackgroundColor).
Definition set_m_DefaultForegroundColor : Z -> CTRenderer -> CTRenderer :=
  ltac:(setter_for m_DefaultForegroundColor).
Definition set_m_DefaultBackgroundColor : Z -> CTRenderer -> CTRenderer :=
  ltac:(setter_for m_DefaultBackgroundColor).
Definition set_m_BoldScaleFactor : float32 -> CTRenderer -> CTRenderer :=
  ltac:(setter_for m_BoldScaleFactor).
Definition set_m_DimScaleFactor : float32 -> CTRenderer -> CTRenderer :=
  ltac:(setter_for m_DimScaleFactor).
Definition set_m_ReverseBackgroundScaleFactor : float32 -> CTRenderer -> CTRenderer :=
  ltac:(setter_for m_ReverseBackgroundScaleFactor).
Definition set_m_ReverseForegroundScaleFactor : float32 -> CTRenderer -> CTRenderer :=
  ltac:(setter_for m_ReverseForegroundScaleFactor).
Definition set_m_bReverseAttribute : bool -> CTRenderer -> CTRenderer :=
  ltac:(setter_for m_bReverseAttribute).
Definition set_m_bBoldAttribute : bool -> CTRenderer -> CTRenderer :=
  ltac:(setter_for m_bBoldAttribute).
Definition set_m_bDimAttribute : bool -> CTRenderer -> CTRenderer :=
  ltac:(setter_for m_bDimAttribute).
Definition set_m_bUnderlineAttribute : bool -> CTRenderer -> CTRenderer :=
  ltac:(setter_for m_bUnderlineAttribute).
Definition set_m_bBlinkAttribute : bool -> CTRenderer -> CTRenderer :=
  ltac:(setter_for m_bBlinkAttribute).
Definition set_m_bInsertOn : bool -> CTRenderer -> CTRenderer :=
  ltac:(setter_for m_bInsertOn).
Definition set_m_bVT52Mode : bool -> CTRenderer -> CTRenderer :=
  ltac:(setter_for m_bVT52Mode).
Definition set_m_nParam1 : Z -> CTRenderer -> CTRenderer :=
  ltac:(setter_for m_nParam1).
Definition set_m_nParam2 : Z -> CTRenderer -> CTRenderer :=
  ltac:(setter_for m_nParam2).
Definition set_m_bAutoPage : bool -> CTRenderer -> CTRenderer :=
  ltac:(setter_for m_bAutoPage).
Definition set_m_bDelayedUpdate : bool -> CTRenderer -> CTRenderer :=
  ltac:(setter_for m_bDelayedUpdate).
Definition set_m_nLastUpdateTicks : Z -> CTRenderer -> CTRenderer :=
  ltac:(setter_for m_nLastUpdateTicks).
Definition set_m_bSmoothScrollEnabled : bool -> CTRenderer -> CTRenderer :=
  ltac:(setter_for m_bSmoothScrollEnabled).
Definition set_m_bSmoothScrollActive : bool -> CTRenderer -> CTRenderer :=
  ltac:(setter_for m_bSmoothScrollActive).
Definition set_m_bSmoothScrollDown : bool -> CTRenderer -> CTRenderer :=
  ltac:(setter_for m_bSmoothScrollDown).
Definition set_m_nSmoothScrollStartY : Z -> CTRenderer -> CTRenderer :=
  ltac:(setter_for m_nSmoothScrollStartY).
Definition set_m_nSmoothScrollEndY : Z -> CTRenderer -> CTRenderer :=
  ltac:(setter_for m_nSmoothScrollEndY).
Definition set_m_nSmoothScrollOffset : Z -> CTRenderer -> CTRenderer :=
  ltac:(setter_for m_nSmoothScrollOffset).
Definition set_m_nSmoothScrollStep : Z -> CTRenderer -> CTRenderer :=
  ltac:(setter_for m_nSmoothScrollStep).
Definition set_m_nSmoothScrollLastTick : Z -> CTRenderer -> CTRenderer :=
  ltac:(setter_for m_nSmoothScrollLastTick).
Definition set_m_nSmoothScrollTickInterval : Z -> CTRenderer -> CTRenderer :=
  ltac:(setter_for m_nSmoothScrollTickInterval).
Definition set_m_pSmoothScrollSnapshot : (option (list Z)) -> CTRenderer -> CTRenderer :=
  ltac:(setter_for m_pSmoothScrollSnapshot).
Definition set_m_pSmoothScrollCompose : (option (list Z)) -> CTRenderer -> CTRenderer :=
  ltac:(setter_for m_pSmoothScrollCompose).
Definition set_m_nSmoothScrollBufferSize : Z -> CTRenderer -> CTRenderer :=
  ltac:(setter_for m_nSmoothScrollBufferSize).
Definition set_m_nSmoothScrollStartTick : Z -> CTRenderer -> CTRenderer :=
  ltac:(setter_for m_nSmoothScrollStartTick).
Definition set_m_nSmoothScrollDebounceUntil : Z -> CTRenderer -> CTRenderer :=
  ltac:(setter_for m_nSmoothScrollDebounceUntil).
Definition set_m_nScrollStatsLastLogTick : Z -> CTRenderer -> CTRenderer :=
  ltac:(setter_for m_nScrollStatsLastLogTick).
Definition set_m_ScrollNormalTicksAccum : Z -> CTRenderer -> CTRenderer :=
  ltac:(setter_for m_ScrollNormalTicksAccum).
Definition set_m_ScrollSmoothTicksAccum : Z -> CTRenderer -> CTRenderer :=
  ltac:(setter_for m_ScrollSmoothTicksAccum).
Definition set_m_ScrollNormalCount : Z -> CTRenderer -> CTRenderer :=
  ltac:(setter_for m_ScrollNormalCount).
Definition set_m_ScrollSmoothCount : Z -> CTRenderer -> CTRenderer :=
  ltac:(setter_for m_ScrollSmoothCount).
Definition set_m_SavedState : TRendererState -> CTRenderer -> CTRenderer :=
  ltac:(setter_for m_SavedState).
Definition set_CTimer_ticks : (nat -> Z) -> CTRenderer -> CTRenderer :=
  ltac:(setter_for CTimer_ticks).
Definition set_CTimer_reads : nat -> CTRenderer -> CTRenderer :=
  ltac:(setter_for CTimer_reads).
Definition set_heap_grants : (nat -> bool) -> CTRenderer -> CTRenderer :=
  ltac:(setter_for heap_grants).
Definition set_heap_requests : nat -> CTRenderer -> CTRenderer :=
  ltac:(setter_for heap_requests).
Definition set_CTConfig_TabStops : (list bool) -> CTRenderer -> CTRenderer :=
  ltac:(setter_for CTConfig_TabStops).
Definition set_CTConfig_WrapAroundEnabled : Z -> CTRenderer -> CTRenderer :=
  ltac:(setter_for CTConfig_WrapAroundEnabled).
Definition set_CTConfig_MarginBellEnabled : Z -> CTRenderer -> CTRenderer :=
  ltac:(setter_for CTConfig_MarginBellEnabled).
Definition set_CTConfig_BuzzerVolume : Z -> CTRenderer -> CTRenderer :=
  ltac:(setter_for CTConfig_BuzzerVolume).
Definition set_CTConfig_FontSelection : EFontSelection -> CTRenderer -> CTRenderer :=
  ltac:(setter_for CTConfig_FontSelection).
Definition set_CTConfig_TextColorIndex : EColorSelection -> CTRenderer -> CTRenderer :=
  ltac:(setter_for CTConfig_TextColorIndex).
Definition set_CTConfig_BackgroundColorIndex : EColorSelection -> CTRenderer -> CTRenderer :=
  ltac:(setter_for CTConfig_BackgroundColorIndex).
Definition set_CTConfig_CursorType : Z -> CTRenderer -> CTRenderer :=
  ltac:(setter_for CTConfig_CursorType).
Definition set_CTConfig_CursorBlinking : Z -> CTRenderer -> CTRenderer :=
  ltac:(setter_for CTConfig_CursorBlinking).
Definition set_CHAL_beeps : nat -> CTRenderer -> CTRenderer :=
  ltac:(setter_for CHAL_beeps).

(** ** What the renderer needs from outside [TRenderer.cpp]

    The Circle library and the font converter are not part of the verified
    sources; [AdjustBrightness565] is float arithmetic.  They are parameters
    of the whole development. *)
Record Platform : Type := mkPlatform {
  CCharGenerator_new : TFont -> TFontFlags -> CCharGenerator;
  GetVT100Font : EFontSelection -> TFont;
  AdjustBrightness565 : Z -> float32 -> Z;
  MSEC2HZ : Z -> Z;
  GetColor : Z -> Z;                 (* CBcmFrameBuffer::GetColor *)
  DISPLAY_COLOR : Z -> Z -> Z -> Z;
  NormalColor : Z;                   (* CDisplay::NormalColor *)
  Black : Z                          (* CDisplay::Black *)
}.

Definition TabStopsMax : Z := 160.

Definition area_set_y1 (v : Z) (a : TArea) : TArea := mkArea (x1 a) (x2 a) v (y2 a).
Definition area_set_y2 (v : Z) (a : TArea) : TArea := mkArea (x1 a) (x2 a) (y1 a) v.

(** The generator read through a null [m_pCharGen] (undefined in C++). *)
Definition null_CharGen : CCharGenerator :=
  mkCharGen 0 0 0 (fun _ _ => 0) (fun _ _ => false).

Section Renderer.

Variable pf : Platform.

(** *** Collaborators *)

(** [CTimer::Get()->GetTicks()] *)
Definition GetTicks (s : CTRenderer) : Z * CTRenderer :=
  (u32 (CTimer_ticks s (CTimer_reads s)), set_CTimer_reads (S (CTimer_reads s)) s).

(** The outcome of one [new]. *)
Definition operator_new (s : CTRenderer) : bool * CTRenderer :=
  (heap_grants s (heap_requests s), set_heap_requests (S (heap_requests s)) s).

(** [CTConfig::IsTabStop] *)
Definition IsTabStop (column : Z) (s : CTRenderer) : bool :=
  if column >=? TabStopsMax then false
  else default false (CTConfig_TabStops s !! Z.to_nat column).

(** [CTConfig::SetTabStop] *)
Definition SetTabStop (column : Z) (enabled : bool) (s : CTRenderer) : CTRenderer :=
  if column >=? TabStopsMax then s
  else set_CTConfig_TabStops (<[Z.to_nat column := enabled]> (CTConfig_TabStops s)) s.

Definition GetWrapAroundEnabled (s : CTRenderer) : bool :=
  negb (CTConfig_WrapAroundEnabled s =? 0).
Definition GetMarginBellEnabled (s : CTRenderer) : bool :=
  negb (CTConfig_MarginBellEnabled s =? 0).

(** [CHAL::Get()->BEEP()] *)
Definition BEEP (s : CTRenderer) : CTRenderer := set_CHAL_beeps (S (CHAL_beeps s)) s.

(** [m_pFrameBuffer->SetArea(area, pixels)]: the display receives the bytes
    of the area, read from [pixels] on. *)
Definition SetArea (area : TArea) (pixels : list Z) (s : CTRenderer) : CTRenderer :=
  let nbytes := (x2 area - x1 area + 1) * (y2 area - y1 area + 1) * m_nDepth s / 8 in
  set_m_pFrameBuffer ((area, take (Z.to_nat nbytes) pixels) :: m_pFrameBuffer s) s.

(** *** Geometry *)

Definition pCharGen (s : CTRenderer) : CCharGenerator :=
  default null_CharGen (m_pCharGen s).

Definition GetColumns (s : CTRenderer) : Z :=
  match m_pCharGen s with
  | None => 0
  | Some cg => m_nWidth s / GetCharWidth cg
  end.

Definition GetRows (s : CTRenderer) : Z :=
  match m_pCharGen s with
  | None => 0
  | Some cg => m_nHeight s / GetCharHeight cg
  end.

Definition GetCursorColumn (s : CTRenderer) : Z :=
  match m_pCharGen s with
  | None => 0
  | Some cg => if GetCharWidth cg =? 0 then 0 else m_nCursorX s / GetCharWidth cg
  end.

Definition GetCursorRow (s : CTRenderer) : Z :=
  match m_pCharGen s with
  | None => 0
  | Some cg => if GetCharHeight cg =? 0 then 0 else m_nCursorY s / GetCharHeight cg
  end.

(** *** Raw pixel access *)

Definition SetRawPixel (nPosX nPosY nColor : Z) (s : CTRenderer) : CTRenderer :=
  let i := u32 (m_nWidth s * nPosY + nPosX) in
  let b := m_pBuffer8 s in
  if m_nDepth s =? 1 then
    let a := i / 8 in
    let uchMask := Z.shiftr 128 (Z.land nPosX 7) in
    if negb (nColor =? 0)
    then set_m_pBuffer8 (wr b a (Z.lor (rd b a) uchMask mod 256)) s
    else set_m_pBuffer8 (wr b a (Z.land (rd b a) (Z.lnot uchMask) mod 256)) s
  else if m_nDepth s =? 8 then set_m_pBuffer8 (wr b i (nColor mod 256)) s
  else if m_nDepth s =? 16 then set_m_pBuffer8 (store_le 2 b (2 * i) nColor) s
  else if m_nDepth s =? 32 then set_m_pBuffer8 (store_le 4 b (4 * i) nColor) s
  else s.

Definition GetRawPixel (nPosX nPosY : Z) (s : CTRenderer) : Z :=
  let i := u32 (m_nWidth s * nPosY + nPosX) in
  let b := m_pBuffer8 s in
  if m_nDepth s =? 1 then
    let uchMask := Z.shiftr 128 (Z.land nPosX 7) in
    if Z.land (rd b (i / 8)) uchMask =? 0 then 0 else 1
  else if m_nDepth s =? 8 then rd b i
  else if m_nDepth s =? 16 then load_le 2 b (2 * i)
  else if m_nDepth s =? 32 then load_le 4 b (4 * i)
  else 0.

Definition SetUpdateArea (nPosY1 nPosY2 : Z) (s : CTRenderer) : CTRenderer :=
  let s := if nPosY1 <? y1 (m_UpdateArea s)
           then set_m_UpdateArea (area_set_y1 nPosY1 (m_UpdateArea s)) s else s in
  let s := if nPosY2 >? y2 (m_UpdateArea s)
           then set_m_UpdateArea (area_set_y2 nPosY2 (m_UpdateArea s)) s else s in
  s.

(** *** The cursor *)

Definition InvertCursor (s : CTRenderer) : CTRenderer :=
  if negb (m_bCursorOn s) then s
  else
    let cg := pCharGen s in
    let y0 := if m_bCursorBlock s then 0 else GetUnderline cg in
    let invertMask := Z.lxor (m_ForegroundColor s) (m_BackgroundColor s) in
    let invertMask :=
      if invertMask =? 0 then
        if m_nDepth s =? 1 then 1
        else if m_nDepth s =? 8 then 255
        else if m_nDepth s =? 16 then 65535
        else 4294967295
      else invertMask in
    let s :=
      for_range y0 (GetCharHeight cg) (fun y s =>
        for_range 0 (GetCharWidth cg) (fun x s =>
          let k := (y - y0) * GetCharWidth cg + x in       (* pPixelData++ *)
          let px := default [] (m_pCursorPixels s) in
          if negb (m_bCursorVisible s) then
            let storedPixel :=
              GetRawPixel (u32 (m_nCursorX s + x)) (u32 (m_nCursorY s + y)) s in
            let s := set_m_pCursorPixels (Some (wr px k storedPixel)) s in
            SetRawPixel (u32 (m_nCursorX s + x)) (u32 (m_nCursorY s + y))
                        (Z.lxor storedPixel invertMask) s
          else
            SetRawPixel (u32 (m_nCursorX s + x)) (u32 (m_nCursorY s + y))
                        (rd px k) s) s) s in
    let s := set_m_bCursorVisible (negb (m_bCursorVisible s)) s in
    SetUpdateArea (u32 (m_nCursorY s + y0))
                  (u32 (m_nCursorY s + GetCharHeight cg - 1)) s.

(** *** Fonts *)

(** The second half of [SetFont(const TFont &, TFontFlags)], from the zeroing
    of the new cursor scratch buffer on: the generators [cg] and the scratch
    buffer have been allocated; the font is recorded, the usable area and the
    cursor position are recomputed from the new cell size and the cursor is
    drawn again. *)
Definition SetFont_install (rFont : TFont) (FontFlags : TFontFlags)
    (cg : CCharGenerator) (cursorWasVisible blinkingWasEnabled : bool)
    (cursorColumn cursorRow cursorPixelCount : Z) (s : CTRenderer) : CTRenderer :=
  let s := set_m_pCursorPixels
             (Some (replicate (Z.to_nat cursorPixelCount) 0)) s in
  let s := set_m_pFont (Some rFont) s in
  let s := set_m_FontFlags FontFlags s in
  let s := set_m_nUsedWidth
             (u32 (m_nWidth s / GetCharWidth cg * GetCharWidth cg)) s in
  let s := set_m_nUsedHeight
             (u32 (m_nHeight s / GetCharHeight cg * GetCharHeight cg)) s in
  let s := set_m_nScrollEnd (m_nUsedHeight s) s in
  let newColumns := GetColumns s in
  let newRows := GetRows s in
  let s :=
    if newColumns >? 0 then
      let cursorColumn :=
        if cursorColumn >=? newColumns then u32 (newColumns - 1)
        else cursorColumn in
      set_m_nCursorX (u32 (cursorColumn * GetCharWidth cg)) s
    else set_m_nCursorX 0 s in
  let s :=
    if newRows >? 0 then
      let cursorRow :=
        if cursorRow >=? newRows then u32 (newRows - 1) else cursorRow in
      set_m_nCursorY (u32 (cursorRow * GetCharHeight cg)) s
    else set_m_nCursorY 0 s in
  let s := set_m_bCursorVisible false s in
  let s := if cursorWasVisible && m_bCursorOn s then InvertCursor s else s in
  let s := set_m_bBlinkingCursor blinkingWasEnabled s in
  if m_bBlinkingCursor s then
    let '(now, s) := GetTicks s in
    set_m_nNextCursorBlink (u32 (now + m_nCursorBlinkPeriodTicks s)) s
  else s.

(** [SetFont(const TFont &, TFontFlags)]: the cursor is taken off the
    pixels, the old generator is deleted and the new ones are allocated;
    [SetFont_install] is the rest of the function. *)
Definition SetFont (rFont : TFont) (FontFlags : TFontFlags) (s : CTRenderer)
  : bool * CTRenderer :=
  let cursorWasVisible := m_bCursorVisible s in
  let blinkingWasEnabled := m_bBlinkingCursor s in
  let cursorColumn :=
    match m_pCharGen s with
    | Some cg => if negb (GetCharWidth cg =? 0)
                 then m_nCursorX s / GetCharWidth cg else 0
    | None => 0
    end in
  let cursorRow :=
    match m_pCharGen s with
    | Some cg => if negb (GetCharHeight cg =? 0)
                 then m_nCursorY s / GetCharHeight cg else 0
    | None => 0
    end in
  let s := set_m_bBlinkingCursor false s in
  let s := if cursorWasVisible then InvertCursor s else s in
  let s := set_m_pCharGen None s in                         (* delete m_pCharGen *)
  let '(ok, s) := operator_new s in
  let s := set_m_pCharGen
             (if ok then Some (CCharGenerator_new pf rFont FontFlags) else None) s in
  match m_pCharGen s with
  | None =>
      let s := if cursorWasVisible then set_m_bCursorVisible false s else s in
      let s := set_m_bBlinkingCursor blinkingWasEnabled s in
      (false, s)
  | Some cg =>
      let s := set_m_pGraphicsCharGen None s in
      let gfxSelection :=
        match m_CurrentFontSelection s with
        | VT100Font8x20 => VT100GraphicsFont8x20
        | VT100Font10x20 => VT100GraphicsFont10x20
        | VT100Font10x20Solid => VT100GraphicsFont10x20Solid
        | _ => VT100GraphicsFont10x20
        end in
      let gfxFont := GetVT100Font pf gfxSelection in
      let '(ok, s) := operator_new s in
      let s := set_m_pGraphicsCharGen
                 (if ok then Some (CCharGenerator_new pf gfxFont FontFlags) else None) s in
      let s := set_m_pCursorPixels None s in                (* delete[] *)
      let cursorPixelCount := u32 (GetCharWidth cg * GetCharHeight cg) in
      let '(ok, s) := operator_new s in
      if negb ok then
        let s := set_m_pCharGen None s in
        let s := if cursorWasVisible then set_m_bCursorVisible false s else s in
        let s := set_m_bBlinkingCursor blinkingWasEnabled s in
        (false, s)
      else
        (true, SetFont_install rFont FontFlags cg cursorWasVisible blinkingWasEnabled
                 cursorColumn cursorRow cursorPixelCount s)
  end.

(** [SetFont(EFontSelection, TFontFlags)] *)
Definition SetFontSelection (selection : EFontSelection) (FontFlags : TFontFlags)
  (s : CTRenderer) : bool * CTRenderer :=
  let s := set_m_CurrentFontSelection selection s in
  SetFont (GetVT100Font pf selection) FontFlags s.

(** [Goto(nRow, nColumn)] *)
Definition Goto (nRow nColumn : Z) (s : CTRenderer) : CTRenderer :=
  let cursorWasVisible := m_bCursorVisible s in
  let s := if cursorWasVisible then InvertCursor s else s in
  let s :=
    if nColumn <? GetColumns s
    then set_m_nCursorX (u32 (nColumn * GetCharWidth (pCharGen s))) s
    else set_m_nCursorX (u32 ((GetColumns s - 1) * GetCharWidth (pCharGen s))) s in
  let s :=
    if nRow <? GetRows s
    then set_m_nCursorY (u32 (nRow * GetCharHeight (pCharGen s))) s
    else set_m_nCursorY (u32 ((GetRows s - 1) * GetCharHeight (pCharGen s))) s in
  if cursorWasVisible && m_bCursorOn s then
    let s := InvertCursor s in
    if m_bBlinkingCursor s then
      let '(now, s) := GetTicks s in
      set_m_nNextCursorBlink (u32 (now + m_nCursorBlinkPeriodTicks s)) s
    else s
  else s.

(** *** Smooth scrolling *)

(** [BeginSmoothScrollAnimation] *)
Definition BeginSmoothScrollAnimation (nStartY nEndY : Z) (bScrollDown : bool)
  (s : CTRenderer) : bool * CTRenderer :=
  match m_bSmoothScrollEnabled s, m_pCharGen s,
        m_pSmoothScrollSnapshot s, m_pSmoothScrollCompose s with
  | true, Some cg, Some snapshot, Some _ =>
      let '(now, s) := GetTicks s in
      if m_bSmoothScrollActive s || (s32 (m_nSmoothScrollDebounceUntil s - now) >? 0)
      then (false, s)
      else if (nStartY >=? m_nHeight s) || (nEndY >=? m_nHeight s) || (nStartY >=? nEndY)
      then (false, s)
      else
        let charHeight := GetCharHeight cg in
        if charHeight <? 2 then (false, s)
        else
          let regionHeight := u32 (nEndY - nStartY + 1) in
          let regionBytes := regionHeight * m_nPitch s in              (* size_t *)
          if regionBytes >? m_nSmoothScrollBufferSize s then (false, s)
          else
            let s := set_m_pSmoothScrollSnapshot
                       (Some (blit snapshot 0
                          (take (Z.to_nat regionBytes)
                                (drop (Z.to_nat (u32 (nStartY * m_nPitch s)))
                                      (m_pBuffer8 s))))) s in
            let s := set_m_nSmoothScrollStartY nStartY s in
            let s := set_m_nSmoothScrollEndY nEndY s in
            let s := set_m_bSmoothScrollDown bScrollDown s in
            let targetLineMs := 170 in
            let frameMs := targetLineMs / charHeight in
            let frameMs := if frameMs =? 0 then 1 else frameMs in
            let s := set_m_nSmoothScrollTickInterval (u32 (MSEC2HZ pf frameMs)) s in
            let s := if m_nSmoothScrollTickInterval s =? 0
                     then set_m_nSmoothScrollTickInterval 1 s else s in
            let s := set_m_nSmoothScrollStep 1 s in
            let s := set_m_nSmoothScrollOffset (m_nSmoothScrollStep s) s in
            let '(t, s) := GetTicks s in
            let s := set_m_nSmoothScrollLastTick t s in
            let s := set_m_nSmoothScrollStartTick (m_nSmoothScrollLastTick s) s in
            let debounceMs := 50 in
            let s := set_m_nSmoothScrollDebounceUntil
                       (u32 (m_nSmoothScrollLastTick s + MSEC2HZ pf debounceMs)) s in
            let s := set_m_bSmoothScrollActive true s in
            (true, s)
  | _, _, _, _ => (false, s)
  end.

(** [RenderSmoothScrollFrame] *)
Definition RenderSmoothScrollFrame (s : CTRenderer) : CTRenderer :=
  if negb (m_bSmoothScrollActive s) then s
  else
    let regionHeight := u32 (m_nSmoothScrollEndY s - m_nSmoothScrollStartY s + 1) in
    let offset := m_nSmoothScrollOffset s in
    let s :=
      for_range 0 regionHeight (fun y s =>
        let '(fillBackground, srcY) :=
          if m_bSmoothScrollDown s then
            if y <? offset then (true, 0) else (false, u32 (y - offset))
          else
            if u32 (y + offset) >=? regionHeight then (true, 0)
            else (false, u32 (y + offset)) in
        let compose := default [] (m_pSmoothScrollCompose s) in
        let dst := u32 (y * m_nPitch s) in
        let n := Z.to_nat (m_nPitch s) in
        if negb fillBackground then
          let snapshot := default [] (m_pSmoothScrollSnapshot s) in
          set_m_pSmoothScrollCompose
            (Some (blit compose dst
                     (take n (drop (Z.to_nat (u32 (srcY * m_nPitch s))) snapshot)))) s
        else
          set_m_pSmoothScrollCompose
            (Some (blit compose dst
                     (take n (drop (Z.to_nat (u32 (u32 (m_nSmoothScrollStartY s + y)
                                                   * m_nPitch s)))
                                   (m_pBuffer8 s))))) s) s in
    let area := mkArea 0 (u32 (m_nWidth s - 1))
                       (m_nSmoothScrollStartY s) (m_nSmoothScrollEndY s) in
    SetArea area (default [] (m_pSmoothScrollCompose s)) s.

(** [Update]: the periodic tick. *)
Definition Update (s : CTRenderer) : CTRenderer :=
  let s :=
    if m_bSmoothScrollActive s then
      let '(now, s) := GetTicks s in
      if s32 (now - m_nSmoothScrollLastTick s) >=? 0 then
        let s := RenderSmoothScrollFrame s in
        if u32 (m_nSmoothScrollOffset s + m_nSmoothScrollStep s)
             <? GetCharHeight (pCharGen s) then
          let s := set_m_nSmoothScrollOffset
                     (u32 (m_nSmoothScrollOffset s + m_nSmoothScrollStep s)) s in
          set_m_nSmoothScrollLastTick (u32 (now + m_nSmoothScrollTickInterval s)) s
        else
          let area := mkArea 0 (u32 (m_nWidth s - 1))
                             (m_nSmoothScrollStartY s) (m_nSmoothScrollEndY s) in
          let s := SetArea area
                     (drop (Z.to_nat (u32 (y1 area * m_nPitch s))) (m_pBuffer8 s)) s in
          let s :=
            if negb (m_nSmoothScrollStartTick s =? 0) then
              let s := set_m_ScrollSmoothTicksAccum
                         (u64 (m_ScrollSmoothTicksAccum s
                               + u32 (now - m_nSmoothScrollStartTick s))) s in
              set_m_ScrollSmoothCount (u32 (m_ScrollSmoothCount s + 1)) s
            else s in
          set_m_bSmoothScrollActive false s
      else s
    else s in
  if negb (m_bSmoothScrollActive s) && (y1 (m_UpdateArea s) <=? y2 (m_UpdateArea s)) then
    let s := SetArea (m_UpdateArea s)
               (drop (Z.to_nat (u32 (y1 (m_UpdateArea s) * m_nPitch s))) (m_pBuffer8 s)) s in
    let s := set_m_UpdateArea (area_set_y1 (m_nHeight s) (m_UpdateArea s)) s in
    set_m_UpdateArea (area_set_y2 0 (m_UpdateArea s)) s
  else s.

(** The bookkeeping at the end of an instantaneous scroll. *)
Definition count_normal_scroll (startTicks : Z) (s : CTRenderer) : CTRenderer :=
  let '(endTicks, s) := GetTicks s in
  let s := set_m_ScrollNormalTicksAccum
             (u64 (m_ScrollNormalTicksAccum s + u32 (endTicks - startTicks))) s in
  set_m_ScrollNormalCount (u32 (m_ScrollNormalCount s + 1)) s.

(** The background fill shared by the scroll functions: [count] bytes at
    depth 1 and 8, [count / 2] 16-bit and [count / 4] 32-bit elements. *)
Definition clear_bytes (pClear clearBytes : Z) (s : CTRenderer) : CTRenderer :=
  let b := m_pBuffer8 s in
  let bg := m_BackgroundColor s in
  if m_nDepth s =? 1 then set_m_pBuffer8 (blit b pClear (fill_elems 1 bg clearBytes)) s
  else if m_nDepth s =? 8 then set_m_pBuffer8 (blit b pClear (fill_elems 8 bg clearBytes)) s
  else if m_nDepth s =? 16
  then set_m_pBuffer8 (blit b pClear (fill_elems 16 bg (clearBytes / 2))) s
  else if m_nDepth s =? 32
  then set_m_pBuffer8 (blit b pClear (fill_elems 32 bg (clearBytes / 4))) s
  else s.

(** The pixel work of [Scroll]: the copy of the lines below the first one and
    the fill of the last line. *)
Definition Scroll_pixels (nLines : Z) (s : CTRenderer) : CTRenderer :=
  let pTo := u32 (m_nScrollStart s * m_nPitch s) in
  let pFrom := u32 (u32 (m_nScrollStart s + nLines) * m_nPitch s) in
  let nSize := u32 (m_nPitch s * u32 (m_nScrollEnd s - m_nScrollStart s - nLines)) in
  let '(pTo, s) :=
    if negb (nSize =? 0)
    then (pTo + nSize, set_m_pBuffer8 (memmove (m_pBuffer8 s) pTo pFrom nSize) s)
    else (pTo, s) in
  let nSize := u32 (m_nWidth s * nLines) in
  let b := m_pBuffer8 s in
  let bg := m_BackgroundColor s in
  if m_nDepth s =? 1 then set_m_pBuffer8 (blit b pTo (fill_elems 1 bg (nSize / 8))) s
  else if m_nDepth s =? 8 then set_m_pBuffer8 (blit b pTo (fill_elems 8 bg nSize)) s
  else if m_nDepth s =? 16 then set_m_pBuffer8 (blit b pTo (fill_elems 16 bg nSize)) s
  else if m_nDepth s =? 32 then set_m_pBuffer8 (blit b pTo (fill_elems 32 bg nSize)) s
  else s.

(** [Scroll]: one line up inside the scroll region. *)
Definition Scroll (s : CTRenderer) : CTRenderer :=
  let nLines := GetCharHeight (pCharGen s) in
  let '(smoothStarted, s) :=
    BeginSmoothScrollAnimation (m_nScrollStart s) (u32 (m_nScrollEnd s - 1)) false s in
  let '(startTicks, s) := if negb smoothStarted then GetTicks s else (0, s) in
  let s := Scroll_pixels nLines s in
  let s := SetUpdateArea 0 (u32 (m_nHeight s - 1)) s in
  if negb smoothStarted then count_normal_scroll startTicks s else s.

(** The pixel work of [InsertLines]: the move down and the fill of the
    inserted lines. *)
Definition InsertLines_pixels (charHeight nCount : Z) (s : CTRenderer) : CTRenderer :=
  let lineBytes := u32 (m_nPitch s * charHeight) in
  let startOffset := u32 (m_nCursorY s * m_nPitch s) in
  let endOffset := u32 (m_nScrollEnd s * m_nPitch s) in
  let insertBytes := u32 (lineBytes * nCount) in
  let moveBytes := u32 (endOffset - startOffset - insertBytes) in
  let s :=
    if moveBytes >? 0
    then set_m_pBuffer8
           (memmove (m_pBuffer8 s) (startOffset + insertBytes) startOffset moveBytes) s
    else s in
  clear_bytes startOffset insertBytes s.

(** The pixel work of [DeleteLines]: the move up and the fill of the freed
    lines. *)
Definition DeleteLines_pixels (charHeight nCount : Z) (s : CTRenderer) : CTRenderer :=
  let lineBytes := u32 (m_nPitch s * charHeight) in
  let startOffset := u32 (m_nCursorY s * m_nPitch s) in
  let endOffset := u32 (m_nScrollEnd s * m_nPitch s) in
  let deleteBytes := u32 (lineBytes * nCount) in
  let moveBytes := u32 (endOffset - startOffset - deleteBytes) in
  let s :=
    if moveBytes >? 0
    then set_m_pBuffer8
           (memmove (m_pBuffer8 s) startOffset (startOffset + deleteBytes) moveBytes) s
    else s in
  clear_bytes (endOffset - deleteBytes) deleteBytes s.

(** [InsertLines(nCount)] *)
Definition InsertLines (nCount : Z) (s : CTRenderer) : CTRenderer :=
  match m_pCharGen s with
  | None => s
  | Some cg =>
    if nCount =? 0 then s
    else
      let charHeight := GetCharHeight cg in
      if charHeight =? 0 then s
      else if (m_nCursorY s <? m_nScrollStart s) || (m_nCursorY s >=? m_nScrollEnd s) then s
      else
        let maxLines := u32 (m_nScrollEnd s - m_nCursorY s) / charHeight in
        if maxLines =? 0 then s
        else
          let nCount := if nCount >? maxLines then maxLines else nCount in
          let '(smoothStarted, s) :=
            if nCount =? 1
            then BeginSmoothScrollAnimation (m_nCursorY s) (u32 (m_nScrollEnd s - 1)) true s
            else (false, s) in
          let '(startTicks, s) := if negb smoothStarted then GetTicks s else (0, s) in
          let s := InsertLines_pixels charHeight nCount s in
          let s := SetUpdateArea (m_nCursorY s) (u32 (m_nScrollEnd s - 1)) s in
          if negb smoothStarted then count_normal_scroll startTicks s else s
  end.

(** [DeleteLines(nCount)] *)
Definition DeleteLines (nCount : Z) (s : CTRenderer) : CTRenderer :=
  match m_pCharGen s with
  | None => s
  | Some cg =>
    if nCount =? 0 then s
    else
      let charHeight := GetCharHeight cg in
      if charHeight =? 0 then s
      else if (m_nCursorY s <? m_nScrollStart s) || (m_nCursorY s >=? m_nScrollEnd s) then s
      else
        let maxLines := u32 (m_nScrollEnd s - m_nCursorY s) / charHeight in
        if maxLines =? 0 then s
        else
          let nCount := if nCount >? maxLines then maxLines else nCount in
          let '(smoothStarted, s) :=
            if nCount =? 1
            then BeginSmoothScrollAnimation (m_nCursorY s) (u32 (m_nScrollEnd s - 1)) false s
            else (false, s) in
          let '(startTicks, s) := if negb smoothStarted then GetTicks s else (0, s) in
          let s := DeleteLines_pixels charHeight nCount s in
          let s := SetUpdateArea (m_nCursorY s) (u32 (m_nScrollEnd s - 1)) s in
          if negb smoothStarted then count_normal_scroll startTicks s else s
  end.

(** *** Cursor motion *)

Definition CarriageReturn (s : CTRenderer) : CTRenderer := set_m_nCursorX 0 s.

Definition CursorDown (s : CTRenderer) : CTRenderer :=
  let s := set_m_nCursorY (u32 (m_nCursorY s + GetCharHeight (pCharGen s))) s in
  if m_nCursorY s >=? m_nScrollEnd s then
    if negb (m_bAutoPage s) then
      let s := Scroll s in
      set_m_nCursorY (u32 (m_nCursorY s - GetCharHeight (pCharGen s))) s
    else set_m_nCursorY (m_nScrollStart s) s
  else s.

Definition CursorHome (s : CTRenderer) : CTRenderer :=
  let s := set_m_nCursorX 0 s in
  set_m_nCursorY (m_nScrollStart s) s.

Definition CursorLeft (s : CTRenderer) : CTRenderer :=
  if m_nCursorX s >? 0
  then set_m_nCursorX (u32 (m_nCursorX s - GetCharWidth (pCharGen s))) s
  else if m_nCursorY s >? m_nScrollStart s then
    let s := set_m_nCursorX (u32 (m_nUsedWidth s - GetCharWidth (pCharGen s))) s in
    set_m_nCursorY (u32 (m_nCursorY s - GetCharHeight (pCharGen s))) s
  else s.

Definition CursorMove (nRow nColumn : Z) (s : CTRenderer) : CTRenderer :=
  let nPosX := u32 ((nColumn - 1) * GetCharWidth (pCharGen s)) in
  let nPosY := u32 ((nRow - 1) * GetCharHeight (pCharGen s)) in
  if (nPosX <? m_nUsedWidth s) && (nPosY <? m_nUsedHeight s) then
    let s := set_m_nCursorX nPosX s in
    set_m_nCursorY nPosY s
  else s.

Definition NewLine (s : CTRenderer) : CTRenderer := CursorDown (CarriageReturn s).

Definition CursorRight (s : CTRenderer) : CTRenderer :=
  let s := set_m_nCursorX (u32 (m_nCursorX s + GetCharWidth (pCharGen s))) s in
  if m_nCursorX s >=? m_nUsedWidth s then NewLine s else s.

Definition CursorUp (s : CTRenderer) : CTRenderer :=
  if m_nCursorY s >? m_nScrollStart s
  then set_m_nCursorY (u32 (m_nCursorY s - GetCharHeight (pCharGen s))) s
  else s.

Definition ReverseScroll (s : CTRenderer) : CTRenderer :=
  if m_nCursorY s =? m_nScrollStart s then InsertLines 1 s else s.

Definition SetScrollRegion (nStartRow nEndRow : Z) (s : CTRenderer) : CTRenderer :=
  let nScrollStart := u32 ((nStartRow - 1) * GetCharHeight (pCharGen s)) in
  let nScrollEnd := u32 (nEndRow * GetCharHeight (pCharGen s)) in
  let s :=
    if (nScrollStart <? m_nUsedHeight s) && (nScrollEnd >? 0)
       && (nScrollEnd <=? m_nUsedHeight s) && (nScrollStart <? nScrollEnd)
    then
      let s := set_m_nScrollStart nScrollStart s in
      set_m_nScrollEnd nScrollEnd s
    else s in
  CursorHome s.

(** *** Erasing *)

Definition EraseChar (nPosX nPosY : Z) (s : CTRenderer) : CTRenderer :=
  let s :=
    for_range 0 (GetCharHeight (pCharGen s)) (fun y s =>
      for_range 0 (GetCharWidth (pCharGen s)) (fun x s =>
        SetRawPixel (u32 (nPosX + x)) (u32 (nPosY + y)) (m_BackgroundColor s) s) s) s in
  SetUpdateArea nPosY (u32 (nPosY + GetCharHeight (pCharGen s) - 1)) s.

Definition ClearLineEnd (s : CTRenderer) : CTRenderer :=
  let s :=
    for_step (m_nCursorX s) (m_nUsedWidth s) (GetCharWidth (pCharGen s))
      (fun nPosX s => EraseChar nPosX (m_nCursorY s) s) s in
  for_range (m_nUsedWidth s) (m_nWidth s) (fun nPosX s =>
    for_range (m_nCursorY s) (u32 (m_nCursorY s + GetCharHeight (pCharGen s)))
      (fun nPosY s => SetRawPixel nPosX nPosY (m_BackgroundColor s) s) s) s.

Definition ClearDisplayEnd (s : CTRenderer) : CTRenderer :=
  let s := ClearLineEnd s in
  let nPosY := u32 (m_nCursorY s + GetCharHeight (pCharGen s)) in
  let nOffset := u32 (nPosY * m_nWidth s) in
  let b := m_pBuffer8 s in
  let bg := m_BackgroundColor s in
  let s :=
    if m_nDepth s =? 1 then
      let nOffset := nOffset / 8 in
      let nSize := u32 (m_nSize s - nOffset) in
      set_m_pBuffer8 (blit b nOffset (fill_elems 1 bg nSize)) s
    else if m_nDepth s =? 8 then
      let nSize := u32 (m_nSize s - nOffset) in
      set_m_pBuffer8 (blit b nOffset (fill_elems 8 bg nSize)) s
    else if m_nDepth s =? 16 then
      let nSize := u32 (m_nSize s / 2 - nOffset) in
      set_m_pBuffer8 (blit b (2 * nOffset) (fill_elems 16 bg nSize)) s
    else if m_nDepth s =? 32 then
      let nSize := u32 (m_nSize s / 4 - nOffset) in
      set_m_pBuffer8 (blit b (4 * nOffset) (fill_elems 32 bg nSize)) s
    else s in
  SetUpdateArea (m_nCursorY s) (u32 (m_nHeight s - 1)) s.

Definition ClearDisplay (s : CTRenderer) : CTRenderer :=
  let s := set_m_nCursorX 0 s in
  let s := set_m_nCursorY 0 s in
  ClearDisplayEnd s.

Definition GetTextBackgroundColor (s : CTRenderer) : Z :=
  if m_bReverseAttribute s
  then AdjustBrightness565 pf (m_ForegroundColor s) (m_ReverseBackgroundScaleFactor s)
  else m_BackgroundColor s.

Definition GetTextColor (s : CTRenderer) : Z :=
  if m_bReverseAttribute s
  then AdjustBrightness565 pf (m_ForegroundColor s) (m_ReverseForegroundScaleFactor s)
  else m_ForegroundColor s.

Definition DeleteChars (nCount : Z) (s : CTRenderer) : CTRenderer :=
  match m_pCharGen s with
  | None => s
  | Some cg =>
    if nCount =? 0 then s
    else
      let charWidth := GetCharWidth cg in
      let charHeight := GetCharHeight cg in
      if (charWidth =? 0) || (charHeight =? 0) then s
      else if m_nCursorX s >=? m_nUsedWidth s then s
      else
        let pixelWidth := u32 (nCount * charWidth) in
        let maxShift := u32 (m_nUsedWidth s - m_nCursorX s) in
        let pixelWidth := if pixelWidth >? maxShift then maxShift else pixelWidth in
        if pixelWidth =? 0 then s
        else
          let bgColor := GetTextBackgroundColor s in
          let startY := m_nCursorY s in
          let endY := u32 (m_nCursorY s + charHeight) in
          let shiftEndX := u32 (m_nUsedWidth s - pixelWidth) in
          let s :=
            for_range startY endY (fun y s =>
              let s :=
                for_range (m_nCursorX s) shiftEndX (fun x s =>
                  SetRawPixel x y (GetRawPixel (u32 (x + pixelWidth)) y s) s) s in
              for_range shiftEndX (m_nUsedWidth s) (fun x s =>
                SetRawPixel x y bgColor s) s) s in
          SetUpdateArea startY (u32 (endY - 1)) s
  end.

Definition EraseChars (nCount : Z) (s : CTRenderer) : CTRenderer :=
  if nCount =? 0 then s
  else
    let nEndX := u32 (m_nCursorX s + nCount * GetCharWidth (pCharGen s)) in
    let nEndX := if nEndX >? m_nUsedWidth s then m_nUsedWidth s else nEndX in
    for_step (m_nCursorX s) nEndX (GetCharWidth (pCharGen s))
      (fun nPosX s => EraseChar nPosX (m_nCursorY s) s) s.

(** *** Painting a glyph *)

(** [DisplayChar(chChar, nPosX, nPosY, nColor)] *)
Definition DisplayCharAt (chChar nPosX nPosY nColor : Z) (s : CTRenderer) : CTRenderer :=
  let cg := pCharGen s in
  let nColor :=
    if negb (nColor =? m_BackgroundColor s) then
      if m_bBoldAttribute s then AdjustBrightness565 pf nColor (m_BoldScaleFactor s)
      else if m_bDimAttribute s then AdjustBrightness565 pf nColor (m_DimScaleFactor s)
      else nColor
    else nColor in
  let s :=
    for_range 0 (GetCharHeight cg) (fun y s =>
      let Line := GetPixelLine cg chChar y in
      for_range 0 (GetCharWidth cg) (fun x s =>
        let isGlyphPixel := GetPixel cg x Line in
        let pixelColor := if isGlyphPixel then nColor else GetTextBackgroundColor s in
        SetRawPixel (u32 (nPosX + x)) (u32 (nPosY + y)) pixelColor s) s) s in
  let s :=
    if m_bBoldAttribute s then
      for_range 0 (GetCharHeight cg) (fun y s =>
        let Line := GetPixelLine cg chChar y in
        for_range 1 (GetCharWidth cg) (fun x s =>
          if GetPixel cg (x - 1) Line
          then SetRawPixel (u32 (nPosX + x)) (u32 (nPosY + y)) nColor s
          else s) s) s
    else s in
  let s :=
    if m_bUnderlineAttribute s then
      let underlineRow := GetUnderline cg in
      if underlineRow <? GetCharHeight cg then
        for_range 0 (GetCharWidth cg) (fun x s =>
          SetRawPixel (u32 (nPosX + x)) (u32 (nPosY + underlineRow)) nColor s) s
      else s
    else s in
  SetUpdateArea nPosY (u32 (nPosY + GetCharHeight cg - 1)) s.

(** [DisplayChar(chChar)] *)
Definition DisplayChar (chChar : Z) (s : CTRenderer) : CTRenderer :=
  let uc := chChar mod 256 in                            (* (unsigned char)chChar *)
  if chr " " <=? uc then
    let activeSet := if m_bUseG1 s then m_G1CharSet s else m_G0CharSet s in
    let bUseGraphics :=
      match activeSet with
      | CharSetGraphics => (uc >=? 96) && (uc <=? 126)
      | CharSetUS => false
      end in
    let pOriginalGen :=
      match m_pGraphicsCharGen s with
      | Some _ => if bUseGraphics then m_pCharGen s else None
      | None => None
      end in
    let s :=
      match m_pGraphicsCharGen s with
      | Some gfx => if bUseGraphics then set_m_pCharGen (Some gfx) s else s
      | None => s
      end in
    let s := DisplayCharAt chChar (m_nCursorX s) (m_nCursorY s) (GetTextColor s) s in
    let s :=
      match pOriginalGen with
      | Some cg => set_m_pCharGen (Some cg) s
      | None => s
      end in
    if GetWrapAroundEnabled s then CursorRight s
    else
      let charWidth := GetCharWidth (pCharGen s) in
      if negb (charWidth =? 0) && (m_nUsedWidth s >=? charWidth) then
        let lastColumnX := u32 (m_nUsedWidth s - charWidth) in
        if m_nCursorX s <? lastColumnX
        then set_m_nCursorX (u32 (m_nCursorX s + charWidth)) s
        else set_m_nCursorX lastColumnX s
      else s
  else s.

(** *** Modes, attributes, tab stops *)

Definition InsertMode (bBegin : bool) (s : CTRenderer) : CTRenderer := set_m_bInsertOn bBegin s.
Definition SetAutoPageMode (bEnable : bool) (s : CTRenderer) : CTRenderer :=
  set_m_bAutoPage bEnable s.
Definition SetCursorMode (bVisible : bool) (s : CTRenderer) : CTRenderer :=
  set_m_bCursorOn bVisible s.
Definition SetVT52Mode (bEnable : bool) (s : CTRenderer) : CTRenderer :=
  set_m_bVT52Mode bEnable s.
Definition SetCursorBlock (bCursorBlock : bool) (s : CTRenderer) : CTRenderer :=
  set_m_bCursorBlock bCursorBlock s.

Definition SetSmoothScrollEnabled (bEnable : bool) (s : CTRenderer) : CTRenderer :=
  let s := set_m_bSmoothScrollEnabled bEnable s in
  if negb (m_bSmoothScrollEnabled s) then set_m_bSmoothScrollActive false s else s.

Definition SetStandoutMode (nMode : Z) (s : CTRenderer) : CTRenderer :=
  if nMode =? 0 then
    let s := set_m_bReverseAttribute false s in
    let s := set_m_bBlinkAttribute false s in
    let s := set_m_bBoldAttribute false s in
    let s := set_m_bDimAttribute false s in
    let s := set_m_bUnderlineAttribute false s in
    let s := set_m_ForegroundColor (m_DefaultForegroundColor s) s in
    set_m_BackgroundColor (m_DefaultBackgroundColor s) s
  else if nMode =? 1 then set_m_bBoldAttribute true s
  else if nMode =? 2 then set_m_bDimAttribute true s
  else if nMode =? 4 then set_m_bUnderlineAttribute true s
  else if nMode =? 5 then set_m_bBlinkAttribute true s
  else if nMode =? 7 then set_m_bReverseAttribute true s
  else if nMode =? 27 then set_m_bReverseAttribute false s
  else s.

Definition Tabulator (s : CTRenderer) : CTRenderer :=
  match m_pCharGen s with
  | None => s
  | Some cg =>
    let charWidth := GetCharWidth cg in
    if charWidth =? 0 then s
    else
      let currentCol := m_nCursorX s / charWidth in
      let cols := GetColumns s in
      let stop :=
        if cols >? 0
        then find (fun col => IsTabStop col s)
                  (seqZ (currentCol + 1) (cols - (currentCol + 1)))
        else None in
      match stop with
      | Some col => set_m_nCursorX (u32 (col * charWidth)) s
      | None =>
          let nTabWidth := u32 (charWidth * 8) in
          let s := set_m_nCursorX
                     (u32 (u32 (m_nCursorX s + nTabWidth) / nTabWidth * nTabWidth)) s in
          if m_nCursorX s >=? m_nUsedWidth s then NewLine s else s
      end
  end.

Definition BackTabulator (s : CTRenderer) : CTRenderer :=
  match m_pCharGen s with
  | None => s
  | Some cg =>
    let charWidth := GetCharWidth cg in
    if charWidth =? 0 then s
    else
      let currentCol := m_nCursorX s / charWidth in
      let cols := GetColumns s in
      let stop :=
        if cols >? 0
        then find (fun col => IsTabStop col s) (reverse (seqZ 0 currentCol))
        else None in
      match stop with
      | Some col => set_m_nCursorX (u32 (col * charWidth)) s
      | None =>
          let tabWidth := u32 (charWidth * 8) in
          let currentPos := m_nCursorX s in
          if currentPos >=? tabWidth
          then set_m_nCursorX (u32 (u32 (currentPos - 1) / tabWidth * tabWidth)) s
          else set_m_nCursorX 0 s
      end
  end.

(** The tab stop of the cursor column, as [ESC H], [ESC [ g] and [ESC [ 0 g]
    set or clear it. *)
Definition set_tab_at_cursor (enabled : bool) (s : CTRenderer) : CTRenderer :=
  match m_pCharGen s with
  | None => s
  | Some cg =>
      let charWidth := GetCharWidth cg in
      if negb (charWidth =? 0)
      then SetTabStop (m_nCursorX s / charWidth) enabled s
      else s
  end.

(** *** Cursor save and restore *)

Definition SaveCursor (s : CTRenderer) : CTRenderer :=
  let o := m_SavedState s in
  set_m_SavedState
    {| font := font o;
       fontFlags := m_FontFlags s;
       foreground := m_ForegroundColor s;
       background := m_BackgroundColor s;
       defaultForeground := m_DefaultForegroundColor s;
       defaultBackground := m_DefaultBackgroundColor s;
       cursorX := m_nCursorX s;
       cursorY := m_nCursorY s;
       cursorOn := cursorOn o;
       cursorBlock := cursorBlock o;
       cursorVisible := cursorVisible o;
       blinking := blinking o;
       blinkTicks := blinkTicks o;
       nextBlink := nextBlink o;
       scrollStart := scrollStart o;
       scrollEnd := scrollEnd o;
       reverseAttribute := m_bReverseAttribute s;
       boldAttribute := m_bBoldAttribute s;
       underlineAttribute := m_bUnderlineAttribute s;
       blinkAttribute := m_bBlinkAttribute s;
       insertOn := insertOn o;
       autoPage := autoPage o;
       delayedUpdate := delayedUpdate o;
       lastUpdateTicks := lastUpdateTicks o;
       parserState := parserState o;
       param1 := param1 o;
       param2 := param2 o;
       g0CharSet := g0CharSet o;
       g1CharSet := g1CharSet o;
       useG1 := useG1 o |} s.

Definition RestoreCursor (s : CTRenderer) : CTRenderer :=
  let o := m_SavedState s in
  let s :=
    if cursorX o <? m_nWidth s then set_m_nCursorX (cursorX o) s
    else
      let s := set_m_nCursorX
                 (u32 (m_nWidth s - m_nWidth s mod GetCharWidth (pCharGen s))) s in
      if m_nCursorX s >? 0
      then set_m_nCursorX (u32 (m_nCursorX s - GetCharWidth (pCharGen s))) s
      else s in
  let s :=
    if cursorY o <? m_nHeight s then set_m_nCursorY (cursorY o) s
    else set_m_nCursorY (u32 (m_nHeight s - GetCharHeight (pCharGen s))) s in
  let s := set_m_bReverseAttribute (reverseAttribute o) s in
  let s := set_m_bBoldAttribute (boldAttribute o) s in
  let s := set_m_bUnderlineAttribute (underlineAttribute o) s in
  let s := set_m_bBlinkAttribute (blinkAttribute o) s in
  let s := set_m_ForegroundColor (foreground o) s in
  let s := set_m_BackgroundColor (background o) s in
  let s := set_m_DefaultForegroundColor (defaultForeground o) s in
  set_m_DefaultBackgroundColor (defaultBackground o) s.

(** *** The escape-sequence interpreter: [Write(char)] *)

Definition Write_char (chChar : Z) (s : CTRenderer) : CTRenderer :=
  match m_State s with
  | StateSkipTillCRLF =>
      if (chChar =? 10) || (chChar =? 13)                       (* '\n', '\r' *)
      then set_m_State StateStart s else s

  | StateStart =>
      if chChar =? 8 then CursorLeft s                          (* '\b' *)
      else if chChar =? 9 then Tabulator s                      (* '\t' *)
      else if chChar =? 12 then ClearDisplay s                  (* '\f' *)
      else if chChar =? 10 then NewLine s                       (* '\n' *)
      else if chChar =? 13 then CarriageReturn s                (* '\r' *)
      else if chChar =? 14 then set_m_bUseG1 true s             (* Shift Out *)
      else if chChar =? 15 then set_m_bUseG1 false s            (* Shift In *)
      else if chChar =? 27 then set_m_State StateEscape s       (* ESC *)
      else
        let printable := chChar mod 256 in
        let s :=
          if (printable >=? 32) && negb (printable =? 127) then
            if GetMarginBellEnabled s && (CTConfig_BuzzerVolume s >? 0) then
              let cols := GetColumns s in
              match m_pCharGen s with
              | Some cg =>
                  if cols >? 8 then
                    let currentCol := m_nCursorX s / GetCharWidth cg in
                    let bellCol := u32 (cols - 9) in
                    if currentCol =? bellCol then BEEP s else s
                  else s
              | None => s
              end
            else s
          else s in
        DisplayChar chChar s

  | StateEscape =>
      if m_bVT52Mode s then
        if chChar =? chr "A" then set_m_State StateStart (CursorUp s)
        else if chChar =? chr "B" then set_m_State StateStart (CursorDown s)
        else if chChar =? chr "C" then set_m_State StateStart (CursorRight s)
        else if chChar =? chr "D" then set_m_State StateStart (CursorLeft s)
        else if chChar =? chr "H" then
          let s := set_m_nCursorX 0 s in
          let s := set_m_nCursorY 0 s in
          set_m_State StateStart s
        else if chChar =? chr "I" then set_m_State StateStart (ReverseScroll s)
        else if chChar =? chr "J" then set_m_State StateStart (ClearDisplayEnd s)
        else if chChar =? chr "K" then set_m_State StateStart (ClearLineEnd s)
        else if chChar =? chr "Y" then set_m_State StateVT52Row s
        else if chChar =? chr "<" then
          let s := set_m_bVT52Mode false s in
          set_m_State StateStart s
        else set_m_State StateStart s
      else
        if chChar =? chr "[" then
          let s := set_m_State StateBracket s in
          let s := set_m_nParam1 0 s in
          set_m_nParam2 0 s
        else if chChar =? chr "D" then set_m_State StateStart (CursorDown s)
        else if chChar =? chr "M" then set_m_State StateStart (ReverseScroll s)
        else if chChar =? chr "E" then set_m_State StateStart (NewLine (CarriageReturn s))
        else if chChar =? chr "H" then set_m_State StateStart (set_tab_at_cursor true s)
        else if chChar =? chr "7" then set_m_State StateStart (SaveCursor s)
        else if chChar =? chr "8" then set_m_State StateStart (RestoreCursor s)
        else if chChar =? chr "#" then set_m_State StateFontChange s
        else if chChar =? chr "(" then set_m_State StateG0 s
        else if chChar =? chr ")" then set_m_State StateG1 s
        else if chChar =? chr "d" then set_m_State StateAutoPage s
        else set_m_State StateStart s

  | StateG0 =>
      let s :=
        if (chChar =? chr "A") || (chChar =? chr "B") then set_m_G0CharSet CharSetUS s
        else if chChar =? chr "0" then set_m_G0CharSet CharSetGraphics s
        else s in
      set_m_State StateStart s

  | StateG1 =>
      let s :=
        if (chChar =? chr "A") || (chChar =? chr "B") then set_m_G1CharSet CharSetUS s
        else if chChar =? chr "0" then set_m_G1CharSet CharSetGraphics s
        else s in
      set_m_State StateStart s

  | StateFontChange =>
      if chChar =? chr "3" then
        set_m_State StateStart
          (snd (SetFontSelection (m_CurrentFontSelection s) FontFlagsDoubleBoth s))
      else if chChar =? chr "4" then set_m_State StateSkipTillCRLF s
      else if chChar =? chr "5" then
        set_m_State StateStart
          (snd (SetFontSelection (m_CurrentFontSelection s) FontFlagsNone s))
      else if chChar =? chr "6" then
        set_m_State StateStart
          (snd (SetFontSelection (m_CurrentFontSelection s) FontFlagsDoubleWidth s))
      else if chChar =? chr "8" then set_m_State StateStart s
      else set_m_State StateStart s

  | StateVT52Row =>
      if chChar >=? 32 then
        let s := set_m_nParam1 (u32 (chChar - 32)) s in
        set_m_State StateVT52Col s
      else set_m_State StateStart s

  | StateVT52Col =>
      let s :=
        if chChar >=? 32 then
          let s := set_m_nParam2 (u32 (chChar - 32)) s in
          CursorMove (m_nParam1 s) (m_nParam2 s) s
        else s in
      set_m_State StateStart s

  | StateBracket =>
      if chChar =? chr "Z" then set_m_State StateStart (BackTabulator s)
      else if chChar =? chr "g" then set_m_State StateStart (set_tab_at_cursor false s)
      else if chChar =? chr "?" then set_m_State StateQuestionMark s
      else if chChar =? chr "A" then set_m_State StateStart (CursorUp s)
      else if chChar =? chr "B" then set_m_State StateStart (CursorDown s)
      else if chChar =? chr "C" then set_m_State StateStart (CursorRight s)
      else if chChar =? chr "D" then set_m_State StateStart (CursorLeft s)
      else if (chChar =? chr "H") || (chChar =? chr "f")
      then set_m_State StateStart (CursorHome s)
      else if chChar =? chr "J" then set_m_State StateStart (ClearDisplayEnd s)
      else if chChar =? chr "K" then set_m_State StateStart (ClearLineEnd s)
      else if chChar =? chr "L" then set_m_State StateStart (InsertLines 1 s)
      else if chChar =? chr "M" then set_m_State StateStart (DeleteLines 1 s)
      else if chChar =? chr "P" then set_m_State StateStart (DeleteChars 1 s)
      else if chChar =? chr "m" then set_m_State StateStart (SetStandoutMode 0 s)
      else if is_digit chChar then
        let s := set_m_nParam1 (u32 (chChar - chr "0")) s in
        set_m_State StateNumber1 s
      else set_m_State StateStart s

  | StateNumber1 =>
      if chChar =? chr "A" then
        set_m_State StateStart
          (for_range 1 (m_nParam1 s) (fun _ => CursorUp) (CursorUp s))
      else if chChar =? chr "B" then
        set_m_State StateStart
          (for_range 1 (m_nParam1 s) (fun _ => CursorDown) (CursorDown s))
      else if chChar =? chr "C" then
        set_m_State StateStart
          (for_range 1 (m_nParam1 s) (fun _ => CursorRight) (CursorRight s))
      else if chChar =? chr "D" then
        set_m_State StateStart
          (for_range 1 (m_nParam1 s) (fun _ => CursorLeft) (CursorLeft s))
      else if (chChar =? chr "H") || (chChar =? chr "f")
      then set_m_State StateStart (CursorMove (m_nParam1 s) 1 s)
      else if chChar =? chr ";" then set_m_State StateSemicolon s
      else if chChar =? chr "L" then set_m_State StateStart (InsertLines (m_nParam1 s) s)
      else if chChar =? chr "M" then set_m_State StateStart (DeleteLines (m_nParam1 s) s)
      else if chChar =? chr "P" then set_m_State StateStart (DeleteChars (m_nParam1 s) s)
      else if chChar =? chr "X" then set_m_State StateStart (EraseChars (m_nParam1 s) s)
      else if chChar =? chr "J" then
        let s :=
          if m_nParam1 s =? 0 then ClearDisplayEnd s
          else if m_nParam1 s =? 2 then
            let savedX := m_nCursorX s in
            let savedY := m_nCursorY s in
            let s := set_m_nCursorX 0 s in
            let s := set_m_nCursorY 0 s in
            let s := ClearDisplayEnd s in
            let s := set_m_nCursorX savedX s in
            set_m_nCursorY savedY s
          else ClearDisplay s in
        set_m_State StateStart s
      else if (chChar =? chr "h") || (chChar =? chr "l") then
        let s := if m_nParam1 s =? 4 then InsertMode (chChar =? chr "h") s else s in
        set_m_State StateStart s
      else if chChar =? chr "m"
      then set_m_State StateStart (SetStandoutMode (m_nParam1 s) s)
      else if chChar =? chr "g" then
        let s :=
          if m_nParam1 s =? 0 then set_tab_at_cursor false s
          else if m_nParam1 s =? 3
          then for_range 0 TabStopsMax (fun col s => SetTabStop col false s) s
          else s in
        set_m_State StateStart s
      else if is_digit chChar then
        let s := set_m_nParam1 (u32 (m_nParam1 s * 10)) s in
        let s := set_m_nParam1 (u32 (m_nParam1 s + (chChar - chr "0"))) s in
        if m_nParam1 s >? 199 then set_m_State StateStart s else s
      else set_m_State StateStart s

  | StateSemicolon =>
      if is_digit chChar then
        let s := set_m_nParam2 (u32 (chChar - chr "0")) s in
        set_m_State StateNumber2 s
      else if (chChar =? chr "H") || (chChar =? chr "f")
      then set_m_State StateStart (CursorMove (m_nParam1 s) 1 s)
      else set_m_State StateStart s

  | StateQuestionMark =>
      if is_digit chChar then
        let s := set_m_nParam1 (u32 (chChar - chr "0")) s in
        set_m_State StateNumber3 s
      else set_m_State StateStart s

  | StateNumber2 =>
      if (chChar =? chr "H") || (chChar =? chr "f")
      then set_m_State StateStart (CursorMove (m_nParam1 s) (m_nParam2 s) s)
      else if chChar =? chr "r"
      then set_m_State StateStart (SetScrollRegion (m_nParam1 s) (m_nParam2 s) s)
      else if is_digit chChar then
        let s := set_m_nParam2 (u32 (m_nParam2 s * 10)) s in
        let s := set_m_nParam2 (u32 (m_nParam2 s + (chChar - chr "0"))) s in
        if m_nParam2 s >? 199 then set_m_State StateStart s else s
      else set_m_State StateStart s

  | StateNumber3 =>
      if chChar =? chr "h" then
        let s := if m_nParam1 s =? 25 then SetCursorMode true s else s in
        set_m_State StateStart s
      else if chChar =? chr "l" then
        let s :=
          if m_nParam1 s =? 25 then SetCursorMode false s
          else if m_nParam1 s =? 2 then set_m_bVT52Mode true s
          else s in
        set_m_State StateStart s
      else if is_digit chChar then
        let s := set_m_nParam1 (u32 (m_nParam1 s * 10)) s in
        let s := set_m_nParam1 (u32 (m_nParam1 s + (chChar - chr "0"))) s in
        if m_nParam1 s >? 99 then set_m_State StateStart s else s
      else set_m_State StateStart s

  | StateAutoPage =>
      if chChar =? chr "+" then set_m_State StateStart (SetAutoPageMode true s)
      else if chChar =? chr "*" then set_m_State StateStart (SetAutoPageMode false s)
      else set_m_State StateStart s
  end.

(** The bytes of a buffer, one [Write(char)] after the other. *)
Definition Write_chars (pBuffer : list Z) (s : CTRenderer) : CTRenderer :=
  foldl (fun s c => Write_char c s) s pBuffer.

(** [Write(pBuffer, nCount)]: the public entry; the cursor is taken off the
    pixels while the bytes are interpreted. *)
Definition Write (pBuffer : list Z) (s : CTRenderer) : Z * CTRenderer :=
  let cursorWasVisible := m_bCursorVisible s in
  let s := if cursorWasVisible then InvertCursor s else s in
  let s := Write_chars pBuffer s in
  let nResult := Z.of_nat (length pBuffer) in
  let s :=
    if cursorWasVisible && m_bCursorOn s then
      let s := InvertCursor s in
      if m_bBlinkingCursor s then
        let '(now, s) := GetTicks s in
        set_m_nNextCursorBlink (u32 (now + m_nCursorBlinkPeriodTicks s)) s
      else s
    else s in
  let s :=
    if negb (m_bDelayedUpdate s) && negb (m_bSmoothScrollActive s)
       && (y1 (m_UpdateArea s) <=? y2 (m_UpdateArea s)) then
      let s := SetArea (m_UpdateArea s)
                 (drop (Z.to_nat (u32 (y1 (m_UpdateArea s) * m_nPitch s))) (m_pBuffer8 s)) s in
      let s := set_m_UpdateArea (area_set_y1 (m_nHeight s) (m_UpdateArea s)) s in
      set_m_UpdateArea (area_set_y2 0 (m_UpdateArea s)) s
    else s in
  (nResult, s).

Definition ResetParserState (s : CTRenderer) : CTRenderer :=
  let s := set_m_State StateStart s in
  let s := set_m_nParam1 0 s in
  set_m_nParam2 0 s.

Definition ForceHideCursor (s : CTRenderer) : CTRenderer :=
  let s := if m_bCursorOn s && m_bCursorVisible s then InvertCursor s else s in
  set_m_bCursorVisible false s.

(** *** Whole-state save and restore *)

Definition SaveState (s : CTRenderer) : TRendererState :=
  {| font := m_pFont s;
     fontFlags := m_FontFlags s;
     foreground := m_ForegroundColor s;
     background := m_BackgroundColor s;
     defaultForeground := m_DefaultForegroundColor s;
     defaultBackground := m_DefaultBackgroundColor s;
     cursorX := m_nCursorX s;
     cursorY := m_nCursorY s;
     cursorOn := m_bCursorOn s;
     cursorBlock := m_bCursorBlock s;
     cursorVisible := m_bCursorVisible s;
     blinking := m_bBlinkingCursor s;
     blinkTicks := m_nCursorBlinkPeriodTicks s;
     nextBlink := m_nNextCursorBlink s;
     scrollStart := m_nScrollStart s;
     scrollEnd := m_nScrollEnd s;
     reverseAttribute := m_bReverseAttribute s;
     boldAttribute := m_bBoldAttribute s;
     underlineAttribute := m_bUnderlineAttribute s;
     blinkAttribute := m_bBlinkAttribute s;
     insertOn := m_bInsertOn s;
     autoPage := m_bAutoPage s;
     delayedUpdate := m_bDelayedUpdate s;
     lastUpdateTicks := m_nLastUpdateTicks s;
     parserState := m_State s;
     param1 := m_nParam1 s;
     param2 := m_nParam2 s;
     g0CharSet := m_G0CharSet s;
     g1CharSet := m_G1CharSet s;
     useG1 := m_bUseG1 s |}.

Definition RestoreState (state : TRendererState) (s : CTRenderer) : CTRenderer :=
  let s := if m_bCursorVisible s && m_bCursorOn s then InvertCursor s else s in
  let s :=
    match font state with
    | Some f => snd (SetFont f (fontFlags state) s)
    | None => s
    end in
  let restoredCursorX := if cursorX state <? m_nWidth s then cursorX state else 0 in
  let restoredCursorY := if cursorY state <? m_nHeight s then cursorY state else 0 in
  let s := set_m_ForegroundColor (foreground state) s in
  let s := set_m_BackgroundColor (background state) s in
  let s := set_m_DefaultForegroundColor (defaultForeground state) s in
  let s := set_m_DefaultBackgroundColor (defaultBackground state) s in
  let s := set_m_nCursorX restoredCursorX s in
  let s := set_m_nCursorY restoredCursorY s in
  let s := set_m_bCursorOn (cursorOn state) s in
  let s := set_m_bCursorBlock (cursorBlock state) s in
  let s := set_m_bCursorVisible (cursorVisible state) s in
  let s := set_m_bBlinkingCursor (blinking state) s in
  let s := set_m_nCursorBlinkPeriodTicks
             (if negb (blinkTicks state =? 0) then blinkTicks state else 1) s in
  let s :=
    if negb (nextBlink state =? 0) then set_m_nNextCursorBlink (nextBlink state) s
    else let '(now, s) := GetTicks s in set_m_nNextCursorBlink now s in
  let s := set_m_nScrollStart (scrollStart state) s in
  let s := set_m_nScrollEnd (scrollEnd state) s in
  let s := set_m_bReverseAttribute (reverseAttribute state) s in
  let s := set_m_bBoldAttribute (boldAttribute state) s in
  let s := set_m_bUnderlineAttribute (underlineAttribute state) s in
  let s := set_m_bBlinkAttribute (blinkAttribute state) s in
  let s := set_m_bInsertOn (insertOn state) s in
  let s := set_m_bAutoPage (autoPage state) s in
  let s := set_m_bDelayedUpdate (delayedUpdate state) s in
  let s := set_m_nLastUpdateTicks (lastUpdateTicks state) s in
  let s := set_m_State (parserState state) s in
  let s := set_m_nParam1 (param1 state) s in
  let s := set_m_nParam2 (param2 state) s in
  let s := set_m_G0CharSet (g0CharSet state) s in
  let s := set_m_G1CharSet (g1CharSet state) s in
  let s := set_m_bUseG1 (useG1 state) s in
  if m_bCursorVisible s && m_bCursorOn s then InvertCursor s else s.

(** *** Colours and cursor style *)

Definition kColorBlack : Z := DISPLAY_COLOR pf 0 0 0.
Definition kColorWhite : Z := DISPLAY_COLOR pf 235 235 235.
Definition kColorAmber : Z := DISPLAY_COLOR pf 255 176 0.
Definition kColorGreen : Z := DISPLAY_COLOR pf 51 255 51.

Definition MapColor (color : EColorSelection) : Z :=
  match color with
  | TerminalColorBlack => kColorBlack
  | TerminalColorWhite => kColorWhite
  | TerminalColorAmber => kColorAmber
  | TerminalColorGreen => kColorGreen
  end.

(** [SetColors(TRendererColor, TRendererColor)] *)
Definition SetColors (Foreground Background : Z) (s : CTRenderer) : CTRenderer :=
  let fgColor := GetColor pf Foreground in
  let bgColor := GetColor pf Background in
  let s := set_m_DefaultForegroundColor fgColor s in
  let s := set_m_DefaultBackgroundColor bgColor s in
  let s := set_m_ForegroundColor fgColor s in
  set_m_BackgroundColor bgColor s.

Definition SetBlinkingCursor (bBlinkingCursor : bool) (nPeriodMilliSeconds : Z)
  (s : CTRenderer) : CTRenderer :=
  let nPeriodMilliSeconds := if nPeriodMilliSeconds =? 0 then 1 else nPeriodMilliSeconds in
  let periodTicks := u32 (MSEC2HZ pf nPeriodMilliSeconds) in
  let periodTicks := if periodTicks =? 0 then 1 else periodTicks in
  let s := set_m_bBlinkingCursor bBlinkingCursor s in
  let s := set_m_nCursorBlinkPeriodTicks periodTicks s in
  let '(now, s) := GetTicks s in
  let s := set_m_nNextCursorBlink (u32 (now + m_nCursorBlinkPeriodTicks s)) s in
  if negb (m_bBlinkingCursor s) && m_bCursorOn s && negb (m_bCursorVisible s)
  then InvertCursor s else s.

(** *** Construction and initialisation *)

(** The constructor: the member initialisers applied to the raw object [s]
    (the members it leaves out, [m_UpdateArea], [m_nParam1], [m_nParam2] and
    [m_nLastUpdateTicks], keep whatever [s] holds), then the [memset] of the
    saved state. *)
Definition CTRenderer_ctor (s : CTRenderer) : CTRenderer :=
  let s := set_m_pFont None s in
  let s := set_m_FontFlags FontFlagsNone s in
  let s := set_m_pCharGen None s in
  let s := set_m_pGraphicsCharGen None s in
  let s := set_m_CurrentFontSelection VT100Font10x20 s in
  let s := set_m_G0CharSet CharSetUS s in
  let s := set_m_G1CharSet CharSetGraphics s in
  let s := set_m_bUseG1 false s in
  let s := set_m_pCursorPixels None s in
  let s := set_m_pBuffer8 [] s in
  let s := set_m_pFrameBuffer [] s in
  let s := set_m_nDisplayIndex 0 s in
  let s := set_m_nSize 0 s in
  let s := set_m_nPitch 0 s in
  let s := set_m_nWidth 0 s in
  let s := set_m_nHeight 0 s in
  let s := set_m_nUsedWidth 0 s in
  let s := set_m_nUsedHeight 0 s in
  let s := set_m_nDepth 0 s in
  let s := set_m_State StateStart s in
  let s := set_m_nScrollStart 0 s in
  let s := set_m_nScrollEnd 0 s in
  let s := set_m_nCursorX 0 s in
  let s := set_m_nCursorY 0 s in
  let s := set_m_bCursorOn true s in
  let s := set_m_bCursorBlock false s in
  let s := set_m_bBlinkingCursor true s in
  let s := set_m_bCursorVisible false s in
  let s := set_m_nCursorBlinkPeriodTicks (u32 (MSEC2HZ pf 500)) s in
  let s := set_m_nNextCursorBlink 0 s in
  let s := set_m_ForegroundColor 0 s in
  let s := set_m_BackgroundColor 0 s in
  let s := set_m_DefaultForegroundColor 0 s in
  let s := set_m_DefaultBackgroundColor 0 s in
  let s := set_m_BoldScaleFactor 1070386381 s in                       (* 1.6f *)
  let s := set_m_DimScaleFactor 1058642330 s in                        (* 0.6f *)
  let s := set_m_ReverseBackgroundScaleFactor 1058642330 s in          (* 0.6f *)
  let s := set_m_ReverseForegroundScaleFactor 1070386381 s in          (* 1.6f *)
  let s := set_m_bReverseAttribute false s in
  let s := set_m_bBoldAttribute false s in
  let s := set_m_bDimAttribute false s in
  let s := set_m_bUnderlineAttribute false s in
  let s := set_m_bBlinkAttribute false s in
  let s := set_m_bInsertOn false s in
  let s := set_m_bVT52Mode false s in
  let s := set_m_bAutoPage false s in
  let s := set_m_bDelayedUpdate false s in
  let s := set_m_bSmoothScrollEnabled true s in
  let s := set_m_bSmoothScrollActive false s in
  let s := set_m_bSmoothScrollDown false s in
  let s := set_m_nSmoothScrollStartY 0 s in
  let s := set_m_nSmoothScrollEndY 0 s in
  let s := set_m_nSmoothScrollOffset 0 s in
  let s := set_m_nSmoothScrollStep 0 s in
  let s := set_m_nSmoothScrollLastTick 0 s in
  let s := set_m_nSmoothScrollTickInterval (u32 (MSEC2HZ pf 8)) s in
  let s := set_m_pSmoothScrollSnapshot None s in
  let s := set_m_pSmoothScrollCompose None s in
  let s := set_m_nSmoothScrollBufferSize 0 s in
  let s := set_m_nSmoothScrollStartTick 0 s in
  let s := set_m_nSmoothScrollDebounceUntil 0 s in
  let s := set_m_nScrollStatsLastLogTick 0 s in
  let s := set_m_ScrollNormalTicksAccum 0 s in
  let s := set_m_ScrollSmoothTicksAccum 0 s in
  let s := set_m_ScrollNormalCount 0 s in
  let s := set_m_ScrollSmoothCount 0 s in
  set_m_SavedState
    (mkRendererState None FontFlagsNone 0 0 0 0 0 0 false false false false 0 0 0 0
       false false false false false false false 0 StateStart 0 0
       CharSetUS CharSetUS false) s.

(** [Initialize], on a display that reports [fbWidth] x [fbHeight] pixels at
    [fbDepth] bits.  The frame buffer object itself is taken to be created
    and initialised successfully; the device registration and the task start
    do not touch the renderer. *)
Definition Initialize (fbWidth fbHeight fbDepth : Z) (s : CTRenderer)
  : bool * CTRenderer :=
  let s := set_m_nWidth fbWidth s in
  let s := set_m_nHeight fbHeight s in
  let s := set_m_nDepth fbDepth s in
  let s := set_m_nSize (u32 (m_nWidth s * m_nHeight s * m_nDepth s) / 8) s in
  let s := set_m_nPitch (u32 (m_nWidth s * m_nDepth s) / 8) s in
  if (m_nDepth s =? 1) && negb (m_nWidth s mod 8 =? 0) then (false, s)
  else
    let '(ok, s) := operator_new s in
    if negb ok then (false, s)
    else
      let s := set_m_pBuffer8 (replicate (Z.to_nat (m_nSize s)) 0) s in
      let s := set_m_nSmoothScrollBufferSize (m_nSize s) s in
      let '(ok, s) := operator_new s in
      if negb ok then (false, s)
      else
        let s := set_m_pSmoothScrollSnapshot
                   (Some (replicate (Z.to_nat (m_nSmoothScrollBufferSize s)) 0)) s in
        let '(ok, s) := operator_new s in
        if negb ok then (false, s)
        else
          let s := set_m_pSmoothScrollCompose
                     (Some (replicate (Z.to_nat (m_nSmoothScrollBufferSize s)) 0)) s in
          let '(ok, s) := SetFontSelection VT100Font10x20 (m_FontFlags s) s in
          if negb ok then (false, s)
          else
            let s := set_m_ForegroundColor (GetColor pf (NormalColor pf)) s in
            let s := set_m_BackgroundColor (GetColor pf (Black pf)) s in
            let s := set_m_DefaultForegroundColor (m_ForegroundColor s) s in
            let s := set_m_DefaultBackgroundColor (m_BackgroundColor s) s in
            let '(now, s) := GetTicks s in
            let s := set_m_nNextCursorBlink (u32 (now + m_nCursorBlinkPeriodTicks s)) s in
            let s := CursorHome s in
            let s := ClearDisplayEnd s in
            let s := InvertCursor s in
            let s := set_m_UpdateArea
                       (mkArea 0 (u32 (m_nWidth s - 1)) 0 (u32 (m_nHeight s - 1))) s in
            let s := SetArea (m_UpdateArea s) (m_pBuffer8 s) s in
            let s := set_m_UpdateArea (area_set_y1 (m_nHeight s) (m_UpdateArea s)) s in
            let s := set_m_UpdateArea (area_set_y2 0 (m_UpdateArea s)) s in
            let '(now, s) := GetTicks s in
            let s := set_m_nScrollStatsLastLogTick now s in
            let s := snd (SetFontSelection (CTConfig_FontSelection s) FontFlagsNone s) in
            let s := SetColors (MapColor (CTConfig_TextColorIndex s))
                               (MapColor (CTConfig_BackgroundColorIndex s)) s in
            let s := SetCursorBlock (negb (CTConfig_CursorType s =? 0)) s in
            let s := SetBlinkingCursor (negb (CTConfig_CursorBlinking s =? 0)) 500 s in
            (true, s).

End Renderer.

Arguments pCharGen : simpl never.

(** * Specification-level definitions *)

Definition decimal (n : Z) : list Z :=
  if n <? 10 then [chr "0" + n]
  else if n <? 100 then [chr "0" + n / 10; chr "0" + n mod 10]
  else [chr "0" + n / 100; chr "0" + n / 10 mod 10; chr "0" + n mod 10].

Definition ESC : Z := 27.

(** [ESC [ n final] *)
Definition CSI (n : Z) (final : Z) : list Z := [ESC; chr "["] ++ decimal n ++ [final].

(** The number-accumulating states and the bound on what they hold. *)
Definition parser_inv (s : CTRenderer) : Prop :=
  match m_State s with
  | StateNumber1 => 0 <= m_nParam1 s <= 199
  | StateSemicolon => 0 <= m_nParam1 s <= 199
  | StateNumber2 => 0 <= m_nParam1 s <= 199 /\ 0 <= m_nParam2 s <= 199
  | StateNumber3 => 0 <= m_nParam1 s <= 99
  | _ => True
  end.

(** The part of the renderer that painting pixels and scroll bookkeeping leave
    alone: interpreter state, cursor, geometry, fonts, colours and modes. *)
Definition control (s : CTRenderer) :=
  (m_State s, m_nParam1 s, m_nParam2 s, m_nCursorX s,
   m_nCursorY s, m_nScrollStart s, m_nScrollEnd s, m_nWidth s,
   m_nHeight s, m_nDepth s, m_nPitch s, m_nSize s,
   m_nUsedWidth s, m_nUsedHeight s, m_pCharGen s, m_pGraphicsCharGen s,
   m_ForegroundColor s, m_BackgroundColor s, m_bAutoPage s, m_bVT52Mode s,
   m_bReverseAttribute s, m_bBoldAttribute s, m_bDimAttribute s, m_bUnderlineAttribute s,
   m_bCursorOn s, m_bCursorBlock s, m_bCursorVisible s, m_bBlinkingCursor s,
   m_G0CharSet s, m_G1CharSet s, m_bUseG1 s, CTConfig_WrapAroundEnabled s,
   CTConfig_TabStops s, m_SavedState s, m_CurrentFontSelection s, m_pFont s,
   m_FontFlags s).

(** Bytes per buffer element at a depth. *)
Definition unit_bytes (depth : Z) : Z :=
  if depth =? 16 then 2 else if depth =? 32 then 4 else 1.

(** [nbytes] bytes of background, as the fill loops write them. *)
Definition background_bytes (s : CTRenderer) (nbytes : Z) : list Z :=
  fill_elems (m_nDepth s) (m_BackgroundColor s) (nbytes / unit_bytes (m_nDepth s)).

(** A renderer whose buffer, geometry and scroll region fit together, as
    [Initialize] and [SetScrollRegion] leave them. *)
Record surface_ok (s : CTRenderer) : Prop := {
  ok_gen : is_Some (m_pCharGen s);
  ok_height : 0 < GetCharHeight (pCharGen s);
  ok_depth : m_nDepth s = 1 \/ m_nDepth s = 8 \/ m_nDepth s = 16 \/ m_nDepth s = 32;
  ok_pitch : m_nWidth s * m_nDepth s = 8 * m_nPitch s;
  ok_width : 0 < m_nWidth s;
  ok_length : Z.of_nat (length (m_pBuffer8 s)) = m_nHeight s * m_nPitch s;
  ok_pixels : m_nWidth s * m_nHeight s < 4294967296;
  ok_bytes : m_nHeight s * m_nPitch s < 4294967296;
  ok_region : 0 <= m_nScrollStart s /\ m_nScrollStart s < m_nScrollEnd s
              /\ m_nScrollEnd s <= m_nHeight s
}.

(** The number of lines [InsertLines]/[DeleteLines] work on, when they do. *)
Definition lines_count (nCount : Z) (s : CTRenderer) : option Z :=
  match m_pCharGen s with
  | None => None
  | Some cg =>
      if nCount =? 0 then None
      else if GetCharHeight cg =? 0 then None
      else if (m_nCursorY s <? m_nScrollStart s) || (m_nCursorY s >=? m_nScrollEnd s)
      then None
      else
        let maxLines := u32 (m_nScrollEnd s - m_nCursorY s) / GetCharHeight cg in
        if maxLines =? 0 then None
        else Some (if nCount >? maxLines then maxLines else nCount)
  end.

(** Byte [i] lies outside the scroll region of [s]. *)
Definition outside_region (s : CTRenderer) (i : nat) : Prop :=
  Z.of_nat i < m_nScrollStart s * m_nPitch s \/
  m_nScrollEnd s * m_nPitch s <= Z.of_nat i.

(** The value a pixel holds once a raw colour is stored at a depth. *)
Definition raw_color (depth c : Z) : Z :=
  if depth =? 1 then (if c =? 0 then 0 else 1) else c mod 2 ^ depth.

(** *** One bit of a byte (depth 1) *)

Definition bit_mask (x : Z) : Z := Z.shiftr 128 (Z.land x 7).

(** A renderer whose surface, font cell and background colour fit together,
    as [Initialize] and [SetFont] leave them. *)
Record screen_ok (s : CTRenderer) : Prop := {
  ok_surface : surface_ok s;
  ok_size : m_nSize s = m_nHeight s * m_nPitch s;
  ok_cell_width : 0 < GetCharWidth (pCharGen s);
  ok_cell_fits : GetCharHeight (pCharGen s) <= m_nHeight s;
  ok_used_width : 0 <= m_nUsedWidth s <= m_nWidth s;
  ok_used_cells : m_nUsedWidth s mod GetCharWidth (pCharGen s) = 0;
  ok_background : 0 <= m_BackgroundColor s < 2 ^ m_nDepth s
}.

(** The screen shows the background of [s] everywhere and the cursor is at
    the home position of [s]. *)
Definition cleared_and_home (s r : CTRenderer) : Prop :=
  (forall x y, 0 <= x < m_nWidth s -> 0 <= y < m_nHeight s ->
     GetRawPixel x y r = m_BackgroundColor s)
  /\ m_nCursorX r = 0 /\ m_nCursorY r = m_nScrollStart s.

Definition clear_and_home : list Z :=
  [ESC; chr "["; chr "2"; chr "J"; ESC; chr "["; chr "H"].

(** [s'] is [s] with other pixels, cursor scratch buffer, update area and
    cursor-visible flag. *)
Definition repainted (vis : bool) (s s' : CTRenderer) : Prop :=
  exists buf px area,
    s' = set_m_UpdateArea area
           (set_m_bCursorVisible vis (set_m_pCursorPixels px (set_m_pBuffer8 buf s))).

(** The font, the colours, the cursor and the geometry of a renderer. *)
Definition font_state (s : CTRenderer) :=
  (m_pFont s, m_FontFlags s,
   m_ForegroundColor s, m_BackgroundColor s,
   m_DefaultForegroundColor s, m_DefaultBackgroundColor s,
   m_nCursorX s, m_nCursorY s, m_bCursorOn s, m_bCursorBlock s, m_bBlinkingCursor s,
   m_nScrollStart s, m_nScrollEnd s, m_nUsedWidth s, m_nUsedHeight s,
   m_nWidth s, m_nHeight s, m_nDepth s).

(** What [grid_ok] reads besides the cursor position. *)
Definition grid_frame (s : CTRenderer) :=
  (m_pCharGen s, m_nWidth s, m_nHeight s, m_nUsedWidth s, m_nUsedHeight s,
   m_nScrollStart s, m_nScrollEnd s,
   cursorX (m_SavedState s), cursorY (m_SavedState s)).

(** The text area is a whole number of cells inside the display, the scroll
    region is a non-empty range of rows of it, and the cursor and the saved
    cursor are at the top left pixel of a cell of it. *)
Record grid_ok (s : CTRenderer) : Prop := {
  grid_gen : is_Some (m_pCharGen s);
  grid_cell_w : 0 < GetCharWidth (pCharGen s);
  grid_cell_h : 0 < GetCharHeight (pCharGen s);
  grid_used_w : m_nUsedWidth s
                = m_nWidth s / GetCharWidth (pCharGen s) * GetCharWidth (pCharGen s);
  grid_used_h : m_nUsedHeight s
                = m_nHeight s / GetCharHeight (pCharGen s) * GetCharHeight (pCharGen s);
  grid_small : m_nWidth s < 16777216 /\ m_nHeight s < 16777216;
  grid_start : (GetCharHeight (pCharGen s) | m_nScrollStart s);
  grid_end : (GetCharHeight (pCharGen s) | m_nScrollEnd s);
  grid_region : 0 <= m_nScrollStart s < m_nScrollEnd s
                /\ m_nScrollEnd s <= m_nUsedHeight s;
  grid_x : (GetCharWidth (pCharGen s) | m_nCursorX s)
           /\ 0 <= m_nCursorX s < m_nUsedWidth s;
  grid_y : (GetCharHeight (pCharGen s) | m_nCursorY s)
           /\ 0 <= m_nCursorY s < m_nUsedHeight s;
  grid_saved_x : (GetCharWidth (pCharGen s) | cursorX (m_SavedState s))
                 /\ 0 <= cursorX (m_SavedState s) < m_nUsedWidth s;
  grid_saved_y : (GetCharHeight (pCharGen s) | cursorY (m_SavedState s))
                 /\ 0 <= cursorY (m_SavedState s) < m_nUsedHeight s
}.

(** What the interpreter holds in the states the parameter bound of
    [parser_inv] does not cover: the row of a VT52 cursor address is the
    offset of a byte from the space character, and no font change is
    pending. *)
Definition escape_inv (s : CTRenderer) : Prop :=
  match m_State s with
  | StateVT52Col => 0 <= m_nParam1 s <= 223
  | StateFontChange => False
  | _ => True
  end.

(** The renderer between two bytes of a stream without font changes. *)
Definition term_ok (s : CTRenderer) : Prop :=
  grid_ok s /\ parser_inv s /\ escape_inv s.

(** [grid_ok], decided. *)
Definition grid_okb (s : CTRenderer) : bool :=
  let w := GetCharWidth (pCharGen s) in
  let h := GetCharHeight (pCharGen s) in
  let on_grid cell v used := (v mod cell =? 0) && (0 <=? v) && (v <? used) in
  match m_pCharGen s with Some _ => true | None => false end
  && (0 <? w) && (0 <? h)
  && (m_nUsedWidth s =? m_nWidth s / w * w)
  && (m_nUsedHeight s =? m_nHeight s / h * h)
  && (m_nWidth s <? 16777216) && (m_nHeight s <? 16777216)
  && (m_nScrollStart s mod h =? 0) && (m_nScrollEnd s mod h =? 0)
  && (0 <=? m_nScrollStart s) && (m_nScrollStart s <? m_nScrollEnd s)
  && (m_nScrollEnd s <=? m_nUsedHeight s)
  && on_grid w (m_nCursorX s) (m_nUsedWidth s)
  && on_grid h (m_nCursorY s) (m_nUsedHeight s)
  && on_grid w (cursorX (m_SavedState s)) (m_nUsedWidth s)
  && on_grid h (cursorY (m_SavedState s)) (m_nUsedHeight s).

(** [CTConfig::InitDefaultTabStops(columns)] *)
Definition InitDefaultTabStops (columns : Z) (s : CTRenderer) : CTRenderer :=
  let s :=
    for_range 0 TabStopsMax (fun i s =>
      set_CTConfig_TabStops (<[Z.to_nat i := false]> (CTConfig_TabStops s)) s) s in
  let limit := if columns >? TabStopsMax then TabStopsMax else columns in
  for_range 0 limit (fun i s =>
    if (i >? 0) && (i mod 8 =? 0)
    then set_CTConfig_TabStops (<[Z.to_nat i := true]> (CTConfig_TabStops s)) s
    else s) s.

(** The tab stop array has its [TabStopsMax] entries. *)
Definition tabs_ok (s : CTRenderer) : Prop :=
  Z.of_nat (length (CTConfig_TabStops s)) = TabStopsMax.

(** What [RestoreCursor] reads. *)
Definition saved_view (s : CTRenderer) :=
  (m_SavedState s, m_nWidth s, m_nHeight s).

(** No byte [7] and no byte [#] of the stream comes right after an [ESC]. *)
Fixpoint escapes_free (prev : Z) (bs : list Z) : bool :=
  match bs with
  | [] => true
  | c :: bs' =>
      negb ((prev =? ESC) && ((c =? chr "7") || (c =? chr "#")))
      && escapes_free c bs'
  end.

(** The cursor position and the attributes [SaveCursor] keeps. *)
Definition cursor_attributes (s : CTRenderer) :=
  (m_nCursorX s, m_nCursorY s,
   m_bReverseAttribute s, m_bBoldAttribute s, m_bUnderlineAttribute s,
   m_bBlinkAttribute s,
   m_ForegroundColor s, m_BackgroundColor s,
   m_DefaultForegroundColor s, m_DefaultBackgroundColor s).

(** [s] is [s0] with other pixels, in a buffer of the same size, and another
    update area. *)
Definition touched (s0 s : CTRenderer) : Prop :=
  exists buf area,
    s = set_m_UpdateArea area (set_m_pBuffer8 buf s0)
    /\ length buf = length (m_pBuffer8 s0).

(** The colour [DisplayChar(chChar, nPosX, nPosY, nColor)] draws with: the
    text colour, brightened for bold or darkened for dim unless it is the
    background colour. *)
Definition ink_color (pf : Platform) (nColor : Z) (s : CTRenderer) : Z :=
  if negb (nColor =? m_BackgroundColor s) then
    if m_bBoldAttribute s then AdjustBrightness565 pf nColor (m_BoldScaleFactor s)
    else if m_bDimAttribute s then AdjustBrightness565 pf nColor (m_DimScaleFactor s)
    else nColor
  else nColor.

(** The colour of the pixel in column [gx] and row [gy] of the cell of a
    character: ink on the underline row, on the pixels of the glyph and, for
    bold, on their right neighbours; the text background elsewhere. *)
Definition cell_color (pf : Platform) (chChar nColor : Z) (s : CTRenderer)
    (gx gy : Z) : Z :=
  let cg := pCharGen s in
  let glyph x := GetPixel cg x (GetPixelLine cg chChar gy) in
  if m_bUnderlineAttribute s && (GetUnderline cg <? GetCharHeight cg)
     && (gy =? GetUnderline cg)
  then ink_color pf nColor s
  else if glyph gx || (m_bBoldAttribute s && (1 <=? gx) && glyph (gx - 1))
  then ink_color pf nColor s
  else GetTextBackgroundColor pf s.

(** The row of a cursor [q] steps down from row [r], for a scroll region of
    the rows [a] to [b - 1]: the rows below [r] as long as they are above the
    end of the region; after that, in auto page mode, the rows of the region
    again and again from its first one, and otherwise the last row of the
    region (the row [r] itself for a cursor below the region). *)
Definition row_down (a b : Z) (page : bool) (r q : Z) : Z :=
  if (q =? 0) || (r + q <? b) then r + q
  else if page then a + (if r <? b then r + q - b else q - 1) mod (b - a)
  else if r <? b then b - 1 else r.

(** The number of those steps that scroll the region: none in auto page
    mode, otherwise every step taken in the last row of the region or below
    the region. *)
Definition scrolls_down (b : Z) (page : bool) (r q : Z) : Z :=
  if page then 0 else if r <? b then Z.max 0 (r + q - b + 1) else q.

(** [row_down] and [scrolls_down] for the cursor and the scroll region of a
    renderer. *)
Definition down_row (q : Z) (s : CTRenderer) : Z :=
  let h := GetCharHeight (pCharGen s) in
  row_down (m_nScrollStart s / h) (m_nScrollEnd s / h) (m_bAutoPage s)
    (m_nCursorY s / h) q.

Definition down_scrolls (q : Z) (s : CTRenderer) : Z :=
  let h := GetCharHeight (pCharGen s) in
  scrolls_down (m_nScrollEnd s / h) (m_bAutoPage s) (m_nCursorY s / h) q.

(** The cell of the cursor, counted in reading order from the first cell of
    the scroll region. *)
Definition region_index (s : CTRenderer) : Z :=
  (m_nCursorY s - m_nScrollStart s) / GetCharHeight (pCharGen s)
  * (m_nUsedWidth s / GetCharWidth (pCharGen s))
  + m_nCursorX s / GetCharWidth (pCharGen s).

(** ** A concrete terminal

    The parts of the Circle library the renderer runs on, for a 16 bit
    display: character generators with the cell sizes of the VT100 fonts
    (8x20 and 10x20, doubled by the font flags as [CCharGenerator] does), RGB565
    colours, a 100 Hz clock and a heap that grants every request.  The
    brightness adjustment of this terminal returns the colour as it is, where
    [AdjustBrightness565] of the source scales it. *)

Definition demo_CharGen (f : TFont) (fl : TFontFlags) : CCharGenerator :=
  let w := if (f =? 1) || (f =? 6) then 8 else 10 in
  let dw := match fl with FontFlagsDoubleWidth | FontFlagsDoubleBoth => 2 | _ => 1 end in
  let dh := match fl with FontFlagsDoubleHeight | FontFlagsDoubleBoth => 2 | _ => 1 end in
  mkCharGen (w * dw) (20 * dh) (18 * dh)
    (fun c y => c + y) (fun x line => Z.odd (x + line)).

Definition demo_font (sel : EFontSelection) : TFont :=
  match sel with
  | VT100Font8x20 => 1
  | VT100Font10x20 => 2
  | VT100Font10x20Solid => 3
  | VT100GraphicsFont8x20 => 6
  | VT100GraphicsFont10x20 => 8
  | VT100GraphicsFont10x20Solid => 10
  end.

Definition demo : Platform :=
  mkPlatform demo_CharGen demo_font (fun c _ => c) (fun ms => ms * 100 / 1000)
    (fun c => c) (fun r g b => (r / 8) * 2048 + (g / 4) * 32 + b / 8) 65535 0.

(** The memory of a renderer before its constructor has run.  Its
    configuration has no tab stop set, where [CTConfig::LoadDefaults] sets
    one every 8 columns. *)
Definition blank : CTRenderer :=
  mkCTRenderer None FontFlagsNone None None VT100Font10x20 CharSetUS CharSetUS false
   None [] [] 0 0 0 0 0 0 0 0 (mkArea 0 0 0 0) StateStart 0 0 0 0 false false false false
   0 0 0 0 0 0 0 0 0 0 false false false false false false false 0 0 false false 0
   false false false 0 0 0 0 0 0 None None 0 0 0 0 0 0 0 0
   (mkRendererState None FontFlagsNone 0 0 0 0 0 0 false false false false 0 0 0 0
       false false false false false false false 0 StateStart 0 0
       CharSetUS CharSetUS false)
   (fun n => Z.of_nat n) 0%nat (fun _ => true) 0%nat
   (repeat false 160%nat) 1 0 50 VT100Font10x20 TerminalColorWhite
   TerminalColorBlack 0 0 0%nat.

(** The renderer after construction and [Initialize] on a surface of
    [w] x [h] pixels. *)
Definition boot (w h : Z) : CTRenderer :=
  snd (Initialize demo w h 16 (CTRenderer_ctor demo blank)).

(** Four rows of four 10x20 cells. *)
Definition booted : CTRenderer := boot 40 80.

(** The cursor in the second column of the second row. *)
Definition booted_mid : CTRenderer :=
  Write_chars demo [ESC; chr "["; chr "2"; chr ";"; chr "2"; chr "H"] booted.

(** The cursor in the last column of the first row. *)
Definition booted_edge : CTRenderer :=
  Write_chars demo [ESC; chr "["; chr "1"; chr ";"; chr "4"; chr "H"] booted.

(** The scroll region set to rows 2 to 3. *)
Definition booted_region : CTRenderer :=
  snd (Write demo [ESC; chr "["; chr "2"; chr ";"; chr "3"; chr "r"] booted).

(** An [X] in the first column of the last row, the cursor back home. *)
Definition booted_drawn : CTRenderer :=
  snd (Write demo [ESC; chr "["; chr "4"; chr ";"; chr "1"; chr "H"; chr "X";
                   ESC; chr "["; chr "H"] booted).

(** The same terminal with smooth scrolling switched off. *)
Definition booted_jump : CTRenderer := SetSmoothScrollEnabled false booted.

(** The heap refuses every request from now on. *)
Definition booted_denied : CTRenderer := set_heap_grants (fun _ => false) booted.

(** [SetCursorMode(false)] while the cursor is shown. *)
Definition booted_cursor_off : CTRenderer := SetCursorMode false booted.

(** Row 4, save cursor, double-size font, restore cursor. *)
Definition save_resize_restore : list Z :=
  [ESC; chr "["; chr "4"; chr ";"; chr "1"; chr "H"; ESC; chr "7";
   ESC; chr "#"; chr "3"; ESC; chr "8"].

(** * Properties *)

Ltac chr_norm :=
  repeat match goal with
  | |- context [chr ?a] =>
      let v := eval vm_compute in (chr a) in change (chr a) with v
  | H : context [chr ?a] |- _ =>
      let v := eval vm_compute in (chr a) in change (chr a) with v in H
  end.

(** Decide the character tests of a [switch] once the character is known well
    enough for [lia]. *)
Ltac switch_char :=
  repeat match goal with
  | |- context [Z.eqb ?x ?y] =>
      destruct (Z.eqb_spec x y); [exfalso; lia|]; cbn [orb andb negb]
  end.

(** *** Byte arrays *)

Lemma memmove_length b dst src n :
  0 <= dst -> 0 <= src -> 0 <= n ->
  dst + n <= Z.of_nat (length b) -> src + n <= Z.of_nat (length b) ->
  length (memmove b dst src n) = length b.
Proof.
  intros. unfold memmove. rewrite !length_app, !length_take, !length_drop. lia.
Qed.

Lemma memmove_lookup_outside b dst src n (i : nat) :
  0 <= dst -> 0 <= src -> 0 <= n ->
  dst + n <= Z.of_nat (length b) -> src + n <= Z.of_nat (length b) ->
  Z.of_nat i < dst \/ dst + n <= Z.of_nat i ->
  memmove b dst src n !! i = b !! i.
Proof.
  intros Hd Hs Hn Hdl Hsl Hi. unfold memmove. destruct Hi as [Hi|Hi].
  - rewrite lookup_app_l by (rewrite length_take; lia).
    apply lookup_take_lt. lia.
  - rewrite lookup_app_r by (rewrite length_take; lia).
    rewrite lookup_app_r by (rewrite !length_take, length_drop; lia).
    rewrite !length_take, length_drop, lookup_drop. f_equal. lia.
Qed.

Lemma memmove_lookup_inside b dst src n (i : nat) :
  0 <= dst -> 0 <= src -> 0 <= n ->
  dst + n <= Z.of_nat (length b) -> src + n <= Z.of_nat (length b) ->
  dst <= Z.of_nat i < dst + n ->
  memmove b dst src n !! i = b !! (i - Z.to_nat dst + Z.to_nat src)%nat.
Proof.
  intros Hd Hs Hn Hdl Hsl Hi. unfold memmove.
  rewrite lookup_app_r by (rewrite length_take; lia).
  rewrite lookup_app_l by (rewrite !length_take, length_drop; lia).
  rewrite length_take, lookup_take_lt by lia. rewrite lookup_drop. f_equal. lia.
Qed.

Lemma blit_length b a bs :
  0 <= a -> a + Z.of_nat (length bs) <= Z.of_nat (length b) ->
  length (blit b a bs) = length b.
Proof.
  intros. unfold blit. rewrite !length_app, !length_take, !length_drop. lia.
Qed.

Lemma blit_lookup_outside b a bs (i : nat) :
  0 <= a -> a + Z.of_nat (length bs) <= Z.of_nat (length b) ->
  Z.of_nat i < a \/ a + Z.of_nat (length bs) <= Z.of_nat i ->
  blit b a bs !! i = b !! i.
Proof.
  intros Ha Hl Hi. unfold blit. destruct Hi as [Hi|Hi].
  - rewrite lookup_app_l by (rewrite length_take; lia).
    apply lookup_take_lt. lia.
  - rewrite lookup_app_r by (rewrite length_take; lia).
    rewrite lookup_app_r by (rewrite !length_take; lia).
    rewrite !length_take, lookup_drop. f_equal. lia.
Qed.

Lemma blit_lookup_inside b a bs (i : nat) :
  0 <= a -> a + Z.of_nat (length bs) <= Z.of_nat (length b) ->
  a <= Z.of_nat i < a + Z.of_nat (length bs) ->
  blit b a bs !! i = bs !! (i - Z.to_nat a)%nat.
Proof.
  intros Ha Hl Hi. unfold blit.
  rewrite lookup_app_r by (rewrite length_take; lia).
  rewrite lookup_app_l by (rewrite !length_take; lia).
  rewrite length_take. f_equal. lia.
Qed.

Lemma length_concat_replicate {A} (n : nat) (u : list A) :
  length (concat (replicate n u)) = (n * length u)%nat.
Proof. induction n; simpl; [reflexivity|]. rewrite length_app, IHn. lia. Qed.

Lemma fill_elems_length depth color count :
  0 <= count ->
  Z.of_nat (length (fill_elems depth color count))
  = count * Z.of_nat (length (fill_unit depth color)).
Proof.
  intros. unfold fill_elems. rewrite length_concat_replicate. lia.
Qed.

Lemma fill_unit_length depth color :
  Z.of_nat (length (fill_unit depth color))
  = if depth =? 1 then 1 else if depth =? 8 then 1 else if depth =? 16 then 2
    else if depth =? 32 then 4 else 0.
Proof. unfold fill_unit. repeat case_match; reflexivity. Qed.

Lemma u32_small z : 0 <= z < 4294967296 -> u32 z = z.
Proof. intros. unfold u32. apply Z.mod_small. lia. Qed.

Lemma u32_range z : 0 <= u32 z < 4294967296.
Proof. unfold u32. apply Z.mod_pos_bound. lia. Qed.

Lemma is_digit_spec c : is_digit c = true <-> 48 <= c <= 57.
Proof. unfold is_digit. chr_norm. rewrite andb_true_iff, !Z.leb_le. lia. Qed.

(** *** Loops *)

Lemma for_range_inv {S : Type} (P : S -> Prop) lo hi (body : Z -> S -> S) s :
  (forall i s, lo <= i < hi -> P s -> P (body i s)) -> P s -> P (for_range lo hi body s).
Proof.
  unfold for_range. intros Hb.
  assert (Hin : forall i, i ∈ seqZ lo (hi - lo) -> lo <= i < hi).
  { intros i Hi. apply elem_of_seqZ in Hi. lia. }
  revert s Hin. induction (seqZ lo (hi - lo)) as [|i l IH]; intros s Hin Hs; simpl.
  - exact Hs.
  - apply IH.
    + intros j Hj. apply Hin. by right.
    + apply Hb; [apply Hin; by left | exact Hs].
Qed.

Lemma for_step_inv {S : Type} (P : S -> Prop) lo hi step (body : Z -> S -> S) s :
  (forall i s, P s -> P (body i s)) -> P s -> P (for_step lo hi step body s).
Proof.
  unfold for_step. intros Hb. generalize (seqZ 0 ((hi - lo + step - 1) / step)).
  intros l. revert s. induction l as [|i l IH]; intros s Hs; simpl; auto.
Qed.

Lemma foldl_const {S A : Type} (f : S -> S) (l : list A) s :
  foldl (fun acc _ => f acc) s l = Nat.iter (length l) f s.
Proof.
  revert s. induction l as [|i l IH]; intros s; simpl; [reflexivity|].
  rewrite IH. symmetry. apply Nat.iter_succ_r with (f := f).
Qed.

Lemma for_range_const {S : Type} lo hi (f : S -> S) s :
  for_range lo hi (fun _ => f) s = Nat.iter (Z.to_nat (hi - lo)) f s.
Proof. unfold for_range. rewrite foldl_const, length_seqZ. reflexivity. Qed.

(** *** What painting and bookkeeping leave alone *)

Ltac control_inv E :=
  let H := fresh in
  pose proof E as H; unfold control in H; injection H; clear H; intros.

Ltac frame_simple :=
  intros; unfold GetTicks, operator_new;
  repeat (cbn beta iota zeta; case_match; simplify_eq); cbn beta iota zeta; reflexivity.

Lemma SetRawPixel_control x y c s : control (SetRawPixel x y c s) = control s.
Proof. unfold SetRawPixel. frame_simple. Qed.

Lemma SetUpdateArea_control a b s : control (SetUpdateArea a b s) = control s.
Proof. unfold SetUpdateArea. frame_simple. Qed.

Lemma SetUpdateArea_buffer a b s : m_pBuffer8 (SetUpdateArea a b s) = m_pBuffer8 s.
Proof. unfold SetUpdateArea. frame_simple. Qed.

Lemma GetTicks_control s : control (snd (GetTicks s)) = control s.
Proof. reflexivity. Qed.

Lemma for_range_control lo hi body s :
  (forall i s, control (body i s) = control s) ->
  control (for_range lo hi body s) = control s.
Proof.
  intros Hb. apply (for_range_inv (fun s' => control s' = control s)); [|reflexivity].
  intros i s' _ Hs'. rewrite Hb. exact Hs'.
Qed.

Lemma for_step_control lo hi step body s :
  (forall i s, control (body i s) = control s) ->
  control (for_step lo hi step body s) = control s.
Proof.
  intros Hb. apply (for_step_inv (fun s' => control s' = control s)); [|reflexivity].
  intros i s' Hs'. rewrite Hb. exact Hs'.
Qed.

Ltac frame_body :=
  intros;
  first [ apply SetRawPixel_control
        | reflexivity
        | apply for_range_control; frame_body
        | case_match; frame_body ].

Ltac frame_peel :=
  repeat match goal with
  | |- control (if ?b then _ else _) = _ => destruct b
  | |- control (for_range _ _ _ _) = _ => rewrite for_range_control; [|frame_body]
  end; try reflexivity.

(** *** The interpreter on digits *)

Ltac split_ifs :=
  repeat match goal with
  | |- context [if ?b then _ else _] => destruct b eqn:?
  end.

Ltac digit_bounds :=
  repeat match goal with
  | H : is_digit _ = true |- _ => apply is_digit_spec in H
  | H : (_ >? _) = false |- _ => apply Z.gtb_ltb in H; apply Z.ltb_ge in H
  | H : (_ >? _) = true |- _ => apply Z.gtb_ltb in H; apply Z.ltb_lt in H
  end;
  repeat match goal with
  | |- context [u32 ?z] =>
      lazymatch goal with
      | _ : 0 <= u32 z < 4294967296 |- _ => fail
      | _ => pose proof (u32_range z)
      end
  | _ : context [u32 ?z] |- _ =>
      lazymatch goal with
      | _ : 0 <= u32 z < 4294967296 |- _ => fail
      | _ => pose proof (u32_range z)
      end
  end.

Ltac digit_char c Hd :=
  pose proof (proj1 (is_digit_spec c) Hd);
  unfold Write_char;
  match goal with H : m_State _ = _ |- _ => rewrite H end;
  chr_norm; switch_char; rewrite Hd; cbn.

Section Props.

Variable pf : Platform.

Lemma EraseChar_control x y s : control (EraseChar x y s) = control s.
Proof.
  unfold EraseChar. rewrite SetUpdateArea_control.
  apply for_range_control. intros. apply for_range_control. intros.
  apply SetRawPixel_control.
Qed.

Lemma ClearLineEnd_control s : control (ClearLineEnd s) = control s.
Proof.
  unfold ClearLineEnd. rewrite for_range_control.
  - apply for_step_control. intros. apply EraseChar_control.
  - intros. apply for_range_control. intros. apply SetRawPixel_control.
Qed.

Lemma ClearDisplayEnd_control s : control (ClearDisplayEnd s) = control s.
Proof.
  unfold ClearDisplayEnd. rewrite SetUpdateArea_control.
  rewrite <- (ClearLineEnd_control s). generalize (ClearLineEnd s). frame_simple.
Qed.

Lemma BeginSmoothScrollAnimation_control a b d s :
  control (snd (BeginSmoothScrollAnimation pf a b d s)) = control s.
Proof. unfold BeginSmoothScrollAnimation. frame_simple. Qed.

Lemma BeginSmoothScrollAnimation_buffer a b d s :
  m_pBuffer8 (snd (BeginSmoothScrollAnimation pf a b d s)) = m_pBuffer8 s.
Proof. unfold BeginSmoothScrollAnimation. frame_simple. Qed.

Lemma count_normal_scroll_control t s : control (count_normal_scroll t s) = control s.
Proof. unfold count_normal_scroll. frame_simple. Qed.

Lemma count_normal_scroll_buffer t s :
  m_pBuffer8 (count_normal_scroll t s) = m_pBuffer8 s.
Proof. unfold count_normal_scroll. frame_simple. Qed.

Lemma clear_bytes_control a n s : control (clear_bytes a n s) = control s.
Proof. unfold clear_bytes. frame_simple. Qed.

Lemma control_State s s' : control s' = control s -> m_State s' = m_State s.
Proof. intros E. control_inv E. assumption. Qed.

Lemma maybe_ticks_control (c : bool) s :
  control (snd (if c then GetTicks s else (0, s))) = control s.
Proof. destruct c; reflexivity. Qed.

Lemma Scroll_pixels_control n s : control (Scroll_pixels n s) = control s.
Proof.
  unfold Scroll_pixels. cbn beta iota zeta.
  match goal with |- context [if negb (?n =? 0) then _ else _] =>
    destruct (negb (n =? 0)) end;
  cbn beta iota zeta; repeat case_match; reflexivity.
Qed.

Lemma InsertLines_pixels_control h n s : control (InsertLines_pixels h n s) = control s.
Proof.
  unfold InsertLines_pixels. cbn beta iota zeta. rewrite clear_bytes_control.
  case_match; reflexivity.
Qed.

Lemma DeleteLines_pixels_control h n s : control (DeleteLines_pixels h n s) = control s.
Proof.
  unfold DeleteLines_pixels. cbn beta iota zeta. rewrite clear_bytes_control.
  case_match; reflexivity.
Qed.

Lemma Scroll_control s : control (Scroll pf s) = control s.
Proof.
  unfold Scroll.
  pose proof (BeginSmoothScrollAnimation_control (m_nScrollStart s)
                (u32 (m_nScrollEnd s - 1)) false s) as E.
  destruct (BeginSmoothScrollAnimation pf _ _ _ s) as [smoothStarted s1].
  simpl in E. rewrite <- E. clear E.
  pose proof (maybe_ticks_control (negb smoothStarted) s1) as E.
  destruct (if negb smoothStarted then GetTicks s1 else (0, s1)) as [t s2].
  simpl in E. rewrite <- E. clear E.
  cbn beta iota zeta.
  destruct (negb smoothStarted);
    [rewrite count_normal_scroll_control|];
    rewrite SetUpdateArea_control; apply Scroll_pixels_control.
Qed.

(** The optional start of the animation in [InsertLines]/[DeleteLines]. *)
Lemma maybe_smooth_control (c : bool) a b d s :
  control (snd (if c then BeginSmoothScrollAnimation pf a b d s else (false, s)))
  = control s.
Proof. destruct c; [apply BeginSmoothScrollAnimation_control | reflexivity]. Qed.

Lemma InsertLines_control n s : control (InsertLines pf n s) = control s.
Proof.
  unfold InsertLines.
  destruct (m_pCharGen s) as [cg|]; [|reflexivity].
  repeat match goal with
  | |- control (if ?c then s else _) = _ => destruct c; [reflexivity|]
  end.
  match goal with
  | |- context [if ?c then BeginSmoothScrollAnimation pf ?a ?b ?d s else _] =>
      pose proof (maybe_smooth_control c a b d s) as E;
      destruct (if c then BeginSmoothScrollAnimation pf a b d s else (false, s))
        as [smoothStarted s1]
  end.
  simpl in E. rewrite <- E. clear E.
  pose proof (maybe_ticks_control (negb smoothStarted) s1) as E.
  destruct (if negb smoothStarted then GetTicks s1 else (0, s1)) as [t s2].
  simpl in E. rewrite <- E. clear E.
  cbn beta iota zeta.
  destruct (negb smoothStarted).
  - rewrite count_normal_scroll_control, SetUpdateArea_control.
    apply InsertLines_pixels_control.
  - rewrite SetUpdateArea_control. apply InsertLines_pixels_control.
Qed.

Lemma DeleteLines_control n s : control (DeleteLines pf n s) = control s.
Proof.
  unfold DeleteLines.
  destruct (m_pCharGen s) as [cg|]; [|reflexivity].
  repeat match goal with
  | |- control (if ?c then s else _) = _ => destruct c; [reflexivity|]
  end.
  match goal with
  | |- context [if ?c then BeginSmoothScrollAnimation pf ?a ?b ?d s else _] =>
      pose proof (maybe_smooth_control c a b d s) as E;
      destruct (if c then BeginSmoothScrollAnimation pf a b d s else (false, s))
        as [smoothStarted s1]
  end.
  simpl in E. rewrite <- E. clear E.
  pose proof (maybe_ticks_control (negb smoothStarted) s1) as E.
  destruct (if negb smoothStarted then GetTicks s1 else (0, s1)) as [t s2].
  simpl in E. rewrite <- E. clear E.
  cbn beta iota zeta.
  destruct (negb smoothStarted).
  - rewrite count_normal_scroll_control, SetUpdateArea_control.
    apply DeleteLines_pixels_control.
  - rewrite SetUpdateArea_control. apply DeleteLines_pixels_control.
Qed.

(** *** The interpreter state is only changed by the interpreter *)

Lemma CursorDown_State s : m_State (CursorDown pf s) = m_State s.
Proof.
  unfold CursorDown. cbn zeta. repeat case_match; try reflexivity.
  simpl. rewrite (control_State _ _ (Scroll_control _)). reflexivity.
Qed.

Lemma NewLine_State s : m_State (NewLine pf s) = m_State s.
Proof. unfold NewLine. rewrite CursorDown_State. reflexivity. Qed.

Lemma CursorRight_State s : m_State (CursorRight pf s) = m_State s.
Proof.
  unfold CursorRight. cbn zeta. case_match; [rewrite NewLine_State|]; reflexivity.
Qed.

Lemma CursorLeft_State s : m_State (CursorLeft s) = m_State s.
Proof. unfold CursorLeft. repeat case_match; reflexivity. Qed.

Lemma Tabulator_State s : m_State (Tabulator pf s) = m_State s.
Proof.
  unfold Tabulator. cbn zeta.
  repeat case_match; try reflexivity; rewrite NewLine_State; reflexivity.
Qed.

Lemma ClearDisplay_State s : m_State (ClearDisplay s) = m_State s.
Proof.
  unfold ClearDisplay. cbn zeta.
  rewrite (control_State _ _ (ClearDisplayEnd_control _)). reflexivity.
Qed.

Lemma DisplayCharAt_control c x y col s :
  control (DisplayCharAt pf c x y col s) = control s.
Proof.
  unfold DisplayCharAt. cbn zeta. rewrite SetUpdateArea_control. frame_peel.
Qed.

Lemma DisplayChar_State c s : m_State (DisplayChar pf c s) = m_State s.
Proof.
  unfold DisplayChar. cbn zeta.
  destruct (chr " " <=? c mod 256); [|reflexivity].
  assert (E : forall cg s', m_State (set_m_pCharGen cg s') = m_State s') by reflexivity.
  repeat match goal with
  | |- m_State (if ?b then _ else _) = _ => destruct b
  | |- m_State (CursorRight pf _) = _ => rewrite CursorRight_State
  | |- m_State (match ?o with Some _ => _ | None => _ end) = _ => destruct o
  | |- m_State (set_m_pCharGen _ _) = _ => rewrite E
  | |- m_State (set_m_nCursorX _ _) = _ => change (m_State (set_m_nCursorX ?v ?t)) with (m_State t)
  | |- m_State (DisplayCharAt pf _ _ _ _ _) = _ =>
      rewrite (control_State _ _ (DisplayCharAt_control _ _ _ _ _))
  end; reflexivity.
Qed.

Lemma parser_inv_step c s : parser_inv s -> parser_inv (Write_char pf c s).
Proof.
  intros Hinv. unfold parser_inv in *. unfold Write_char.
  destruct (m_State s) eqn:Hst; cbn beta iota zeta; split_ifs; cbn in *;
    rewrite ?CursorLeft_State, ?Tabulator_State, ?ClearDisplay_State,
            ?NewLine_State, ?DisplayChar_State;
    rewrite ?Hst; try exact I;
    repeat case_match; unfold BEEP in *; cbn in *; rewrite ?Hst;
    try exact I; try congruence; chr_norm; digit_bounds;
    rewrite ?u32_small by lia; lia.
Qed.

Lemma parser_inv_run cs s : parser_inv s -> parser_inv (Write_chars pf cs s).
Proof.
  unfold Write_chars. revert s.
  induction cs as [|c cs IH]; intros s Hs; simpl; [exact Hs|].
  apply IH, parser_inv_step, Hs.
Qed.

Lemma parser_inv_ctor s : parser_inv (CTRenderer_ctor pf s).
Proof. exact I. Qed.

Lemma parser_inv_reset s : parser_inv (ResetParserState s).
Proof. exact I. Qed.

Lemma Write_char_Bracket_digit c s :
  m_State s = StateBracket -> is_digit c = true ->
  Write_char pf c s = set_m_State StateNumber1 (set_m_nParam1 (c - 48) s).
Proof.
  intros Hs Hd. digit_char c Hd. rewrite u32_small by lia. reflexivity.
Qed.

Lemma Write_char_Number1_digit c s :
  m_State s = StateNumber1 -> is_digit c = true ->
  0 <= m_nParam1 s <= 199 ->
  Write_char pf c s =
    let p := 10 * m_nParam1 s + (c - 48) in
    if p >? 199 then set_m_State StateStart (set_m_nParam1 p s)
    else set_m_nParam1 p s.
Proof.
  intros Hs Hd Hp. digit_char c Hd.
  rewrite (u32_small (m_nParam1 s * 10)) by lia.
  rewrite u32_small by lia.
  replace (m_nParam1 s * 10 + (c - 48)) with (10 * m_nParam1 s + (c - 48)) by lia.
  destruct (_ >? 199); reflexivity.
Qed.

Lemma Write_char_Number2_digit c s :
  m_State s = StateNumber2 -> is_digit c = true ->
  0 <= m_nParam2 s <= 199 ->
  Write_char pf c s =
    let p := 10 * m_nParam2 s + (c - 48) in
    if p >? 199 then set_m_State StateStart (set_m_nParam2 p s)
    else set_m_nParam2 p s.
Proof.
  intros Hs Hd Hp. digit_char c Hd.
  rewrite (u32_small (m_nParam2 s * 10)) by lia.
  rewrite u32_small by lia.
  replace (m_nParam2 s * 10 + (c - 48)) with (10 * m_nParam2 s + (c - 48)) by lia.
  destruct (_ >? 199); reflexivity.
Qed.

Lemma Write_char_Number3_digit c s :
  m_State s = StateNumber3 -> is_digit c = true ->
  0 <= m_nParam1 s <= 99 ->
  Write_char pf c s =
    let p := 10 * m_nParam1 s + (c - 48) in
    if p >? 99 then set_m_State StateStart (set_m_nParam1 p s)
    else set_m_nParam1 p s.
Proof.
  intros Hs Hd Hp. digit_char c Hd.
  rewrite (u32_small (m_nParam1 s * 10)) by lia.
  rewrite u32_small by lia.
  replace (m_nParam1 s * 10 + (c - 48)) with (10 * m_nParam1 s + (c - 48)) by lia.
  destruct (_ >? 99); reflexivity.
Qed.

(** C9.  While a numeric parameter is being accumulated, a digit that raises
    it above 199 sends the interpreter back to [StateStart] and changes
    nothing but that parameter; so in the states [StateNumber1],
    [StateNumber2] and [StateNumber3] every accumulated parameter is at most
    199, after any bytes written to a renderer whose interpreter state was
    consistent (as the constructor and [ResetParserState] leave it). *)
Theorem parameter_cap (cs : list Z) (s : CTRenderer) :
  parser_inv s ->
  let s' := Write_chars pf cs s in
  (forall c, is_digit c = true ->
     let d := c - chr "0" in
     (m_State s' = StateNumber1 -> 199 < 10 * m_nParam1 s' + d ->
      Write_char pf c s'
      = set_m_State StateStart (set_m_nParam1 (10 * m_nParam1 s' + d) s')) /\
     (m_State s' = StateNumber2 -> 199 < 10 * m_nParam2 s' + d ->
      Write_char pf c s'
      = set_m_State StateStart (set_m_nParam2 (10 * m_nParam2 s' + d) s')) /\
     (m_State s' = StateNumber3 -> 199 < 10 * m_nParam1 s' + d ->
      Write_char pf c s'
      = set_m_State StateStart (set_m_nParam1 (10 * m_nParam1 s' + d) s'))) /\
  (m_State s' = StateNumber1 -> 0 <= m_nParam1 s' <= 199) /\
  (m_State s' = StateNumber2 ->
     0 <= m_nParam1 s' <= 199 /\ 0 <= m_nParam2 s' <= 199) /\
  (m_State s' = StateNumber3 -> 0 <= m_nParam1 s' <= 199).
Proof.
  intros Hinv s'. pose proof (parser_inv_run cs s Hinv) as H'. fold s' in H'.
  clearbody s'. unfold parser_inv in H'. chr_norm.
  repeat split; intros; try (rewrite H in H'; lia).
  - rewrite H0 in H'. rewrite Write_char_Number1_digit by assumption.
    cbn zeta. destruct (Z.gtb_spec (10 * m_nParam1 s' + (c - 48)) 199); [reflexivity|lia].
  - rewrite H0 in H'. rewrite Write_char_Number2_digit by (assumption || lia).
    cbn zeta. destruct (Z.gtb_spec (10 * m_nParam2 s' + (c - 48)) 199); [reflexivity|lia].
  - rewrite H0 in H'. rewrite Write_char_Number3_digit by assumption.
    cbn zeta. destruct (Z.gtb_spec (10 * m_nParam1 s' + (c - 48)) 99); [reflexivity|lia].
Qed.

(** *** Cursor motion *)

Lemma Write_chars_app a b s :
  Write_chars pf (a ++ b) s = Write_chars pf b (Write_chars pf a s).
Proof. unfold Write_chars. apply foldl_app. Qed.

Lemma decimal_digits n :
  0 <= n <= 199 ->
  (n < 10 /\ decimal n = [48 + n]) \/
  (10 <= n < 100 /\ decimal n = [48 + n / 10; 48 + n mod 10]) \/
  (100 <= n /\ decimal n = [48 + n / 100; 48 + n / 10 mod 10; 48 + n mod 10]).
Proof.
  intros Hn. unfold decimal. chr_norm.
  destruct (Z.ltb_spec n 10); [left; split; [lia|reflexivity]|].
  destruct (Z.ltb_spec n 100); [right; left|right; right]; (split; [lia|reflexivity]).
Qed.

Lemma csi_intro s :
  m_State s = StateStart -> m_bVT52Mode s = false ->
  Write_chars pf [ESC; chr "["] s
  = set_m_State StateBracket (set_m_nParam1 0 (set_m_nParam2 0 s)).
Proof.
  intros Hs Hv.
  unfold Write_chars, ESC. cbn [foldl]. unfold Write_char at 2. rewrite Hs. cbn.
  unfold Write_char. cbn. rewrite Hv. reflexivity.
Qed.

(** [ESC [ n] leaves the interpreter in [StateNumber1] holding [n]. *)
Lemma csi_number n s :
  m_State s = StateStart -> m_bVT52Mode s = false -> 0 <= n <= 199 ->
  Write_chars pf ([ESC; chr "["] ++ decimal n) s
  = set_m_State StateNumber1 (set_m_nParam1 n (set_m_nParam2 0 s)).
Proof.
  intros Hs Hv Hn. rewrite Write_chars_app.
  rewrite csi_intro by assumption.
  set (sB := set_m_State StateBracket (set_m_nParam1 0 (set_m_nParam2 0 s))).
  assert (HB : m_State sB = StateBracket) by reflexivity.
  assert (dig : forall d, 0 <= d <= 9 -> is_digit (48 + d) = true).
  { intros. apply is_digit_spec. lia. }
  assert (H1 : forall d, 0 <= d <= 9 ->
            Write_char pf (48 + d) sB
            = set_m_State StateNumber1 (set_m_nParam1 d (set_m_nParam2 0 s))).
  { intros d Hd. rewrite Write_char_Bracket_digit by auto.
    replace (48 + d - 48) with d by lia. reflexivity. }
  assert (H2 : forall p d, 0 <= d <= 9 -> 0 <= p -> 10 * p + d <= 199 ->
            Write_char pf (48 + d)
              (set_m_State StateNumber1 (set_m_nParam1 p (set_m_nParam2 0 s)))
            = set_m_State StateNumber1
                (set_m_nParam1 (10 * p + d) (set_m_nParam2 0 s))).
  { intros q d Hd Hq Hqd. rewrite Write_char_Number1_digit; auto; [|cbn; lia].
    cbn. replace (48 + d - 48) with d by lia.
    destruct (Z.gtb_spec (10 * q + d) 199); [lia|reflexivity]. }
  pose proof (Z.div_mod n 10 ltac:(lia)) as D10.
  pose proof (Z.mod_pos_bound n 10 ltac:(lia)) as M10.
  pose proof (Z.div_mod (n / 10) 10 ltac:(lia)) as D.
  pose proof (Z.mod_pos_bound (n / 10) 10 ltac:(lia)) as M.
  assert (E100 : n / 100 = n / 10 / 10) by (rewrite Z.div_div by lia; reflexivity).
  destruct (decimal_digits n Hn) as [[Hlt ->]|[[Hr ->]|[Hr ->]]];
    unfold Write_chars; cbn [foldl]; rewrite ?E100;
    set (q := n / 10) in *; set (r := n mod 10) in *;
    set (q1 := q / 10) in *; set (r1 := q mod 10) in *;
    clearbody q r q1 r1.
  - apply H1. lia.
  - rewrite H1 by lia. rewrite H2 by lia. f_equal. f_equal. lia.
  - rewrite H1 by lia. rewrite H2 by lia. rewrite H2 by lia.
    f_equal. f_equal. lia.
Qed.

Lemma set_m_nCursorY_twice a b s :
  set_m_nCursorY a (set_m_nCursorY b s) = set_m_nCursorY a s.
Proof. reflexivity. Qed.

Lemma set_m_nCursorX_twice a b s :
  set_m_nCursorX a (set_m_nCursorX b s) = set_m_nCursorX a s.
Proof. reflexivity. Qed.

Lemma CursorUp_iter k s :
  0 < GetCharHeight (pCharGen s) ->
  0 <= m_nScrollStart s <= m_nCursorY s -> m_nCursorY s < 4294967296 ->
  (m_nCursorY s - m_nScrollStart s) mod GetCharHeight (pCharGen s) = 0 ->
  Nat.iter (S k) CursorUp s
  = set_m_nCursorY
      (Z.max (m_nScrollStart s)
             (m_nCursorY s - Z.of_nat (S k) * GetCharHeight (pCharGen s))) s.
Proof.
  intros Hh Hy Hm Hd.
  apply Z.mod_divide in Hd; [|lia]. destruct Hd as [q Hq].
  assert (step : forall j, 0 <= j ->
            CursorUp (set_m_nCursorY
                        (Z.max (m_nScrollStart s)
                               (m_nCursorY s - j * GetCharHeight (pCharGen s))) s)
            = set_m_nCursorY
                (Z.max (m_nScrollStart s)
                       (m_nCursorY s - (j + 1) * GetCharHeight (pCharGen s))) s).
  { intros j Hj. unfold CursorUp. cbn.
    change (pCharGen (set_m_nCursorY ?v s)) with (pCharGen s).
    assert (0 <= j * GetCharHeight (pCharGen s)) by (apply Z.mul_nonneg_nonneg; lia).
    destruct (Z.gtb_spec (Z.max (m_nScrollStart s)
                (m_nCursorY s - j * GetCharHeight (pCharGen s))) (m_nScrollStart s)).
    - destruct (Z.lt_ge_cases j q) as [Hjq|Hjq].
      + assert (GetCharHeight (pCharGen s) * 1 <= GetCharHeight (pCharGen s) * (q - j))
          by (apply Z.mul_le_mono_nonneg_l; lia).
        rewrite u32_small by lia. rewrite set_m_nCursorY_twice. f_equal. lia.
      + assert (GetCharHeight (pCharGen s) * (q - j) <= GetCharHeight (pCharGen s) * 0)
          by (apply Z.mul_le_mono_nonneg_l; lia).
        lia.
    - assert (Hle : m_nCursorY s - j * GetCharHeight (pCharGen s) <= m_nScrollStart s)
        by lia.
      f_equal. lia. }
  induction k as [|k IH].
  - cbn [Nat.iter]. replace s with (set_m_nCursorY
       (Z.max (m_nScrollStart s) (m_nCursorY s - 0 * GetCharHeight (pCharGen s))) s) at 1.
    + rewrite step by lia. f_equal. 
    + replace (Z.max _ _) with (m_nCursorY s) by lia. destruct s; reflexivity.
  - change (Nat.iter (S (S k)) CursorUp s) with (CursorUp (Nat.iter (S k) CursorUp s)).
    rewrite IH, step by lia. f_equal. f_equal. lia.
Qed.

Lemma CursorDown_iter k s :
  0 <= GetCharHeight (pCharGen s) -> 0 <= m_nCursorY s ->
  m_nCursorY s + Z.of_nat k * GetCharHeight (pCharGen s) < m_nScrollEnd s ->
  m_nScrollEnd s <= 4294967296 ->
  Nat.iter k (CursorDown pf) s
  = set_m_nCursorY (m_nCursorY s + Z.of_nat k * GetCharHeight (pCharGen s)) s.
Proof.
  intros Hh Hy Hb He. induction k as [|k IH].
  - cbn. replace (m_nCursorY s + _) with (m_nCursorY s) by lia.
    destruct s; reflexivity.
  - rewrite Nat.iter_succ, IH by nia. unfold CursorDown. cbn.
    change (pCharGen (set_m_nCursorY ?v s)) with (pCharGen s).
    rewrite u32_small by nia.
    destruct (Z.geb_spec (m_nCursorY s + Z.of_nat k * GetCharHeight (pCharGen s)
                          + GetCharHeight (pCharGen s)) (m_nScrollEnd s)); [nia|].
    rewrite set_m_nCursorY_twice. f_equal. nia.
Qed.

Lemma CursorRight_iter k s :
  0 <= GetCharWidth (pCharGen s) -> 0 <= m_nCursorX s ->
  m_nCursorX s + Z.of_nat k * GetCharWidth (pCharGen s) < m_nUsedWidth s ->
  m_nUsedWidth s <= 4294967296 ->
  Nat.iter k (CursorRight pf) s
  = set_m_nCursorX (m_nCursorX s + Z.of_nat k * GetCharWidth (pCharGen s)) s.
Proof.
  intros Hh Hy Hb He. induction k as [|k IH].
  - cbn. replace (m_nCursorX s + _) with (m_nCursorX s) by lia.
    destruct s; reflexivity.
  - rewrite Nat.iter_succ, IH by nia. unfold CursorRight. cbn.
    change (pCharGen (set_m_nCursorX ?v s)) with (pCharGen s).
    rewrite u32_small by nia.
    destruct (Z.geb_spec (m_nCursorX s + Z.of_nat k * GetCharWidth (pCharGen s)
                          + GetCharWidth (pCharGen s)) (m_nUsedWidth s)); [nia|].
    rewrite set_m_nCursorX_twice. f_equal. nia.
Qed.

Lemma CursorLeft_iter k s :
  0 < GetCharWidth (pCharGen s) ->
  Z.of_nat k * GetCharWidth (pCharGen s) <= m_nCursorX s ->
  m_nCursorX s < 4294967296 ->
  Nat.iter k CursorLeft s
  = set_m_nCursorX (m_nCursorX s - Z.of_nat k * GetCharWidth (pCharGen s)) s.
Proof.
  intros Hh Hb He. induction k as [|k IH].
  - cbn. replace (m_nCursorX s - _) with (m_nCursorX s) by lia.
    destruct s; reflexivity.
  - rewrite Nat.iter_succ, IH by nia. unfold CursorLeft. cbn.
    change (pCharGen (set_m_nCursorX ?v s)) with (pCharGen s).
    destruct (Z.gtb_spec (m_nCursorX s - Z.of_nat k * GetCharWidth (pCharGen s)) 0); [|nia].
    rewrite u32_small by nia. rewrite set_m_nCursorX_twice. f_equal. nia.
Qed.

Lemma Write_char_Number1_motion s :
  m_State s = StateNumber1 ->
  Write_char pf (chr "A") s
  = set_m_State StateStart (for_range 1 (m_nParam1 s) (fun _ => CursorUp) (CursorUp s)) /\
  Write_char pf (chr "B") s
  = set_m_State StateStart
      (for_range 1 (m_nParam1 s) (fun _ => CursorDown pf) (CursorDown pf s)) /\
  Write_char pf (chr "C") s
  = set_m_State StateStart
      (for_range 1 (m_nParam1 s) (fun _ => CursorRight pf) (CursorRight pf s)) /\
  Write_char pf (chr "D") s
  = set_m_State StateStart
      (for_range 1 (m_nParam1 s) (fun _ => CursorLeft) (CursorLeft s)).
Proof. intros Hs. unfold Write_char. rewrite Hs. repeat split; reflexivity. Qed.

Lemma repeat_count n : Z.of_nat (S (Z.to_nat (n - 1))) = Z.max 1 n.
Proof. lia. Qed.

(** C10.  In VT52 mode [ESC H] puts the cursor at pixel (0,0) whatever the
    scroll region is; the ANSI home sequence [ESC [ H] puts it in column 0 of
    the first row of the scroll region. *)
Theorem vt52_home_is_absolute (s : CTRenderer) :
  m_State s = StateStart ->
  (m_bVT52Mode s = true ->
   let s' := Write_chars pf [ESC; chr "H"] s in
   m_nCursorX s' = 0 /\ m_nCursorY s' = 0 /\ m_nScrollStart s' = m_nScrollStart s) /\
  (m_bVT52Mode s = false ->
   let s' := Write_chars pf [ESC; chr "["; chr "H"] s in
   m_nCursorX s' = 0 /\ m_nCursorY s' = m_nScrollStart s).
Proof.
  intros Hs. split; intros Hv.
  - assert (E : Write_char pf ESC s = set_m_State StateEscape s).
    { unfold Write_char. rewrite Hs. reflexivity. }
    unfold Write_chars; cbn [foldl]; rewrite E; clear E.
    unfold Write_char. cbn [m_State set_m_State m_bVT52Mode]. rewrite Hv.
    repeat split; reflexivity.
  - change [ESC; chr "["; chr "H"] with ([ESC; chr "["] ++ [chr "H"]).
    rewrite Write_chars_app, csi_intro by assumption.
    unfold Write_chars. cbn [foldl]. unfold Write_char.
    cbn [m_State set_m_State set_m_nParam1 set_m_nParam2].
    split; reflexivity.
Qed.

End Props.

Ltac rw_control E :=
  let H := fresh in
  pose proof E as H; unfold control in H; injection H; clear H; intros;
  repeat match goal with
  | Heq : ?f ?a = ?f ?b |- _ => rewrite ?Heq in *; clear Heq
  end.

Section Buffers.

Variable pf : Platform.

Lemma control_pCharGen s s' : control s' = control s -> pCharGen s' = pCharGen s.
Proof. intros E. unfold pCharGen. control_inv E. congruence. Qed.

Lemma clear_bytes_indep a n s s' :
  control s' = control s -> m_pBuffer8 s' = m_pBuffer8 s ->
  m_pBuffer8 (clear_bytes a n s') = m_pBuffer8 (clear_bytes a n s).
Proof.
  intros E B. unfold clear_bytes. cbn zeta. control_inv E.
  repeat match goal with
  | H : ?f s' = ?f s |- _ =>
      lazymatch f with m_pBuffer8 => fail | _ => rewrite ?H; clear H end
  end.
  rewrite B. repeat case_match; cbn; congruence.
Qed.

Lemma Scroll_pixels_indep n s s' :
  control s' = control s -> m_pBuffer8 s' = m_pBuffer8 s ->
  m_pBuffer8 (Scroll_pixels n s') = m_pBuffer8 (Scroll_pixels n s).
Proof.
  intros E B. unfold Scroll_pixels. cbn zeta.
  assert (Es : m_nScrollStart s' = m_nScrollStart s) by (control_inv E; assumption).
  assert (Ee : m_nScrollEnd s' = m_nScrollEnd s) by (control_inv E; assumption).
  assert (Ep : m_nPitch s' = m_nPitch s) by (control_inv E; assumption).
  assert (Ew : m_nWidth s' = m_nWidth s) by (control_inv E; assumption).
  assert (Ed : m_nDepth s' = m_nDepth s) by (control_inv E; assumption).
  assert (Eb : m_BackgroundColor s' = m_BackgroundColor s) by (control_inv E; assumption).
  rewrite Es, Ee, Ep, B.
  match goal with |- context [if negb (?n =? 0) then _ else _] =>
    destruct (negb (n =? 0)) end; cbn; rewrite ?Ew, ?Ed, ?Eb, ?B;
  repeat case_match; cbn; congruence.
Qed.

Lemma InsertLines_pixels_indep h n s s' :
  control s' = control s -> m_pBuffer8 s' = m_pBuffer8 s ->
  m_pBuffer8 (InsertLines_pixels h n s') = m_pBuffer8 (InsertLines_pixels h n s).
Proof.
  intros E B. unfold InsertLines_pixels. cbn zeta.
  assert (Ey : m_nCursorY s' = m_nCursorY s) by (control_inv E; assumption).
  assert (Ep : m_nPitch s' = m_nPitch s) by (control_inv E; assumption).
  assert (Ee : m_nScrollEnd s' = m_nScrollEnd s) by (control_inv E; assumption).
  rewrite Ey, Ep, Ee, B.
  case_match; apply clear_bytes_indep; cbn; try assumption; reflexivity.
Qed.

Lemma DeleteLines_pixels_indep h n s s' :
  control s' = control s -> m_pBuffer8 s' = m_pBuffer8 s ->
  m_pBuffer8 (DeleteLines_pixels h n s') = m_pBuffer8 (DeleteLines_pixels h n s).
Proof.
  intros E B. unfold DeleteLines_pixels. cbn zeta.
  assert (Ey : m_nCursorY s' = m_nCursorY s) by (control_inv E; assumption).
  assert (Ep : m_nPitch s' = m_nPitch s) by (control_inv E; assumption).
  assert (Ee : m_nScrollEnd s' = m_nScrollEnd s) by (control_inv E; assumption).
  rewrite Ey, Ep, Ee, B.
  case_match; apply clear_bytes_indep; cbn; try assumption; reflexivity.
Qed.

(** The bookkeeping before the pixel work: the optional start of the
    animation and the optional first tick reading. *)
Lemma prelude_frame (c : bool) a b d s :
  let r := if c then BeginSmoothScrollAnimation pf a b d s else (false, s) in
  let r' := if negb r.1 then GetTicks r.2 else (0, r.2) in
  control r'.2 = control s /\ m_pBuffer8 r'.2 = m_pBuffer8 s.
Proof.
  cbn zeta.
  pose proof (maybe_smooth_control pf c a b d s) as E.
  assert (B : m_pBuffer8 (if c then BeginSmoothScrollAnimation pf a b d s
                          else (false, s)).2 = m_pBuffer8 s).
  { destruct c; [apply BeginSmoothScrollAnimation_buffer | reflexivity]. }
  destruct (if c then _ else _) as [smooth s1]. cbn [fst snd] in *.
  destruct (negb smooth); cbn; auto.
Qed.

Lemma Scroll_buffer s :
  m_pBuffer8 (Scroll pf s) = m_pBuffer8 (Scroll_pixels (GetCharHeight (pCharGen s)) s).
Proof.
  unfold Scroll.
  pose proof (prelude_frame true (m_nScrollStart s) (u32 (m_nScrollEnd s - 1)) false s)
    as [E B].
  cbn zeta in E, B. cbn iota in E, B.
  destruct (BeginSmoothScrollAnimation pf _ _ _ s) as [smooth s1]. cbn [fst snd] in *.
  destruct (if negb smooth then GetTicks s1 else (0, s1)) as [t s2]. cbn [fst snd] in *.
  destruct (negb smooth);
    rewrite ?count_normal_scroll_buffer, SetUpdateArea_buffer;
    apply Scroll_pixels_indep; assumption.
Qed.

Lemma InsertLines_buffer n s :
  m_pBuffer8 (InsertLines pf n s)
  = match lines_count n s with
    | None => m_pBuffer8 s
    | Some c => m_pBuffer8 (InsertLines_pixels (GetCharHeight (pCharGen s)) c s)
    end.
Proof.
  unfold InsertLines, lines_count, pCharGen.
  destruct (m_pCharGen s) as [cg|]; [|reflexivity]. cbn [default].
  repeat match goal with
  | |- m_pBuffer8 (if ?c then s else _) = _ => destruct c; [reflexivity|]
  end.
  cbn zeta.
  match goal with
  | |- context [if ?c then BeginSmoothScrollAnimation pf ?a ?b ?d s else _] =>
      pose proof (prelude_frame c a b d s) as [E B];
      cbn zeta in E, B;
      destruct (if c then BeginSmoothScrollAnimation pf a b d s else (false, s))
        as [smooth s1]
  end.
  cbn [fst snd] in *.
  destruct (if negb smooth then GetTicks s1 else (0, s1)) as [t s2]. cbn [fst snd] in *.
  destruct (negb smooth);
    rewrite ?count_normal_scroll_buffer, SetUpdateArea_buffer;
    apply InsertLines_pixels_indep; assumption.
Qed.

Lemma DeleteLines_buffer n s :
  m_pBuffer8 (DeleteLines pf n s)
  = match lines_count n s with
    | None => m_pBuffer8 s
    | Some c => m_pBuffer8 (DeleteLines_pixels (GetCharHeight (pCharGen s)) c s)
    end.
Proof.
  unfold DeleteLines, lines_count, pCharGen.
  destruct (m_pCharGen s) as [cg|]; [|reflexivity]. cbn [default].
  repeat match goal with
  | |- m_pBuffer8 (if ?c then s else _) = _ => destruct c; [reflexivity|]
  end.
  cbn zeta.
  match goal with
  | |- context [if ?c then BeginSmoothScrollAnimation pf ?a ?b ?d s else _] =>
      pose proof (prelude_frame c a b d s) as [E B];
      cbn zeta in E, B;
      destruct (if c then BeginSmoothScrollAnimation pf a b d s else (false, s))
        as [smooth s1]
  end.
  cbn [fst snd] in *.
  destruct (if negb smooth then GetTicks s1 else (0, s1)) as [t s2]. cbn [fst snd] in *.
  destruct (negb smooth);
    rewrite ?count_normal_scroll_buffer, SetUpdateArea_buffer;
    apply DeleteLines_pixels_indep; assumption.
Qed.

(** *** The pixel work in closed form *)

Lemma memmove_zero b d src : 0 <= d -> memmove b d src 0 = b.
Proof.
  intros. unfold memmove. cbn [Z.to_nat take app].
  rewrite Z.add_0_r. apply take_drop.
Qed.

Lemma clear_bytes_bytes a n s :
  m_nDepth s = 1 \/ m_nDepth s = 8 \/ m_nDepth s = 16 \/ m_nDepth s = 32 ->
  m_pBuffer8 (clear_bytes a n s) = blit (m_pBuffer8 s) a (background_bytes s n).
Proof.
  intros Hd. unfold clear_bytes, background_bytes, unit_bytes. cbn zeta.
  destruct Hd as [-> | [-> | [-> | ->]]]; cbn; rewrite ?Z.div_1_r; reflexivity.
Qed.

Lemma background_bytes_length s n :
  m_nDepth s = 1 \/ m_nDepth s = 8 \/ m_nDepth s = 16 \/ m_nDepth s = 32 ->
  0 <= n -> n mod unit_bytes (m_nDepth s) = 0 ->
  Z.of_nat (length (background_bytes s n)) = n.
Proof.
  intros Hd Hn Hm. unfold background_bytes.
  rewrite fill_elems_length, fill_unit_length.
  - revert Hm. unfold unit_bytes.
    destruct Hd as [-> | [-> | [-> | ->]]]; cbn; intros Hm.
    + rewrite Z.div_1_r. lia.
    + rewrite Z.div_1_r. lia.
    + apply Z.mod_divide in Hm; [|lia]. destruct Hm as [q ->].
      rewrite Z.div_mul by lia. reflexivity.
    + apply Z.mod_divide in Hm; [|lia]. destruct Hm as [q ->].
      rewrite Z.div_mul by lia. reflexivity.
  - apply Z.div_pos; [lia|]. unfold unit_bytes. repeat case_match; lia.
Qed.

Lemma InsertLines_pixels_bytes h c s a I e :
  m_nDepth s = 1 \/ m_nDepth s = 8 \/ m_nDepth s = 16 \/ m_nDepth s = 32 ->
  a = m_nCursorY s * m_nPitch s -> I = m_nPitch s * h * c ->
  e = m_nScrollEnd s * m_nPitch s ->
  0 <= a -> 0 <= m_nPitch s * h < 4294967296 -> 0 <= I -> a + I <= e ->
  e < 4294967296 ->
  m_pBuffer8 (InsertLines_pixels h c s)
  = blit (memmove (m_pBuffer8 s) (a + I) a (e - a - I)) a (background_bytes s I).
Proof.
  intros Hd Ha HI He Ha0 Hph HI0 HaI Hlt. unfold InsertLines_pixels. cbn zeta.
  rewrite (u32_small (m_nPitch s * h)) by lia.
  rewrite <- HI, <- Ha, <- He.
  rewrite (u32_small I), (u32_small a), (u32_small e), (u32_small (e - a - I)) by lia.
  destruct (Z.gtb_spec (e - a - I) 0).
  - rewrite clear_bytes_bytes by exact Hd. reflexivity.
  - rewrite clear_bytes_bytes by exact Hd.
    replace (e - a - I) with 0 by lia. rewrite memmove_zero by lia. reflexivity.
Qed.

Lemma DeleteLines_pixels_bytes h c s a I e :
  m_nDepth s = 1 \/ m_nDepth s = 8 \/ m_nDepth s = 16 \/ m_nDepth s = 32 ->
  a = m_nCursorY s * m_nPitch s -> I = m_nPitch s * h * c ->
  e = m_nScrollEnd s * m_nPitch s ->
  0 <= a -> 0 <= m_nPitch s * h < 4294967296 -> 0 <= I -> a + I <= e ->
  e < 4294967296 ->
  m_pBuffer8 (DeleteLines_pixels h c s)
  = blit (memmove (m_pBuffer8 s) a (a + I) (e - a - I)) (e - I) (background_bytes s I).
Proof.
  intros Hd Ha HI He Ha0 Hph HI0 HaI Hlt. unfold DeleteLines_pixels. cbn zeta.
  rewrite (u32_small (m_nPitch s * h)) by lia.
  rewrite <- HI, <- Ha, <- He.
  rewrite (u32_small I), (u32_small a), (u32_small e), (u32_small (e - a - I)) by lia.
  destruct (Z.gtb_spec (e - a - I) 0).
  - rewrite clear_bytes_bytes by exact Hd. reflexivity.
  - rewrite clear_bytes_bytes by exact Hd.
    replace (e - a - I) with 0 by lia. rewrite memmove_zero by lia. reflexivity.
Qed.

Lemma Scroll_pixels_bytes h s a L e :
  m_nDepth s = 1 \/ m_nDepth s = 8 \/ m_nDepth s = 16 \/ m_nDepth s = 32 ->
  m_nWidth s * m_nDepth s = 8 * m_nPitch s ->
  a = m_nScrollStart s * m_nPitch s -> L = m_nPitch s * h ->
  e = m_nScrollEnd s * m_nPitch s ->
  0 <= m_nScrollStart s -> 0 <= h -> m_nScrollStart s + h <= m_nScrollEnd s ->
  m_nScrollEnd s < 4294967296 ->
  0 <= m_nPitch s -> 0 <= m_nWidth s * h < 4294967296 ->
  e < 4294967296 ->
  m_pBuffer8 (Scroll_pixels h s)
  = blit (memmove (m_pBuffer8 s) a (a + L) (e - a - L)) (e - L) (background_bytes s L).
Proof.
  intros Hd Hw Ha HL He Hs0 Hh0 Hse Hse32 Hp0 Hwh He32.
  assert (HaL : a + L <= e) by (subst; nia).
  assert (Ha0 : 0 <= a) by (subst; nia).
  assert (HL0 : 0 <= L) by (subst; nia).
  unfold Scroll_pixels. cbn zeta.
  rewrite <- Ha.
  rewrite (u32_small (m_nScrollStart s + h)) by lia.
  rewrite (u32_small (m_nScrollEnd s - m_nScrollStart s - h)) by lia.
  replace ((m_nScrollStart s + h) * m_nPitch s) with (a + L) by (subst; lia).
  replace (m_nPitch s * (m_nScrollEnd s - m_nScrollStart s - h)) with (e - a - L)
    by (subst; lia).
  rewrite (u32_small a), (u32_small (a + L)), (u32_small (e - a - L)) by lia.
  assert (C1 : m_nDepth s = 1 -> m_nWidth s * h / 8 = L / 1).
  { intros E. rewrite E in Hw. replace (m_nWidth s * h) with (L * 8) by (subst; lia).
    rewrite Z.div_mul by lia. rewrite Z.div_1_r. reflexivity. }
  assert (C8 : m_nDepth s = 8 -> m_nWidth s * h = L / 1).
  { intros E. rewrite E in Hw. rewrite Z.div_1_r. subst; nia. }
  assert (C16 : m_nDepth s = 16 -> m_nWidth s * h = L / 2).
  { intros E. rewrite E in Hw. replace L with (m_nWidth s * h * 2) by (subst; nia).
    rewrite Z.div_mul by lia. reflexivity. }
  assert (C32 : m_nDepth s = 32 -> m_nWidth s * h = L / 4).
  { intros E. rewrite E in Hw. replace L with (m_nWidth s * h * 4) by (subst; nia).
    rewrite Z.div_mul by lia. reflexivity. }
  unfold background_bytes, unit_bytes.
  destruct (Z.eqb_spec (e - a - L) 0) as [E0|E0]; cbn [negb]; cbn beta iota zeta; cbn;
    rewrite (u32_small (m_nWidth s * h)) by lia;
    rewrite ?E0, ?memmove_zero by lia;
    try replace (a + (e - a - L)) with (e - L) by lia;
    destruct Hd as [E | [E | [E | E]]]; rewrite E; cbn;
    rewrite ?(C1 E), ?(C8 E), ?(C16 E), ?(C32 E);
    first [reflexivity | f_equal; lia].
Qed.

(** *** Update never writes the pixel buffer *)

Lemma SetArea_buffer a px s : m_pBuffer8 (SetArea a px s) = m_pBuffer8 s.
Proof. reflexivity. Qed.

Lemma RenderSmoothScrollFrame_buffer s :
  m_pBuffer8 (RenderSmoothScrollFrame s) = m_pBuffer8 s.
Proof.
  unfold RenderSmoothScrollFrame. destruct (negb (m_bSmoothScrollActive s)); [reflexivity|].
  cbn zeta. rewrite SetArea_buffer.
  apply (for_range_inv (fun s' => m_pBuffer8 s' = m_pBuffer8 s)); [|reflexivity].
  intros y s' _ Hs'. rewrite <- Hs'. repeat case_match; reflexivity.
Qed.

Lemma Update_buffer s : m_pBuffer8 (Update s) = m_pBuffer8 s.
Proof.
  unfold Update, GetTicks. cbn beta iota zeta.
  repeat case_match;
    repeat (cbn -[RenderSmoothScrollFrame]; rewrite ?RenderSmoothScrollFrame_buffer);
    reflexivity.
Qed.

Lemma Update_iter_buffer k s : m_pBuffer8 (Nat.iter k Update s) = m_pBuffer8 s.
Proof.
  induction k as [|k IH]; [reflexivity|]. rewrite Nat.iter_succ, Update_buffer. exact IH.
Qed.

(** C3.  Two renderers that agree on everything but the smooth-scroll
    session, the clock and the bookkeeping (so: same pixel buffer, same scroll
    region, same cursor) have the same pixel buffer after a one-line scroll
    ([Scroll], [InsertLines(1)], [DeleteLines(1)]), whether the animation was
    started in one, in both or in neither, and still after any number of
    [Update] ticks, which only push frames to the display. *)
Theorem smooth_scroll_same_pixels (s1 s2 : CTRenderer) (k1 k2 : nat) :
  control s1 = control s2 -> m_pBuffer8 s1 = m_pBuffer8 s2 ->
  m_pBuffer8 (Nat.iter k1 Update (Scroll pf s1))
  = m_pBuffer8 (Nat.iter k2 Update (Scroll pf s2)) /\
  m_pBuffer8 (Nat.iter k1 Update (InsertLines pf 1 s1))
  = m_pBuffer8 (Nat.iter k2 Update (InsertLines pf 1 s2)) /\
  m_pBuffer8 (Nat.iter k1 Update (DeleteLines pf 1 s1))
  = m_pBuffer8 (Nat.iter k2 Update (DeleteLines pf 1 s2)).
Proof.
  intros E B. rewrite !Update_iter_buffer.
  rewrite !Scroll_buffer, !InsertLines_buffer, !DeleteLines_buffer.
  rewrite (control_pCharGen _ _ E).
  assert (EL : lines_count 1 s1 = lines_count 1 s2).
  { unfold lines_count. control_inv E.
    repeat match goal with H : ?f s1 = ?f s2 |- _ => rewrite ?H; clear H end.
    reflexivity. }
  rewrite EL. repeat split.
  - apply Scroll_pixels_indep; assumption.
  - destruct (lines_count 1 s2); [apply InsertLines_pixels_indep|]; assumption.
  - destruct (lines_count 1 s2); [apply DeleteLines_pixels_indep|]; assumption.
Qed.

End Buffers.

Section Frames.

Variable pf : Platform.

Lemma surface_ok_pitch s : surface_ok s -> 0 < m_nPitch s.
Proof. intros []. nia. Qed.

Lemma line_bytes_unit s k :
  surface_ok s -> (m_nPitch s * k) mod unit_bytes (m_nDepth s) = 0.
Proof.
  intros Hok. pose proof (ok_pitch s Hok) as Hp. unfold unit_bytes.
  destruct (ok_depth s Hok) as [E | [E | [E | E]]]; rewrite E in *; cbn.
  - apply Z.mod_1_r.
  - apply Z.mod_1_r.
  - replace (m_nPitch s * k) with (m_nWidth s * k * 2) by lia. apply Z.mod_mul. lia.
  - replace (m_nPitch s * k) with (m_nWidth s * k * 4) by lia. apply Z.mod_mul. lia.
Qed.

Lemma Scroll_pixels_ok s :
  surface_ok s ->
  m_nScrollStart s + GetCharHeight (pCharGen s) <= m_nScrollEnd s ->
  let a := m_nScrollStart s * m_nPitch s in
  let L := m_nPitch s * GetCharHeight (pCharGen s) in
  let e := m_nScrollEnd s * m_nPitch s in
  m_pBuffer8 (Scroll pf s)
  = blit (memmove (m_pBuffer8 s) a (a + L) (e - a - L)) (e - L) (background_bytes s L)
  /\ 0 <= a /\ 0 <= L /\ a + L <= e /\ e <= Z.of_nat (length (m_pBuffer8 s))
  /\ Z.of_nat (length (background_bytes s L)) = L.
Proof.
  intros Hok Hfit a L e.
  pose proof (surface_ok_pitch s Hok) as Hp.
  destruct Hok as [Hg Hh Hd Hpw Hw Hlen Hpx Hby (Hs0 & Hse & Heh)].
  assert (HaL : a + L <= e) by (subst a L e; nia).
  assert (Ha0 : 0 <= a) by (subst a; nia).
  assert (HL0 : 0 <= L) by (subst L; nia).
  assert (Hel : e <= Z.of_nat (length (m_pBuffer8 s))) by (subst e; nia).
  repeat split; try assumption.
  - assert (m_nWidth s * GetCharHeight (pCharGen s) <= m_nWidth s * m_nHeight s)
      by (apply Z.mul_le_mono_nonneg_l; lia).
    rewrite Scroll_buffer.
    apply Scroll_pixels_bytes; try reflexivity; try assumption; try lia; nia.
  - apply background_bytes_length; [assumption|assumption|].
    apply line_bytes_unit. constructor; auto.
Qed.

Lemma lines_count_spec n s c :
  surface_ok s -> 0 <= n -> lines_count n s = Some c ->
  m_nScrollStart s <= m_nCursorY s < m_nScrollEnd s /\ 1 <= c /\
  c * GetCharHeight (pCharGen s) <= m_nScrollEnd s - m_nCursorY s /\
  c = Z.min n ((m_nScrollEnd s - m_nCursorY s) / GetCharHeight (pCharGen s)).
Proof.
  intros Hok Hn. unfold lines_count, pCharGen.
  destruct Hok as [Hg Hh Hd Hpw Hw Hlen Hpx Hby (Hs0 & Hse & Heh)].
  unfold pCharGen in Hh. destruct (m_pCharGen s) as [cg|]; [|destruct Hg; discriminate].
  cbn [default from_option id] in *.
  destruct (Z.eqb_spec n 0); [discriminate|].
  destruct (Z.eqb_spec (GetCharHeight cg) 0); [discriminate|].
  destruct (Z.ltb_spec (m_nCursorY s) (m_nScrollStart s)); [discriminate|].
  destruct (Z.geb_spec (m_nCursorY s) (m_nScrollEnd s)); [discriminate|].
  cbn [orb]. cbn zeta.
  assert (Hpx' : 0 < m_nHeight s) by lia.
  assert (Hh32 : m_nHeight s < 4294967296) by nia.
  rewrite u32_small by lia.
  pose proof (Z.mul_div_le (m_nScrollEnd s - m_nCursorY s) (GetCharHeight cg) Hh) as Hmd.
  pose proof (Z.div_pos (m_nScrollEnd s - m_nCursorY s) (GetCharHeight cg)
                ltac:(lia) Hh) as Hd0.
  set (m := (m_nScrollEnd s - m_nCursorY s) / GetCharHeight cg) in *.
  destruct (Z.eqb_spec m 0); [discriminate|].
  intros [= <-].
  destruct (Z.gtb_spec n m) as [Hnm|Hnm]; repeat split; try lia.
  assert (n * GetCharHeight cg <= m * GetCharHeight cg); [|lia].
  apply Z.mul_le_mono_nonneg_r; lia.
Qed.

Lemma InsertLines_ok n s c :
  surface_ok s -> 0 <= n -> lines_count n s = Some c ->
  let a := m_nCursorY s * m_nPitch s in
  let I := m_nPitch s * GetCharHeight (pCharGen s) * c in
  let e := m_nScrollEnd s * m_nPitch s in
  m_pBuffer8 (InsertLines pf n s)
  = blit (memmove (m_pBuffer8 s) (a + I) a (e - a - I)) a (background_bytes s I)
  /\ m_nScrollStart s * m_nPitch s <= a /\ 0 <= I /\ a + I <= e
  /\ e <= Z.of_nat (length (m_pBuffer8 s))
  /\ Z.of_nat (length (background_bytes s I)) = I.
Proof.
  intros Hok Hn Hc a I e.
  pose proof (surface_ok_pitch s Hok) as Hp.
  pose proof (lines_count_spec n s c Hok Hn Hc) as (Hy & Hc1 & Hch & _).
  pose proof (line_bytes_unit s (GetCharHeight (pCharGen s) * c) Hok) as Hu.
  destruct Hok as [Hg Hh Hd Hpw Hw Hlen Hpx Hby (Hs0 & Hse & Heh)].
  assert (HI : I = m_nPitch s * (GetCharHeight (pCharGen s) * c)) by (subst I; lia).
  assert (HI0 : 0 <= I) by (rewrite HI; apply Z.mul_nonneg_nonneg; nia).
  assert (HaI : a + I <= e).
  { rewrite HI. subst a e.
    assert (m_nPitch s * (GetCharHeight (pCharGen s) * c)
            <= m_nPitch s * (m_nScrollEnd s - m_nCursorY s))
      by (apply Z.mul_le_mono_nonneg_l; lia).
    lia. }
  assert (Hel : e <= Z.of_nat (length (m_pBuffer8 s))).
  { rewrite Hlen. subst e. apply Z.mul_le_mono_nonneg_r; lia. }
  assert (Hsa : m_nScrollStart s * m_nPitch s <= a).
  { subst a. apply Z.mul_le_mono_nonneg_r; lia. }
  assert (Hph : 0 <= m_nPitch s * GetCharHeight (pCharGen s) < 4294967296).
  { split; [apply Z.mul_nonneg_nonneg; lia|].
    assert (m_nPitch s * GetCharHeight (pCharGen s) * 1
            <= m_nPitch s * GetCharHeight (pCharGen s) * c)
      by (apply Z.mul_le_mono_nonneg_l; [apply Z.mul_nonneg_nonneg|]; lia).
    fold I in H. lia. }
  repeat split; try assumption.
  - rewrite InsertLines_buffer, Hc.
    apply InsertLines_pixels_bytes; try reflexivity; try assumption; try lia;
      subst a; apply Z.mul_nonneg_nonneg; lia.
  - apply background_bytes_length; [assumption|assumption|]. rewrite HI. exact Hu.
Qed.

Lemma DeleteLines_ok n s c :
  surface_ok s -> 0 <= n -> lines_count n s = Some c ->
  let a := m_nCursorY s * m_nPitch s in
  let I := m_nPitch s * GetCharHeight (pCharGen s) * c in
  let e := m_nScrollEnd s * m_nPitch s in
  m_pBuffer8 (DeleteLines pf n s)
  = blit (memmove (m_pBuffer8 s) a (a + I) (e - a - I)) (e - I) (background_bytes s I)
  /\ m_nScrollStart s * m_nPitch s <= a /\ 0 <= I /\ a + I <= e
  /\ e <= Z.of_nat (length (m_pBuffer8 s))
  /\ Z.of_nat (length (background_bytes s I)) = I.
Proof.
  intros Hok Hn Hc a I e.
  pose proof (surface_ok_pitch s Hok) as Hp.
  pose proof (lines_count_spec n s c Hok Hn Hc) as (Hy & Hc1 & Hch & _).
  pose proof (line_bytes_unit s (GetCharHeight (pCharGen s) * c) Hok) as Hu.
  destruct Hok as [Hg Hh Hd Hpw Hw Hlen Hpx Hby (Hs0 & Hse & Heh)].
  assert (HI : I = m_nPitch s * (GetCharHeight (pCharGen s) * c)) by (subst I; lia).
  assert (HI0 : 0 <= I) by (rewrite HI; apply Z.mul_nonneg_nonneg; nia).
  assert (HaI : a + I <= e).
  { rewrite HI. subst a e.
    assert (m_nPitch s * (GetCharHeight (pCharGen s) * c)
            <= m_nPitch s * (m_nScrollEnd s - m_nCursorY s))
      by (apply Z.mul_le_mono_nonneg_l; lia).
    lia. }
  assert (Hel : e <= Z.of_nat (length (m_pBuffer8 s))).
  { rewrite Hlen. subst e. apply Z.mul_le_mono_nonneg_r; lia. }
  assert (Hsa : m_nScrollStart s * m_nPitch s <= a).
  { subst a. apply Z.mul_le_mono_nonneg_r; lia. }
  assert (Hph : 0 <= m_nPitch s * GetCharHeight (pCharGen s) < 4294967296).
  { split; [apply Z.mul_nonneg_nonneg; lia|].
    assert (m_nPitch s * GetCharHeight (pCharGen s) * 1
            <= m_nPitch s * GetCharHeight (pCharGen s) * c)
      by (apply Z.mul_le_mono_nonneg_l; [apply Z.mul_nonneg_nonneg|]; lia).
    fold I in H. lia. }
  repeat split; try assumption.
  - rewrite DeleteLines_buffer, Hc.
    apply DeleteLines_pixels_bytes; try reflexivity; try assumption; try lia;
      subst a; apply Z.mul_nonneg_nonneg; lia.
  - apply background_bytes_length; [assumption|assumption|]. rewrite HI. exact Hu.
Qed.

(** *** Nothing outside the scroll region is written *)

Lemma Scroll_outside s (i : nat) :
  surface_ok s ->
  m_nScrollStart s + GetCharHeight (pCharGen s) <= m_nScrollEnd s ->
  outside_region s i ->
  m_pBuffer8 (Scroll pf s) !! i = m_pBuffer8 s !! i.
Proof.
  intros Hok Hfit Hout.
  destruct (Scroll_pixels_ok s Hok Hfit) as (-> & Ha & HL & HaL & He & HF).
  unfold outside_region in Hout.
  rewrite blit_lookup_outside.
  - apply memmove_lookup_outside; lia.
  - lia.
  - rewrite memmove_length by lia. lia.
  - lia.
Qed.

Lemma InsertLines_outside n s (i : nat) :
  surface_ok s -> 0 <= n -> outside_region s i ->
  m_pBuffer8 (InsertLines pf n s) !! i = m_pBuffer8 s !! i.
Proof.
  intros Hok Hn Hout.
  destruct (lines_count n s) as [c|] eqn:Hc;
    [|rewrite InsertLines_buffer, Hc; reflexivity].
  pose proof (surface_ok_pitch s Hok) as Hp.
  destruct (InsertLines_ok n s c Hok Hn Hc) as (-> & Hsa & HI & HaI & He & HF).
  destruct Hok as [Hg Hh Hd Hpw Hw Hlen Hpx Hby (Hs0 & Hse & Heh)].
  assert (0 <= m_nScrollStart s * m_nPitch s) by (apply Z.mul_nonneg_nonneg; lia).
  unfold outside_region in Hout.
  rewrite blit_lookup_outside.
  - apply memmove_lookup_outside; lia.
  - lia.
  - rewrite memmove_length by lia. lia.
  - lia.
Qed.

Lemma DeleteLines_outside n s (i : nat) :
  surface_ok s -> 0 <= n -> outside_region s i ->
  m_pBuffer8 (DeleteLines pf n s) !! i = m_pBuffer8 s !! i.
Proof.
  intros Hok Hn Hout.
  destruct (lines_count n s) as [c|] eqn:Hc;
    [|rewrite DeleteLines_buffer, Hc; reflexivity].
  pose proof (surface_ok_pitch s Hok) as Hp.
  destruct (DeleteLines_ok n s c Hok Hn Hc) as (-> & Hsa & HI & HaI & He & HF).
  destruct Hok as [Hg Hh Hd Hpw Hw Hlen Hpx Hby (Hs0 & Hse & Heh)].
  assert (0 <= m_nScrollStart s * m_nPitch s) by (apply Z.mul_nonneg_nonneg; lia).
  unfold outside_region in Hout.
  rewrite blit_lookup_outside.
  - apply memmove_lookup_outside; lia.
  - lia.
  - rewrite memmove_length by lia. lia.
  - lia.
Qed.

(** [ESC [ 6 ; 9 r] reaches [SetScrollRegion(6, 9)]. *)
Lemma csi_6_9_r s :
  m_State s = StateStart -> m_bVT52Mode s = false ->
  Write_chars pf [ESC; chr "["; chr "6"; chr ";"; chr "9"; chr "r"] s
  = set_m_State StateStart
      (SetScrollRegion 6 9
         (set_m_State StateNumber2 (set_m_nParam1 6 (set_m_nParam2 9 s)))).
Proof.
  intros Hs Hv.
  change [ESC; chr "["; chr "6"; chr ";"; chr "9"; chr "r"]
    with ([ESC; chr "["] ++ [chr "6"; chr ";"; chr "9"; chr "r"]).
  rewrite Write_chars_app, csi_intro by assumption.
  unfold Write_chars. cbn [foldl].
  set (s0 := set_m_State StateBracket (set_m_nParam1 0 (set_m_nParam2 0 s))).
  assert (E1 : Write_char pf (chr "6") s0
               = set_m_State StateNumber1 (set_m_nParam1 6 (set_m_nParam2 0 s))).
  { unfold Write_char. reflexivity. }
  rewrite E1. clear E1.
  assert (E2 : Write_char pf (chr ";")
                 (set_m_State StateNumber1 (set_m_nParam1 6 (set_m_nParam2 0 s)))
               = set_m_State StateSemicolon (set_m_nParam1 6 (set_m_nParam2 0 s))).
  { unfold Write_char. reflexivity. }
  rewrite E2. clear E2.
  assert (E3 : Write_char pf (chr "9")
                 (set_m_State StateSemicolon (set_m_nParam1 6 (set_m_nParam2 0 s)))
               = set_m_State StateNumber2 (set_m_nParam1 6 (set_m_nParam2 9 s))).
  { unfold Write_char. reflexivity. }
  rewrite E3. clear E3.
  unfold Write_char. reflexivity.
Qed.

(** C5.  [ESC [ 6 ; 9 r] on a screen of at least nine rows sets the scroll
    region to rows 6 to 9 (pixel rows [5h, 9h) for cell height [h]); and
    with that region no byte of the pixel buffer above row 6 or below row 9
    is changed by [Scroll], [InsertLines(n)] or [DeleteLines(n)], whatever
    was drawn and wherever the cursor is. *)
Theorem scroll_region_frame (s : CTRenderer) :
  m_State s = StateStart -> m_bVT52Mode s = false ->
  0 < GetCharHeight (pCharGen s) ->
  9 * GetCharHeight (pCharGen s) <= m_nUsedHeight s ->
  m_nUsedHeight s < 4294967296 ->
  let h := GetCharHeight (pCharGen s) in
  let s1 := Write_chars pf [ESC; chr "["; chr "6"; chr ";"; chr "9"; chr "r"] s in
  m_nScrollStart s1 = 5 * h /\ m_nScrollEnd s1 = 9 * h /\
  forall (s2 : CTRenderer) (n : Z) (i : nat),
    surface_ok s2 -> pCharGen s2 = pCharGen s ->
    m_nScrollStart s2 = m_nScrollStart s1 -> m_nScrollEnd s2 = m_nScrollEnd s1 ->
    0 <= n ->
    Z.of_nat i < 5 * h * m_nPitch s2 \/ 9 * h * m_nPitch s2 <= Z.of_nat i ->
    m_pBuffer8 (Scroll pf s2) !! i = m_pBuffer8 s2 !! i /\
    m_pBuffer8 (InsertLines pf n s2) !! i = m_pBuffer8 s2 !! i /\
    m_pBuffer8 (DeleteLines pf n s2) !! i = m_pBuffer8 s2 !! i.
Proof.
  intros Hs Hv Hh H9 H32 h s1.
  assert (Es : m_nScrollStart s1 = 5 * h /\ m_nScrollEnd s1 = 9 * h).
  { subst s1. rewrite csi_6_9_r by assumption.
    unfold SetScrollRegion, CursorHome. cbn zeta.
    set (s' := set_m_State StateNumber2 (set_m_nParam1 6 (set_m_nParam2 9 s))).
    change (pCharGen s') with (pCharGen s). change (m_nUsedHeight s') with (m_nUsedHeight s).
    fold h. replace ((6 - 1) * h) with (5 * h) by lia.
    rewrite !u32_small by lia.
    destruct (Z.ltb_spec (5 * h) (m_nUsedHeight s)); [|lia].
    destruct (Z.gtb_spec (9 * h) 0); [|lia].
    destruct (Z.leb_spec (9 * h) (m_nUsedHeight s)); [|lia].
    destruct (Z.ltb_spec (5 * h) (9 * h)); [|lia].
    cbn. auto. }
  destruct Es as [Es Ee]. repeat split; try assumption.
  all: intros; 
    assert (Hout : outside_region s2 i)
      by (unfold outside_region; rewrite H1, H2, Es, Ee; assumption).
  - apply Scroll_outside; try assumption. rewrite H0, H1, H2, Es, Ee. fold h. lia.
  - apply InsertLines_outside; assumption.
  - apply DeleteLines_outside; assumption.
Qed.

(** *** Insert a line, then delete it *)

Lemma insert_delete_bytes (b F : list Z) (a L e : Z) :
  0 <= a -> 0 <= L -> a + L <= e -> e <= Z.of_nat (length b) ->
  Z.of_nat (length F) = L ->
  blit (memmove (blit (memmove b (a + L) a (e - a - L)) a F) a (a + L) (e - a - L))
       (e - L) F
  = blit b (e - L) F.
Proof.
  intros Ha HL HaL He HF.
  set (b0 := memmove b (a + L) a (e - a - L)).
  assert (L0 : length b0 = length b) by (apply memmove_length; lia).
  set (b1 := blit b0 a F).
  assert (L1 : length b1 = length b) by (unfold b1; rewrite blit_length; lia).
  set (b2 := memmove b1 a (a + L) (e - a - L)).
  assert (L2 : length b2 = length b)
    by (unfold b2; rewrite memmove_length; lia).
  apply list_eq. intros i.
  destruct (Z.lt_ge_cases (Z.of_nat i) (e - L)) as [Hi|Hi];
    [|destruct (Z.lt_ge_cases (Z.of_nat i) e) as [Hi'|Hi']].
  - rewrite !blit_lookup_outside by lia.
    destruct (Z.lt_ge_cases (Z.of_nat i) a) as [Hia|Hia].
    + unfold b2. rewrite memmove_lookup_outside by lia.
      unfold b1. rewrite blit_lookup_outside by lia.
      unfold b0. apply memmove_lookup_outside; lia.
    + unfold b2. rewrite memmove_lookup_inside by lia.
      unfold b1. rewrite blit_lookup_outside by lia.
      unfold b0. rewrite memmove_lookup_inside by lia.
      f_equal. lia.
  - rewrite !blit_lookup_inside by lia. reflexivity.
  - rewrite !blit_lookup_outside by lia.
    unfold b2. rewrite memmove_lookup_outside by lia.
    unfold b1. rewrite blit_lookup_outside by lia.
    unfold b0. apply memmove_lookup_outside; lia.
Qed.

Lemma surface_ok_transfer s s' :
  control s' = control s -> length (m_pBuffer8 s') = length (m_pBuffer8 s) ->
  surface_ok s -> surface_ok s'.
Proof.
  intros E Hl Hok. pose proof (control_pCharGen _ _ E) as Hcg.
  destruct Hok as [Hg Hh Hd Hpw Hw Hlen Hpx Hby Hr].
  control_inv E.
  constructor; rewrite ?Hcg, ?Hl; congruence.
Qed.

(** C4 (amended).  With the cursor on a row of the scroll region,
    [InsertLines(1)] followed by [DeleteLines(1)] leaves the pixel buffer as
    it was, except that the last text line of the scroll region is now
    filled with the background colour: what was there has been pushed out. *)
Theorem insert_then_delete_line (s : CTRenderer) :
  surface_ok s ->
  m_nScrollStart s <= m_nCursorY s ->
  m_nCursorY s + GetCharHeight (pCharGen s) <= m_nScrollEnd s ->
  let s' := DeleteLines pf 1 (InsertLines pf 1 s) in
  let L := m_nPitch s * GetCharHeight (pCharGen s) in
  let e := m_nScrollEnd s * m_nPitch s in
  m_pBuffer8 s' = blit (m_pBuffer8 s) (e - L) (background_bytes s L).
Proof.
  intros Hok Hy Hfit s' L e.
  pose proof (InsertLines_control pf 1 s) as E1.
  assert (Hc : forall t, control t = control s -> lines_count 1 t = Some 1).
  { intros t Et. pose proof (control_pCharGen _ _ Et) as Hcg.
    unfold lines_count. unfold pCharGen in Hcg.
    destruct Hok as [Hg Hh Hd Hpw Hw Hlen Hpx Hby (Hs0 & Hse & Heh)].
    unfold pCharGen in Hh, Hfit.
    assert (Eg : m_pCharGen t = m_pCharGen s) by (control_inv Et; assumption).
    assert (Ey : m_nCursorY t = m_nCursorY s) by (control_inv Et; assumption).
    assert (Es : m_nScrollStart t = m_nScrollStart s) by (control_inv Et; assumption).
    assert (Ee : m_nScrollEnd t = m_nScrollEnd s) by (control_inv Et; assumption).
    rewrite Eg, Ey, Es, Ee.
    destruct (m_pCharGen s) as [cg|]; [|destruct Hg; discriminate].
    cbn [default from_option id] in *. cbn.
    destruct (Z.eqb_spec (GetCharHeight cg) 0); [lia|].
    destruct (Z.ltb_spec (m_nCursorY s) (m_nScrollStart s)); [lia|].
    destruct (Z.geb_spec (m_nCursorY s) (m_nScrollEnd s)); [lia|].
    cbn. assert (m_nHeight s < 4294967296) by nia.
    rewrite u32_small by lia.
    assert (1 <= (m_nScrollEnd s - m_nCursorY s) / GetCharHeight cg).
    { apply Z.div_le_lower_bound; lia. }
    destruct (Z.eqb_spec ((m_nScrollEnd s - m_nCursorY s) / GetCharHeight cg) 0); [lia|].
    destruct (Z.gtb_spec 1 ((m_nScrollEnd s - m_nCursorY s) / GetCharHeight cg));
      [lia|reflexivity]. }
  destruct (InsertLines_ok 1 s 1 Hok ltac:(lia) (Hc s eq_refl))
    as (B1 & Hsa & HI & HaI & He & HF).
  rewrite Z.mul_1_r in *. fold L e in B1, HI, HaI, He, HF.
  set (a := m_nCursorY s * m_nPitch s) in *.
  assert (Ha0 : 0 <= a).
  { destruct Hok as [Hg Hh Hd Hpw Hw Hlen Hpx Hby (Hs0 & Hse & Heh)].
    assert (0 <= m_nScrollStart s * m_nPitch s); [|lia].
    apply Z.mul_nonneg_nonneg; nia. }
  set (s1 := InsertLines pf 1 s) in *.
  assert (Hl1 : length (m_pBuffer8 s1) = length (m_pBuffer8 s)).
  { rewrite B1, blit_length; rewrite ?memmove_length; lia. }
  pose proof (surface_ok_transfer s s1 E1 Hl1 Hok) as Hok1.
  destruct (DeleteLines_ok 1 s1 1 Hok1 ltac:(lia) (Hc s1 E1)) as (B2 & _).
  subst s'. rewrite B2. rewrite Z.mul_1_r.
  rewrite (control_pCharGen _ _ E1).
  assert (Ey : m_nCursorY s1 = m_nCursorY s) by (control_inv E1; assumption).
  assert (Ep : m_nPitch s1 = m_nPitch s) by (control_inv E1; assumption).
  assert (Ee : m_nScrollEnd s1 = m_nScrollEnd s) by (control_inv E1; assumption).
  assert (Eb : forall k, background_bytes s1 k = background_bytes s k).
  { intros k. unfold background_bytes. control_inv E1. congruence. }
  rewrite Ey, Ep, Ee, Eb. fold a L e. rewrite B1.
  apply insert_delete_bytes; lia.
Qed.

End Frames.

(** *** Reading and writing bytes *)

Lemma wr_length b a v : length (wr b a v) = length b.
Proof. unfold wr. apply length_insert. Qed.

Lemma rd_wr_same b a v :
  0 <= a < Z.of_nat (length b) -> rd (wr b a v) a = v.
Proof.
  intros H. unfold rd, wr. rewrite list_lookup_insert_eq by lia. reflexivity.
Qed.

Lemma rd_wr_other b a a' v :
  0 <= a -> 0 <= a' -> a <> a' -> rd (wr b a v) a' = rd b a'.
Proof.
  intros H H' Hne. unfold rd, wr. rewrite list_lookup_insert_ne by lia. reflexivity.
Qed.

Lemma store_le_length n b a v : length (store_le n b a v) = length b.
Proof.
  revert b a v. induction n as [|n IH]; intros; simpl; [reflexivity|].
  rewrite IH. apply wr_length.
Qed.

Lemma rd_store_le_other n b a v a' :
  0 <= a -> 0 <= a' -> (a' < a \/ a + Z.of_nat n <= a') ->
  rd (store_le n b a v) a' = rd b a'.
Proof.
  revert b a v. induction n as [|n IH]; intros b a v Ha Ha' Hd; simpl; [reflexivity|].
  rewrite IH by lia. apply rd_wr_other; lia.
Qed.

Lemma load_store_le_other n m b a v a' :
  0 <= a -> 0 <= a' -> (a' + Z.of_nat m <= a \/ a + Z.of_nat n <= a') ->
  load_le m (store_le n b a v) a' = load_le m b a'.
Proof.
  revert a'. induction m as [|m IH]; intros a' Ha Ha' Hd; simpl; [reflexivity|].
  rewrite IH by lia. rewrite rd_store_le_other by lia. reflexivity.
Qed.

Lemma load_store_le_same n b a v :
  0 <= a -> a + Z.of_nat n <= Z.of_nat (length b) ->
  load_le n (store_le n b a v) a = v mod 256 ^ Z.of_nat n.
Proof.
  revert b a v. induction n as [|n IH]; intros b a v Ha Hl.
  - simpl. rewrite Z.mod_1_r. reflexivity.
  - cbn [load_le store_le]. rewrite IH by (rewrite ?wr_length; lia).
    rewrite rd_store_le_other by lia. rewrite rd_wr_same by lia.
    rewrite Nat2Z.inj_succ, Z.pow_succ_r by lia.
    assert (0 < 256 ^ Z.of_nat n) by (apply Z.pow_pos_nonneg; lia).
    rewrite Z.rem_mul_r by lia. reflexivity.
Qed.

(** *** The fill pattern *)

Lemma lookup_concat_replicate {A} (n : nat) (u : list A) (j : nat) :
  (j < n * length u)%nat ->
  concat (replicate n u) !! j = u !! (j mod length u)%nat.
Proof.
  revert j. induction n as [|n IH]; intros j Hj; [lia|].
  simpl. destruct (decide (j < length u)%nat) as [Hlt|Hge].
  - rewrite lookup_app_l by lia. rewrite Nat.mod_small by lia. reflexivity.
  - rewrite lookup_app_r by lia. rewrite IH by lia.
    f_equal. replace j with ((j - length u) + 1 * length u)%nat at 2 by lia.
    rewrite Nat.Div0.mod_add. reflexivity.
Qed.

Lemma rd_blit_outside b a bs i :
  0 <= a -> a + Z.of_nat (length bs) <= Z.of_nat (length b) ->
  0 <= i -> (i < a \/ a + Z.of_nat (length bs) <= i) ->
  rd (blit b a bs) i = rd b i.
Proof.
  intros. unfold rd. rewrite blit_lookup_outside by lia. reflexivity.
Qed.

Lemma rd_blit_inside b a bs i :
  0 <= a -> a + Z.of_nat (length bs) <= Z.of_nat (length b) ->
  a <= i < a + Z.of_nat (length bs) ->
  rd (blit b a bs) i = rd bs (i - a).
Proof.
  intros. unfold rd. rewrite blit_lookup_inside by lia. do 2 f_equal. lia.
Qed.

Lemma load_blit_outside n b a bs i :
  0 <= a -> a + Z.of_nat (length bs) <= Z.of_nat (length b) ->
  0 <= i -> (i + Z.of_nat n <= a \/ a + Z.of_nat (length bs) <= i) ->
  load_le n (blit b a bs) i = load_le n b i.
Proof.
  revert i. induction n as [|n IH]; intros i Ha Hl Hi Hd; simpl; [reflexivity|].
  rewrite IH by lia. rewrite rd_blit_outside by lia. reflexivity.
Qed.

Lemma rd_fill_elems depth c count j :
  0 <= j < count * Z.of_nat (length (fill_unit depth c)) ->
  rd (fill_elems depth c count) j
  = rd (fill_unit depth c) (j mod Z.of_nat (length (fill_unit depth c))).
Proof.
  intros Hj. unfold rd, fill_elems.
  assert (Z.of_nat (length (fill_unit depth c)) <> 0)
    by (intros E; rewrite E in Hj; lia).
  rewrite lookup_concat_replicate by nia.
  do 2 f_equal. rewrite <- (Z2Nat.id j) at 2 by lia.
  rewrite <- Nat2Z.inj_mod. rewrite Nat2Z.id. reflexivity.
Qed.

Lemma bit_mask_pow2 x : bit_mask x = 2 ^ (7 - x mod 8) /\ 0 <= x mod 8 < 8.
Proof.
  unfold bit_mask. change 7 with (Z.ones 3) at 1. rewrite Z.land_ones by lia.
  change (2 ^ 3) with 8.
  assert (H : 0 <= x mod 8 < 8) by (apply Z.mod_pos_bound; lia).
  split; [|exact H].
  assert (x mod 8 = 0 \/ x mod 8 = 1 \/ x mod 8 = 2 \/ x mod 8 = 3 \/
          x mod 8 = 4 \/ x mod 8 = 5 \/ x mod 8 = 6 \/ x mod 8 = 7) as Hc by lia.
  destruct Hc as [E|[E|[E|[E|[E|[E|[E|E]]]]]]]; rewrite E; reflexivity.
Qed.

Lemma land_pow2 a n : 0 <= n -> Z.land a (2 ^ n) = if Z.testbit a n then 2 ^ n else 0.
Proof.
  intros Hn. apply Z.bits_inj'. intros k Hk.
  rewrite Z.land_spec, Z.pow2_bits_eqb by lia.
  destruct (Z.eqb_spec n k) as [->|Hne].
  - destruct (Z.testbit a k) eqn:E; simpl.
    + rewrite Z.pow2_bits_eqb by lia. rewrite Z.eqb_refl. reflexivity.
    + rewrite Z.bits_0. reflexivity.
  - rewrite andb_false_r. destruct (Z.testbit a n).
    + rewrite Z.pow2_bits_eqb by lia. symmetry. apply Z.eqb_neq. exact Hne.
    + rewrite Z.bits_0. reflexivity.
Qed.

Lemma bit_set v x x' :
  Z.land (Z.lor v (bit_mask x) mod 256) (bit_mask x')
  = if x mod 8 =? x' mod 8 then bit_mask x' else Z.land v (bit_mask x').
Proof.
  destruct (bit_mask_pow2 x) as [-> Hx]. destruct (bit_mask_pow2 x') as [-> Hx'].
  rewrite !land_pow2 by lia. change 256 with (2 ^ 8).
  rewrite Z.mod_pow2_bits_low by lia. rewrite Z.lor_spec, Z.pow2_bits_eqb by lia.
  destruct (Z.eqb_spec (x mod 8) (x' mod 8)) as [E|E].
  - rewrite E, Z.eqb_refl, orb_true_r. reflexivity.
  - replace (7 - x mod 8 =? 7 - x' mod 8) with false by (symmetry; apply Z.eqb_neq; lia).
    rewrite orb_false_r. reflexivity.
Qed.

Lemma bit_clear v x x' :
  Z.land (Z.land v (Z.lnot (bit_mask x)) mod 256) (bit_mask x')
  = if x mod 8 =? x' mod 8 then 0 else Z.land v (bit_mask x').
Proof.
  destruct (bit_mask_pow2 x) as [-> Hx]. destruct (bit_mask_pow2 x') as [-> Hx'].
  rewrite !land_pow2 by lia. change 256 with (2 ^ 8).
  rewrite Z.mod_pow2_bits_low by lia.
  rewrite Z.land_spec, Z.lnot_spec, Z.pow2_bits_eqb by lia.
  destruct (Z.eqb_spec (x mod 8) (x' mod 8)) as [E|E].
  - rewrite E, Z.eqb_refl. simpl. rewrite andb_false_r. reflexivity.
  - replace (7 - x mod 8 =? 7 - x' mod 8) with false by (symmetry; apply Z.eqb_neq; lia).
    simpl. rewrite andb_true_r. reflexivity.
Qed.

Lemma bit_mask_pos x : 0 < bit_mask x.
Proof. destruct (bit_mask_pow2 x) as [-> Hx]. apply Z.pow_pos_nonneg; lia. Qed.

Lemma bit_of_255 x : Z.land 255 (bit_mask x) = bit_mask x.
Proof.
  destruct (bit_mask_pow2 x) as [-> Hx]. rewrite land_pow2 by lia.
  change 255 with (Z.ones 8). rewrite Z.ones_spec_low by lia. reflexivity.
Qed.

(** *** One pixel *)

Lemma pixel_index_inj W x y x' y' :
  0 <= x < W -> 0 <= x' < W -> W * y + x = W * y' + x' -> x = x' /\ y = y'.
Proof. intros Hx Hx' E. assert (y = y') by nia. subst. lia. Qed.

Lemma raw_color_small depth c :
  depth = 1 \/ depth = 8 \/ depth = 16 \/ depth = 32 ->
  0 <= c < 2 ^ depth -> raw_color depth c = c.
Proof.
  intros Hd Hc. unfold raw_color. destruct Hd as [-> | Hd].
  - cbn in *. destruct (Z.eqb_spec c 0); lia.
  - replace (depth =? 1) with false by (symmetry; apply Z.eqb_neq; lia).
    apply Z.mod_small. exact Hc.
Qed.

Lemma SetRawPixel_length x y c s :
  length (m_pBuffer8 (SetRawPixel x y c s)) = length (m_pBuffer8 s).
Proof.
  unfold SetRawPixel. repeat case_match; cbn;
    rewrite ?store_le_length, ?wr_length; reflexivity.
Qed.

Lemma GetRawPixel_SetRawPixel s x y c x' y' :
  surface_ok s ->
  0 <= x < m_nWidth s -> 0 <= y < m_nHeight s ->
  0 <= x' < m_nWidth s -> 0 <= y' < m_nHeight s ->
  GetRawPixel x' y' (SetRawPixel x y c s)
  = if (x =? x') && (y =? y') then raw_color (m_nDepth s) c else GetRawPixel x' y' s.
Proof.
  intros Hok Hx Hy Hx' Hy'.
  pose proof (ok_pitch s Hok) as Hp. pose proof (ok_length s Hok) as Hl.
  pose proof (ok_pixels s Hok) as Hpx.
  assert (Hi : 0 <= m_nWidth s * y + x < m_nWidth s * m_nHeight s) by nia.
  assert (Hi' : 0 <= m_nWidth s * y' + x' < m_nWidth s * m_nHeight s) by nia.
  assert (Hinj : m_nWidth s * y + x = m_nWidth s * y' + x' -> x = x' /\ y = y')
    by (apply pixel_index_inj; lia).
  unfold GetRawPixel, SetRawPixel, raw_color.
  rewrite !u32_small by lia.
  fold (bit_mask x). fold (bit_mask x').
  set (i := m_nWidth s * y + x) in *. set (i' := m_nWidth s * y' + x') in *.
  destruct (ok_depth s Hok) as [E | [E | [E | E]]]; rewrite E in *; cbn [Z.eqb Pos.eqb].
  - (* one bit per pixel *)
    assert (Hm : forall y0 x0, (m_nWidth s * y0 + x0) mod 8 = x0 mod 8).
    { intros y0 x0. replace (m_nWidth s * y0 + x0) with (x0 + m_nPitch s * y0 * 8) by lia.
      apply Z_mod_plus_full. }
    assert (Hb : 0 <= i / 8 < Z.of_nat (length (m_pBuffer8 s))).
    { split; [apply Z.div_pos; lia|]. apply Z.div_lt_upper_bound; lia. }
    assert (Hb' : 0 <= i' / 8) by (apply Z.div_pos; lia).
    assert (Hsame : i / 8 = i' / 8 -> x mod 8 = x' mod 8 -> i = i').
    { intros Hq Hr. rewrite (Z.div_mod i 8), (Z.div_mod i' 8) by lia.
      unfold i, i'. rewrite !Hm. fold i i'. lia. }
    destruct (c =? 0) eqn:Ec; cbn [negb];
      repeat match goal with
      | |- context [m_nDepth (set_m_pBuffer8 ?b ?s)] =>
          change (m_nDepth (set_m_pBuffer8 b s)) with (m_nDepth s)
      | |- context [m_nWidth (set_m_pBuffer8 ?b ?s)] =>
          change (m_nWidth (set_m_pBuffer8 b s)) with (m_nWidth s)
      | |- context [m_pBuffer8 (set_m_pBuffer8 ?b ?s)] =>
          change (m_pBuffer8 (set_m_pBuffer8 b s)) with b
      end; rewrite ?E; cbn [Z.eqb Pos.eqb]; fold i i'; rewrite ?(u32_small i') by lia.
    + destruct (Z.eq_dec (i / 8) (i' / 8)) as [Eq|Ne].
      * rewrite <- Eq. rewrite rd_wr_same by lia. rewrite bit_clear.
        destruct (Z.eqb_spec (x mod 8) (x' mod 8)) as [Er|Er].
        -- destruct (Hinj (Hsame Eq Er)) as [-> ->]. rewrite !Z.eqb_refl. reflexivity.
        -- replace ((x =? x') && (y =? y')) with false; [reflexivity|].
           symmetry. apply andb_false_iff. left. apply Z.eqb_neq. congruence.
      * rewrite rd_wr_other by lia.
        replace ((x =? x') && (y =? y')) with false; [reflexivity|].
        symmetry. apply andb_false_iff.
        destruct (Z.eqb_spec x x') as [->|]; [|by left].
        destruct (Z.eqb_spec y y') as [->|]; [|by right]. exfalso. apply Ne. reflexivity.
    + destruct (Z.eq_dec (i / 8) (i' / 8)) as [Eq|Ne].
      * rewrite <- Eq. rewrite rd_wr_same by lia. rewrite bit_set.
        destruct (Z.eqb_spec (x mod 8) (x' mod 8)) as [Er|Er].
        -- destruct (Hinj (Hsame Eq Er)) as [-> ->]. rewrite !Z.eqb_refl. cbn [andb].
           pose proof (bit_mask_pos x').
           destruct (Z.eqb_spec (bit_mask x') 0); [lia | reflexivity].
        -- replace ((x =? x') && (y =? y')) with false; [reflexivity|].
           symmetry. apply andb_false_iff. left. apply Z.eqb_neq. congruence.
      * rewrite rd_wr_other by lia.
        replace ((x =? x') && (y =? y')) with false; [reflexivity|].
        symmetry. apply andb_false_iff.
        destruct (Z.eqb_spec x x') as [->|]; [|by left].
        destruct (Z.eqb_spec y y') as [->|]; [|by right]. exfalso. apply Ne. reflexivity.
  - (* one byte per pixel *)
    cbn. rewrite E. cbn [Z.eqb Pos.eqb]. fold i i'. rewrite ?(u32_small i') by lia.
    destruct (Z.eqb_spec x x') as [->|Nx]; [destruct (Z.eqb_spec y y') as [->|Ny]|]; cbn [andb].
    + rewrite rd_wr_same by lia. reflexivity.
    + rewrite rd_wr_other; [reflexivity | lia | lia |]. intros Ei. apply Hinj in Ei. lia.
    + rewrite rd_wr_other; [reflexivity | lia | lia |]. intros Ei. apply Hinj in Ei. lia.
  - (* two bytes per pixel *)
    cbn [m_nDepth m_nWidth m_pBuffer8 set_m_pBuffer8]. rewrite E. cbn [Z.eqb Pos.eqb]. fold i i'.
    rewrite ?(u32_small i') by lia.
    destruct (Z.eqb_spec x x') as [->|Nx]; [destruct (Z.eqb_spec y y') as [->|Ny]|]; cbn [andb].
    + rewrite load_store_le_same by lia. reflexivity.
    + assert (i <> i') by (intros Ei; apply Hinj in Ei; lia).
      apply load_store_le_other; lia.
    + assert (i <> i') by (intros Ei; apply Hinj in Ei; lia).
      apply load_store_le_other; lia.
  - (* four bytes per pixel *)
    cbn [m_nDepth m_nWidth m_pBuffer8 set_m_pBuffer8]. rewrite E. cbn [Z.eqb Pos.eqb]. fold i i'.
    rewrite ?(u32_small i') by lia.
    destruct (Z.eqb_spec x x') as [->|Nx]; [destruct (Z.eqb_spec y y') as [->|Ny]|]; cbn [andb].
    + rewrite load_store_le_same by lia. reflexivity.
    + assert (i <> i') by (intros Ei; apply Hinj in Ei; lia).
      apply load_store_le_other; lia.
    + assert (i <> i') by (intros Ei; apply Hinj in Ei; lia).
      apply load_store_le_other; lia.
Qed.

Lemma GetRawPixel_ext s s' x y :
  m_nWidth s' = m_nWidth s -> m_nDepth s' = m_nDepth s -> m_pBuffer8 s' = m_pBuffer8 s ->
  GetRawPixel x y s' = GetRawPixel x y s.
Proof. intros Hw Hd Hb. unfold GetRawPixel. rewrite Hw, Hd, Hb. reflexivity. Qed.

(** *** Painting with the background colour *)

Section Painting.

Variable pf : Platform.

Variable s0 : CTRenderer.

Hypothesis Hok0 : surface_ok s0.

(** [s] differs from [s0] in pixels and bookkeeping only. *)
Definition same (s : CTRenderer) : Prop :=
  control s = control s0 /\ length (m_pBuffer8 s) = length (m_pBuffer8 s0).

(** Every pixel of the surface that satisfies [P] shows the background. *)
Definition cleared (P : Z -> Z -> Prop) (s : CTRenderer) : Prop :=
  forall x y, 0 <= x < m_nWidth s0 -> 0 <= y < m_nHeight s0 -> P x y ->
    GetRawPixel x y s = raw_color (m_nDepth s0) (m_BackgroundColor s0).

(** [f] keeps what is cleared and clears the pixels of [R]. *)
Definition paints (f : CTRenderer -> CTRenderer) (R : Z -> Z -> Prop) : Prop :=
  forall s P, same s -> cleared P s ->
    same (f s) /\ cleared (fun x y => P x y \/ R x y) (f s).

Lemma same_refl : same s0.
Proof. split; reflexivity. Qed.

Lemma same_ok s : same s -> surface_ok s.
Proof. intros [Hc Hl]. exact (surface_ok_transfer s0 s Hc Hl Hok0). Qed.

Lemma same_fields s :
  same s ->
  m_nWidth s = m_nWidth s0 /\ m_nHeight s = m_nHeight s0 /\ m_nDepth s = m_nDepth s0
  /\ m_BackgroundColor s = m_BackgroundColor s0 /\ pCharGen s = pCharGen s0
  /\ m_nUsedWidth s = m_nUsedWidth s0 /\ m_nCursorX s = m_nCursorX s0
  /\ m_nCursorY s = m_nCursorY s0 /\ m_nSize s = m_nSize s0 /\ m_nPitch s = m_nPitch s0.
Proof.
  intros [Hc Hl]. pose proof (control_pCharGen _ _ Hc) as Hcg.
  control_inv Hc. repeat split; congruence.
Qed.

Ltac same_rw Hs :=
  let W := fresh "Ew" in let H := fresh "Eh" in let D := fresh "Ed" in
  let B := fresh "Ebg" in let G := fresh "Ecg" in let U := fresh "Euw" in
  let X := fresh "Ecx" in let Y := fresh "Ecy" in let Z := fresh "Esz" in
  let P := fresh "Ept" in
  destruct (same_fields _ Hs) as (W & H & D & B & G & U & X & Y & Z & P);
  rewrite ?W, ?H, ?D, ?B, ?G, ?U, ?X, ?Y, ?Z, ?P.

Lemma paints_pixel x y :
  0 <= x < m_nWidth s0 -> 0 <= y < m_nHeight s0 ->
  paints (fun s => SetRawPixel x y (m_BackgroundColor s) s) (fun x' y' => x' = x /\ y' = y).
Proof.
  intros Hx Hy s P Hs Hcl. pose proof (same_ok s Hs) as Hok.
  destruct (same_fields s Hs) as (Ew & Eh & Ed & Ebg & _).
  split.
  - destruct Hs as [Hc Hl]. split.
    + rewrite SetRawPixel_control. exact Hc.
    + rewrite SetRawPixel_length. exact Hl.
  - intros x' y' Hx' Hy' HP.
    rewrite GetRawPixel_SetRawPixel by (rewrite ?Ew, ?Eh; assumption).
    rewrite Ed, Ebg.
    destruct (Z.eqb_spec x x') as [->|Nx]; [destruct (Z.eqb_spec y y') as [->|Ny]|];
      cbn [andb]; try reflexivity;
      (destruct HP as [HP | [? ?]]; [exact (Hcl _ _ Hx' Hy' HP) | congruence]).
Qed.

Lemma paints_ext f g R :
  (forall s, same s -> g s = f s) -> paints f R -> paints g R.
Proof. intros E Hf s P Hs Hcl. rewrite (E s Hs). exact (Hf s P Hs Hcl). Qed.

Lemma paints_weaken f (R R' : Z -> Z -> Prop) :
  (forall x y, 0 <= x < m_nWidth s0 -> 0 <= y < m_nHeight s0 -> R' x y -> R x y) ->
  paints f R -> paints f R'.
Proof.
  intros HR Hf s P Hs Hcl. destruct (Hf s P Hs Hcl) as [Hs' Hcl'].
  split; [exact Hs'|]. intros x y Hx Hy [HP | HR']; apply Hcl'; auto.
Qed.

Lemma paints_comp f g R R' :
  paints f R -> paints g R' -> paints (fun s => g (f s)) (fun x y => R x y \/ R' x y).
Proof.
  intros Hf Hg s P Hs Hcl. destruct (Hf s P Hs Hcl) as [Hs1 Hcl1].
  destruct (Hg _ _ Hs1 Hcl1) as [Hs2 Hcl2].
  split; [exact Hs2|]. intros x y Hx Hy HP. apply Hcl2; tauto.
Qed.

Lemma paints_foldl {A} (l : list A) (body : A -> CTRenderer -> CTRenderer)
    (R : A -> Z -> Z -> Prop) :
  (forall a, a ∈ l -> paints (body a) (R a)) ->
  paints (fun s => foldl (fun acc a => body a acc) s l)
         (fun x y => exists a, a ∈ l /\ R a x y).
Proof.
  induction l as [|a l IH]; intros Hb s P Hs Hcl.
  - split; [exact Hs|]. intros x y Hx Hy [HP | (a & Ha & _)]; [auto|].
    by apply elem_of_nil in Ha.
  - cbn [foldl].
    destruct (Hb a (list_elem_of_here a l) s P Hs Hcl) as [Hs1 Hcl1].
    destruct (IH (fun a' Ha' => Hb a' (list_elem_of_further _ _ _ Ha')) _ _ Hs1 Hcl1)
      as [Hs2 Hcl2].
    split; [exact Hs2|]. intros x y Hx Hy HP. apply Hcl2; try assumption.
    destruct HP as [HP | (a' & Ha' & HR)]; [tauto|].
    apply elem_of_cons in Ha'. destruct Ha' as [-> | Ha']; [tauto|].
    right. exists a'. tauto.
Qed.

Lemma paints_for_range lo hi body (R : Z -> Z -> Z -> Prop) :
  (forall i, lo <= i < hi -> paints (body i) (R i)) ->
  paints (for_range lo hi body) (fun x y => exists i, lo <= i < hi /\ R i x y).
Proof.
  intros Hb. unfold for_range.
  eapply paints_weaken; [|apply (paints_foldl _ body R)].
  - intros x y _ _ (i & Hi & HR). exists i. split; [|exact HR].
    apply elem_of_seqZ. lia.
  - intros i Hi. apply Hb. apply elem_of_seqZ in Hi. lia.
Qed.

Lemma paints_for_step lo hi step body (R : Z -> Z -> Z -> Prop) :
  0 < step ->
  (forall k, 0 <= k -> lo + k * step < hi -> paints (body (lo + k * step)) (R k)) ->
  paints (for_step lo hi step body)
         (fun x y => exists k, 0 <= k /\ lo + k * step < hi /\ R k x y).
Proof.
  intros Hst Hb. unfold for_step.
  assert (Hk : forall k, 0 <= k < (hi - lo + step - 1) / step <-> 0 <= k /\ lo + k * step < hi).
  { intros k. split.
    - intros [H0 H1]. split; [exact H0|].
      assert (k + 1 <= (hi - lo + step - 1) / step) as H2 by lia.
      apply (Z.mul_le_mono_nonneg_r _ _ step) in H2; [|lia].
      pose proof (Z.mul_div_le (hi - lo + step - 1) step Hst). lia.
    - intros [H0 H1]. split; [exact H0|].
      assert (k + 1 <= (hi - lo + step - 1) / step)
        by (apply Z.div_le_lower_bound; lia).
      lia. }
  eapply paints_weaken;
    [|apply (paints_foldl _ (fun k => body (lo + k * step)) R)].
  - intros x y _ _ (k & H0 & H1 & HR). exists k. split; [|exact HR].
    apply elem_of_seqZ. pose proof (proj2 (Hk k) (conj H0 H1)). lia.
  - intros k Hi. apply elem_of_seqZ in Hi.
    destruct (proj1 (Hk k)) as [H0 H1]; [lia|]. apply Hb; assumption.
Qed.

Lemma paints_SetUpdateArea a b : paints (SetUpdateArea a b) (fun _ _ => False).
Proof.
  intros s P [Hc Hl] Hcl. split.
  - split; [rewrite SetUpdateArea_control; exact Hc|].
    rewrite SetUpdateArea_buffer. exact Hl.
  - intros x y Hx Hy [HP | []].
    rewrite <- (Hcl x y Hx Hy HP). apply GetRawPixel_ext.
    + pose proof (SetUpdateArea_control a b s) as E. control_inv E. congruence.
    + pose proof (SetUpdateArea_control a b s) as E. control_inv E. congruence.
    + apply SetUpdateArea_buffer.
Qed.

Lemma surface_bounds :
  0 < m_nHeight s0 -> m_nWidth s0 < 4294967296 /\ m_nHeight s0 < 4294967296.
Proof.
  intros Hh. pose proof (ok_pixels s0 Hok0). pose proof (ok_width s0 Hok0). nia.
Qed.

Lemma paints_EraseChar px py :
  0 <= px -> px + GetCharWidth (pCharGen s0) <= m_nWidth s0 ->
  0 <= py -> py + GetCharHeight (pCharGen s0) <= m_nHeight s0 ->
  0 < GetCharHeight (pCharGen s0) ->
  paints (EraseChar px py)
         (fun x y => px <= x < px + GetCharWidth (pCharGen s0)
                     /\ py <= y < py + GetCharHeight (pCharGen s0)).
Proof.
  intros Hpx Hpw Hpy Hph Hh.
  destruct surface_bounds as [HW HH]; [lia|].
  set (inner := fun (y x : Z) (s : CTRenderer) =>
         SetRawPixel (u32 (px + x)) (u32 (py + y)) (m_BackgroundColor s) s).
  set (row := fun (y : Z) (s : CTRenderer) =>
         for_range 0 (GetCharWidth (pCharGen s)) (inner y) s).
  set (F := fun s : CTRenderer => for_range 0 (GetCharHeight (pCharGen s)) row s).
  set (G := fun s : CTRenderer =>
         SetUpdateArea py (u32 (py + GetCharHeight (pCharGen s) - 1)) s).
  change (EraseChar px py) with (fun s => G (F s)).
  eapply paints_weaken; cycle 1.
  - apply paints_comp.
    + apply (paints_ext (for_range 0 (GetCharHeight (pCharGen s0)) row)).
      { intros s Hs. unfold F. same_rw Hs. reflexivity. }
      apply paints_for_range. intros y Hy.
      apply (paints_ext (for_range 0 (GetCharWidth (pCharGen s0)) (inner y))).
      { intros s Hs. unfold row. same_rw Hs. reflexivity. }
      apply paints_for_range. intros x Hx. unfold inner.
      rewrite !u32_small by lia. apply paints_pixel; lia.
    + apply (paints_ext (SetUpdateArea py (u32 (py + GetCharHeight (pCharGen s0) - 1)))).
      { intros s Hs. unfold G. same_rw Hs. reflexivity. }
      apply paints_SetUpdateArea.
  - intros x y _ _ [Hx Hy]. left. exists (y - py). split; [lia|].
    exists (x - px). split; [lia|]. cbv beta. lia.
Qed.

(** The cursor stands on a cell of the surface. *)
Hypothesis Hw0 : 0 < GetCharWidth (pCharGen s0).

Hypothesis Hh0 : 0 < GetCharHeight (pCharGen s0).

Hypothesis Hcx0 : 0 <= m_nCursorX s0 <= m_nUsedWidth s0.

Hypothesis Huw0 : m_nUsedWidth s0 <= m_nWidth s0.

Hypothesis Hcells0 : (m_nUsedWidth s0 - m_nCursorX s0) mod GetCharWidth (pCharGen s0) = 0.

Hypothesis Hcy0 : 0 <= m_nCursorY s0.

Hypothesis Hrow0 : m_nCursorY s0 + GetCharHeight (pCharGen s0) <= m_nHeight s0.

Lemma paints_ClearLineEnd :
  paints ClearLineEnd
         (fun x y => m_nCursorX s0 <= x
                     /\ m_nCursorY s0 <= y < m_nCursorY s0 + GetCharHeight (pCharGen s0)).
Proof.
  destruct surface_bounds as [HW HH]; [lia|].
  set (w := GetCharWidth (pCharGen s0)) in *. set (h := GetCharHeight (pCharGen s0)) in *.
  assert (Hq : m_nUsedWidth s0 - m_nCursorX s0 = w * ((m_nUsedWidth s0 - m_nCursorX s0) / w))
    by (apply Z.div_exact; lia).
  set (q := (m_nUsedWidth s0 - m_nCursorX s0) / w) in *. clearbody q.
  set (cell := fun (nPosX : Z) (s : CTRenderer) => EraseChar nPosX (m_nCursorY s) s).
  set (F := fun s : CTRenderer =>
         for_step (m_nCursorX s) (m_nUsedWidth s) (GetCharWidth (pCharGen s)) cell s).
  set (px := fun (nPosX nPosY : Z) (s : CTRenderer) =>
         SetRawPixel nPosX nPosY (m_BackgroundColor s) s).
  set (col := fun (nPosX : Z) (s : CTRenderer) =>
         for_range (m_nCursorY s) (u32 (m_nCursorY s + GetCharHeight (pCharGen s)))
                   (px nPosX) s).
  set (G := fun s : CTRenderer => for_range (m_nUsedWidth s) (m_nWidth s) col s).
  change ClearLineEnd with (fun s => G (F s)).
  eapply paints_weaken; cycle 1.
  - apply paints_comp.
    + apply (paints_ext (for_step (m_nCursorX s0) (m_nUsedWidth s0) w cell)).
      { intros s Hs. unfold F. same_rw Hs. reflexivity. }
      apply paints_for_step; [exact Hw0|]. intros k Hk Hlt.
      apply (paints_ext (EraseChar (m_nCursorX s0 + k * w) (m_nCursorY s0))).
      { intros s Hs. unfold cell. same_rw Hs. reflexivity. }
      assert (k + 1 <= q) by nia.
      apply paints_EraseChar; fold w h; nia.
    + apply (paints_ext (for_range (m_nUsedWidth s0) (m_nWidth s0) col)).
      { intros s Hs. unfold G. same_rw Hs. reflexivity. }
      apply paints_for_range. intros x Hx.
      apply (paints_ext (for_range (m_nCursorY s0) (m_nCursorY s0 + h) (px x))).
      { intros s Hs. unfold col. same_rw Hs. fold h. rewrite u32_small by lia. reflexivity. }
      apply paints_for_range. intros y Hy. unfold px. apply paints_pixel; lia.
  - intros x y Hxb Hyb [Hx Hy]. cbv beta.
    destruct (Z_lt_le_dec x (m_nUsedWidth s0)) as [Hlt | Hge].
    + left. exists ((x - m_nCursorX s0) / w).
      pose proof (Z.mul_div_le (x - m_nCursorX s0) w Hw0).
      pose proof (Z.mul_succ_div_gt (x - m_nCursorX s0) w Hw0).
      assert (0 <= (x - m_nCursorX s0) / w) by (apply Z.div_pos; lia).
      fold w h. split; [lia|]. split; [nia|]. nia.
    + right. exists x. split; [lia|]. exists y. split; [lia|]. lia.
Qed.

End Painting.

(** *** Filling the rest of the buffer *)

Lemma fill_unit_bytes depth c :
  depth = 1 \/ depth = 8 \/ depth = 16 \/ depth = 32 ->
  Z.of_nat (length (fill_unit depth c)) = unit_bytes depth.
Proof. intros [-> | [-> | [-> | ->]]]; reflexivity. Qed.

Lemma raw_color_bytes4 c :
  c mod 256 + 256 * (c / 256 mod 256 + 256 * (c / 65536 mod 256
     + 256 * (c / 16777216 mod 256 + 256 * 0))) = c mod 2 ^ 32.
Proof.
  change (2 ^ 32) with (256 * (256 * (256 * 256))).
  rewrite (Z.rem_mul_r c 256) by lia. rewrite (Z.rem_mul_r (c / 256) 256) by lia.
  rewrite (Z.rem_mul_r (c / 256 / 256) 256) by lia.
  rewrite !Z.div_div by lia.
  change (256 * 256) with 65536. change (65536 * 256) with 16777216. lia.
Qed.

Lemma raw_color_bytes2 c :
  c mod 256 + 256 * (c / 256 mod 256 + 256 * 0) = c mod 2 ^ 16.
Proof.
  change (2 ^ 16) with (256 * 256). rewrite (Z.rem_mul_r c 256) by lia. lia.
Qed.

Lemma GetRawPixel_fill s Y cnt c x y :
  surface_ok s -> 0 <= Y <= m_nHeight s ->
  cnt * unit_bytes (m_nDepth s) = (m_nHeight s - Y) * m_nPitch s ->
  0 <= x < m_nWidth s -> 0 <= y < m_nHeight s ->
  GetRawPixel x y
    (set_m_pBuffer8 (blit (m_pBuffer8 s) (Y * m_nPitch s) (fill_elems (m_nDepth s) c cnt)) s)
  = if Y <=? y then raw_color (m_nDepth s) c else GetRawPixel x y s.
Proof.
  intros Hok HY Hcnt Hx Hy.
  pose proof (ok_pitch s Hok) as Hp. pose proof (ok_length s Hok) as Hl.
  pose proof (ok_pixels s Hok) as Hpx. pose proof (surface_ok_pitch s Hok) as Hpp.
  assert (Hi : 0 <= m_nWidth s * y + x < m_nWidth s * m_nHeight s) by nia.
  assert (Hu : 0 < unit_bytes (m_nDepth s)).
  { unfold unit_bytes. repeat case_match; lia. }
  assert (Hc0 : 0 <= cnt) by nia.
  pose proof (fill_elems_length (m_nDepth s) c cnt Hc0) as Hfl.
  rewrite (fill_unit_bytes _ c (ok_depth s Hok)) in Hfl.
  assert (HYp : 0 <= Y * m_nPitch s) by nia.
  assert (Hfit : Y * m_nPitch s + Z.of_nat (length (fill_elems (m_nDepth s) c cnt))
                 <= Z.of_nat (length (m_pBuffer8 s))) by lia.
  unfold GetRawPixel, raw_color.
  change (m_nWidth (set_m_pBuffer8 ?b s)) with (m_nWidth s).
  change (m_nDepth (set_m_pBuffer8 ?b s)) with (m_nDepth s).
  change (m_pBuffer8 (set_m_pBuffer8 ?b s)) with b.
  rewrite !u32_small by lia.
  fold (bit_mask x).
  set (i := m_nWidth s * y + x) in *.
  assert (Hrd : forall a, 0 <= a ->
            rd (blit (m_pBuffer8 s) (Y * m_nPitch s) (fill_elems (m_nDepth s) c cnt)) a
            = if (Y * m_nPitch s <=? a) && (a <? m_nHeight s * m_nPitch s)
              then rd (fill_unit (m_nDepth s) c)
                      ((a - Y * m_nPitch s) mod unit_bytes (m_nDepth s))
              else rd (m_pBuffer8 s) a).
  { intros a Ha.
    destruct (Z.leb_spec (Y * m_nPitch s) a); [destruct (Z.ltb_spec a (m_nHeight s * m_nPitch s))|];
      cbn [andb].
    - rewrite rd_blit_inside by lia. rewrite rd_fill_elems.
      + rewrite (fill_unit_bytes _ c (ok_depth s Hok)). reflexivity.
      + rewrite (fill_unit_bytes _ c (ok_depth s Hok)). lia.
    - apply rd_blit_outside; lia.
    - apply rd_blit_outside; lia. }
  destruct (ok_depth s Hok) as [E | [E | [E | E]]]; rewrite E in *;
    cbn [Z.eqb Pos.eqb]; try change (unit_bytes 1) with 1 in *;
    try change (unit_bytes 8) with 1 in *;
    try change (unit_bytes 16) with 2 in *; try change (unit_bytes 32) with 4 in *.
  - assert (Hq : i / 8 = m_nPitch s * y + x / 8).
    { unfold i. replace (m_nWidth s * y + x) with (x + m_nPitch s * y * 8) by lia.
      rewrite Z.div_add by lia. lia. }
    assert (0 <= x / 8 < m_nPitch s).
    { split; [apply Z.div_pos; lia|]. apply Z.div_lt_upper_bound; lia. }
    rewrite Hrd by lia. rewrite Z.mod_1_r.
    destruct (Z.leb_spec Y y).
    + replace ((Y * m_nPitch s <=? i / 8) && (i / 8 <? m_nHeight s * m_nPitch s)) with true
        by (symmetry; apply andb_true_iff; split; [apply Z.leb_le | apply Z.ltb_lt]; nia).
      unfold fill_unit. cbn [Z.eqb Pos.eqb rd lookup list_lookup Z.to_nat default from_option id].
      destruct (c =? 0).
      * rewrite Z.land_0_l. reflexivity.
      * rewrite bit_of_255. pose proof (bit_mask_pos x).
        destruct (Z.eqb_spec (bit_mask x) 0); [lia | reflexivity].
    + replace (Y * m_nPitch s <=? i / 8) with false
        by (symmetry; apply Z.leb_gt; nia).
      reflexivity.
  - rewrite Hrd by lia. rewrite Z.mod_1_r.
    destruct (Z.leb_spec Y y).
    + replace ((Y * m_nPitch s <=? i) && (i <? m_nHeight s * m_nPitch s)) with true
        by (symmetry; apply andb_true_iff; split; [apply Z.leb_le | apply Z.ltb_lt]; nia).
      reflexivity.
    + replace (Y * m_nPitch s <=? i) with false by (symmetry; apply Z.leb_gt; nia).
      reflexivity.
  - cbn [load_le]. rewrite !Hrd by lia.
    destruct (Z.leb_spec Y y).
    + replace ((Y * m_nPitch s <=? 2 * i) && (2 * i <? m_nHeight s * m_nPitch s)) with true
        by (symmetry; apply andb_true_iff; split; [apply Z.leb_le | apply Z.ltb_lt]; nia).
      replace ((Y * m_nPitch s <=? 2 * i + 1) && (2 * i + 1 <? m_nHeight s * m_nPitch s))
        with true
        by (symmetry; apply andb_true_iff; split; [apply Z.leb_le | apply Z.ltb_lt]; nia).
      replace (2 * i - Y * m_nPitch s) with ((i - Y * m_nWidth s) * 2) by lia.
      replace (2 * i + 1 - Y * m_nPitch s) with (1 + (i - Y * m_nWidth s) * 2) by lia.
      rewrite Z.mod_mul, Z_mod_plus_full by lia.
      change (rd (fill_unit 16 c) 0) with (c mod 256).
      change (rd (fill_unit 16 c) (1 mod 2)) with (c / 256 mod 256).
      apply raw_color_bytes2.
    + replace (Y * m_nPitch s <=? 2 * i) with false by (symmetry; apply Z.leb_gt; nia).
      replace (Y * m_nPitch s <=? 2 * i + 1) with false by (symmetry; apply Z.leb_gt; nia).
      reflexivity.
  - cbn [load_le]. rewrite !Hrd by lia.
    destruct (Z.leb_spec Y y).
    + repeat match goal with
      | |- context [(Y * m_nPitch s <=? ?a) && (?a <? m_nHeight s * m_nPitch s)] =>
          replace ((Y * m_nPitch s <=? a) && (a <? m_nHeight s * m_nPitch s)) with true
            by (symmetry; apply andb_true_iff; split; [apply Z.leb_le | apply Z.ltb_lt]; nia)
      end.
      replace (4 * i - Y * m_nPitch s) with ((i - Y * m_nWidth s) * 4) by lia.
      replace (4 * i + 1 - Y * m_nPitch s) with (1 + (i - Y * m_nWidth s) * 4) by lia.
      replace (4 * i + 1 + 1 - Y * m_nPitch s) with (2 + (i - Y * m_nWidth s) * 4) by lia.
      replace (4 * i + 1 + 1 + 1 - Y * m_nPitch s) with (3 + (i - Y * m_nWidth s) * 4) by lia.
      rewrite Z.mod_mul, !Z_mod_plus_full by lia.
      change (rd (fill_unit 32 c) 0) with (c mod 256).
      change (rd (fill_unit 32 c) (1 mod 4)) with (c / 256 mod 256).
      change (rd (fill_unit 32 c) (2 mod 4)) with (c / 65536 mod 256).
      change (rd (fill_unit 32 c) (3 mod 4)) with (c / 16777216 mod 256).
      apply raw_color_bytes4.
    + repeat match goal with
      | |- context [Y * m_nPitch s <=? ?a] =>
          replace (Y * m_nPitch s <=? a) with false by (symmetry; apply Z.leb_gt; nia)
      end.
      reflexivity.
Qed.

Section Clearing.

Variable pf : Platform.

Variable s0 : CTRenderer.

Hypothesis Hok0 : surface_ok s0.

Hypothesis Hw0 : 0 < GetCharWidth (pCharGen s0).

Hypothesis Hh0 : 0 < GetCharHeight (pCharGen s0).

Hypothesis Hcx0 : 0 <= m_nCursorX s0 <= m_nUsedWidth s0.

Hypothesis Huw0 : m_nUsedWidth s0 <= m_nWidth s0.

Hypothesis Hcells0 : (m_nUsedWidth s0 - m_nCursorX s0) mod GetCharWidth (pCharGen s0) = 0.

Hypothesis Hcy0 : 0 <= m_nCursorY s0.

Hypothesis Hrow0 : m_nCursorY s0 + GetCharHeight (pCharGen s0) <= m_nHeight s0.

Hypothesis Hsize0 : m_nSize s0 = m_nHeight s0 * m_nPitch s0.

Lemma paints_ClearDisplayEnd :
  paints s0 ClearDisplayEnd
         (fun x y => (m_nCursorX s0 <= x /\ m_nCursorY s0 <= y)
                     \/ m_nCursorY s0 + GetCharHeight (pCharGen s0) <= y).
Proof.
  intros s P Hs Hcl.
  destruct (paints_ClearLineEnd s0 Hok0 Hw0 Hh0 Hcx0 Huw0 Hcells0 Hcy0 Hrow0 s P Hs Hcl)
    as [Hs1 Hcl1].
  unfold ClearDisplayEnd. cbv zeta. set (s1 := ClearLineEnd s) in *.
  pose proof (same_ok s0 Hok0 s1 Hs1) as Hok1.
  destruct (same_fields s0 s1 Hs1) as (Ew & Eh & Ed & Ebg & Ecg & Euw & Ecx & Ecy & Esz & Ept).
  destruct (surface_bounds s0 Hok0) as [HW HH]; [lia|].
  pose proof (ok_pitch s0 Hok0) as Hp. pose proof (ok_pixels s0 Hok0) as Hpx.
  pose proof (ok_bytes s0 Hok0) as Hby. pose proof (ok_width s0 Hok0) as Hwd.
  pose proof (surface_ok_pitch s0 Hok0) as Hpp.
  set (h := GetCharHeight (pCharGen s0)) in *.
  set (Y := m_nCursorY s0 + h) in *.
  match goal with |- context [SetUpdateArea _ _ ?t] => set (sF := t) end.
  assert (HYW : 0 <= Y * m_nWidth s0 <= m_nHeight s0 * m_nWidth s0) by nia.
  assert (HYP : 0 <= Y * m_nPitch s0 <= m_nHeight s0 * m_nPitch s0) by nia.
  assert (Hfill : exists cnt,
    sF = set_m_pBuffer8 (blit (m_pBuffer8 s1) (Y * m_nPitch s0)
                              (fill_elems (m_nDepth s0) (m_BackgroundColor s0) cnt)) s1
    /\ cnt * unit_bytes (m_nDepth s0) = (m_nHeight s0 - Y) * m_nPitch s0).
  { unfold sF. rewrite Ecy, Ecg, Ew, Esz, Ed, Ebg, Hsize0. fold h. fold Y.
    rewrite (u32_small Y) by lia. rewrite (u32_small (Y * m_nWidth s0)) by lia.
    destruct (ok_depth s0 Hok0) as [E | [E | [E | E]]]; rewrite E in *; cbn [Z.eqb Pos.eqb].
    - replace (Y * m_nWidth s0 / 8) with (Y * m_nPitch s0)
        by (apply Z.div_unique_exact; lia).
      eexists. split; [reflexivity|]. rewrite u32_small by lia. change (unit_bytes 1) with 1. lia.
    - replace (Y * m_nWidth s0) with (Y * m_nPitch s0) by lia.
      eexists. split; [reflexivity|]. rewrite u32_small by lia. change (unit_bytes 8) with 1. lia.
    - replace (2 * (Y * m_nWidth s0)) with (Y * m_nPitch s0) by lia.
      eexists. split; [reflexivity|].
      replace (m_nHeight s0 * m_nPitch s0 / 2) with (m_nHeight s0 * m_nWidth s0)
        by (apply Z.div_unique_exact; lia).
      rewrite u32_small by lia. change (unit_bytes 16) with 2. lia.
    - replace (4 * (Y * m_nWidth s0)) with (Y * m_nPitch s0) by lia.
      eexists. split; [reflexivity|].
      replace (m_nHeight s0 * m_nPitch s0 / 4) with (m_nHeight s0 * m_nWidth s0)
        by (apply Z.div_unique_exact; lia).
      rewrite u32_small by lia. change (unit_bytes 32) with 4. lia. }
  destruct Hfill as (cnt & HsF & Hcnt). clearbody sF. subst sF.
  set (sF := set_m_pBuffer8 _ s1).
  assert (Hc0 : 0 <= cnt).
  { assert (0 < unit_bytes (m_nDepth s0)) by (unfold unit_bytes; repeat case_match; lia). nia. }
  assert (HsF : same s0 sF).
  { destruct Hs1 as [Hc1 Hl1]. split; [exact Hc1|].
    unfold sF. change (m_pBuffer8 (set_m_pBuffer8 ?b s1)) with b.
    rewrite blit_length; [exact Hl1 | lia |].
    pose proof (fill_elems_length (m_nDepth s0) (m_BackgroundColor s0) cnt Hc0) as Hfl.
    rewrite (fill_unit_bytes _ _ (ok_depth s0 Hok0)) in Hfl.
    pose proof (ok_length s1 Hok1). lia. }
  assert (HclF : cleared s0
            (fun x y => P x y \/ ((m_nCursorX s0 <= x /\ m_nCursorY s0 <= y) \/ Y <= y)) sF).
  { intros x y Hx Hy HP.
    pose proof (GetRawPixel_fill s1 Y cnt (m_BackgroundColor s0) x y Hok1) as HF.
    rewrite Ew, Eh, Ed, Ept in HF. unfold sF. rewrite HF by lia.
    destruct (Z.leb_spec Y y) as [Hle | Hlt]; [reflexivity|].
    apply Hcl1; [exact Hx | exact Hy |]. cbv beta in HP. unfold Y in Hlt.
    destruct HP as [HP | [[? ?] | ?]]; [by left | right; lia | lia]. }
  destruct (paints_SetUpdateArea s0 (m_nCursorY sF) (u32 (m_nHeight sF - 1)) sF _ HsF HclF)
    as [H1 H2].
  split; [exact H1|]. intros x y Hx Hy HP. apply H2; auto.
Qed.

End Clearing.

Section Clear.

Variable pf : Platform.

Lemma Write_hidden cs s :
  m_bCursorVisible s = false ->
  control (snd (Write pf cs s)) = control (Write_chars pf cs s)
  /\ m_pBuffer8 (snd (Write pf cs s)) = m_pBuffer8 (Write_chars pf cs s).
Proof.
  intros Hv. unfold Write. rewrite Hv. cbn [andb snd].
  case_match; split; reflexivity.
Qed.

Lemma csi_2_J s :
  m_State s = StateStart -> m_bVT52Mode s = false ->
  Write_chars pf [ESC; chr "["; chr "2"; chr "J"] s
  = set_m_State StateStart
      (set_m_nCursorY (m_nCursorY s)
         (set_m_nCursorX (m_nCursorX s)
            (ClearDisplayEnd
               (set_m_nCursorY 0
                  (set_m_nCursorX 0
                     (set_m_State StateNumber1 (set_m_nParam1 2 (set_m_nParam2 0 s)))))))).
Proof.
  intros Hs Hv.
  change [ESC; chr "["; chr "2"; chr "J"] with ([ESC; chr "["] ++ [chr "2"; chr "J"]).
  rewrite Write_chars_app, csi_intro by assumption.
  unfold Write_chars. cbn [foldl].
  set (s0 := set_m_State StateBracket (set_m_nParam1 0 (set_m_nParam2 0 s))).
  assert (E1 : Write_char pf (chr "2") s0
               = set_m_State StateNumber1 (set_m_nParam1 2 (set_m_nParam2 0 s))).
  { unfold Write_char. reflexivity. }
  rewrite E1. clear E1.
  unfold Write_char. reflexivity.
Qed.

Lemma csi_H s :
  m_State s = StateStart -> m_bVT52Mode s = false ->
  Write_chars pf [ESC; chr "["; chr "H"] s
  = set_m_State StateStart
      (CursorHome (set_m_State StateBracket (set_m_nParam1 0 (set_m_nParam2 0 s)))).
Proof.
  intros Hs Hv.
  change [ESC; chr "["; chr "H"] with ([ESC; chr "["] ++ [chr "H"]).
  rewrite Write_chars_app, csi_intro by assumption.
  unfold Write_chars. cbn [foldl]. unfold Write_char.
  cbn [m_State set_m_State set_m_nParam1 set_m_nParam2]. reflexivity.
Qed.

Lemma screen_ok_origin s :
  screen_ok s ->
  let sZ := set_m_nCursorY 0 (set_m_nCursorX 0
              (set_m_State StateNumber1 (set_m_nParam1 2 (set_m_nParam2 0 s)))) in
  forall x y, 0 <= x < m_nWidth s -> 0 <= y < m_nHeight s ->
    GetRawPixel x y (ClearDisplayEnd sZ) = m_BackgroundColor s.
Proof.
  intros [Hok Hsz Hw Hfit Huw Hcells Hbg] sZ x y Hx Hy.
  assert (Hok' : surface_ok sZ) by (destruct Hok; constructor; assumption).
  pose proof (ok_height s Hok) as Hh.
  assert (Hp : paints sZ ClearDisplayEnd
            (fun x y => (m_nCursorX sZ <= x /\ m_nCursorY sZ <= y)
                        \/ m_nCursorY sZ + GetCharHeight (pCharGen sZ) <= y)).
  { apply paints_ClearDisplayEnd; try assumption.
    - change (0 <= 0 <= m_nUsedWidth s). lia.
    - exact (proj2 Huw).
    - change ((m_nUsedWidth s - 0) mod GetCharWidth (pCharGen s) = 0).
      rewrite Z.sub_0_r. exact Hcells.
    - change (0 <= 0). lia. }
  destruct (Hp sZ (fun _ _ => False) (same_refl sZ)) as [_ Hcl].
  { intros ? ? _ _ []. }
  rewrite (Hcl x y Hx Hy).
  - apply raw_color_small; [exact (ok_depth s Hok) | exact Hbg].
  - right. left. change (0 <= x /\ 0 <= y). lia.
Qed.

Lemma control_keeps s s' :
  control s' = control s ->
  m_bVT52Mode s' = m_bVT52Mode s /\ m_nScrollStart s' = m_nScrollStart s.
Proof. intros Hc. control_inv Hc. split; congruence. Qed.

Lemma control_pixels s s' :
  control s' = control s -> m_pBuffer8 s' = m_pBuffer8 s ->
  (forall x y, GetRawPixel x y s' = GetRawPixel x y s)
  /\ m_nCursorX s' = m_nCursorX s /\ m_nCursorY s' = m_nCursorY s.
Proof.
  intros Hc Hb. control_inv Hc. repeat split; try congruence.
  intros x y. apply GetRawPixel_ext; congruence.
Qed.

Lemma ClearDisplayEnd_keeps s :
  m_bVT52Mode (ClearDisplayEnd s) = m_bVT52Mode s
  /\ m_nScrollStart (ClearDisplayEnd s) = m_nScrollStart s.
Proof. apply control_keeps, ClearDisplayEnd_control. Qed.

Lemma clear_and_home_run s :
  m_State s = StateStart -> m_bVT52Mode s = false ->
  exists r,
    Write_chars pf clear_and_home s = r
    /\ (forall x y,
          GetRawPixel x y r
          = GetRawPixel x y (ClearDisplayEnd
              (set_m_nCursorY 0 (set_m_nCursorX 0
                 (set_m_State StateNumber1 (set_m_nParam1 2 (set_m_nParam2 0 s)))))))
    /\ m_nCursorX r = 0 /\ m_nCursorY r = m_nScrollStart s.
Proof.
  intros Hs Hv. eexists. split; [reflexivity|].
  unfold clear_and_home.
  change [ESC; chr "["; chr "2"; chr "J"; ESC; chr "["; chr "H"]
    with ([ESC; chr "["; chr "2"; chr "J"] ++ [ESC; chr "["; chr "H"]).
  rewrite Write_chars_app. rewrite csi_2_J by assumption.
  generalize (set_m_nCursorY 0 (set_m_nCursorX 0
                (set_m_State StateNumber1 (set_m_nParam1 2 (set_m_nParam2 0 s))))),
    (eq_refl : m_bVT52Mode (set_m_nCursorY 0 (set_m_nCursorX 0
                (set_m_State StateNumber1 (set_m_nParam1 2 (set_m_nParam2 0 s)))))
               = m_bVT52Mode s),
    (eq_refl : m_nScrollStart (set_m_nCursorY 0 (set_m_nCursorX 0
                (set_m_State StateNumber1 (set_m_nParam1 2 (set_m_nParam2 0 s)))))
               = m_nScrollStart s).
  intros sZ EZv EZs.
  pose proof (ClearDisplayEnd_control sZ) as Hc.
  generalize dependent (ClearDisplayEnd sZ). intros sC Hc.
  destruct (control_keeps _ _ Hc) as (Kv & Ks).
  rewrite csi_H; [|reflexivity|cbn; congruence].
  split; [|split].
  - intros x y. apply GetRawPixel_ext; reflexivity.
  - reflexivity.
  - cbn. congruence.
Qed.

(** C2 (amended).  On a well-formed screen in ANSI mode, [ESC [ 2 J] followed
    by [ESC [ H] leaves every pixel of the surface equal to the background
    colour and the cursor in column 0 of the first row of the scroll region,
    pixel position [(0, m_nScrollStart)]; that is (0,0) only when the scroll
    region starts at the top.  This is the state after the bytes went through
    [Write(char)]; it is also the state the public [Write] returns when the
    cursor was not shown on entry (otherwise [Write] draws the cursor again
    over its cell). *)
Theorem clear_screen_and_home (s : CTRenderer) :
  m_State s = StateStart -> m_bVT52Mode s = false -> screen_ok s ->
  cleared_and_home s (Write_chars pf clear_and_home s)
  /\ (m_bCursorVisible s = false ->
      cleared_and_home s (snd (Write pf clear_and_home s))).
Proof.
  intros Hs Hv Hok.
  assert (Hmain : cleared_and_home s (Write_chars pf clear_and_home s)).
  { destruct (clear_and_home_run s Hs Hv) as (r & -> & Epx & Ex & Ey).
    split; [|split; assumption].
    intros x y Hx Hy. rewrite Epx. exact (screen_ok_origin s Hok x y Hx Hy). }
  split; [exact Hmain|]. intros Hcv.
  destruct (Write_hidden clear_and_home s Hcv) as [Hc Hb].
  destruct (control_pixels _ _ Hc Hb) as (Epx & Ex & Ey).
  destruct Hmain as (Hpx & Hx & Hy). split; [|split].
  - intros x y Hx' Hy'. rewrite Epx. exact (Hpx x y Hx' Hy').
  - rewrite Ex. exact Hx.
  - rewrite Ey. exact Hy.
Qed.

End Clear.

(** *** What drawing the cursor changes *)

Lemma repainted_refl s : repainted (m_bCursorVisible s) s s.
Proof.
  exists (m_pBuffer8 s), (m_pCursorPixels s), (m_UpdateArea s). destruct s; reflexivity.
Qed.

Lemma repainted_buffer vis s s' buf :
  repainted vis s s' -> repainted vis s (set_m_pBuffer8 buf s').
Proof. intros (b & p & a & ->). exists buf, p, a. destruct s; reflexivity. Qed.

Lemma repainted_pixels vis s s' px :
  repainted vis s s' -> repainted vis s (set_m_pCursorPixels px s').
Proof. intros (b & p & a & ->). exists b, px, a. destruct s; reflexivity. Qed.

Lemma repainted_area vis s s' area :
  repainted vis s s' -> repainted vis s (set_m_UpdateArea area s').
Proof. intros (b & p & a & ->). exists b, p, area. destruct s; reflexivity. Qed.

Lemma repainted_visible vis v s s' :
  repainted vis s s' -> repainted v s (set_m_bCursorVisible v s').
Proof. intros (b & p & a & ->). exists b, p, a. destruct s; reflexivity. Qed.

Lemma repainted_SetRawPixel vis s s' x y c :
  repainted vis s s' -> repainted vis s (SetRawPixel x y c s').
Proof.
  intros H. unfold SetRawPixel.
  repeat case_match; try apply repainted_buffer; exact H.
Qed.

Lemma repainted_SetUpdateArea vis s s' a b :
  repainted vis s s' -> repainted vis s (SetUpdateArea a b s').
Proof.
  intros H. unfold SetUpdateArea.
  repeat case_match; repeat apply repainted_area; exact H.
Qed.

Lemma repainted_visible_flag vis s s' : repainted vis s s' -> m_bCursorVisible s' = vis.
Proof. intros (b & p & a & ->). reflexivity. Qed.

Lemma InvertCursor_repainted s :
  repainted (if m_bCursorOn s then negb (m_bCursorVisible s) else m_bCursorVisible s)
            s (InvertCursor s).
Proof.
  unfold InvertCursor. destruct (m_bCursorOn s); cbn [negb]; [|apply repainted_refl].
  cbv zeta.
  match goal with |- context [SetUpdateArea _ _ (set_m_bCursorVisible _ ?t)] =>
    assert (Hl : repainted (m_bCursorVisible s) s t); [|set (sL := t) in *; clearbody sL]
  end.
  { apply for_range_inv; [|apply repainted_refl]. intros y s1 _ H1.
    apply for_range_inv; [|exact H1]. intros x s2 _ H2.
    case_match.
    - apply repainted_SetRawPixel, repainted_pixels. exact H2.
    - apply repainted_SetRawPixel. exact H2. }
  apply repainted_SetUpdateArea.
  rewrite (repainted_visible_flag _ _ _ Hl).
  eapply repainted_visible. exact Hl.
Qed.

Section Fonts.

Variable pf : Platform.

Lemma hide_cursor_repainted s :
  exists vis buf px area,
    (if m_bCursorVisible s then InvertCursor (set_m_bBlinkingCursor false s)
     else set_m_bBlinkingCursor false s)
    = set_m_UpdateArea area
        (set_m_bCursorVisible vis
           (set_m_pCursorPixels px (set_m_pBuffer8 buf (set_m_bBlinkingCursor false s))))
    /\ (m_bCursorVisible s = false -> vis = false).
Proof.
  destruct (m_bCursorVisible s) eqn:Ev.
  - destruct (InvertCursor_repainted (set_m_bBlinkingCursor false s))
      as (buf & px & area & E).
    eexists _, buf, px, area. split; [exact E | discriminate].
  - destruct (repainted_refl (set_m_bBlinkingCursor false s)) as (buf & px & area & E).
    exists false, buf, px, area. split; [|reflexivity].
    rewrite E at 1. change (m_bCursorVisible (set_m_bBlinkingCursor false s))
      with (m_bCursorVisible s). rewrite Ev. reflexivity.
Qed.

(** C6 (amended).  When the allocation of the character generator or of the
    cursor scratch buffer fails, [SetFont] returns FALSE with the font, the
    font flags, the colours, the cursor position and mode, the blinking flag,
    the scroll region and the geometry as they were before the call; but the
    previous character generator has been deleted ([m_pCharGen] is null) and
    the cursor is left not visible, whatever it was before. *)
Theorem SetFont_failure rFont FontFlags s :
  heap_grants s (heap_requests s) = false
  \/ heap_grants s (S (S (heap_requests s))) = false ->
  let r := SetFont pf rFont FontFlags s in
  fst r = false
  /\ m_pCharGen (snd r) = None
  /\ m_bCursorVisible (snd r) = false
  /\ font_state (snd r) = font_state s.
Proof.
  intros Hheap. unfold SetFont. cbv zeta.
  destruct (hide_cursor_repainted s) as (vis & buf & px & area & E & Hvis).
  rewrite E. clear E. unfold operator_new.
  cbn [heap_grants heap_requests set_m_UpdateArea set_m_bCursorVisible set_m_pCursorPixels
       set_m_pBuffer8 set_m_bBlinkingCursor set_m_pCharGen set_heap_requests
       set_m_pGraphicsCharGen m_pCharGen].
  destruct (heap_grants s (heap_requests s)) eqn:E1.
  - destruct Hheap as [?|E3]; [discriminate|]. rewrite E3. cbn [negb]. unfold font_state.
    destruct (m_bCursorVisible s); repeat split; try reflexivity; auto.
  - unfold font_state.
    destruct (m_bCursorVisible s); repeat split; try reflexivity; auto.
Qed.

Lemma cell_clamp a n w :
  0 < w -> 0 < n -> 0 <= a -> n * w < 4294967296 ->
  u32 ((if a >=? n then u32 (n - 1) else a) * w) = Z.min a (n - 1) * w
  /\ 0 <= Z.min a (n - 1) * w.
Proof.
  intros Hw Hn Ha Hb.
  assert (Hm : (if a >=? n then u32 (n - 1) else a) = Z.min a (n - 1)).
  { destruct (Z.geb_spec a n); [rewrite u32_small by nia|]; lia. }
  rewrite Hm. split; [|nia]. apply u32_small. nia.
Qed.

Lemma SetFont_install_spec rFont FontFlags cg vis blink col row cnt sA :
  m_pCharGen sA = Some cg ->
  0 < GetCharWidth cg <= m_nWidth sA -> 0 < GetCharHeight cg <= m_nHeight sA ->
  m_nWidth sA < 4294967296 -> m_nHeight sA < 4294967296 ->
  0 <= col -> 0 <= row ->
  let s' := SetFont_install rFont FontFlags cg vis blink col row cnt sA in
  m_pCharGen s' = Some cg
  /\ m_nWidth s' = m_nWidth sA /\ m_nHeight s' = m_nHeight sA
  /\ m_nCursorX s' = Z.min col (m_nWidth sA / GetCharWidth cg - 1) * GetCharWidth cg
  /\ m_nCursorY s' = Z.min row (m_nHeight sA / GetCharHeight cg - 1) * GetCharHeight cg
  /\ m_bCursorVisible s' = vis && m_bCursorOn sA.
Proof.
  intros Hcg Hw Hh HW HH Hcol Hrow.
  assert (Hnc : 0 < m_nWidth sA / GetCharWidth cg) by (apply Z.div_str_pos; lia).
  assert (Hnr : 0 < m_nHeight sA / GetCharHeight cg) by (apply Z.div_str_pos; lia).
  pose proof (Z.mul_div_le (m_nWidth sA) (GetCharWidth cg) ltac:(lia)) as Hcw.
  pose proof (Z.mul_div_le (m_nHeight sA) (GetCharHeight cg) ltac:(lia)) as Hch.
  destruct (cell_clamp col (m_nWidth sA / GetCharWidth cg) (GetCharWidth cg))
    as [Ex Ex0]; [lia | lia | lia | lia |].
  destruct (cell_clamp row (m_nHeight sA / GetCharHeight cg) (GetCharHeight cg))
    as [Ey Ey0]; [lia | lia | lia | lia |].
  unfold SetFont_install. cbv zeta. unfold GetColumns, GetRows.
  cbn [m_pCharGen m_nWidth m_nHeight set_m_pCursorPixels set_m_pFont set_m_FontFlags
       set_m_nUsedWidth set_m_nUsedHeight set_m_nScrollEnd].
  rewrite Hcg.
  replace (m_nWidth sA / GetCharWidth cg >? 0) with true by (symmetry; apply Z.gtb_lt; lia).
  replace (m_nHeight sA / GetCharHeight cg >? 0) with true by (symmetry; apply Z.gtb_lt; lia).
  rewrite Ex, Ey.
  match goal with |- context [set_m_bCursorVisible false ?t] =>
    set (sB := set_m_bCursorVisible false t) end.
  assert (Hinv : repainted (vis && m_bCursorOn sA) sB
                   (if vis && m_bCursorOn sB then InvertCursor sB else sB)).
  { change (m_bCursorOn sB) with (m_bCursorOn sA).
    destruct (vis && m_bCursorOn sA) eqn:Ec.
    - apply andb_true_iff in Ec as [_ Eon].
      pose proof (InvertCursor_repainted sB) as H.
      change (m_bCursorOn sB) with (m_bCursorOn sA) in H. rewrite Eon in H. exact H.
    - apply (repainted_refl sB). }
  destruct Hinv as (buf & px & area & ->). unfold GetTicks.
  cbn [m_bBlinkingCursor set_m_bBlinkingCursor].
  unfold sB. destruct blink; repeat split; try reflexivity; exact Hcg.
Qed.

Lemma old_cursor_cell s :
  match m_pCharGen s with
  | Some cg => if negb (GetCharWidth cg =? 0) then m_nCursorX s / GetCharWidth cg else 0
  | None => 0
  end = GetCursorColumn s
  /\ match m_pCharGen s with
     | Some cg => if negb (GetCharHeight cg =? 0) then m_nCursorY s / GetCharHeight cg else 0
     | None => 0
     end = GetCursorRow s.
Proof.
  unfold GetCursorColumn, GetCursorRow. destruct (m_pCharGen s) as [cg|]; [|split; reflexivity].
  destruct (GetCharWidth cg =? 0), (GetCharHeight cg =? 0); split; reflexivity.
Qed.

(** C7 (amended).  When [SetFont] succeeds on a surface that holds at least
    one cell of the new font, the new generator is installed, the cursor
    keeps its column and row, clamped to the last column and row of the new
    grid, its pixel position is that column and row times the new cell size,
    and the cursor is visible afterwards exactly when it was visible before
    and the cursor is switched on ([m_bCursorOn]). *)
Theorem SetFont_success rFont FontFlags s :
  let cg := CCharGenerator_new pf rFont FontFlags in
  let r := SetFont pf rFont FontFlags s in
  fst r = true ->
  0 < GetCharWidth cg <= m_nWidth s -> 0 < GetCharHeight cg <= m_nHeight s ->
  m_nWidth s < 4294967296 -> m_nHeight s < 4294967296 ->
  0 <= GetCursorColumn s -> 0 <= GetCursorRow s ->
  m_pCharGen (snd r) = Some cg
  /\ GetCursorColumn (snd r) = Z.min (GetCursorColumn s) (GetColumns (snd r) - 1)
  /\ GetCursorRow (snd r) = Z.min (GetCursorRow s) (GetRows (snd r) - 1)
  /\ m_nCursorX (snd r) = GetCursorColumn (snd r) * GetCharWidth cg
  /\ m_nCursorY (snd r) = GetCursorRow (snd r) * GetCharHeight cg
  /\ m_bCursorVisible (snd r) = m_bCursorVisible s && m_bCursorOn s.
Proof.
  intros cg r. subst r. unfold SetFont. cbv zeta.
  destruct (old_cursor_cell s) as [-> ->].
  destruct (hide_cursor_repainted s) as (vis & buf & px & area & E & Hvis).
  rewrite E. clear E. unfold operator_new.
  cbn [heap_grants heap_requests set_m_UpdateArea set_m_bCursorVisible set_m_pCursorPixels
       set_m_pBuffer8 set_m_bBlinkingCursor set_m_pCharGen set_heap_requests
       set_m_pGraphicsCharGen m_pCharGen].
  destruct (heap_grants s (heap_requests s)); [|discriminate].
  destruct (heap_grants s (S (S (heap_requests s)))); cbn [negb]; [|discriminate].
  fold cg. cbn [fst snd]. intros _ Hw Hh HW HH Hcol Hrow.
  match goal with |- context [SetFont_install _ _ _ _ _ _ _ ?n ?t] =>
    set (cnt := n); set (sA := t) end.
  destruct (SetFont_install_spec rFont FontFlags cg (m_bCursorVisible s)
              (m_bBlinkingCursor s) (GetCursorColumn s) (GetCursorRow s) cnt sA)
    as (Ecg & EW & EH & EX & EY & EV); try assumption; try reflexivity.
  set (s' := SetFont_install _ _ _ _ _ _ _ _ _) in *. clearbody s'.
  change (m_nWidth sA) with (m_nWidth s) in *. change (m_nHeight sA) with (m_nHeight s) in *.
  change (m_bCursorOn sA) with (m_bCursorOn s) in *.
  unfold GetCursorColumn at 1 3, GetCursorRow at 1 3, GetColumns, GetRows.
  rewrite Ecg, EW, EH, EX, EY.
  replace (GetCharWidth cg =? 0) with false by (symmetry; apply Z.eqb_neq; lia).
  replace (GetCharHeight cg =? 0) with false by (symmetry; apply Z.eqb_neq; lia).
  rewrite !Z.div_mul by lia.
  repeat split; try reflexivity. exact EV.
Qed.

End Fonts.

(** ** The cursor stays on the cell grid *)

Ltac pcg :=
  repeat match goal with
  | |- context [pCharGen (?f ?v ?s)] => change (pCharGen (f v s)) with (pCharGen s)
  end.

Ltac gsimpl :=
  cbn [m_nCursorX m_nCursorY m_nScrollStart m_nScrollEnd m_nUsedWidth m_nUsedHeight
       m_bAutoPage m_nWidth m_nHeight m_pCharGen m_SavedState
       set_m_nCursorX set_m_nCursorY set_m_nScrollStart
       set_m_nScrollEnd set_m_State];
  pcg.

Section Grid.

Variable pf : Platform.

Lemma grid_frame_pCharGen s s' : grid_frame s' = grid_frame s -> pCharGen s' = pCharGen s.
Proof.
  unfold grid_frame, pCharGen. intros E. injection E as -> _ _ _ _ _ _ _ _. reflexivity.
Qed.

Lemma control_grid_frame s s' :
  control s' = control s ->
  grid_frame s' = grid_frame s
  /\ m_nCursorX s' = m_nCursorX s /\ m_nCursorY s' = m_nCursorY s.
Proof.
  intros E. unfold grid_frame. control_inv E. repeat split; congruence.
Qed.

Lemma grid_ok_moved s s' :
  grid_ok s -> grid_frame s' = grid_frame s ->
  (GetCharWidth (pCharGen s) | m_nCursorX s') -> 0 <= m_nCursorX s' < m_nUsedWidth s ->
  (GetCharHeight (pCharGen s) | m_nCursorY s') -> 0 <= m_nCursorY s' < m_nUsedHeight s ->
  grid_ok s'.
Proof.
  intros [G_gen G_w G_h G_uw G_uh G_small G_start G_end G_region G_x G_y G_sx G_sy] E Dx Bx Dy By.
  pose proof (grid_frame_pCharGen _ _ E) as Hcg.
  unfold grid_frame in E. injection E as E1 E2 E3 E4 E5 E6 E7 E8 E9.
  constructor; rewrite ?Hcg, ?E1, ?E2, ?E3, ?E4, ?E5, ?E6, ?E7, ?E8, ?E9;
    try assumption; split; assumption.
Qed.

Lemma grid_ok_same s s' :
  grid_frame s' = grid_frame s ->
  m_nCursorX s' = m_nCursorX s -> m_nCursorY s' = m_nCursorY s ->
  grid_ok s -> grid_ok s'.
Proof.
  intros Ef Ex Ey H. pose proof H as [G_gen G_w G_h G_uw G_uh G_small G_start G_end G_region G_x G_y G_sx G_sy].
  apply (grid_ok_moved s s' H Ef); rewrite ?Ex, ?Ey; tauto.
Qed.

Lemma grid_ok_control s s' : control s' = control s -> grid_ok s -> grid_ok s'.
Proof.
  intros E H. destruct (control_grid_frame _ _ E) as (Ef & Ex & Ey).
  exact (grid_ok_same s s' Ef Ex Ey H).
Qed.

Lemma grid_used_width s :
  grid_ok s ->
  (GetCharWidth (pCharGen s) | m_nUsedWidth s)
  /\ GetCharWidth (pCharGen s) <= m_nUsedWidth s <= m_nWidth s.
Proof.
  intros [G_gen G_w G_h G_uw G_uh G_small G_start G_end G_region G_x G_y G_sx G_sy].
  assert ((GetCharWidth (pCharGen s) | m_nUsedWidth s))
    by (rewrite G_uw; apply Z.divide_factor_r).
  split; [assumption|].
  split; [apply Z.divide_pos_le; [lia | assumption]|].
  rewrite G_uw. rewrite Z.mul_comm. apply Z.mul_div_le. lia.
Qed.

Lemma grid_used_height s :
  grid_ok s ->
  (GetCharHeight (pCharGen s) | m_nUsedHeight s)
  /\ GetCharHeight (pCharGen s) <= m_nUsedHeight s <= m_nHeight s.
Proof.
  intros [G_gen G_w G_h G_uw G_uh G_small G_start G_end G_region G_x G_y G_sx G_sy].
  assert ((GetCharHeight (pCharGen s) | m_nUsedHeight s))
    by (rewrite G_uh; apply Z.divide_factor_r).
  split; [assumption|].
  split; [apply Z.divide_pos_le; [lia | assumption]|].
  rewrite G_uh. rewrite Z.mul_comm. apply Z.mul_div_le. lia.
Qed.

Lemma divide_step_down h y : 0 < h -> (h | y) -> 0 < y -> (h | y - h) /\ 0 <= y - h.
Proof.
  intros Hh D Hy. split.
  - apply Z.divide_sub_r; [exact D | apply Z.divide_refl].
  - pose proof (Z.divide_pos_le h y Hy D). lia.
Qed.

Lemma divide_gap h a b : 0 < h -> (h | a) -> (h | b) -> a < b -> a + h <= b.
Proof.
  intros Hh Da Db Hlt.
  assert (D : (h | b - a)) by (apply Z.divide_sub_r; assumption).
  pose proof (Z.divide_pos_le h (b - a) ltac:(lia) D). lia.
Qed.

Lemma divide_step_up h y : (h | y) -> (h | y + h).
Proof. intros D. apply Z.divide_add_r; [exact D | apply Z.divide_refl]. Qed.

(** The facts of [grid_ok s], in the context. *)
Ltac grid_facts H :=
  let U := fresh "Hused" in
  pose proof (grid_used_width _ H) as U;
  let U' := fresh "Hcell" in
  pose proof (grid_used_height _ H) as U';
  let G := fresh "G" in
  pose proof H as G;
  destruct G as [G_gen G_w G_h G_uw G_uh G_small G_start G_end G_region G_x G_y G_sx G_sy].

Lemma grid_ok_CarriageReturn s : grid_ok s -> grid_ok (CarriageReturn s).
Proof.
  intros H. grid_facts H.
  apply (grid_ok_moved s); [exact H | reflexivity | ..]; unfold CarriageReturn; gsimpl;
    try tauto; [apply Z.divide_0_r | lia].
Qed.

Lemma grid_ok_CursorHome s : grid_ok s -> grid_ok (CursorHome s).
Proof.
  intros H. grid_facts H.
  apply (grid_ok_moved s); [exact H | reflexivity | ..]; unfold CursorHome; gsimpl;
    try tauto; [apply Z.divide_0_r | lia | lia].
Qed.

Lemma grid_ok_origin s : grid_ok s -> grid_ok (set_m_nCursorY 0 (set_m_nCursorX 0 s)).
Proof.
  intros H. grid_facts H.
  apply (grid_ok_moved s); [exact H | reflexivity | ..]; gsimpl;
    try apply Z.divide_0_r; lia.
Qed.

Lemma grid_ok_CursorUp s : grid_ok s -> grid_ok (CursorUp s).
Proof.
  intros H. unfold CursorUp. grid_facts H.
  destruct (Z.gtb_spec (m_nCursorY s) (m_nScrollStart s)); [|exact H].
  destruct (divide_step_down (GetCharHeight (pCharGen s)) (m_nCursorY s)); try tauto; [lia|].
  rewrite u32_small by lia.
  apply (grid_ok_moved s); [exact H | reflexivity | ..]; gsimpl; try tauto; lia.
Qed.

Lemma grid_ok_CursorDown s : grid_ok s -> grid_ok (CursorDown pf s).
Proof.
  intros H. unfold CursorDown. cbv zeta. grid_facts H. gsimpl.
  rewrite (u32_small (m_nCursorY s + _)) by lia.
  destruct (Z.geb_spec (m_nCursorY s + GetCharHeight (pCharGen s)) (m_nScrollEnd s)).
  - destruct (m_bAutoPage s); cbn [negb].
    + apply (grid_ok_moved s); [exact H | reflexivity | ..]; gsimpl; try tauto; lia.
    + set (s1 := set_m_nCursorY _ s).
      destruct (control_grid_frame _ _ (Scroll_control pf s1)) as (Ef & Ex & Ey).
      pose proof (grid_frame_pCharGen _ _ Ef) as Ecg.
      apply (grid_ok_moved s); [exact H | exact Ef | ..]; gsimpl;
        rewrite ?Ex, ?Ey, ?Ecg; unfold s1; gsimpl; try tauto.
      * replace (m_nCursorY s + GetCharHeight (pCharGen s) - GetCharHeight (pCharGen s))
          with (m_nCursorY s) by lia.
        rewrite u32_small by lia. tauto.
      * replace (m_nCursorY s + GetCharHeight (pCharGen s) - GetCharHeight (pCharGen s))
          with (m_nCursorY s) by lia.
        rewrite u32_small by lia. lia.
  - apply (grid_ok_moved s); [exact H | reflexivity | ..]; gsimpl; try tauto;
      [apply divide_step_up; tauto | lia].
Qed.

Lemma grid_ok_NewLine s : grid_ok s -> grid_ok (NewLine pf s).
Proof. intros H. apply grid_ok_CursorDown, grid_ok_CarriageReturn, H. Qed.

Lemma grid_ok_CursorLeft s : grid_ok s -> grid_ok (CursorLeft s).
Proof.
  intros H. unfold CursorLeft. grid_facts H.
  destruct (Z.gtb_spec (m_nCursorX s) 0).
  - destruct (divide_step_down (GetCharWidth (pCharGen s)) (m_nCursorX s)); try tauto.
    rewrite u32_small by lia.
    apply (grid_ok_moved s); [exact H | reflexivity | ..]; gsimpl; try tauto; lia.
  - destruct (Z.gtb_spec (m_nCursorY s) (m_nScrollStart s)); [|exact H].
    destruct (divide_step_down (GetCharHeight (pCharGen s)) (m_nCursorY s)); try tauto; [lia|].
    cbv zeta. gsimpl. rewrite !u32_small by lia.
    apply (grid_ok_moved s); [exact H | reflexivity | ..]; gsimpl; try tauto; try lia.
    apply Z.divide_sub_r; [tauto | apply Z.divide_refl].
Qed.

Lemma grid_ok_CursorRight s : grid_ok s -> grid_ok (CursorRight pf s).
Proof.
  intros H. unfold CursorRight. cbv zeta. grid_facts H. gsimpl.
  rewrite u32_small by lia.
  destruct (Z.geb_spec (m_nCursorX s + GetCharWidth (pCharGen s)) (m_nUsedWidth s)).
  - change (NewLine pf (set_m_nCursorX (m_nCursorX s + GetCharWidth (pCharGen s)) s))
      with (NewLine pf s).
    apply grid_ok_NewLine, H.
  - apply (grid_ok_moved s); [exact H | reflexivity | ..]; gsimpl; try tauto;
      [apply divide_step_up; tauto | lia].
Qed.

Lemma grid_ok_CursorMove r c s :
  grid_ok s -> 0 <= r <= 255 -> 0 <= c <= 255 -> grid_ok (CursorMove r c s).
Proof.
  intros H Hr Hc. unfold CursorMove. cbv zeta. grid_facts H.
  destruct (Z.eq_dec c 0) as [->|Nc].
  { replace (u32 ((0 - 1) * GetCharWidth (pCharGen s)))
      with (4294967296 - GetCharWidth (pCharGen s)).
    - destruct (Z.ltb_spec (4294967296 - GetCharWidth (pCharGen s)) (m_nUsedWidth s));
        [lia | exact H].
    - unfold u32. apply (Z.mod_unique_pos _ _ (-1)); lia. }
  destruct (Z.eq_dec r 0) as [->|Nr].
  { replace (u32 ((0 - 1) * GetCharHeight (pCharGen s)))
      with (4294967296 - GetCharHeight (pCharGen s)).
    - destruct (Z.ltb_spec (4294967296 - GetCharHeight (pCharGen s)) (m_nUsedHeight s));
        [lia | rewrite andb_false_r; exact H].
    - unfold u32. apply (Z.mod_unique_pos _ _ (-1)); lia. }
  assert (0 <= (c - 1) * GetCharWidth (pCharGen s) <= 254 * GetCharWidth (pCharGen s))
    by (split; [apply Z.mul_nonneg_nonneg | apply Z.mul_le_mono_nonneg_r]; lia).
  assert (0 <= (r - 1) * GetCharHeight (pCharGen s) <= 254 * GetCharHeight (pCharGen s))
    by (split; [apply Z.mul_nonneg_nonneg | apply Z.mul_le_mono_nonneg_r]; lia).
  rewrite !u32_small by lia.
  destruct (Z.ltb_spec ((c - 1) * GetCharWidth (pCharGen s)) (m_nUsedWidth s)); [|exact H].
  destruct (Z.ltb_spec ((r - 1) * GetCharHeight (pCharGen s)) (m_nUsedHeight s)); [|exact H].
  cbn [andb].
  apply (grid_ok_moved s); [exact H | reflexivity | ..]; gsimpl;
    try apply Z.divide_factor_r; lia.
Qed.

Lemma grid_ok_region a b s :
  grid_ok s ->
  (GetCharHeight (pCharGen s) | a) -> (GetCharHeight (pCharGen s) | b) ->
  0 <= a < b -> b <= m_nUsedHeight s ->
  grid_ok (CursorHome (set_m_nScrollEnd b (set_m_nScrollStart a s))).
Proof.
  intros H Da Db Hab Hb. grid_facts H.
  constructor; unfold CursorHome; gsimpl; try assumption; try tauto;
    try (split; [apply Z.divide_0_r | lia]); try (split; [assumption | lia]); lia.
Qed.

Lemma u32_minus_cell h : 0 < h < 4294967296 -> u32 ((0 - 1) * h) = 4294967296 - h.
Proof. intros Hh. unfold u32. symmetry. apply (Z.mod_unique_pos _ _ (-1)); lia. Qed.

Lemma grid_ok_SetScrollRegion a b s :
  grid_ok s -> 0 <= a <= 199 -> 0 <= b <= 199 -> grid_ok (SetScrollRegion a b s).
Proof.
  intros H Ha Hb. unfold SetScrollRegion. cbv zeta. grid_facts H.
  set (h := GetCharHeight (pCharGen s)) in *.
  assert (0 <= b * h <= 199 * h)
    by (split; [apply Z.mul_nonneg_nonneg | apply Z.mul_le_mono_nonneg_r]; lia).
  rewrite (u32_small (b * h)) by lia.
  match goal with |- grid_ok (CursorHome (if ?c then _ else _)) => destruct c eqn:Hc end;
    [|apply grid_ok_CursorHome, H].
  apply andb_prop in Hc as [Hc H4]. apply andb_prop in Hc as [Hc H3].
  apply andb_prop in Hc as [H1 H2].
  apply Z.ltb_lt in H1, H4. apply Z.leb_le in H3.
  destruct (Z.eq_dec a 0) as [->|Na].
  { rewrite u32_minus_cell in H1 by lia. lia. }
  assert (0 <= (a - 1) * h <= 198 * h)
    by (split; [apply Z.mul_nonneg_nonneg | apply Z.mul_le_mono_nonneg_r]; lia).
  rewrite (u32_small ((a - 1) * h)) in * by lia.
  apply grid_ok_region; try assumption; try apply Z.divide_factor_r. lia.
Qed.

Lemma pCharGen_Some s cg : m_pCharGen s = Some cg -> cg = pCharGen s.
Proof. unfold pCharGen. intros ->. reflexivity. Qed.

Lemma NewLine_set_X v s : NewLine pf (set_m_nCursorX v s) = NewLine pf s.
Proof. reflexivity. Qed.

Lemma grid_columns s :
  grid_ok s ->
  GetColumns s = m_nWidth s / GetCharWidth (pCharGen s)
  /\ m_nUsedWidth s = GetColumns s * GetCharWidth (pCharGen s)
  /\ 0 < GetColumns s.
Proof.
  intros H. grid_facts H. unfold GetColumns.
  destruct (m_pCharGen s) as [cg|] eqn:Hcg; [|destruct G_gen; discriminate].
  rewrite (pCharGen_Some s cg Hcg).
  split; [reflexivity|]. split; [assumption|].
  destruct (Z.le_gt_cases (m_nWidth s / GetCharWidth (pCharGen s)) 0); nia.
Qed.

Lemma grid_cursor_column s :
  grid_ok s ->
  m_nCursorX s = m_nCursorX s / GetCharWidth (pCharGen s) * GetCharWidth (pCharGen s).
Proof.
  intros H. grid_facts H. destruct G_x as [[k Hk] _]. rewrite Hk at 1.
  rewrite Hk, Z.div_mul by lia. reflexivity.
Qed.

Lemma find_seqZ_Some (f : Z -> bool) lo n col :
  find f (seqZ lo n) = Some col -> lo <= col < lo + n.
Proof.
  intros Hf. apply find_some in Hf as [Hin _].
  apply list_elem_of_In, elem_of_seqZ in Hin. lia.
Qed.

Lemma find_rev_seqZ_Some (f : Z -> bool) lo n col :
  find f (reverse (seqZ lo n)) = Some col -> lo <= col < lo + n.
Proof.
  intros Hf. apply find_some in Hf as [Hin _].
  apply list_elem_of_In, elem_of_reverse, elem_of_seqZ in Hin. lia.
Qed.

Lemma grid_ok_Tabulator s : grid_ok s -> grid_ok (Tabulator pf s).
Proof.
  intros H. unfold Tabulator. cbv zeta. grid_facts H.
  destruct (grid_columns s H) as (Ecols & Eused & Hcols).
  pose proof (grid_cursor_column s H) as Ex.
  destruct (m_pCharGen s) as [cg|] eqn:Hcg; [|exact H].
  rewrite (pCharGen_Some s cg Hcg).
  set (w := GetCharWidth (pCharGen s)) in *.
  destruct (Z.eqb_spec w 0); [exact H|].
  match goal with |- grid_ok (match ?o with Some _ => _ | None => _ end) =>
    destruct o as [col|] eqn:Hstop end.
  - destruct (GetColumns s >? 0); [|discriminate].
    apply find_seqZ_Some in Hstop.
    assert (0 <= m_nCursorX s / w) by (apply Z.div_pos; lia).
    assert (0 <= col * w < m_nUsedWidth s) by nia.
    rewrite u32_small by lia.
    apply (grid_ok_moved s); [exact H | reflexivity | ..]; gsimpl; try tauto;
      try apply Z.divide_factor_r; lia.
  - gsimpl. rewrite (u32_small (w * 8)) by lia.
    rewrite (u32_small (m_nCursorX s + w * 8)) by lia.
    assert (0 <= (m_nCursorX s + w * 8) / (w * 8)) by (apply Z.div_pos; lia).
    assert ((m_nCursorX s + w * 8) / (w * 8) * (w * 8) <= m_nCursorX s + w * 8)
      by (rewrite Z.mul_comm; apply Z.mul_div_le; lia).
    rewrite u32_small by lia.
    destruct (Z.geb_spec ((m_nCursorX s + w * 8) / (w * 8) * (w * 8)) (m_nUsedWidth s)).
    + rewrite NewLine_set_X. apply grid_ok_NewLine, H.
    + apply (grid_ok_moved s); [exact H | reflexivity | ..]; gsimpl; try tauto; try lia.
      exists ((m_nCursorX s + w * 8) / (w * 8) * 8). fold w. lia.
Qed.

Lemma grid_ok_BackTabulator s : grid_ok s -> grid_ok (BackTabulator s).
Proof.
  intros H. unfold BackTabulator. cbv zeta. grid_facts H.
  destruct (grid_columns s H) as (Ecols & Eused & Hcols).
  pose proof (grid_cursor_column s H) as Ex.
  destruct (m_pCharGen s) as [cg|] eqn:Hcg; [|exact H].
  rewrite (pCharGen_Some s cg Hcg).
  set (w := GetCharWidth (pCharGen s)) in *.
  destruct (Z.eqb_spec w 0); [exact H|].
  match goal with |- grid_ok (match ?o with Some _ => _ | None => _ end) =>
    destruct o as [col|] eqn:Hstop end.
  - destruct (GetColumns s >? 0); [|discriminate].
    apply find_rev_seqZ_Some in Hstop.
    assert (0 <= col * w < m_nUsedWidth s) by nia.
    rewrite u32_small by lia.
    apply (grid_ok_moved s); [exact H | reflexivity | ..]; gsimpl; try tauto;
      try apply Z.divide_factor_r; lia.
  - rewrite (u32_small (w * 8)) by lia.
    destruct (Z.geb_spec (m_nCursorX s) (w * 8)).
    + rewrite (u32_small (m_nCursorX s - 1)) by lia.
      assert (0 <= (m_nCursorX s - 1) / (w * 8)) by (apply Z.div_pos; lia).
      assert ((m_nCursorX s - 1) / (w * 8) * (w * 8) <= m_nCursorX s - 1)
        by (rewrite Z.mul_comm; apply Z.mul_div_le; lia).
      rewrite u32_small by lia.
      apply (grid_ok_moved s); [exact H | reflexivity | ..]; gsimpl; try tauto; try lia.
      exists ((m_nCursorX s - 1) / (w * 8) * 8). fold w. lia.
    + apply (grid_ok_moved s); [exact H | reflexivity | ..]; gsimpl; try tauto;
        try apply Z.divide_0_r; lia.
Qed.

Lemma grid_ok_SaveCursor s : grid_ok s -> grid_ok (SaveCursor s).
Proof.
  intros H. grid_facts H.
  constructor; unfold SaveCursor; pcg;
    cbn [m_pCharGen m_nWidth m_nHeight m_nUsedWidth m_nUsedHeight m_nScrollStart
         m_nScrollEnd m_nCursorX m_nCursorY m_SavedState set_m_SavedState cursorX cursorY];
    assumption.
Qed.

Lemma grid_ok_RestoreCursor s : grid_ok s -> grid_ok (RestoreCursor s).
Proof.
  intros H. unfold RestoreCursor. cbv zeta. grid_facts H.
  destruct (Z.ltb_spec (cursorX (m_SavedState s)) (m_nWidth s)); [|lia].
  gsimpl.
  destruct (Z.ltb_spec (cursorY (m_SavedState s)) (m_nHeight s)); [|lia].
  apply (grid_ok_moved s); [exact H | reflexivity | ..]; gsimpl; tauto.
Qed.

Lemma DeleteChars_control n s : control (DeleteChars pf n s) = control s.
Proof.
  unfold DeleteChars. cbv zeta.
  destruct (m_pCharGen s) as [cg|]; [|reflexivity].
  repeat match goal with
  | |- control (if ?c then s else _) = _ => destruct c; [reflexivity|]
  end.
  rewrite SetUpdateArea_control. apply for_range_control. intros y t.
  rewrite for_range_control; [|intros; apply SetRawPixel_control].
  apply for_range_control. intros. apply SetRawPixel_control.
Qed.

Lemma EraseChars_control n s : control (EraseChars n s) = control s.
Proof.
  unfold EraseChars. cbv zeta. destruct (n =? 0); [reflexivity|].
  apply for_step_control. intros. apply EraseChar_control.
Qed.

Lemma ClearDisplay_grid s : grid_ok s -> grid_ok (ClearDisplay s).
Proof.
  intros H. unfold ClearDisplay. cbv zeta.
  apply (grid_ok_control (set_m_nCursorY 0 (set_m_nCursorX 0 s)));
    [apply ClearDisplayEnd_control | apply grid_ok_origin, H].
Qed.

Lemma grid_frame_set_cursor x y s :
  grid_frame (set_m_nCursorY y (set_m_nCursorX x s)) = grid_frame s.
Proof. reflexivity. Qed.

Lemma clear_all_grid s :
  grid_ok s ->
  grid_ok (set_m_nCursorY (m_nCursorY s)
             (set_m_nCursorX (m_nCursorX s)
                (ClearDisplayEnd (set_m_nCursorY 0 (set_m_nCursorX 0 s))))).
Proof.
  intros H.
  destruct (control_grid_frame _ _
              (ClearDisplayEnd_control (set_m_nCursorY 0 (set_m_nCursorX 0 s))))
    as (Ef & _ & _).
  generalize dependent (ClearDisplayEnd (set_m_nCursorY 0 (set_m_nCursorX 0 s))).
  intros t Ef. rewrite grid_frame_set_cursor in Ef.
  apply (grid_ok_same s); [|reflexivity|reflexivity|exact H].
  rewrite grid_frame_set_cursor. exact Ef.
Qed.

Lemma ReverseScroll_grid s : grid_ok s -> grid_ok (ReverseScroll pf s).
Proof.
  intros H. unfold ReverseScroll. destruct (_ =? _); [|exact H].
  exact (grid_ok_control _ _ (InsertLines_control pf 1 s) H).
Qed.

Lemma SetTabStop_grid col b s : grid_ok s -> grid_ok (SetTabStop col b s).
Proof.
  intros H. unfold SetTabStop. destruct (_ >=? _); [exact H|].
  apply (grid_ok_same s); [reflexivity .. | exact H].
Qed.

Lemma set_tab_at_cursor_grid b s : grid_ok s -> grid_ok (set_tab_at_cursor b s).
Proof.
  intros H. unfold set_tab_at_cursor. destruct (m_pCharGen s); [|exact H].
  destruct (negb _); [apply SetTabStop_grid, H | exact H].
Qed.

Lemma SetStandoutMode_grid n s : grid_ok s -> grid_ok (SetStandoutMode n s).
Proof.
  intros H. unfold SetStandoutMode.
  repeat (destruct (n =? _); [apply (grid_ok_same s); [reflexivity .. | exact H]|]).
  exact H.
Qed.

Lemma grid_ok_painted c s :
  grid_ok s ->
  grid_ok (DisplayCharAt pf c (m_nCursorX s) (m_nCursorY s) (GetTextColor pf s) s).
Proof. apply grid_ok_control, DisplayCharAt_control. Qed.

Lemma grid_ok_DisplayChar c s : grid_ok s -> grid_ok (DisplayChar pf c s).
Proof.
  intros H. unfold DisplayChar. cbv zeta.
  destruct (chr " " <=? c mod 256); [|exact H].
  match goal with |- grid_ok (if GetWrapAroundEnabled ?P then _ else _) =>
    cut (grid_ok P); [generalize P; clear; intros p Hp|]
  end.
  - destruct (GetWrapAroundEnabled p); [apply grid_ok_CursorRight, Hp|].
    grid_facts Hp.
    destruct (negb (GetCharWidth (pCharGen p) =? 0)); [|exact Hp].
    destruct (Z.geb_spec (m_nUsedWidth p) (GetCharWidth (pCharGen p))); [|exact Hp].
    cbn [andb]. rewrite (u32_small (m_nUsedWidth p - _)) by lia.
    destruct (Z.ltb_spec (m_nCursorX p) (m_nUsedWidth p - GetCharWidth (pCharGen p))).
    + rewrite u32_small by lia.
      apply (grid_ok_moved p); [exact Hp | reflexivity | ..]; gsimpl; try tauto;
        [apply divide_step_up; tauto | lia].
    + apply (grid_ok_moved p); [exact Hp | reflexivity | ..]; gsimpl; try tauto; [|lia].
      apply Z.divide_sub_r; [tauto | apply Z.divide_refl].
  - pose proof (grid_gen s H) as [cg Hcg].
    destruct (m_pGraphicsCharGen s) as [gfx|]; [|apply grid_ok_painted, H].
    match goal with |- context [if ?b then m_pCharGen s else None] => destruct b end;
      [|apply grid_ok_painted, H].
    rewrite Hcg.
    match goal with |- grid_ok (set_m_pCharGen _ (DisplayCharAt pf ?a ?x ?y ?k ?t)) =>
      pose proof (DisplayCharAt_control pf a x y k t) as E;
      generalize dependent (DisplayCharAt pf a x y k t)
    end.
    intros S E. control_inv E.
    apply (grid_ok_same s); [|assumption|assumption|exact H].
    unfold grid_frame. cbn [m_pCharGen m_nWidth m_nHeight m_nUsedWidth m_nUsedHeight
      m_nScrollStart m_nScrollEnd m_SavedState set_m_pCharGen]. congruence.
Qed.

Lemma grid_ok_iter (f : CTRenderer -> CTRenderer) lo hi s :
  (forall t, grid_ok t -> grid_ok (f t)) ->
  grid_ok s -> grid_ok (for_range lo hi (fun _ => f) s).
Proof. intros Hf. apply for_range_inv. intros; apply Hf; assumption. Qed.

Lemma clear_tabs_grid s :
  grid_ok s -> grid_ok (for_range 0 TabStopsMax (fun col s => SetTabStop col false s) s).
Proof. apply for_range_inv. intros; apply SetTabStop_grid; assumption. Qed.

Lemma set_m_State_grid v s : grid_ok s -> grid_ok (set_m_State v s).
Proof. apply grid_ok_same; reflexivity. Qed.

Lemma set_m_nParam1_grid v s : grid_ok s -> grid_ok (set_m_nParam1 v s).
Proof. apply grid_ok_same; reflexivity. Qed.

Lemma set_m_nParam2_grid v s : grid_ok s -> grid_ok (set_m_nParam2 v s).
Proof. apply grid_ok_same; reflexivity. Qed.

Lemma set_m_bUseG1_grid v s : grid_ok s -> grid_ok (set_m_bUseG1 v s).
Proof. apply grid_ok_same; reflexivity. Qed.

Lemma set_m_G0CharSet_grid v s : grid_ok s -> grid_ok (set_m_G0CharSet v s).
Proof. apply grid_ok_same; reflexivity. Qed.

Lemma set_m_G1CharSet_grid v s : grid_ok s -> grid_ok (set_m_G1CharSet v s).
Proof. apply grid_ok_same; reflexivity. Qed.

Lemma set_m_bVT52Mode_grid v s : grid_ok s -> grid_ok (set_m_bVT52Mode v s).
Proof. apply grid_ok_same; reflexivity. Qed.

Lemma InsertMode_grid v s : grid_ok s -> grid_ok (InsertMode v s).
Proof. apply grid_ok_same; reflexivity. Qed.

Lemma SetAutoPageMode_grid v s : grid_ok s -> grid_ok (SetAutoPageMode v s).
Proof. apply grid_ok_same; reflexivity. Qed.

Lemma SetCursorMode_grid v s : grid_ok s -> grid_ok (SetCursorMode v s).
Proof. apply grid_ok_same; reflexivity. Qed.

Lemma BEEP_grid s : grid_ok s -> grid_ok (BEEP s).
Proof. apply grid_ok_same; reflexivity. Qed.

Ltac grid_step :=
  repeat first
    [ match goal with
      | H : grid_ok ?t |- grid_ok ?t => exact H
      | |- grid_ok (if ?b then _ else _) => destruct b eqn:?
      | |- grid_ok (match ?o with Some _ => _ | None => _ end) => destruct o eqn:?
      | |- grid_ok (set_m_State _ _) => apply set_m_State_grid
      | |- grid_ok (set_m_nParam1 _ _) => apply set_m_nParam1_grid
      | |- grid_ok (set_m_nParam2 _ _) => apply set_m_nParam2_grid
      | |- grid_ok (set_m_bUseG1 _ _) => apply set_m_bUseG1_grid
      | |- grid_ok (set_m_G0CharSet _ _) => apply set_m_G0CharSet_grid
      | |- grid_ok (set_m_G1CharSet _ _) => apply set_m_G1CharSet_grid
      | |- grid_ok (set_m_bVT52Mode _ _) => apply set_m_bVT52Mode_grid
      | |- grid_ok (BEEP _) => apply BEEP_grid
      | |- grid_ok (InsertMode _ _) => apply InsertMode_grid
      | |- grid_ok (SetAutoPageMode _ _) => apply SetAutoPageMode_grid
      | |- grid_ok (SetCursorMode _ _) => apply SetCursorMode_grid
      | |- grid_ok (set_m_nCursorY 0 (set_m_nCursorX 0 _)) => apply grid_ok_origin
      | |- grid_ok (set_m_nCursorY _ (set_m_nCursorX _ (ClearDisplayEnd _))) =>
          apply clear_all_grid
      | |- grid_ok (CursorUp _) => apply grid_ok_CursorUp
      | |- grid_ok (CursorDown pf _) => apply grid_ok_CursorDown
      | |- grid_ok (CursorLeft _) => apply grid_ok_CursorLeft
      | |- grid_ok (CursorRight pf _) => apply grid_ok_CursorRight
      | |- grid_ok (CursorHome _) => apply grid_ok_CursorHome
      | |- grid_ok (CarriageReturn _) => apply grid_ok_CarriageReturn
      | |- grid_ok (NewLine pf _) => apply grid_ok_NewLine
      | |- grid_ok (Tabulator pf _) => apply grid_ok_Tabulator
      | |- grid_ok (BackTabulator _) => apply grid_ok_BackTabulator
      | |- grid_ok (ReverseScroll pf _) => apply ReverseScroll_grid
      | |- grid_ok (ClearDisplay _) => apply ClearDisplay_grid
      | |- grid_ok (ClearDisplayEnd ?t) => apply (grid_ok_control t (ClearDisplayEnd t) (ClearDisplayEnd_control t))
      | |- grid_ok (ClearLineEnd ?t) => apply (grid_ok_control t (ClearLineEnd t) (ClearLineEnd_control t))
      | |- grid_ok (InsertLines pf ?n ?t) => apply (grid_ok_control t _ (InsertLines_control pf n t))
      | |- grid_ok (DeleteLines pf ?n ?t) => apply (grid_ok_control t _ (DeleteLines_control pf n t))
      | |- grid_ok (DeleteChars pf ?n ?t) => apply (grid_ok_control t _ (DeleteChars_control n t))
      | |- grid_ok (EraseChars ?n ?t) => apply (grid_ok_control t _ (EraseChars_control n t))
      | |- grid_ok (DisplayChar pf _ _) => apply grid_ok_DisplayChar
      | |- grid_ok (SaveCursor _) => apply grid_ok_SaveCursor
      | |- grid_ok (RestoreCursor _) => apply grid_ok_RestoreCursor
      | |- grid_ok (SetStandoutMode _ _) => apply SetStandoutMode_grid
      | |- grid_ok (set_tab_at_cursor _ _) => apply set_tab_at_cursor_grid
      | |- grid_ok (for_range 0 TabStopsMax _ _) => apply clear_tabs_grid
      | |- grid_ok (for_range _ _ (fun _ => CursorUp) _) =>
          apply grid_ok_iter; [apply grid_ok_CursorUp|]
      | |- grid_ok (for_range _ _ (fun _ => CursorDown pf) _) =>
          apply grid_ok_iter; [apply grid_ok_CursorDown|]
      | |- grid_ok (for_range _ _ (fun _ => CursorLeft) _) =>
          apply grid_ok_iter; [apply grid_ok_CursorLeft|]
      | |- grid_ok (for_range _ _ (fun _ => CursorRight pf) _) =>
          apply grid_ok_iter; [apply grid_ok_CursorRight|]
      end ].

Lemma grid_ok_step c s :
  grid_ok s -> parser_inv s -> escape_inv s -> 0 <= c < 256 ->
  grid_ok (Write_char pf c s).
Proof.
  intros H Hp He Hc. unfold parser_inv, escape_inv in *. unfold Write_char.
  destruct (m_State s) eqn:Hst; cbv beta iota zeta; try contradiction.
  all: grid_step.
  all: cbn [m_nParam1 m_nParam2 set_m_nParam1 set_m_nParam2].
  - apply Z.geb_le in Heqb.
    apply grid_ok_CursorMove; [apply set_m_nParam2_grid, H | lia |].
    rewrite u32_small by lia. lia.
  - apply grid_ok_CursorMove; [exact H | lia | lia].
  - apply grid_ok_CursorMove; [exact H | lia | lia].
  - apply grid_ok_CursorMove; [exact H | lia | lia].
  - apply grid_ok_SetScrollRegion; [exact H | lia | lia].
Qed.

Lemma escape_inv_step c s :
  escape_inv s -> 0 <= c < 256 -> c <> chr "#" -> escape_inv (Write_char pf c s).
Proof.
  intros Hinv Hc Hn. unfold escape_inv in *. unfold Write_char.
  destruct (m_State s) eqn:Hst; cbn beta iota zeta; split_ifs; cbn in *;
    rewrite ?CursorLeft_State, ?Tabulator_State, ?ClearDisplay_State,
            ?NewLine_State, ?DisplayChar_State;
    rewrite ?Hst; try exact I;
    repeat case_match; unfold BEEP in *; cbn in *; rewrite ?Hst;
    try exact I; try congruence; chr_norm; digit_bounds;
    rewrite ?u32_small by lia; lia.
Qed.

Lemma term_ok_step c s :
  term_ok s -> 0 <= c < 256 /\ c <> chr "#" -> term_ok (Write_char pf c s).
Proof.
  intros (H & Hp & He) [Hc Hn]. split; [|split].
  - apply grid_ok_step; assumption.
  - apply parser_inv_step, Hp.
  - apply escape_inv_step; assumption.
Qed.

Lemma term_ok_run cs s :
  term_ok s -> Forall (fun c => 0 <= c < 256 /\ c <> chr "#") cs ->
  term_ok (Write_chars pf cs s).
Proof.
  unfold Write_chars. intros Hs Hcs. revert s Hs.
  induction Hcs as [|c cs Hc _ IH]; intros s Hs; simpl; [exact Hs|].
  apply IH, term_ok_step; assumption.
Qed.

Lemma grid_okb_spec s : grid_okb s = true -> grid_ok s.
Proof.
  unfold grid_okb. cbv zeta. intros Hb.
  repeat match goal with
  | H : _ && _ = true |- _ => apply andb_prop in H as [? ?]
  end.
  repeat match goal with
  | H : (_ <? _) = true |- _ => apply Z.ltb_lt in H
  | H : (_ <=? _) = true |- _ => apply Z.leb_le in H
  | H : (_ =? _) = true |- _ => apply Z.eqb_eq in H
  end.
  repeat match goal with
  | H : _ mod _ = 0 |- _ => apply Z.mod_divide in H; [|lia]
  end.
  constructor; try assumption; try (split; [assumption | lia]); try lia.
  destruct (m_pCharGen s); [eexists; reflexivity | discriminate].
Qed.

Lemma term_ok_view s s' :
  grid_frame s' = grid_frame s ->
  m_nCursorX s' = m_nCursorX s -> m_nCursorY s' = m_nCursorY s ->
  m_State s' = m_State s -> m_nParam1 s' = m_nParam1 s -> m_nParam2 s' = m_nParam2 s ->
  term_ok s -> term_ok s'.
Proof.
  intros Ef Ex Ey Es E1 E2 (H & Hp & He). unfold term_ok, parser_inv, escape_inv in *.
  split; [exact (grid_ok_same s s' Ef Ex Ey H)|].
  split; rewrite Es, ?E1, ?E2; assumption.
Qed.

Lemma term_ok_InvertCursor s : term_ok s -> term_ok (InvertCursor s).
Proof.
  destruct (InvertCursor_repainted s) as (b & p & a & E). rewrite E.
  apply term_ok_view; reflexivity.
Qed.

(** X1: [Write] keeps the cursor on the cell grid.  On a renderer whose cursor,
    saved cursor and scroll region lie on the cell grid of the text area, every
    buffer of bytes without [#] (the byte that starts a font change) leaves
    them there, whatever sequences the bytes spell and wherever the buffer
    ends. *)
Theorem Write_keeps_cursor_on_grid bs s :
  term_ok s ->
  Forall (fun c => 0 <= c < 256 /\ c <> chr "#") bs ->
  term_ok (snd (Write pf bs s)).
Proof.
  intros Hs Hbs. unfold Write. cbv zeta. cbn [snd].
  assert (H1 : term_ok (if m_bCursorVisible s then InvertCursor s else s))
    by (destruct (m_bCursorVisible s); [apply term_ok_InvertCursor|]; exact Hs).
  pose proof (term_ok_run bs _ H1 Hbs) as H2.
  generalize dependent (Write_chars pf bs (if m_bCursorVisible s then InvertCursor s else s)).
  intros s2 H2.
  match goal with |- term_ok (if _ then _ else ?t) =>
    assert (H3 : term_ok t); [|generalize dependent t; intros s3 H3]
  end.
  - destruct (m_bCursorVisible s && m_bCursorOn s2); [|exact H2].
    pose proof (term_ok_InvertCursor s2 H2) as H3.
    destruct (m_bBlinkingCursor (InvertCursor s2)); [|exact H3].
    unfold GetTicks. generalize dependent (InvertCursor s2). intros t Ht.
    revert Ht. apply term_ok_view; reflexivity.
  - destruct (_ && _); [|exact H3].
    revert H3. apply term_ok_view; reflexivity.
Qed.

End Grid.

(** ** Cursor addressing *)

Section Addressing.

Variable pf : Platform.

Lemma grid_rows s :
  grid_ok s ->
  GetRows s = m_nHeight s / GetCharHeight (pCharGen s)
  /\ m_nUsedHeight s = GetRows s * GetCharHeight (pCharGen s)
  /\ 0 < GetRows s.
Proof.
  intros H. pose proof (grid_used_height s H) as Hh. destruct H as [G_gen G_w G_h G_uw G_uh G_small G_start G_end G_region G_x G_y G_sx G_sy]. unfold GetRows.
  destruct (m_pCharGen s) as [cg|] eqn:Hcg; [|destruct G_gen; discriminate].
  rewrite (pCharGen_Some s cg Hcg).
  split; [reflexivity|]. split; [assumption|].
  destruct (Z.le_gt_cases (m_nHeight s / GetCharHeight (pCharGen s)) 0); nia.
Qed.

Lemma GetCursorRow_at s k :
  is_Some (m_pCharGen s) -> 0 < GetCharHeight (pCharGen s) ->
  m_nCursorY s = k * GetCharHeight (pCharGen s) -> GetCursorRow s = k.
Proof.
  intros [cg Hcg] Hh Hy. unfold GetCursorRow. rewrite Hcg.
  rewrite (pCharGen_Some s cg Hcg).
  destruct (Z.eqb_spec (GetCharHeight (pCharGen s)) 0); [lia|].
  rewrite Hy. apply Z.div_mul. lia.
Qed.

Lemma GetCursorColumn_at s k :
  is_Some (m_pCharGen s) -> 0 < GetCharWidth (pCharGen s) ->
  m_nCursorX s = k * GetCharWidth (pCharGen s) -> GetCursorColumn s = k.
Proof.
  intros [cg Hcg] Hh Hy. unfold GetCursorColumn. rewrite Hcg.
  rewrite (pCharGen_Some s cg Hcg).
  destruct (Z.eqb_spec (GetCharWidth (pCharGen s)) 0); [lia|].
  rewrite Hy. apply Z.div_mul. lia.
Qed.

Lemma cell_before a b w : 0 < w -> (a * w <? b * w) = (a <? b).
Proof.
  intros Hw. destruct (Z.ltb_spec a b) as [L|L].
  - apply Z.ltb_lt, Z.mul_lt_mono_pos_r; assumption.
  - apply Z.ltb_ge, Z.mul_le_mono_nonneg_r; lia.
Qed.

(** The cell a request of [CursorMove] names lies on the screen. *)
Definition addressable (r c : Z) (s : CTRenderer) : bool :=
  (1 <=? r) && (r <=? GetRows s) && (1 <=? c) && (c <=? GetColumns s).

Lemma CursorMove_spec r c s :
  grid_ok s -> 0 <= r <= 255 -> 0 <= c <= 255 ->
  CursorMove r c s =
    if addressable r c s
    then set_m_nCursorY ((r - 1) * GetCharHeight (pCharGen s))
           (set_m_nCursorX ((c - 1) * GetCharWidth (pCharGen s)) s)
    else s.
Proof.
  intros H Hr Hc. unfold CursorMove, addressable. cbv zeta.
  destruct (grid_rows s H) as (_ & Eh & Hrows).
  destruct (grid_columns s H) as (_ & Ew & Hcols).
  pose proof (grid_used_width s H). pose proof (grid_used_height s H).
  pose proof H as [G_gen G_w G_h G_uw G_uh G_small G_start G_end G_region G_x G_y G_sx G_sy].
  set (w := GetCharWidth (pCharGen s)) in *.
  set (h := GetCharHeight (pCharGen s)) in *.
  destruct (Z.leb_spec 1 r) as [Hr1|Hr1]; cbn [andb].
  2:{ assert (r = 0) as -> by lia. rewrite (u32_minus_cell h) by lia.
      destruct (Z.ltb_spec (4294967296 - h) (m_nUsedHeight s)); [lia|].
      rewrite andb_false_r. reflexivity. }
  assert (0 <= (r - 1) * h <= 254 * h)
    by (split; [apply Z.mul_nonneg_nonneg | apply Z.mul_le_mono_nonneg_r]; lia).
  rewrite (u32_small ((r - 1) * h)) by lia.
  destruct (Z.leb_spec 1 c) as [Hc1|Hc1]; cbn [andb].
  2:{ assert (c = 0) as -> by lia. rewrite (u32_minus_cell w) by lia.
      destruct (Z.ltb_spec (4294967296 - w) (m_nUsedWidth s)); [lia|].
      rewrite andb_false_r. reflexivity. }
  assert (0 <= (c - 1) * w <= 254 * w)
    by (split; [apply Z.mul_nonneg_nonneg | apply Z.mul_le_mono_nonneg_r]; lia).
  rewrite (u32_small ((c - 1) * w)) by lia.
  rewrite Eh, Ew.
  rewrite (cell_before (c - 1) (GetColumns s) w), (cell_before (r - 1) (GetRows s) h)
    by lia.
  replace (c - 1 <? GetColumns s) with (c <=? GetColumns s) by lia.
  replace (r - 1 <? GetRows s) with (r <=? GetRows s) by lia.
  destruct (r <=? GetRows s), (c <=? GetColumns s); reflexivity.
Qed.

Lemma moved_cursor_cell r c s :
  grid_ok s ->
  let s' := set_m_nCursorY ((r - 1) * GetCharHeight (pCharGen s))
              (set_m_nCursorX ((c - 1) * GetCharWidth (pCharGen s)) s) in
  GetCursorRow s' = r - 1 /\ GetCursorColumn s' = c - 1.
Proof.
  intros H s'. pose proof H as [G_gen G_w G_h G_uw G_uh G_small G_start G_end G_region G_x G_y G_sx G_sy].
  split; [apply GetCursorRow_at | apply GetCursorColumn_at]; try assumption; reflexivity.
Qed.

(** X2: [CursorMove] takes one-based row and column to the cell they name
    when it is on the screen; any other request (a zero, a row or a column
    beyond the last) is ignored: the renderer is left as it was, the cursor
    is not clamped to the edge. *)
Theorem CursorMove_address r c s :
  grid_ok s -> 0 <= r <= 255 -> 0 <= c <= 255 ->
  let s' := CursorMove r c s in
  if addressable r c s
  then GetCursorRow s' = r - 1 /\ GetCursorColumn s' = c - 1
       /\ m_nCursorX s' = (c - 1) * GetCharWidth (pCharGen s)
       /\ m_nCursorY s' = (r - 1) * GetCharHeight (pCharGen s)
  else s' = s.
Proof.
  intros H Hr Hc s'. unfold s'. rewrite (CursorMove_spec r c s H Hr Hc).
  destruct (addressable r c s); [|reflexivity].
  destruct (moved_cursor_cell r c s H) as [Er Ec]. repeat split; assumption.
Qed.

(** X3: the VT52 cursor address [ESC Y] takes the two bytes that follow as
    row and column counted from the space character, and hands them to
    [CursorMove] as they are: bytes [32 + r] and [32 + c] put the cursor in
    row [r - 1] and column [c - 1] counted from zero, and leave it where it
    is when [r] or [c] is zero or beyond the screen. *)
Theorem vt52_direct_address r c s :
  grid_ok s -> m_State s = StateStart -> m_bVT52Mode s = true ->
  0 <= r <= 223 -> 0 <= c <= 223 ->
  let s' := Write_chars pf [ESC; chr "Y"; 32 + r; 32 + c] s in
  m_State s' = StateStart
  /\ if addressable r c s
     then GetCursorRow s' = r - 1 /\ GetCursorColumn s' = c - 1
     else m_nCursorX s' = m_nCursorX s /\ m_nCursorY s' = m_nCursorY s.
Proof.
  intros H Hst Hvt Hr Hc s'.
  assert (E : s' = set_m_State StateStart
                     (CursorMove r c
                        (set_m_nParam2 c (set_m_State StateVT52Col
                           (set_m_nParam1 r (set_m_State StateEscape s)))))).
  { unfold s', Write_chars. cbn [foldl].
    unfold Write_char at 4. rewrite Hst. chr_norm. unfold ESC. cbn [Z.eqb Pos.eqb].
    cbn beta iota.
    unfold Write_char at 3.
    cbn [m_State set_m_State m_bVT52Mode]. rewrite Hvt. chr_norm.
    cbn [Z.eqb Pos.eqb]. cbn beta iota.
    unfold Write_char at 2. cbn [m_State set_m_State].
    destruct (Z.geb_spec (32 + r) 32); [|lia]. cbv zeta.
    unfold Write_char at 1. cbn [m_State set_m_State].
    destruct (Z.geb_spec (32 + c) 32); [|lia]. cbv zeta.
    cbn [m_nParam1 m_nParam2 set_m_nParam1 set_m_nParam2 set_m_State].
    replace (32 + r - 32) with r by lia. replace (32 + c - 32) with c by lia.
    rewrite !u32_small by lia. reflexivity. }
  rewrite E. split; [reflexivity|]. clear E s'.
  assert (Ht : grid_ok (set_m_nParam2 c (set_m_State StateVT52Col
                          (set_m_nParam1 r (set_m_State StateEscape s)))))
    by (apply (grid_ok_same s); [reflexivity .. | exact H]).
  rewrite (CursorMove_spec r c _ Ht) by lia.
  change (addressable r c (set_m_nParam2 c _)) with (addressable r c s).
  destruct (addressable r c s); [|split; reflexivity].
  pose proof H as [G_gen G_w G_h G_uw G_uh G_small G_start G_end G_region G_x G_y G_sx G_sy].
  split; [apply GetCursorRow_at | apply GetCursorColumn_at]; try assumption; reflexivity.
Qed.

(** The rows a request of [SetScrollRegion] names form a region of the screen. *)
Definition region_rows (top bottom : Z) (s : CTRenderer) : bool :=
  (1 <=? top) && (top <=? bottom) && (bottom <=? GetRows s).

Lemma SetScrollRegion_spec top bottom s :
  grid_ok s -> 0 <= top <= 199 -> 0 <= bottom <= 199 ->
  SetScrollRegion top bottom s =
    CursorHome
      (if region_rows top bottom s
       then set_m_nScrollEnd (bottom * GetCharHeight (pCharGen s))
              (set_m_nScrollStart ((top - 1) * GetCharHeight (pCharGen s)) s)
       else s).
Proof.
  intros H Ht Hb. unfold SetScrollRegion, region_rows. cbv zeta.
  destruct (grid_rows s H) as (_ & Eh & Hrows).
  pose proof (grid_used_height s H).
  pose proof H as [G_gen G_w G_h G_uw G_uh G_small G_start G_end G_region G_x G_y G_sx G_sy].
  set (h := GetCharHeight (pCharGen s)) in *.
  assert (0 <= bottom * h <= 199 * h)
    by (split; [apply Z.mul_nonneg_nonneg | apply Z.mul_le_mono_nonneg_r]; lia).
  rewrite (u32_small (bottom * h)) by lia.
  destruct (Z.leb_spec 1 top) as [Htop|Htop]; cbn [andb].
  2:{ assert (top = 0) as -> by lia. rewrite (u32_minus_cell h) by lia.
      destruct (Z.ltb_spec (4294967296 - h) (m_nUsedHeight s)); [lia|]. reflexivity. }
  assert (0 <= (top - 1) * h <= 198 * h)
    by (split; [apply Z.mul_nonneg_nonneg | apply Z.mul_le_mono_nonneg_r]; lia).
  rewrite (u32_small ((top - 1) * h)) by lia.
  rewrite Eh.
  rewrite (cell_before (top - 1) (GetRows s) h), (cell_before (top - 1) bottom h) by lia.
  replace (bottom * h >? 0) with (0 <? bottom) by (rewrite Z.gtb_ltb; symmetry; apply (cell_before 0 bottom h); lia).
  replace (bottom * h <=? GetRows s * h) with (bottom <=? GetRows s).
  2:{ rewrite !Z.leb_antisym, (cell_before (GetRows s) bottom h) by lia. reflexivity. }
  replace (top - 1 <? bottom) with (top <=? bottom) by lia.
  destruct (Z.leb_spec top bottom), (Z.leb_spec bottom (GetRows s)),
    (Z.ltb_spec (top - 1) (GetRows s)), (Z.ltb_spec 0 bottom);
    cbn [andb]; try reflexivity; try (exfalso; lia).
Qed.

(** X4: [SetScrollRegion] takes one-based first and last row.  When they
    name rows of the screen in order (the same row twice is accepted) the
    scroll region becomes these rows; any other request leaves the region as
    it was.  Either way the cursor goes to the first column of the first row
    of the region that results. *)
Theorem SetScrollRegion_rows top bottom s :
  grid_ok s -> 0 <= top <= 199 -> 0 <= bottom <= 199 ->
  let s' := SetScrollRegion top bottom s in
  m_nCursorX s' = 0 /\ m_nCursorY s' = m_nScrollStart s'
  /\ if region_rows top bottom s
     then m_nScrollStart s' = (top - 1) * GetCharHeight (pCharGen s)
          /\ m_nScrollEnd s' = bottom * GetCharHeight (pCharGen s)
     else m_nScrollStart s' = m_nScrollStart s /\ m_nScrollEnd s' = m_nScrollEnd s.
Proof.
  intros H Ht Hb s'. unfold s'. rewrite (SetScrollRegion_spec top bottom s H Ht Hb).
  destruct (region_rows top bottom s); repeat split; reflexivity.
Qed.

Lemma InvertCursor_grid_frame s :
  grid_frame (InvertCursor s) = grid_frame s
  /\ m_nCursorX (InvertCursor s) = m_nCursorX s
  /\ m_nCursorY (InvertCursor s) = m_nCursorY s.
Proof.
  destruct (InvertCursor_repainted s) as (b & p & a & E). rewrite E.
  repeat split; reflexivity.
Qed.

Lemma grid_frame_columns s s' : grid_frame s' = grid_frame s -> GetColumns s' = GetColumns s.
Proof.
  unfold grid_frame, GetColumns. intros E. injection E as -> -> _ _ _ _ _ _ _. reflexivity.
Qed.

Lemma grid_frame_rows s s' : grid_frame s' = grid_frame s -> GetRows s' = GetRows s.
Proof.
  unfold grid_frame, GetRows. intros E. injection E as -> _ -> _ _ _ _ _ _. reflexivity.
Qed.

Lemma Goto_cursor row col s :
  exists t,
    Goto row col s = t
    /\ grid_frame t = grid_frame s
    /\ m_nCursorX t
       = u32 ((if col <? GetColumns s then col else GetColumns s - 1)
              * GetCharWidth (pCharGen s))
    /\ m_nCursorY t
       = u32 ((if row <? GetRows s then row else GetRows s - 1)
              * GetCharHeight (pCharGen s)).
Proof.
  eexists. split; [reflexivity|]. unfold Goto. cbv zeta.
  assert (H1 : grid_frame (if m_bCursorVisible s then InvertCursor s else s) = grid_frame s)
    by (destruct (m_bCursorVisible s); [apply InvertCursor_grid_frame | reflexivity]).
  generalize dependent (if m_bCursorVisible s then InvertCursor s else s). intros s1 H1.
  rewrite (grid_frame_columns _ _ H1), (grid_frame_pCharGen _ _ H1).
  set (x := u32 ((if col <? GetColumns s then col else GetColumns s - 1)
                 * GetCharWidth (pCharGen s))).
  match goal with |- context [GetRows ?t] =>
    assert (Hsx : grid_frame t = grid_frame s /\ m_nCursorX t = x);
    [|generalize dependent t; intros sx [Hfx Hsx]]
  end.
  { unfold x. destruct (col <? GetColumns s); (split; [exact H1 | reflexivity]). }
  rewrite (grid_frame_rows _ _ Hfx), (grid_frame_pCharGen _ _ Hfx).
  set (y := u32 ((if row <? GetRows s then row else GetRows s - 1)
                 * GetCharHeight (pCharGen s))).
  match goal with |- context [if m_bCursorVisible s && _ then _ else ?t] =>
    assert (H2 : grid_frame t = grid_frame s /\ m_nCursorX t = x /\ m_nCursorY t = y);
    [|generalize dependent t; intros s2 H2]
  end.
  { unfold y. destruct (row <? GetRows s);
      (split; [exact Hfx | split; [exact Hsx | reflexivity]]). }
  destruct H2 as (Hf & Hx & Hy).
  destruct (m_bCursorVisible s && m_bCursorOn s2); [|tauto].
  destruct (InvertCursor_grid_frame s2) as (Ef & Ex & Ey).
  destruct (m_bBlinkingCursor (InvertCursor s2)).
  - unfold GetTicks. cbn [m_nCursorX m_nCursorY set_m_nNextCursorBlink set_CTimer_reads].
    repeat split; try congruence.
    etrans; [|exact Hf]. etrans; [|exact Ef]. reflexivity.
  - repeat split; congruence.
Qed.

(** X5: [Goto] takes zero-based row and column and clamps each to the last
    row and the last column of the screen; the cursor it leaves is on the
    cell grid. *)
Theorem Goto_clamps row col s :
  grid_ok s -> 0 <= row -> 0 <= col ->
  let s' := Goto row col s in
  GetCursorRow s' = Z.min row (GetRows s - 1)
  /\ GetCursorColumn s' = Z.min col (GetColumns s - 1)
  /\ grid_ok s'.
Proof.
  intros H Hrow Hcol s'.
  destruct (Goto_cursor row col s) as (t & Et & Ef & Ex & Ey).
  unfold s'. rewrite Et. clear Et s'.
  destruct (grid_rows s H) as (_ & Eh & Hrows).
  destruct (grid_columns s H) as (_ & Ew & Hcols).
  pose proof (grid_used_width s H). pose proof (grid_used_height s H).
  pose proof H as [G_gen G_w G_h G_uw G_uh G_small G_start G_end G_region G_x G_y G_sx G_sy].
  pose proof (grid_frame_pCharGen _ _ Ef) as Ecg.
  set (w := GetCharWidth (pCharGen s)) in *.
  set (h := GetCharHeight (pCharGen s)) in *.
  assert (Hc : (if col <? GetColumns s then col else GetColumns s - 1)
               = Z.min col (GetColumns s - 1))
    by (destruct (Z.ltb_spec col (GetColumns s)); lia).
  assert (Hr : (if row <? GetRows s then row else GetRows s - 1)
               = Z.min row (GetRows s - 1))
    by (destruct (Z.ltb_spec row (GetRows s)); lia).
  rewrite Hc in Ex. rewrite Hr in Ey.
  assert (0 <= Z.min col (GetColumns s - 1) * w <= (GetColumns s - 1) * w)
    by (split; [apply Z.mul_nonneg_nonneg | apply Z.mul_le_mono_nonneg_r]; lia).
  assert (0 <= Z.min row (GetRows s - 1) * h <= (GetRows s - 1) * h)
    by (split; [apply Z.mul_nonneg_nonneg | apply Z.mul_le_mono_nonneg_r]; lia).
  rewrite u32_small in Ex, Ey by lia.
  assert (Hgen : is_Some (m_pCharGen t)).
  { unfold grid_frame in Ef. injection Ef as -> _ _ _ _ _ _ _ _. exact G_gen. }
  split; [|split].
  - apply GetCursorRow_at; rewrite ?Ecg; assumption.
  - apply GetCursorColumn_at; rewrite ?Ecg; assumption.
  - apply (grid_ok_moved s t H Ef); fold w h; rewrite ?Ex, ?Ey;
      try apply Z.divide_factor_r; lia.
Qed.

End Addressing.

(** ** Tab stops *)

Section Tabs.

Variable pf : Platform.

Lemma IsTabStop_SetTabStop col b col' s :
  tabs_ok s -> 0 <= col -> 0 <= col' ->
  IsTabStop col' (SetTabStop col b s)
  = if (col' =? col) && (col <? TabStopsMax) then b else IsTabStop col' s.
Proof.
  unfold tabs_ok, IsTabStop, SetTabStop. intros Hlen Hc Hc'.
  destruct (Z.geb_spec col TabStopsMax) as [Hge|Hlt].
  - destruct (Z.ltb_spec col TabStopsMax); [lia|]. rewrite andb_false_r. reflexivity.
  - destruct (Z.ltb_spec col TabStopsMax); [|lia]. rewrite andb_true_r.
    cbn [CTConfig_TabStops set_CTConfig_TabStops].
    destruct (Z.eqb_spec col' col) as [->|Hne].
    + destruct (Z.geb_spec col TabStopsMax); [lia|].
      rewrite list_lookup_insert_eq by lia. reflexivity.
    + rewrite list_lookup_insert_ne by lia. reflexivity.
Qed.

Lemma SetTabStop_tabs_ok col b s : tabs_ok s -> tabs_ok (SetTabStop col b s).
Proof.
  unfold tabs_ok, SetTabStop. intros H. destruct (_ >=? _); [exact H|].
  cbn [CTConfig_TabStops set_CTConfig_TabStops]. rewrite length_insert. exact H.
Qed.

(** Entry [i] of the tab stop array, written. *)
Lemma IsTabStop_store i b col s :
  tabs_ok s -> 0 <= i < TabStopsMax -> 0 <= col ->
  IsTabStop col (set_CTConfig_TabStops (<[Z.to_nat i := b]> (CTConfig_TabStops s)) s)
  = if col =? i then b else IsTabStop col s.
Proof.
  intros H Hi Hc. pose proof (IsTabStop_SetTabStop i b col s H ltac:(lia) Hc) as E.
  unfold SetTabStop in E. destruct (Z.geb_spec i TabStopsMax); [lia|].
  destruct (Z.ltb_spec i TabStopsMax); [|lia]. rewrite andb_true_r in E. exact E.
Qed.

Lemma tabs_loop (g : Z -> option bool) (body : Z -> CTRenderer -> CTRenderer) n :
  forall lo s,
  (forall i t, lo <= i < lo + Z.of_nat n ->
     body i t = match g i with
                | Some b => set_CTConfig_TabStops
                              (<[Z.to_nat i := b]> (CTConfig_TabStops t)) t
                | None => t
                end) ->
  tabs_ok s -> 0 <= lo -> lo + Z.of_nat n <= TabStopsMax ->
  tabs_ok (for_range lo (lo + Z.of_nat n) body s)
  /\ forall col, 0 <= col ->
       IsTabStop col (for_range lo (lo + Z.of_nat n) body s)
       = match (if (lo <=? col) && (col <? lo + Z.of_nat n) then g col else None) with
         | Some b => b
         | None => IsTabStop col s
         end.
Proof.
  unfold for_range. induction n as [|n IH]; intros lo s Hbody Hs Hlo Hhi.
  - replace (lo + Z.of_nat 0 - lo) with 0 by lia. cbn [seqZ foldl]. split; [exact Hs|].
    intros col Hcol.
    destruct (Z.leb_spec lo col), (Z.ltb_spec col (lo + Z.of_nat 0)); cbn [andb];
      try reflexivity; lia.
  - replace (lo + Z.of_nat (S n) - lo) with (Z.of_nat (S n)) by lia.
    rewrite seqZ_cons by lia. cbn [foldl].
    replace (Z.pred (Z.of_nat (S n))) with (Z.succ lo + Z.of_nat n - Z.succ lo) by lia.
    assert (Hs1 : tabs_ok (body lo s)).
    { rewrite Hbody by lia. destruct (g lo); [|exact Hs].
      unfold tabs_ok in *. cbn [CTConfig_TabStops set_CTConfig_TabStops].
      rewrite length_insert. exact Hs. }
    destruct (IH (Z.succ lo) (body lo s)) as [Hok Hget]; try lia; try assumption.
    { intros i t Hi. apply Hbody. lia. }
    split; [exact Hok|]. intros col Hcol. rewrite (Hget col Hcol).
    rewrite Hbody by lia.
    assert (Hlo' : 0 <= lo < TabStopsMax) by lia.
    assert (Estep : forall t, tabs_ok t ->
              IsTabStop col (match g lo with
                             | Some b => set_CTConfig_TabStops
                                           (<[Z.to_nat lo := b]> (CTConfig_TabStops t)) t
                             | None => t
                             end)
              = match (if col =? lo then g lo else None) with
                | Some b => b
                | None => IsTabStop col t
                end).
    { intros t Ht. destruct (g lo) as [b|].
      - rewrite IsTabStop_store by assumption. destruct (col =? lo); reflexivity.
      - destruct (col =? lo); reflexivity. }
    rewrite (Estep s Hs).
    destruct (Z.eqb_spec col lo) as [->|Hne].
    + destruct (Z.leb_spec (Z.succ lo) lo); [lia|]. cbn [andb].
      destruct (Z.leb_spec lo lo); [|lia].
      destruct (Z.ltb_spec lo (lo + Z.of_nat (S n))); [|lia]. reflexivity.
    + replace (Z.succ lo <=? col) with (lo <=? col)
        by (destruct (Z.leb_spec lo col), (Z.leb_spec (Z.succ lo) col); try reflexivity; lia).
      replace (col <? Z.succ lo + Z.of_nat n) with (col <? lo + Z.of_nat (S n))
        by (f_equal; lia).
      destruct ((lo <=? col) && (col <? lo + Z.of_nat (S n))); [|reflexivity].
      destruct (g col); reflexivity.
Qed.

Lemma tabs_range (g : Z -> option bool) (body : Z -> CTRenderer -> CTRenderer) hi s :
  (forall i t, 0 <= i < hi ->
     body i t = match g i with
                | Some b => set_CTConfig_TabStops
                              (<[Z.to_nat i := b]> (CTConfig_TabStops t)) t
                | None => t
                end) ->
  tabs_ok s -> 0 <= hi <= TabStopsMax ->
  tabs_ok (for_range 0 hi body s)
  /\ forall col, 0 <= col ->
       IsTabStop col (for_range 0 hi body s)
       = match (if col <? hi then g col else None) with
         | Some b => b
         | None => IsTabStop col s
         end.
Proof.
  intros Hbody Hs Hhi.
  destruct (tabs_loop g body (Z.to_nat hi) 0 s) as [Hok Hget]; try assumption; try lia.
  { intros i t Hi. apply Hbody. lia. }
  replace (0 + Z.of_nat (Z.to_nat hi)) with hi in * by lia.
  split; [exact Hok|]. intros col Hcol. rewrite (Hget col Hcol).
  destruct (Z.leb_spec 0 col); [reflexivity | lia].
Qed.

(** X7: [InitDefaultTabStops] sets the stops of the columns that are a
    positive multiple of eight below [columns] (and below [TabStopsMax]) and
    clears every other stop. *)
Theorem InitDefaultTabStops_stops columns col s :
  tabs_ok s -> 0 <= columns -> 0 <= col ->
  IsTabStop col (InitDefaultTabStops columns s)
  = (0 <? col) && (col mod 8 =? 0) && (col <? Z.min columns TabStopsMax).
Proof.
  intros Hs Hcols Hcol. unfold InitDefaultTabStops. cbv zeta.
  destruct (tabs_range (fun _ => Some false)
              (fun i s => set_CTConfig_TabStops
                            (<[Z.to_nat i := false]> (CTConfig_TabStops s)) s)
              TabStopsMax s) as [Hok1 Hget1]; try assumption.
  { reflexivity. }
  { unfold TabStopsMax. lia. }
  set (s1 := for_range 0 TabStopsMax _ s) in *.
  assert (Elim : (if columns >? TabStopsMax then TabStopsMax else columns)
                 = Z.min columns TabStopsMax)
    by (destruct (Z.gtb_spec columns TabStopsMax); lia).
  rewrite Elim.
  destruct (tabs_range (fun i => if (i >? 0) && (i mod 8 =? 0) then Some true else None)
              (fun i s => if (i >? 0) && (i mod 8 =? 0)
                          then set_CTConfig_TabStops
                                 (<[Z.to_nat i := true]> (CTConfig_TabStops s)) s
                          else s)
              (Z.min columns TabStopsMax) s1) as [_ Hget2]; try assumption.
  { intros i t _. destruct ((i >? 0) && (i mod 8 =? 0)); reflexivity. }
  { unfold TabStopsMax. lia. }
  rewrite (Hget2 col Hcol), (Hget1 col Hcol). rewrite Z.gtb_ltb.
  destruct (Z.ltb_spec col (Z.min columns TabStopsMax)),
    (Z.ltb_spec col TabStopsMax), (0 <? col), (col mod 8 =? 0);
    cbn [andb]; try reflexivity.
  all: unfold IsTabStop; destruct (Z.geb_spec col TabStopsMax); try reflexivity; lia.
Qed.

(** X6: a tab stop that is set or cleared reads back as set or cleared, the
    other columns read as before, and columns from [TabStopsMax] on have no
    stop and take none. *)
Theorem tab_stop_round_trip col b col' s :
  tabs_ok s -> 0 <= col -> 0 <= col' ->
  IsTabStop col' (SetTabStop col b s)
  = (if (col' =? col) && (col <? TabStopsMax) then b else IsTabStop col' s)
  /\ (TabStopsMax <= col' -> IsTabStop col' s = false)
  /\ (TabStopsMax <= col -> SetTabStop col b s = s).
Proof.
  intros H Hc Hc'. split; [apply IsTabStop_SetTabStop; assumption|]. split.
  - intros Hge. unfold IsTabStop. destruct (Z.geb_spec col' TabStopsMax); [reflexivity|lia].
  - intros Hge. unfold SetTabStop. destruct (Z.geb_spec col TabStopsMax); [reflexivity|lia].
Qed.

Lemma IsTabStop_grid_free col s s' :
  CTConfig_TabStops s' = CTConfig_TabStops s -> IsTabStop col s' = IsTabStop col s.
Proof. unfold IsTabStop. intros ->. reflexivity. Qed.

Lemma Write_char_Number1_g s :
  m_State s = StateNumber1 -> m_nParam1 s = 3 ->
  Write_char pf (chr "g") s
  = set_m_State StateStart
      (for_range 0 TabStopsMax (fun col s => SetTabStop col false s) s).
Proof.
  intros Hs Hp. unfold Write_char. rewrite Hs. chr_norm.
  cbn [Z.eqb Pos.eqb orb]. cbn beta iota. rewrite Hp. reflexivity.
Qed.

Lemma csi_3_g s :
  m_State s = StateStart -> m_bVT52Mode s = false ->
  Write_chars pf [ESC; chr "["; chr "3"; chr "g"] s
  = set_m_State StateStart
      (for_range 0 TabStopsMax (fun col s => SetTabStop col false s)
         (set_m_State StateNumber1 (set_m_nParam1 3 (set_m_nParam2 0 s)))).
Proof.
  intros Hs Hv.
  change [ESC; chr "["; chr "3"; chr "g"] with (([ESC; chr "["] ++ decimal 3) ++ [chr "g"]).
  rewrite Write_chars_app, csi_number by (try assumption; lia).
  unfold Write_chars. cbn [foldl].
  apply Write_char_Number1_g; reflexivity.
Qed.

(** X8: [ESC [ 3 g] clears every tab stop. *)
Theorem clear_all_tab_stops col s :
  m_State s = StateStart -> m_bVT52Mode s = false -> tabs_ok s -> 0 <= col ->
  let s' := Write_chars pf [ESC; chr "["; chr "3"; chr "g"] s in
  IsTabStop col s' = false /\ m_State s' = StateStart.
Proof.
  intros Hst Hvt Hs Hcol s'. unfold s'. rewrite (csi_3_g s Hst Hvt). clear s'.
  assert (Ht : tabs_ok (set_m_State StateNumber1 (set_m_nParam1 3 (set_m_nParam2 0 s))))
    by exact Hs.
  revert Ht. generalize (set_m_State StateNumber1 (set_m_nParam1 3 (set_m_nParam2 0 s))).
  intros t Ht.
  destruct (tabs_range (fun _ => Some false) (fun col s => SetTabStop col false s)
              TabStopsMax t) as [_ Hget]; try assumption.
  { intros i u Hi. unfold SetTabStop. destruct (Z.geb_spec i TabStopsMax); [lia|reflexivity]. }
  { unfold TabStopsMax. lia. }
  assert (Hv : IsTabStop col (for_range 0 TabStopsMax
                                (fun col s => SetTabStop col false s) t) = false).
  { rewrite (Hget col Hcol). destruct (Z.ltb_spec col TabStopsMax); [reflexivity|].
    unfold IsTabStop. destruct (Z.geb_spec col TabStopsMax); [reflexivity | lia]. }
  revert Hv. generalize (for_range 0 TabStopsMax (fun col s => SetTabStop col false s) t).
  intros u Hv. split; [exact Hv | reflexivity].
Qed.

Lemma find_seqZ_first (f : Z -> bool) n :
  forall lo col,
  lo <= col < lo + Z.of_nat n -> f col = true ->
  (forall k, lo <= k < col -> f k = false) ->
  find f (seqZ lo (Z.of_nat n)) = Some col.
Proof.
  induction n as [|n IH]; intros lo col Hcol Hf Hnone; [lia|].
  rewrite seqZ_cons by lia. cbn [find].
  destruct (Z.eq_dec lo col) as [->|Hne]; [rewrite Hf; reflexivity|].
  rewrite (Hnone lo) by lia.
  replace (Z.pred (Z.of_nat (S n))) with (Z.of_nat n) by lia.
  apply IH; [lia | exact Hf | intros k Hk; apply Hnone; lia].
Qed.

Lemma find_seqZ_none (f : Z -> bool) n :
  forall lo, (forall k, lo <= k < lo + Z.of_nat n -> f k = false) ->
  find f (seqZ lo (Z.of_nat n)) = None.
Proof.
  induction n as [|n IH]; intros lo Hnone; [reflexivity|].
  rewrite seqZ_cons by lia. cbn [find]. rewrite (Hnone lo) by lia.
  replace (Z.pred (Z.of_nat (S n))) with (Z.of_nat n) by lia.
  apply IH. intros k Hk. apply Hnone. lia.
Qed.

Lemma grid_cursor_column_eq s :
  grid_ok s ->
  GetCursorColumn s = m_nCursorX s / GetCharWidth (pCharGen s)
  /\ m_nCursorX s = GetCursorColumn s * GetCharWidth (pCharGen s)
  /\ 0 <= GetCursorColumn s < GetColumns s.
Proof.
  intros H. pose proof (grid_cursor_column s H) as Ex.
  destruct (grid_columns s H) as (_ & Ew & Hcols).
  pose proof H as [G_gen G_w G_h G_uw G_uh G_small G_start G_end G_region G_x G_y G_sx G_sy].
  destruct G_gen as [cg Hcg].
  assert (E : GetCursorColumn s = m_nCursorX s / GetCharWidth (pCharGen s)).
  { unfold GetCursorColumn. rewrite Hcg, (pCharGen_Some s cg Hcg).
    destruct (Z.eqb_spec (GetCharWidth (pCharGen s)) 0); [lia | reflexivity]. }
  rewrite E. split; [reflexivity|]. split; [exact Ex|].
  split; [apply Z.div_pos; lia|].
  apply Z.div_lt_upper_bound; [lia|]. rewrite Z.mul_comm, <- Ew. lia.
Qed.

(** X9: [Tabulator] takes the cursor to the first tab stop to the right of
    it in its row; nothing else of the renderer changes. *)
Theorem Tabulator_next_stop col s :
  grid_ok s ->
  GetCursorColumn s < col < GetColumns s ->
  IsTabStop col s = true ->
  (forall k, GetCursorColumn s < k < col -> IsTabStop k s = false) ->
  Tabulator pf s = set_m_nCursorX (col * GetCharWidth (pCharGen s)) s
  /\ GetCursorColumn (Tabulator pf s) = col.
Proof.
  intros H Hcol Hstop Hnone.
  destruct (grid_cursor_column_eq s H) as (Ecur & Ex & Hcur).
  destruct (grid_columns s H) as (_ & Ew & Hcols).
  pose proof (grid_used_width s H).
  pose proof H as [G_gen G_w G_h G_uw G_uh G_small G_start G_end G_region G_x G_y G_sx G_sy].
  assert (E : Tabulator pf s = set_m_nCursorX (col * GetCharWidth (pCharGen s)) s).
  { unfold Tabulator. cbv zeta. destruct G_gen as [cg Hcg].
    rewrite Hcg, (pCharGen_Some s cg Hcg). rewrite <- Ecur.
    set (w := GetCharWidth (pCharGen s)) in *.
    destruct (Z.eqb_spec w 0); [lia|].
    destruct (Z.gtb_spec (GetColumns s) 0); [|lia].
    replace (GetColumns s - (GetCursorColumn s + 1))
      with (Z.of_nat (Z.to_nat (GetColumns s - (GetCursorColumn s + 1)))) by lia.
    rewrite (find_seqZ_first (fun col => IsTabStop col s) _ _ col);
      [| lia | exact Hstop | intros k Hk; apply Hnone; lia].
    assert (0 <= col * w <= GetColumns s * w)
      by (split; [apply Z.mul_nonneg_nonneg | apply Z.mul_le_mono_nonneg_r]; lia).
    rewrite u32_small by lia. reflexivity. }
  split; [exact E|]. rewrite E.
  apply GetCursorColumn_at; [exact G_gen | exact G_w | reflexivity].
Qed.

(** X10: with no tab stop to the right of the cursor in its row, [Tabulator]
    takes the cursor to the next column that is a multiple of eight, and when
    that lies beyond the last column it does a [NewLine] instead: the cursor
    goes to the first column of the next row, and the region scrolls when the
    cursor was in its last row. *)
Theorem Tabulator_no_stop s :
  grid_ok s ->
  (forall k, GetCursorColumn s < k < GetColumns s -> IsTabStop k s = false) ->
  Tabulator pf s =
    let next := (GetCursorColumn s / 8 + 1) * 8 in
    if next <? GetColumns s
    then set_m_nCursorX (next * GetCharWidth (pCharGen s)) s
    else NewLine pf s.
Proof.
  intros H Hnone. cbv zeta.
  destruct (grid_cursor_column_eq s H) as (Ecur & Ex & Hcur).
  destruct (grid_columns s H) as (_ & Ew & Hcols).
  pose proof (grid_used_width s H).
  pose proof H as [G_gen G_w G_h G_uw G_uh G_small G_start G_end G_region G_x G_y G_sx G_sy].
  unfold Tabulator. cbv zeta. destruct G_gen as [cg Hcg].
  rewrite Hcg, (pCharGen_Some s cg Hcg). rewrite <- Ecur.
  set (w := GetCharWidth (pCharGen s)) in *.
  set (cur := GetCursorColumn s) in *.
  destruct (Z.eqb_spec w 0); [lia|].
  destruct (Z.gtb_spec (GetColumns s) 0); [|lia].
  replace (GetColumns s - (cur + 1))
    with (Z.of_nat (Z.to_nat (GetColumns s - (cur + 1)))) by lia.
  rewrite find_seqZ_none by (intros k Hk; apply Hnone; lia).
  cbn [m_nCursorX set_m_nCursorX].
  rewrite (u32_small (w * 8)) by lia.
  rewrite (u32_small (m_nCursorX s + w * 8)) by lia.
  assert (Ediv : (m_nCursorX s + w * 8) / (w * 8) = cur / 8 + 1).
  { rewrite Ex. replace (cur * w + w * 8) with ((cur + 1 * 8) * w) by lia.
    rewrite (Z.mul_comm w 8), Z.div_mul_cancel_r by lia.
    rewrite Z.div_add by lia. reflexivity. }
  rewrite Ediv.
  assert (0 <= cur / 8) by (apply Z.div_pos; lia).
  assert (cur / 8 * 8 <= cur) by (rewrite Z.mul_comm; apply Z.mul_div_le; lia).
  replace ((cur / 8 + 1) * (w * 8)) with ((cur / 8 + 1) * 8 * w) by lia.
  assert (0 <= (cur / 8 + 1) * 8 * w <= (cur + 8) * w)
    by (split; [apply Z.mul_nonneg_nonneg | apply Z.mul_le_mono_nonneg_r]; lia).
  assert (cur * w + 8 * w = (cur + 8) * w) by lia.
  rewrite u32_small by lia.
  cbn [m_nCursorX m_nUsedWidth set_m_nCursorX].
  rewrite Ew, Z.geb_leb, Z.leb_antisym, (cell_before _ _ w G_w).
  destruct ((cur / 8 + 1) * 8 <? GetColumns s); cbn [negb]; [reflexivity|].
  apply NewLine_set_X.
Qed.

End Tabs.

(** ** Save and restore of the cursor *)

Section Saved.

Variable pf : Platform.

Lemma control_saved s s' : control s' = control s -> saved_view s' = saved_view s.
Proof. intros E. unfold saved_view. control_inv E. congruence. Qed.

Lemma saved_set_Y v s : saved_view (set_m_nCursorY v s) = saved_view s.
Proof. reflexivity. Qed.

Lemma saved_set_X v s : saved_view (set_m_nCursorX v s) = saved_view s.
Proof. reflexivity. Qed.

Lemma saved_set_State v s : saved_view (set_m_State v s) = saved_view s.
Proof. reflexivity. Qed.

Lemma saved_set_Param1 v s : saved_view (set_m_nParam1 v s) = saved_view s.
Proof. reflexivity. Qed.

Lemma saved_set_Param2 v s : saved_view (set_m_nParam2 v s) = saved_view s.
Proof. reflexivity. Qed.

Lemma saved_set_UseG1 v s : saved_view (set_m_bUseG1 v s) = saved_view s.
Proof. reflexivity. Qed.

Lemma saved_set_G0 v s : saved_view (set_m_G0CharSet v s) = saved_view s.
Proof. reflexivity. Qed.

Lemma saved_set_G1 v s : saved_view (set_m_G1CharSet v s) = saved_view s.
Proof. reflexivity. Qed.

Lemma saved_set_VT52 v s : saved_view (set_m_bVT52Mode v s) = saved_view s.
Proof. reflexivity. Qed.

Lemma saved_set_CharGen v s : saved_view (set_m_pCharGen v s) = saved_view s.
Proof. reflexivity. Qed.

Lemma saved_set_ScrollStart v s : saved_view (set_m_nScrollStart v s) = saved_view s.
Proof. reflexivity. Qed.

Lemma saved_set_ScrollEnd v s : saved_view (set_m_nScrollEnd v s) = saved_view s.
Proof. reflexivity. Qed.

Lemma saved_InsertMode v s : saved_view (InsertMode v s) = saved_view s.
Proof. reflexivity. Qed.

Lemma saved_SetAutoPageMode v s : saved_view (SetAutoPageMode v s) = saved_view s.
Proof. reflexivity. Qed.

Lemma saved_SetCursorMode v s : saved_view (SetCursorMode v s) = saved_view s.
Proof. reflexivity. Qed.

Lemma saved_BEEP s : saved_view (BEEP s) = saved_view s.
Proof. reflexivity. Qed.

Lemma saved_SetTabStop col b s : saved_view (SetTabStop col b s) = saved_view s.
Proof. unfold SetTabStop. destruct (_ >=? _); reflexivity. Qed.

Lemma saved_set_tab_at_cursor b s : saved_view (set_tab_at_cursor b s) = saved_view s.
Proof.
  unfold set_tab_at_cursor. destruct (m_pCharGen s); [|reflexivity].
  destruct (negb _); [apply saved_SetTabStop | reflexivity].
Qed.

Lemma saved_SetStandoutMode n s : saved_view (SetStandoutMode n s) = saved_view s.
Proof. unfold SetStandoutMode. repeat (destruct (n =? _); [reflexivity|]). reflexivity. Qed.

Lemma saved_CarriageReturn s : saved_view (CarriageReturn s) = saved_view s.
Proof. reflexivity. Qed.

Lemma saved_CursorHome s : saved_view (CursorHome s) = saved_view s.
Proof. reflexivity. Qed.

Lemma saved_CursorUp s : saved_view (CursorUp s) = saved_view s.
Proof. unfold CursorUp. destruct (_ >? _); reflexivity. Qed.

Lemma saved_CursorDown s : saved_view (CursorDown pf s) = saved_view s.
Proof.
  unfold CursorDown. cbv zeta.
  destruct (_ >=? _); [|reflexivity].
  destruct (negb _); [|reflexivity].
  rewrite saved_set_Y. rewrite (control_saved _ _ (Scroll_control pf _)). reflexivity.
Qed.

Lemma saved_NewLine s : saved_view (NewLine pf s) = saved_view s.
Proof. unfold NewLine. rewrite saved_CursorDown. reflexivity. Qed.

Lemma saved_CursorLeft s : saved_view (CursorLeft s) = saved_view s.
Proof. unfold CursorLeft. repeat (destruct (_ >? _)); reflexivity. Qed.

Lemma saved_CursorRight s : saved_view (CursorRight pf s) = saved_view s.
Proof.
  unfold CursorRight. cbv zeta. destruct (_ >=? _); [|reflexivity].
  rewrite saved_NewLine. reflexivity.
Qed.

Lemma saved_CursorMove r c s : saved_view (CursorMove r c s) = saved_view s.
Proof. unfold CursorMove. cbv zeta. destruct (_ && _); reflexivity. Qed.

Lemma saved_SetScrollRegion a b s : saved_view (SetScrollRegion a b s) = saved_view s.
Proof.
  unfold SetScrollRegion. cbv zeta. rewrite saved_CursorHome.
  destruct (_ && _); reflexivity.
Qed.

Lemma saved_Tabulator s : saved_view (Tabulator pf s) = saved_view s.
Proof.
  unfold Tabulator. cbv zeta. destruct (m_pCharGen s); [|reflexivity].
  destruct (_ =? 0); [reflexivity|].
  match goal with |- saved_view (match ?o with Some _ => _ | None => _ end) = _ =>
    destruct o end; [reflexivity|].
  destruct (_ >=? _); [|reflexivity]. rewrite saved_NewLine. reflexivity.
Qed.

Lemma saved_BackTabulator s : saved_view (BackTabulator s) = saved_view s.
Proof.
  unfold BackTabulator. cbv zeta. destruct (m_pCharGen s); [|reflexivity].
  destruct (_ =? 0); [reflexivity|].
  match goal with |- saved_view (match ?o with Some _ => _ | None => _ end) = _ =>
    destruct o end; [reflexivity|].
  destruct (_ >=? _); reflexivity.
Qed.

Lemma saved_ReverseScroll s : saved_view (ReverseScroll pf s) = saved_view s.
Proof.
  unfold ReverseScroll. destruct (_ =? _); [|reflexivity].
  apply control_saved, InsertLines_control.
Qed.

Lemma saved_ClearDisplay s : saved_view (ClearDisplay s) = saved_view s.
Proof.
  unfold ClearDisplay. cbv zeta.
  rewrite (control_saved _ _ (ClearDisplayEnd_control _)). reflexivity.
Qed.

Lemma saved_DisplayChar c s : saved_view (DisplayChar pf c s) = saved_view s.
Proof.
  unfold DisplayChar. cbv zeta.
  destruct (chr " " <=? c mod 256); [|reflexivity].
  match goal with |- saved_view (if GetWrapAroundEnabled ?P then _ else _) = _ =>
    cut (saved_view P = saved_view s); [generalize P; intros p Hp|]
  end.
  - destruct (GetWrapAroundEnabled p); [rewrite saved_CursorRight; exact Hp|].
    destruct (_ && _); [|exact Hp]. destruct (_ <? _); exact Hp.
  - repeat match goal with
    | |- saved_view (match ?o with Some _ => _ | None => _ end) = _ => destruct o
    | |- saved_view (if ?b then _ else _) = _ => destruct b
    | |- saved_view (set_m_pCharGen _ _) = _ => rewrite saved_set_CharGen
    | |- saved_view (DisplayCharAt pf _ _ _ _ _) = _ =>
        rewrite (control_saved _ _ (DisplayCharAt_control pf _ _ _ _ _))
    end; reflexivity.
Qed.

Lemma saved_RestoreCursor s : saved_view (RestoreCursor s) = saved_view s.
Proof.
  unfold RestoreCursor. cbv zeta.
  destruct (cursorX (m_SavedState s) <? m_nWidth s).
  - cbn [m_SavedState m_nHeight set_m_nCursorX]. destruct (_ <? _); reflexivity.
  - cbn [m_nCursorX set_m_nCursorX]. destruct (_ >? 0);
      cbn [m_SavedState m_nHeight set_m_nCursorX]; destruct (_ <? _); reflexivity.
Qed.

Lemma saved_iter (f : CTRenderer -> CTRenderer) lo hi s :
  (forall t, saved_view (f t) = saved_view t) ->
  saved_view (for_range lo hi (fun _ => f) s) = saved_view s.
Proof.
  intros Hf. apply (for_range_inv (fun t => saved_view t = saved_view s)); [|reflexivity].
  intros i t _ Ht. rewrite Hf. exact Ht.
Qed.

Lemma saved_clear_tabs s :
  saved_view (for_range 0 TabStopsMax (fun col s => SetTabStop col false s) s)
  = saved_view s.
Proof.
  apply (for_range_inv (fun t => saved_view t = saved_view s)); [|reflexivity].
  intros i t _ Ht. rewrite saved_SetTabStop. exact Ht.
Qed.

Ltac saved_step :=
  repeat first
    [ match goal with
      | |- saved_view ?t = saved_view ?t => reflexivity
      | |- saved_view (if ?b then _ else _) = _ => destruct b eqn:?
      | |- saved_view (match ?o with Some _ => _ | None => _ end) = _ => destruct o eqn:?
      | |- saved_view (set_m_State _ _) = _ => rewrite saved_set_State
      | |- saved_view (set_m_nParam1 _ _) = _ => rewrite saved_set_Param1
      | |- saved_view (set_m_nParam2 _ _) = _ => rewrite saved_set_Param2
      | |- saved_view (set_m_bUseG1 _ _) = _ => rewrite saved_set_UseG1
      | |- saved_view (set_m_G0CharSet _ _) = _ => rewrite saved_set_G0
      | |- saved_view (set_m_G1CharSet _ _) = _ => rewrite saved_set_G1
      | |- saved_view (set_m_bVT52Mode _ _) = _ => rewrite saved_set_VT52
      | |- saved_view (set_m_nCursorX _ _) = _ => rewrite saved_set_X
      | |- saved_view (set_m_nCursorY _ _) = _ => rewrite saved_set_Y
      | |- saved_view (BEEP _) = _ => rewrite saved_BEEP
      | |- saved_view (InsertMode _ _) = _ => rewrite saved_InsertMode
      | |- saved_view (SetAutoPageMode _ _) = _ => rewrite saved_SetAutoPageMode
      | |- saved_view (SetCursorMode _ _) = _ => rewrite saved_SetCursorMode
      | |- saved_view (CursorUp _) = _ => rewrite saved_CursorUp
      | |- saved_view (CursorDown pf _) = _ => rewrite saved_CursorDown
      | |- saved_view (CursorLeft _) = _ => rewrite saved_CursorLeft
      | |- saved_view (CursorRight pf _) = _ => rewrite saved_CursorRight
      | |- saved_view (CursorHome _) = _ => rewrite saved_CursorHome
      | |- saved_view (CarriageReturn _) = _ => rewrite saved_CarriageReturn
      | |- saved_view (NewLine pf _) = _ => rewrite saved_NewLine
      | |- saved_view (Tabulator pf _) = _ => rewrite saved_Tabulator
      | |- saved_view (BackTabulator _) = _ => rewrite saved_BackTabulator
      | |- saved_view (ReverseScroll pf _) = _ => rewrite saved_ReverseScroll
      | |- saved_view (ClearDisplay _) = _ => rewrite saved_ClearDisplay
      | |- saved_view (ClearDisplayEnd ?t) = _ =>
          rewrite (control_saved _ _ (ClearDisplayEnd_control t))
      | |- saved_view (ClearLineEnd ?t) = _ =>
          rewrite (control_saved _ _ (ClearLineEnd_control t))
      | |- saved_view (InsertLines pf ?n ?t) = _ =>
          rewrite (control_saved _ _ (InsertLines_control pf n t))
      | |- saved_view (DeleteLines pf ?n ?t) = _ =>
          rewrite (control_saved _ _ (DeleteLines_control pf n t))
      | |- saved_view (DeleteChars pf ?n ?t) = _ =>
          rewrite (control_saved _ _ (DeleteChars_control pf n t))
      | |- saved_view (EraseChars ?n ?t) = _ =>
          rewrite (control_saved _ _ (EraseChars_control n t))
      | |- saved_view (DisplayChar pf _ _) = _ => rewrite saved_DisplayChar
      | |- saved_view (RestoreCursor _) = _ => rewrite saved_RestoreCursor
      | |- saved_view (SetStandoutMode _ _) = _ => rewrite saved_SetStandoutMode
      | |- saved_view (set_tab_at_cursor _ _) = _ => rewrite saved_set_tab_at_cursor
      | |- saved_view (CursorMove _ _ _) = _ => rewrite saved_CursorMove
      | |- saved_view (SetScrollRegion _ _ _) = _ => rewrite saved_SetScrollRegion
      | |- saved_view (for_range 0 TabStopsMax _ _) = _ => rewrite saved_clear_tabs
      | |- saved_view (for_range _ _ (fun _ => CursorUp) _) = _ =>
          rewrite saved_iter; [|apply saved_CursorUp]
      | |- saved_view (for_range _ _ (fun _ => CursorDown pf) _) = _ =>
          rewrite saved_iter; [|apply saved_CursorDown]
      | |- saved_view (for_range _ _ (fun _ => CursorLeft) _) = _ =>
          rewrite saved_iter; [|apply saved_CursorLeft]
      | |- saved_view (for_range _ _ (fun _ => CursorRight pf) _) = _ =>
          rewrite saved_iter; [|apply saved_CursorRight]
      end ].

(** Only [ESC 7] and a font change write what [RestoreCursor] reads. *)
Lemma saved_step_keeps c s :
  m_State s <> StateFontChange ->
  ~ (m_State s = StateEscape /\ c = chr "7") ->
  saved_view (Write_char pf c s) = saved_view s.
Proof.
  intros Hfc H7. unfold Write_char.
  destruct (m_State s) eqn:Hst; cbv beta iota zeta; try congruence.
  all: saved_step.
  exfalso. apply H7. split; [reflexivity|]. apply Z.eqb_eq. assumption.
Qed.

(** [StateEscape] is entered by [ESC] only, [StateFontChange] by [ESC #] only. *)
Lemma escape_entered c s :
  (m_State (Write_char pf c s) = StateEscape -> c = ESC)
  /\ (m_State (Write_char pf c s) = StateFontChange ->
      m_State s = StateEscape /\ c = chr "#").
Proof.
  unfold Write_char.
  destruct (m_State s) eqn:Hst; cbn beta iota zeta; split_ifs; cbn in *;
    rewrite ?CursorLeft_State, ?Tabulator_State, ?ClearDisplay_State,
            ?NewLine_State, ?DisplayChar_State;
    rewrite ?Hst;
    (split; intros E; try discriminate E);
    repeat case_match; unfold BEEP in *; cbn in *; rewrite ?Hst in *;
    try discriminate; try congruence;
    chr_norm; unfold ESC; repeat split; try reflexivity;
    repeat match goal with H : (_ =? _) = true |- _ => apply Z.eqb_eq in H end;
    try assumption; try congruence.
Qed.

(** What a stream without [ESC 7] and [ESC #] keeps. *)
Lemma saved_run bs :
  forall prev s,
  (m_State s = StateEscape -> prev = ESC) ->
  m_State s <> StateFontChange ->
  escapes_free prev bs = true ->
  saved_view (Write_chars pf bs s) = saved_view s.
Proof.
  unfold Write_chars.
  induction bs as [|c bs IH]; intros prev s Hesc Hfc Hfree; [reflexivity|].
  cbn [foldl]. cbn [escapes_free] in Hfree.
  apply andb_prop in Hfree as [Hc Hfree]. apply negb_true_iff in Hc.
  destruct (escape_entered c s) as [He Hf].
  assert (Hpair : ~ (m_State s = StateEscape /\ (c = chr "7" \/ c = chr "#"))).
  { intros [Hs Hc']. rewrite (Hesc Hs), Z.eqb_refl in Hc. cbn [andb] in Hc.
    apply orb_false_elim in Hc as [H7 H3].
    destruct Hc' as [-> | ->]; rewrite Z.eqb_refl in *; discriminate. }
  rewrite (IH c (Write_char pf c s)); [| exact He | | exact Hfree].
  - apply saved_step_keeps; [exact Hfc|]. intros [Hs Hc']. apply Hpair. tauto.
  - intros E. apply Hf in E. apply Hpair. tauto.
Qed.

Lemma esc_7 s :
  m_State s = StateStart -> m_bVT52Mode s = false ->
  Write_chars pf [ESC; chr "7"] s
  = set_m_State StateStart (SaveCursor (set_m_State StateEscape s)).
Proof.
  intros Hs Hv.
  unfold Write_chars, ESC. cbn [foldl]. unfold Write_char at 2. rewrite Hs. cbn.
  unfold Write_char. cbn. rewrite Hv. reflexivity.
Qed.

Lemma esc_8 s :
  m_State s = StateStart -> m_bVT52Mode s = false ->
  Write_chars pf [ESC; chr "8"] s
  = set_m_State StateStart (RestoreCursor (set_m_State StateEscape s)).
Proof.
  intros Hs Hv.
  unfold Write_chars, ESC. cbn [foldl]. unfold Write_char at 2. rewrite Hs. cbn.
  unfold Write_char. cbn. rewrite Hv. reflexivity.
Qed.

Lemma RestoreCursor_restores s t :
  saved_view t = saved_view (SaveCursor s) ->
  m_nCursorX s < m_nWidth s -> m_nCursorY s < m_nHeight s ->
  cursor_attributes (RestoreCursor t) = cursor_attributes s
  /\ m_bDimAttribute (RestoreCursor t) = m_bDimAttribute t
  /\ m_FontFlags (RestoreCursor t) = m_FontFlags t.
Proof.
  unfold saved_view. intros E Hx Hy. injection E as Esv Ew Eh.
  unfold SaveCursor in *. cbn [m_SavedState set_m_SavedState m_nWidth m_nHeight] in *.
  unfold RestoreCursor. cbv zeta. rewrite Esv.
  cbn [cursorX cursorY reverseAttribute boldAttribute underlineAttribute blinkAttribute
       foreground background defaultForeground defaultBackground].
  rewrite Ew. destruct (Z.ltb_spec (m_nCursorX s) (m_nWidth s)); [|lia].
  cbn [m_nHeight set_m_nCursorX]. rewrite Eh.
  destruct (Z.ltb_spec (m_nCursorY s) (m_nHeight s)); [|lia].
  repeat split.
Qed.

(** X11: [ESC 7] ... [ESC 8] is a round trip.  Whatever is written between
    the two, as long as it holds no [ESC 7] and no [ESC #] and ends between
    two sequences in ANSI mode, [ESC 8] puts the cursor back where [ESC 7]
    found it (a position on the display) and brings back the reverse, bold,
    underline and blink attributes and the four colours.  The dim attribute
    and the font flags stay as the bytes in between left them. *)
Theorem save_restore_cursor bs s :
  m_State s = StateStart -> m_bVT52Mode s = false ->
  m_nCursorX s < m_nWidth s -> m_nCursorY s < m_nHeight s ->
  escapes_free (chr "7") bs = true ->
  let s1 := Write_chars pf ([ESC; chr "7"] ++ bs) s in
  m_State s1 = StateStart -> m_bVT52Mode s1 = false ->
  let s2 := Write_chars pf [ESC; chr "8"] s1 in
  cursor_attributes s2 = cursor_attributes s
  /\ m_bDimAttribute s2 = m_bDimAttribute s1
  /\ m_FontFlags s2 = m_FontFlags s1.
Proof.
  intros Hs Hv Hx Hy Hfree s1 Hs1 Hv1 s2.
  assert (Esv : saved_view s1 = saved_view (SaveCursor s)).
  { unfold s1. rewrite Write_chars_app, (esc_7 s Hs Hv).
    rewrite (saved_run bs (chr "7")); [reflexivity | | | exact Hfree].
    - intros E. discriminate E.
    - intros E. discriminate E. }
  unfold s2. rewrite (esc_8 s1 Hs1 Hv1). clearbody s1. clear s2.
  destruct (RestoreCursor_restores s (set_m_State StateEscape s1) Esv Hx Hy)
    as (Ha & Hd & Hf).
  generalize dependent (RestoreCursor (set_m_State StateEscape s1)).
  intros r Ha Hd Hf. repeat split; assumption.
Qed.

End Saved.

(** ** What painting writes, and what it leaves *)

Lemma touched_refl s : touched s s.
Proof.
  exists (m_pBuffer8 s), (m_UpdateArea s). split; [destruct s; reflexivity | reflexivity].
Qed.

Lemma touched_same s0 s : touched s0 s -> same s0 s.
Proof. intros (b & a & -> & Hl). split; [reflexivity | exact Hl]. Qed.

Lemma touched_buffer s0 s b :
  touched s0 s -> length b = length (m_pBuffer8 s0) -> touched s0 (set_m_pBuffer8 b s).
Proof.
  intros (b0 & a & -> & _) Hl. exists b, a. split; [destruct s0; reflexivity | exact Hl].
Qed.

Lemma touched_area s0 s a : touched s0 s -> touched s0 (set_m_UpdateArea a s).
Proof.
  intros (b & a0 & -> & Hl). exists b, a. split; [destruct s0; reflexivity | exact Hl].
Qed.

Lemma touched_length s0 s : touched s0 s -> length (m_pBuffer8 s) = length (m_pBuffer8 s0).
Proof. intros (b & a & -> & Hl). exact Hl. Qed.

Lemma touched_SetRawPixel s0 s x y c : touched s0 s -> touched s0 (SetRawPixel x y c s).
Proof.
  intros H. pose proof (SetRawPixel_length x y c s) as Hl.
  rewrite (touched_length _ _ H) in Hl. revert Hl. unfold SetRawPixel.
  repeat case_match; intros Hl; try exact H; apply touched_buffer; assumption.
Qed.

Lemma touched_SetUpdateArea s0 s a b : touched s0 s -> touched s0 (SetUpdateArea a b s).
Proof.
  intros H. unfold SetUpdateArea.
  repeat case_match; repeat apply touched_area; exact H.
Qed.

Section Drawing.

Variable pf : Platform.

Variable s0 : CTRenderer.

Hypothesis Hok0 : surface_ok s0.

(** [f] gives the pixels of [R] the colour [col] and leaves every other
    pixel of the surface as it was. *)
Definition draws (f : CTRenderer -> CTRenderer) (R : Z -> Z -> Prop)
    (col : Z -> Z -> Z) : Prop :=
  forall s, touched s0 s ->
    touched s0 (f s)
    /\ forall x y, 0 <= x < m_nWidth s0 -> 0 <= y < m_nHeight s0 ->
         (R x y /\ GetRawPixel x y (f s) = raw_color (m_nDepth s0) (col x y))
         \/ (~ R x y /\ GetRawPixel x y (f s) = GetRawPixel x y s).

Ltac same_fields_rw Hs :=
  let W := fresh "Ew" in let H := fresh "Eh" in let D := fresh "Ed" in
  let B := fresh "Ebg" in let G := fresh "Ecg" in let U := fresh "Euw" in
  let X := fresh "Ecx" in let Y := fresh "Ecy" in let Z := fresh "Esz" in
  let P := fresh "Ept" in
  destruct (same_fields _ _ (touched_same _ _ Hs)) as (W & H & D & B & G & U & X & Y & Z & P);
  rewrite ?W, ?H, ?D, ?B, ?G, ?U, ?X, ?Y, ?Z, ?P.

Lemma draws_ext f g R col :
  (forall s, touched s0 s -> g s = f s) -> draws f R col -> draws g R col.
Proof. intros E Hf s Hs. rewrite (E s Hs). exact (Hf s Hs). Qed.

Lemma draws_weaken f (R R2 : Z -> Z -> Prop) col col2 :
  (forall x y, 0 <= x < m_nWidth s0 -> 0 <= y < m_nHeight s0 -> (R2 x y <-> R x y)) ->
  (forall x y, 0 <= x < m_nWidth s0 -> 0 <= y < m_nHeight s0 -> R x y ->
     col2 x y = col x y) ->
  draws f R col -> draws f R2 col2.
Proof.
  intros HR Hc Hf s Hs. destruct (Hf s Hs) as [Hs' Hpx].
  split; [exact Hs'|]. intros x y Hx Hy.
  destruct (Hpx x y Hx Hy) as [[H1 H2] | [H1 H2]].
  - left. split; [apply HR; assumption|]. rewrite Hc by assumption. exact H2.
  - right. split; [|exact H2]. intros H. apply H1, HR; assumption.
Qed.

Lemma draws_comp f g (R R' : Z -> Z -> Prop) col col' col'' :
  draws f R col -> draws g R' col' ->
  (forall x y, 0 <= x < m_nWidth s0 -> 0 <= y < m_nHeight s0 -> R' x y ->
     col'' x y = col' x y) ->
  (forall x y, 0 <= x < m_nWidth s0 -> 0 <= y < m_nHeight s0 -> R x y -> ~ R' x y ->
     col'' x y = col x y) ->
  draws (fun s => g (f s)) (fun x y => R x y \/ R' x y) col''.
Proof.
  intros Hf Hg H1 H2 s Hs. destruct (Hf s Hs) as [Hs1 Hp1].
  destruct (Hg _ Hs1) as [Hs2 Hp2].
  split; [exact Hs2|]. intros x y Hx Hy.
  destruct (Hp2 x y Hx Hy) as [[A B] | [A B]].
  - left. split; [tauto|]. rewrite H1 by assumption. exact B.
  - destruct (Hp1 x y Hx Hy) as [[C D] | [C D]].
    + left. split; [tauto|]. rewrite H2 by assumption. congruence.
    + right. split; [tauto | congruence].
Qed.

Lemma draws_same f g (R R' : Z -> Z -> Prop) col :
  draws f R col -> draws g R' col ->
  draws (fun s => g (f s)) (fun x y => R x y \/ R' x y) col.
Proof. intros Hf Hg. apply (draws_comp f g R R' col col col); auto. Qed.

Lemma draws_id : forall col, draws (fun s => s) (fun _ _ => False) col.
Proof. intros col s Hs. split; [exact Hs|]. intros x y _ _. right. tauto. Qed.

Lemma draws_foldl {A} (l : list A) (body : A -> CTRenderer -> CTRenderer)
    (R : A -> Z -> Z -> Prop) col :
  (forall a, a ∈ l -> draws (body a) (R a) col) ->
  draws (fun s => foldl (fun acc a => body a acc) s l)
        (fun x y => exists a, a ∈ l /\ R a x y) col.
Proof.
  induction l as [|a l IH]; intros Hb.
  - cbn [foldl]. apply (draws_weaken _ (fun _ _ => False) _ col col);
      [| reflexivity | apply draws_id].
    intros x y _ _. split; [|tauto]. intros (a & Ha & _). by apply elem_of_nil in Ha.
  - cbn [foldl].
    apply (draws_weaken _ (fun x y => R a x y \/ exists a', a' ∈ l /\ R a' x y) _ col col);
      [| reflexivity |].
    + intros x y _ _. split.
      * intros (a' & Ha' & HR). apply elem_of_cons in Ha'.
        destruct Ha' as [-> | Ha']; [tauto|]. right. exists a'. tauto.
      * intros [HR | (a' & Ha' & HR)].
        -- exists a. split; [apply list_elem_of_here | exact HR].
        -- exists a'. split; [apply list_elem_of_further; exact Ha' | exact HR].
    + apply (draws_same (body a) (fun s => foldl (fun acc a => body a acc) s l)).
      * apply Hb, list_elem_of_here.
      * apply IH. intros a' Ha'. apply Hb, list_elem_of_further, Ha'.
Qed.

Lemma draws_for_range lo hi body (R : Z -> Z -> Z -> Prop) col :
  (forall i, lo <= i < hi -> draws (body i) (R i) col) ->
  draws (for_range lo hi body) (fun x y => exists i, lo <= i < hi /\ R i x y) col.
Proof.
  intros Hb. unfold for_range.
  eapply draws_weaken; [| |apply (draws_foldl _ body R col)].
  - intros x y _ _. split.
    + intros (i & Hi & HR). exists i. split; [|exact HR]. apply elem_of_seqZ. lia.
    + intros (i & Hi & HR). exists i. split; [|exact HR]. apply elem_of_seqZ in Hi. lia.
  - reflexivity.
  - intros i Hi. apply Hb. apply elem_of_seqZ in Hi. lia.
Qed.

Lemma for_step_bound lo hi step k :
  0 < step ->
  (0 <= k < (hi - lo + step - 1) / step <-> 0 <= k /\ lo + k * step < hi).
Proof.
  intros Hst. split.
  - intros [H0 H1]. split; [exact H0|].
    assert (k + 1 <= (hi - lo + step - 1) / step) as H2 by lia.
    apply (Z.mul_le_mono_nonneg_r _ _ step) in H2; [|lia].
    pose proof (Z.mul_div_le (hi - lo + step - 1) step Hst). lia.
  - intros [H0 H1]. split; [exact H0|].
    assert (k + 1 <= (hi - lo + step - 1) / step)
      by (apply Z.div_le_lower_bound; lia).
    lia.
Qed.

Lemma draws_for_step lo hi step body (R : Z -> Z -> Z -> Prop) col :
  0 < step ->
  (forall k, 0 <= k -> lo + k * step < hi -> draws (body (lo + k * step)) (R k) col) ->
  draws (for_step lo hi step body)
        (fun x y => exists k, 0 <= k /\ lo + k * step < hi /\ R k x y) col.
Proof.
  intros Hst Hb. unfold for_step.
  eapply draws_weaken;
    [| |apply (draws_foldl _ (fun k => body (lo + k * step)) R col)].
  - intros x y _ _. split.
    + intros (k & H0 & H1 & HR). exists k. split; [|exact HR].
      apply elem_of_seqZ. pose proof (proj2 (for_step_bound lo hi step k Hst) (conj H0 H1)).
      lia.
    + intros (k & Hk & HR). apply elem_of_seqZ in Hk.
      destruct (proj1 (for_step_bound lo hi step k Hst)) as [H0 H1]; [lia|].
      exists k. tauto.
  - reflexivity.
  - intros k Hi. apply elem_of_seqZ in Hi.
    destruct (proj1 (for_step_bound lo hi step k Hst)) as [H0 H1]; [lia|].
    apply Hb; assumption.
Qed.

Lemma draws_pixel x y c col :
  0 <= x < m_nWidth s0 -> 0 <= y < m_nHeight s0 -> col x y = c ->
  draws (SetRawPixel x y c) (fun x' y' => x' = x /\ y' = y) col.
Proof.
  intros Hx Hy Hc s Hs. pose proof (same_ok s0 Hok0 s (touched_same _ _ Hs)) as Hok.
  destruct (same_fields _ _ (touched_same _ _ Hs)) as (Ew & Eh & Ed & _).
  split.
  - apply touched_SetRawPixel, Hs.
  - intros x' y' Hx' Hy'.
    rewrite GetRawPixel_SetRawPixel by (rewrite ?Ew, ?Eh; assumption).
    rewrite Ed.
    destruct (Z.eqb_spec x x') as [->|Nx]; [destruct (Z.eqb_spec y y') as [->|Ny]|];
      cbn [andb].
    + left. split; [tauto|]. rewrite Hc. reflexivity.
    + right. split; [|reflexivity]. intros [_ E]. congruence.
    + right. split; [|reflexivity]. intros [E _]. congruence.
Qed.

Lemma draws_SetUpdateArea a b col : draws (SetUpdateArea a b) (fun _ _ => False) col.
Proof.
  intros s Hs. split.
  - apply touched_SetUpdateArea, Hs.
  - intros x y Hx Hy. right. split; [tauto|]. apply GetRawPixel_ext.
    + pose proof (SetUpdateArea_control a b s) as E. control_inv E. congruence.
    + pose proof (SetUpdateArea_control a b s) as E. control_inv E. congruence.
    + apply SetUpdateArea_buffer.
Qed.

Lemma draws_EraseChar px py col :
  0 <= px -> px + GetCharWidth (pCharGen s0) <= m_nWidth s0 ->
  0 <= py -> py + GetCharHeight (pCharGen s0) <= m_nHeight s0 ->
  0 < GetCharHeight (pCharGen s0) ->
  (forall x y, col x y = m_BackgroundColor s0) ->
  draws (EraseChar px py)
        (fun x y => px <= x < px + GetCharWidth (pCharGen s0)
                    /\ py <= y < py + GetCharHeight (pCharGen s0)) col.
Proof.
  intros Hpx Hpw Hpy Hph Hh Hcol.
  destruct (surface_bounds s0 Hok0) as [HW HH]; [lia|].
  set (inner := fun (y x : Z) (s : CTRenderer) =>
         SetRawPixel (u32 (px + x)) (u32 (py + y)) (m_BackgroundColor s) s).
  set (row := fun (y : Z) (s : CTRenderer) =>
         for_range 0 (GetCharWidth (pCharGen s)) (inner y) s).
  set (F := fun s : CTRenderer => for_range 0 (GetCharHeight (pCharGen s)) row s).
  set (G := fun s : CTRenderer =>
         SetUpdateArea py (u32 (py + GetCharHeight (pCharGen s) - 1)) s).
  change (EraseChar px py) with (fun s => G (F s)).
  eapply draws_weaken; cycle 2.
  - apply draws_same.
    + apply (draws_ext (for_range 0 (GetCharHeight (pCharGen s0)) row)).
      { intros s Hs. unfold F. same_fields_rw Hs. reflexivity. }
      apply draws_for_range. intros y Hy.
      apply (draws_ext (for_range 0 (GetCharWidth (pCharGen s0)) (inner y))).
      { intros s Hs. unfold row. same_fields_rw Hs. reflexivity. }
      apply draws_for_range. intros x Hx.
      apply (draws_ext (SetRawPixel (px + x) (py + y) (m_BackgroundColor s0))).
      { intros s Hs. unfold inner. same_fields_rw Hs. rewrite !u32_small by lia.
        reflexivity. }
      apply draws_pixel; [lia | lia | apply Hcol].
    + apply (draws_ext (SetUpdateArea py (u32 (py + GetCharHeight (pCharGen s0) - 1)))).
      { intros s Hs. unfold G. same_fields_rw Hs. reflexivity. }
      apply draws_SetUpdateArea.
  - intros x y _ _. cbv beta. split.
    + intros [Hx Hy]. left. exists (y - py). split; [lia|].
      exists (x - px). split; [lia|]. lia.
    + intros [(i & Hi & j & Hj & E1 & E2) | []]. lia.
  - reflexivity.
Qed.

End Drawing.

Section Erasing.

Variable s0 : CTRenderer.

Hypothesis Hok0 : surface_ok s0.

Hypothesis Hgrid0 : grid_ok s0.

Lemma grid_surface :
  0 < GetCharWidth (pCharGen s0) /\ 0 < GetCharHeight (pCharGen s0)
  /\ (GetCharWidth (pCharGen s0) | m_nUsedWidth s0 - m_nCursorX s0)
  /\ 0 <= m_nCursorX s0 < m_nUsedWidth s0 /\ m_nUsedWidth s0 <= m_nWidth s0
  /\ 0 <= m_nCursorY s0
  /\ m_nCursorY s0 + GetCharHeight (pCharGen s0) <= m_nHeight s0
  /\ m_nWidth s0 < 4294967296 /\ m_nHeight s0 < 4294967296.
Proof.
  pose proof (grid_used_width s0 Hgrid0) as [Dw Bw].
  pose proof (grid_used_height s0 Hgrid0) as [Dh Bh].
  pose proof Hgrid0 as [G_gen G_w G_h G_uw G_uh G_small G_start G_end G_region G_x G_y G_sx G_sy].
  assert (m_nCursorY s0 + GetCharHeight (pCharGen s0) <= m_nUsedHeight s0)
    by (apply divide_gap; tauto).
  repeat split; try lia.
  apply Z.divide_sub_r; tauto.
Qed.

Lemma draws_ClearLineEnd :
  draws s0 ClearLineEnd
        (fun x y => m_nCursorX s0 <= x
                    /\ m_nCursorY s0 <= y < m_nCursorY s0 + GetCharHeight (pCharGen s0))
        (fun _ _ => m_BackgroundColor s0).
Proof.
  destruct grid_surface as (Hw0 & Hh0 & [q Hq] & Hcx0 & Huw0 & Hcy0 & Hrow0 & HW & HH).
  set (w := GetCharWidth (pCharGen s0)) in *. set (h := GetCharHeight (pCharGen s0)) in *.
  set (cell := fun (nPosX : Z) (s : CTRenderer) => EraseChar nPosX (m_nCursorY s) s).
  set (F := fun s : CTRenderer =>
         for_step (m_nCursorX s) (m_nUsedWidth s) (GetCharWidth (pCharGen s)) cell s).
  set (px := fun (nPosX nPosY : Z) (s : CTRenderer) =>
         SetRawPixel nPosX nPosY (m_BackgroundColor s) s).
  set (col := fun (nPosX : Z) (s : CTRenderer) =>
         for_range (m_nCursorY s) (u32 (m_nCursorY s + GetCharHeight (pCharGen s)))
                   (px nPosX) s).
  set (G := fun s : CTRenderer => for_range (m_nUsedWidth s) (m_nWidth s) col s).
  change ClearLineEnd with (fun s => G (F s)).
  eapply draws_weaken; cycle 2.
  - apply draws_same.
    + apply (draws_ext s0 (for_step (m_nCursorX s0) (m_nUsedWidth s0) w cell)).
      { intros s Hs. unfold F.
        destruct (same_fields _ _ (touched_same _ _ Hs)) as (_ & _ & _ & _ & -> & -> & -> & _). reflexivity. }
      apply draws_for_step; [exact Hw0|]. intros k Hk Hlt.
      apply (draws_ext s0 (EraseChar (m_nCursorX s0 + k * w) (m_nCursorY s0))).
      { intros s Hs. unfold cell.
        destruct (same_fields _ _ (touched_same _ _ Hs)) as (_ & _ & _ & _ & _ & _ & _ & -> & _). reflexivity. }
      assert (k + 1 <= q) by nia.
      apply draws_EraseChar; fold w h; try assumption; try reflexivity; nia.
    + apply (draws_ext s0 (for_range (m_nUsedWidth s0) (m_nWidth s0) col)).
      { intros s Hs. unfold G.
        destruct (same_fields _ _ (touched_same _ _ Hs)) as (-> & _ & _ & _ & _ & -> & _). reflexivity. }
      apply draws_for_range. intros x Hx.
      apply (draws_ext s0 (for_range (m_nCursorY s0) (m_nCursorY s0 + h) (px x))).
      { intros s Hs. unfold col.
        destruct (same_fields _ _ (touched_same _ _ Hs)) as (_ & _ & _ & _ & -> & _ & _ & -> & _).
        fold h. rewrite u32_small by lia. reflexivity. }
      apply draws_for_range. intros y Hy.
      apply (draws_ext s0 (SetRawPixel x y (m_BackgroundColor s0))).
      { intros s Hs. unfold px.
        destruct (same_fields _ _ (touched_same _ _ Hs)) as (_ & _ & _ & -> & _). reflexivity. }
      apply draws_pixel; [assumption | lia | lia | reflexivity].
  - intros x y Hxb Hyb. cbv beta. fold w h. split.
    + intros [Hx Hy].
      destruct (Z_lt_le_dec x (m_nUsedWidth s0)) as [Hlt | Hge].
      * left. exists ((x - m_nCursorX s0) / w).
        pose proof (Z.mul_div_le (x - m_nCursorX s0) w Hw0).
        pose proof (Z.mul_succ_div_gt (x - m_nCursorX s0) w Hw0).
        assert (0 <= (x - m_nCursorX s0) / w) by (apply Z.div_pos; lia).
        split; [lia|]. split; [nia|]. nia.
      * right. exists x. split; [lia|]. exists y. split; [lia|]. lia.
    + intros [(k & Hk & Hlt & Hx & Hy) | (i & Hi & j & Hj & -> & ->)]; [nia | lia].
  - reflexivity.
Qed.

Lemma draws_EraseChars n :
  0 <= n <= 199 ->
  draws s0 (EraseChars n)
        (fun x y => m_nCursorX s0 <= x
                    /\ x < Z.min (m_nCursorX s0 + n * GetCharWidth (pCharGen s0))
                               (m_nUsedWidth s0)
                    /\ m_nCursorY s0 <= y < m_nCursorY s0 + GetCharHeight (pCharGen s0))
        (fun _ _ => m_BackgroundColor s0).
Proof.
  intros Hn.
  destruct grid_surface as (Hw0 & Hh0 & [q Hq] & Hcx0 & Huw0 & Hcy0 & Hrow0 & HW & HH).
  pose proof (grid_small s0 Hgrid0) as [HW24 HH24].
  pose proof (grid_used_width s0 Hgrid0) as [_ Hwu].
  set (w := GetCharWidth (pCharGen s0)) in *. set (h := GetCharHeight (pCharGen s0)) in *.
  unfold EraseChars.
  destruct (Z.eqb_spec n 0) as [->|Hn0].
  { eapply draws_weaken; [| |apply draws_id].
    - intros x y _ _. cbv beta. split; [lia | tauto].
    - reflexivity. }
  assert (0 <= n * w <= 199 * w)
    by (split; [apply Z.mul_nonneg_nonneg | apply Z.mul_le_mono_nonneg_r]; lia).
  set (e := Z.min (m_nCursorX s0 + n * w) (m_nUsedWidth s0)).
  set (cell := fun (nPosX : Z) (s : CTRenderer) => EraseChar nPosX (m_nCursorY s) s).
  apply (draws_ext s0 (for_step (m_nCursorX s0) e w cell)).
  { intros s Hs. cbv zeta.
    destruct (same_fields _ _ (touched_same _ _ Hs)) as (_ & _ & _ & _ & -> & -> & -> & _).
    fold w. rewrite u32_small by lia. unfold e.
    destruct (Z.gtb_spec (m_nCursorX s0 + n * w) (m_nUsedWidth s0));
      [rewrite Z.min_r by lia | rewrite Z.min_l by lia]; reflexivity. }
  assert (He : exists m, e - m_nCursorX s0 = m * w /\ 0 <= m <= q).
  { unfold e. destruct (Z.le_ge_cases (m_nCursorX s0 + n * w) (m_nUsedWidth s0)).
    - rewrite Z.min_l by lia. exists n. split; [lia|]. split; [lia|].
      assert (n * w <= q * w) by lia.
      destruct (Z.le_gt_cases n q) as [L|L]; [exact L|].
      apply (Z.mul_lt_mono_pos_r w) in L; lia.
    - rewrite Z.min_r by lia. exists q. split; [lia|]. split; [|lia].
      destruct (Z.le_gt_cases 0 q) as [L|L]; [exact L|].
      apply (Z.mul_lt_mono_pos_r w) in L; lia. }
  destruct He as (m & Hm & Hmq).
  assert (Hmw : m * w <= q * w) by (apply Z.mul_le_mono_nonneg_r; lia).
  assert (Hstep : forall k, 0 <= k -> m_nCursorX s0 + k * w < e ->
            0 <= k * w /\ (k + 1) * w <= m * w).
  { intros k Hk Hlt. split; [apply Z.mul_nonneg_nonneg; lia|].
    apply Z.mul_le_mono_nonneg_r; [lia|].
    assert (k * w < m * w) by lia.
    apply Z.mul_lt_mono_pos_r in H0; lia. }
  eapply draws_weaken; cycle 2.
  - apply draws_for_step; [exact Hw0|]. intros k Hk Hlt.
    apply (draws_ext s0 (EraseChar (m_nCursorX s0 + k * w) (m_nCursorY s0))).
    { intros s Hs. unfold cell.
      destruct (same_fields _ _ (touched_same _ _ Hs)) as (_ & _ & _ & _ & _ & _ & _ & -> & _). reflexivity. }
    destruct (Hstep k Hk Hlt) as [Hk0 Hk1].
    apply draws_EraseChar; fold w h; try assumption; try reflexivity; lia.
  - intros x y Hxb Hyb. cbv beta. fold w h. fold e. split.
    + intros (Hx & Hxe & Hy).
      exists ((x - m_nCursorX s0) / w).
      pose proof (Z.mul_div_le (x - m_nCursorX s0) w Hw0).
      pose proof (Z.mul_succ_div_gt (x - m_nCursorX s0) w Hw0).
      assert (0 <= (x - m_nCursorX s0) / w) by (apply Z.div_pos; lia).
      split; [lia|]. split; [lia|]. lia.
    + intros (k & Hk & Hlt & Hx & Hy). destruct (Hstep k Hk Hlt) as [Hk0 Hk1]. lia.
  - reflexivity.
Qed.

End Erasing.

Section ErasingBelow.

Variable s0 : CTRenderer.

Hypothesis Hok0 : surface_ok s0.

Hypothesis Hgrid0 : grid_ok s0.

Hypothesis Hsize0 : m_nSize s0 = m_nHeight s0 * m_nPitch s0.

Lemma draws_ClearDisplayEnd :
  draws s0 ClearDisplayEnd
        (fun x y => (m_nCursorX s0 <= x /\ m_nCursorY s0 <= y)
                    \/ m_nCursorY s0 + GetCharHeight (pCharGen s0) <= y)
        (fun _ _ => m_BackgroundColor s0).
Proof.
  intros s Hs.
  destruct (grid_surface s0 Hgrid0)
    as (Hw0 & Hh0 & _ & Hcx0 & Huw0 & Hcy0 & Hrow0 & HW & HH).
  destruct (draws_ClearLineEnd s0 Hok0 Hgrid0 s Hs) as [Hs1 Hp1].
  unfold ClearDisplayEnd. cbv zeta. set (s1 := ClearLineEnd s) in *.
  pose proof (same_ok s0 Hok0 s1 (touched_same _ _ Hs1)) as Hok1.
  destruct (same_fields s0 s1 (touched_same _ _ Hs1)) as (Ew & Eh & Ed & Ebg & Ecg & Euw & Ecx & Ecy & Esz & Ept).
  pose proof (ok_pitch s0 Hok0) as Hp. pose proof (ok_pixels s0 Hok0) as Hpx.
  pose proof (ok_bytes s0 Hok0) as Hby. pose proof (ok_width s0 Hok0) as Hwd.
  pose proof (surface_ok_pitch s0 Hok0) as Hpp.
  set (h := GetCharHeight (pCharGen s0)) in *.
  set (Y := m_nCursorY s0 + h) in *.
  match goal with |- context [SetUpdateArea _ _ ?t] => set (sF := t) end.
  assert (HYW : 0 <= Y * m_nWidth s0 <= m_nHeight s0 * m_nWidth s0)
    by (split; [apply Z.mul_nonneg_nonneg | apply Z.mul_le_mono_nonneg_r]; lia).
  assert (HYP : 0 <= Y * m_nPitch s0 <= m_nHeight s0 * m_nPitch s0)
    by (split; [apply Z.mul_nonneg_nonneg | apply Z.mul_le_mono_nonneg_r]; lia).
  assert (Hfill : exists cnt,
    sF = set_m_pBuffer8 (blit (m_pBuffer8 s1) (Y * m_nPitch s0)
                              (fill_elems (m_nDepth s0) (m_BackgroundColor s0) cnt)) s1
    /\ cnt * unit_bytes (m_nDepth s0) = (m_nHeight s0 - Y) * m_nPitch s0).
  { unfold sF. rewrite Ecy, Ecg, Ew, Esz, Ed, Ebg, Hsize0. fold h. fold Y.
    rewrite (u32_small Y) by lia. rewrite (u32_small (Y * m_nWidth s0)) by lia.
    destruct (ok_depth s0 Hok0) as [E | [E | [E | E]]]; rewrite E in *; cbn [Z.eqb Pos.eqb].
    - replace (Y * m_nWidth s0 / 8) with (Y * m_nPitch s0)
        by (apply Z.div_unique_exact; lia).
      eexists. split; [reflexivity|]. rewrite u32_small by lia. change (unit_bytes 1) with 1. lia.
    - replace (Y * m_nWidth s0) with (Y * m_nPitch s0) by lia.
      eexists. split; [reflexivity|]. rewrite u32_small by lia. change (unit_bytes 8) with 1. lia.
    - replace (2 * (Y * m_nWidth s0)) with (Y * m_nPitch s0) by lia.
      eexists. split; [reflexivity|].
      replace (m_nHeight s0 * m_nPitch s0 / 2) with (m_nHeight s0 * m_nWidth s0)
        by (apply Z.div_unique_exact; lia).
      rewrite u32_small by lia. change (unit_bytes 16) with 2. lia.
    - replace (4 * (Y * m_nWidth s0)) with (Y * m_nPitch s0) by lia.
      eexists. split; [reflexivity|].
      replace (m_nHeight s0 * m_nPitch s0 / 4) with (m_nHeight s0 * m_nWidth s0)
        by (apply Z.div_unique_exact; lia).
      rewrite u32_small by lia. change (unit_bytes 32) with 4. lia. }
  destruct Hfill as (cnt & HsF & Hcnt). clearbody sF. subst sF.
  set (sF := set_m_pBuffer8 _ s1).
  assert (Hc0 : 0 <= cnt).
  { assert (0 < unit_bytes (m_nDepth s0)) by (unfold unit_bytes; repeat case_match; lia). nia. }
  assert (HsF : touched s0 sF).
  { pose proof (touched_length _ _ Hs1) as Hl1. unfold sF. apply touched_buffer; [exact Hs1|].
    rewrite blit_length; [exact Hl1 | lia |].
    pose proof (fill_elems_length (m_nDepth s0) (m_BackgroundColor s0) cnt Hc0) as Hfl.
    rewrite (fill_unit_bytes _ _ (ok_depth s0 Hok0)) in Hfl.
    pose proof (ok_length s1 Hok1). lia. }
  destruct (draws_SetUpdateArea s0 (m_nCursorY sF) (u32 (m_nHeight sF - 1))
              (fun _ _ => 0) sF HsF) as [H1 H2].
  split; [exact H1|]. intros x y Hx Hy.
  destruct (H2 x y Hx Hy) as [[[] _] | [_ E]]. rewrite E.
  pose proof (GetRawPixel_fill s1 Y cnt (m_BackgroundColor s0) x y Hok1) as HF.
  rewrite Ew, Eh, Ed, Ept in HF. unfold sF. rewrite HF by lia.
  destruct (Z.leb_spec Y y) as [Hle | Hlt].
  - left. split; [right; exact Hle | reflexivity].
  - destruct (Hp1 x y Hx Hy) as [[A B] | [A B]].
    + left. split; [left; lia | exact B].
    + right. split; [|exact B]. unfold Y in Hlt. lia.
Qed.

End ErasingBelow.

Lemma draws_now s f R col (Rb : Z -> Z -> bool) x y :
  draws s f R col ->
  (Rb x y = true <-> R x y) ->
  0 <= x < m_nWidth s -> 0 <= y < m_nHeight s ->
  GetRawPixel x y (f s)
  = if Rb x y then raw_color (m_nDepth s) (col x y) else GetRawPixel x y s.
Proof.
  intros Hd HR Hx Hy. destruct (Hd s (touched_refl s)) as [_ Hp].
  destruct (Hp x y Hx Hy) as [[A B] | [A B]].
  - apply HR in A. rewrite A. exact B.
  - destruct (Rb x y) eqn:E; [|exact B]. exfalso. apply A, HR. reflexivity.
Qed.

(** X12: [ClearLineEnd] gives the pixels of the cursor row from the cursor to
    the right edge of the display (not only of the text area) the background
    colour, and leaves every other pixel as it was. *)
Theorem ClearLineEnd_pixels s x y :
  surface_ok s -> grid_ok s ->
  0 <= x < m_nWidth s -> 0 <= y < m_nHeight s ->
  GetRawPixel x y (ClearLineEnd s)
  = if (m_nCursorX s <=? x) && (m_nCursorY s <=? y)
       && (y <? m_nCursorY s + GetCharHeight (pCharGen s))
    then raw_color (m_nDepth s) (m_BackgroundColor s)
    else GetRawPixel x y s.
Proof.
  intros Hok Hg Hx Hy.
  apply (draws_now s ClearLineEnd _ (fun _ _ => m_BackgroundColor s)
           (fun x y => (m_nCursorX s <=? x) && (m_nCursorY s <=? y)
                       && (y <? m_nCursorY s + GetCharHeight (pCharGen s))) x y
           (draws_ClearLineEnd s Hok Hg)); [|assumption|assumption].
  rewrite !andb_true_iff, !Z.leb_le, Z.ltb_lt. tauto.
Qed.

(** X13: [EraseChars n] gives [n] cells from the cursor on the background
    colour, stopping at the end of the text area, and leaves every other
    pixel as it was; with [n = 0] it erases nothing. *)
Theorem EraseChars_pixels n s x y :
  surface_ok s -> grid_ok s -> 0 <= n <= 199 ->
  0 <= x < m_nWidth s -> 0 <= y < m_nHeight s ->
  GetRawPixel x y (EraseChars n s)
  = if (m_nCursorX s <=? x)
       && (x <? Z.min (m_nCursorX s + n * GetCharWidth (pCharGen s)) (m_nUsedWidth s))
       && (m_nCursorY s <=? y) && (y <? m_nCursorY s + GetCharHeight (pCharGen s))
    then raw_color (m_nDepth s) (m_BackgroundColor s)
    else GetRawPixel x y s.
Proof.
  intros Hok Hg Hn Hx Hy.
  apply (draws_now s (EraseChars n) _ (fun _ _ => m_BackgroundColor s)
           (fun x y => (m_nCursorX s <=? x)
              && (x <? Z.min (m_nCursorX s + n * GetCharWidth (pCharGen s)) (m_nUsedWidth s))
              && (m_nCursorY s <=? y) && (y <? m_nCursorY s + GetCharHeight (pCharGen s)))
           x y (draws_EraseChars s Hok Hg n Hn)); [|assumption|assumption].
  rewrite !andb_true_iff, !Z.leb_le, !Z.ltb_lt. tauto.
Qed.

(** X14: [ClearDisplayEnd] gives the pixels of the cursor row from the cursor
    on, and every pixel below the cursor row, the background colour, down to
    the last line of the display; the pixels above the cursor row and left of
    the cursor stay as they were. *)
Theorem ClearDisplayEnd_pixels s x y :
  surface_ok s -> grid_ok s -> m_nSize s = m_nHeight s * m_nPitch s ->
  0 <= x < m_nWidth s -> 0 <= y < m_nHeight s ->
  GetRawPixel x y (ClearDisplayEnd s)
  = if ((m_nCursorX s <=? x) && (m_nCursorY s <=? y))
       || (m_nCursorY s + GetCharHeight (pCharGen s) <=? y)
    then raw_color (m_nDepth s) (m_BackgroundColor s)
    else GetRawPixel x y s.
Proof.
  intros Hok Hg Hsz Hx Hy.
  apply (draws_now s ClearDisplayEnd _ (fun _ _ => m_BackgroundColor s)
           (fun x y => ((m_nCursorX s <=? x) && (m_nCursorY s <=? y))
                       || (m_nCursorY s + GetCharHeight (pCharGen s) <=? y)) x y
           (draws_ClearDisplayEnd s Hok Hg Hsz)); [|assumption|assumption].
  rewrite orb_true_iff, andb_true_iff, !Z.leb_le. tauto.
Qed.

(** ** Painting a glyph *)

Section Glyph.

Variable pf : Platform.

Variable s0 : CTRenderer.

Hypothesis Hok0 : surface_ok s0.

Variables chChar px py nColor : Z.

Hypothesis Hpx : 0 <= px.

Hypothesis Hpw : px + GetCharWidth (pCharGen s0) <= m_nWidth s0.

Hypothesis Hpy : 0 <= py.

Hypothesis Hph : py + GetCharHeight (pCharGen s0) <= m_nHeight s0.

Hypothesis Hul : 0 <= GetUnderline (pCharGen s0).

Lemma touched_pCharGen s : touched s0 s -> pCharGen s = pCharGen s0.
Proof. intros (b & a & -> & _). reflexivity. Qed.

Lemma touched_paper s :
  touched s0 s -> GetTextBackgroundColor pf s = GetTextBackgroundColor pf s0.
Proof. intros (b & a & -> & _). reflexivity. Qed.

Lemma touched_ink s : touched s0 s -> ink_color pf nColor s = ink_color pf nColor s0.
Proof. intros (b & a & -> & _). reflexivity. Qed.

Lemma touched_bold s : touched s0 s -> m_bBoldAttribute s = m_bBoldAttribute s0.
Proof. intros (b & a & -> & _). reflexivity. Qed.

Lemma touched_underline s :
  touched s0 s -> m_bUnderlineAttribute s = m_bUnderlineAttribute s0.
Proof. intros (b & a & -> & _). reflexivity. Qed.

(** The cell at ([px], [py]). *)
Definition in_cell (x y : Z) : Prop :=
  px <= x < px + GetCharWidth (pCharGen s0) /\ py <= y < py + GetCharHeight (pCharGen s0).

Lemma for_range_ext (P : CTRenderer -> Prop) lo hi
    (body body' : Z -> CTRenderer -> CTRenderer) s :
  (forall i t, lo <= i < hi -> P t -> body i t = body' i t /\ P (body' i t)) ->
  P s -> for_range lo hi body s = for_range lo hi body' s /\ P (for_range lo hi body' s).
Proof.
  unfold for_range. intros Hb.
  assert (Hin : forall i, i ∈ seqZ lo (hi - lo) -> lo <= i < hi).
  { intros i Hi. apply elem_of_seqZ in Hi. lia. }
  revert s Hin. induction (seqZ lo (hi - lo)) as [|i l IH]; intros s Hin Hs; cbn [foldl].
  - split; [reflexivity | exact Hs].
  - destruct (Hb i s (Hin i (list_elem_of_here i l)) Hs) as [E HP]. rewrite E.
    apply IH; [|exact HP]. intros j Hj. apply Hin, list_elem_of_further, Hj.
Qed.

Lemma draws_DisplayCharAt :
  draws s0 (DisplayCharAt pf chChar px py nColor) in_cell
        (fun x y => cell_color pf chChar nColor s0 (x - px) (y - py)).
Proof.
  destruct (surface_bounds s0 Hok0) as [HW HH];
    [pose proof (ok_height s0 Hok0); lia|].
  pose proof (ok_height s0 Hok0) as Hh.
  set (cg := pCharGen s0) in *.
  set (w := GetCharWidth cg) in *. set (h := GetCharHeight cg) in *.
  set (ink := ink_color pf nColor s0).
  set (paper := GetTextBackgroundColor pf s0).
  set (glyph := fun x y => GetPixel cg x (GetPixelLine cg chChar y)).
  (* the three passes and the update area, on the fields of [s0] *)
  set (F1 := for_range 0 h (fun y s =>
               for_range 0 w (fun x s =>
                 SetRawPixel (px + x) (py + y) (if glyph x y then ink else paper) s) s)).
  set (F2 := fun s : CTRenderer =>
               if m_bBoldAttribute s0 then
                 for_range 0 h (fun y s =>
                   for_range 1 w (fun x s =>
                     if glyph (x - 1) y then SetRawPixel (px + x) (py + y) ink s else s) s) s
               else s).
  set (F3 := fun s : CTRenderer =>
               if m_bUnderlineAttribute s0 then
                 if GetUnderline cg <? h then
                   for_range 0 w (fun x s =>
                     SetRawPixel (px + x) (py + GetUnderline cg) ink s) s
                 else s
               else s).
  set (F4 := SetUpdateArea py (u32 (py + h - 1))).
  assert (T1 : forall s, touched s0 s -> touched s0 (F1 s)).
  { intros s Hs. unfold F1. apply for_range_inv; [|exact Hs]. intros y t _ Ht.
    apply for_range_inv; [|exact Ht]. intros x u _ Hu. apply touched_SetRawPixel, Hu. }
  assert (T2 : forall s, touched s0 s -> touched s0 (F2 s)).
  { intros s Hs. unfold F2. destruct (m_bBoldAttribute s0); [|exact Hs].
    apply for_range_inv; [|exact Hs]. intros y t _ Ht.
    apply for_range_inv; [|exact Ht]. intros x u _ Hu.
    destruct (glyph (x - 1) y); [apply touched_SetRawPixel|]; exact Hu. }
  assert (T3 : forall s, touched s0 s -> touched s0 (F3 s)).
  { intros s Hs. unfold F3. destruct (m_bUnderlineAttribute s0); [|exact Hs].
    destruct (GetUnderline cg <? h); [|exact Hs].
    apply for_range_inv; [|exact Hs]. intros x u _ Hu. apply touched_SetRawPixel, Hu. }
  apply (draws_ext s0 (fun s => F4 (F3 (F2 (F1 s))))).
  { intros s Hs. unfold DisplayCharAt. cbv zeta.
    fold (ink_color pf nColor s). rewrite (touched_ink s Hs). fold ink.
    rewrite (touched_pCharGen s Hs). fold cg w h.
    match goal with |- SetUpdateArea _ _ (if _ then _ else ?t3) = _ =>
      match t3 with (if _ then _ else ?t2) =>
        assert (E1 : t2 = F1 s)
      end
    end.
    { unfold F1.
      apply (for_range_ext (touched s0)); [|exact Hs]. intros y t Hy Ht.
      apply (for_range_ext (touched s0)); [|exact Ht]. intros x u Hx Hu.
      rewrite (touched_paper u Hu). fold paper.
      rewrite !u32_small by lia. split; [reflexivity|]. apply touched_SetRawPixel, Hu. }
    rewrite E1. pose proof (T1 s Hs) as H1. generalize dependent (F1 s). intros s1 _ H1.
    rewrite (touched_bold s1 H1).
    match goal with |- SetUpdateArea _ _ (if _ then _ else ?t3) = _ =>
      assert (E2 : t3 = F2 s1)
    end.
    { unfold F2. destruct (m_bBoldAttribute s0); [|reflexivity].
      apply (for_range_ext (touched s0)); [|exact H1]. intros y t Hy Ht.
      apply (for_range_ext (touched s0)); [|exact Ht]. intros x u Hx Hu.
      rewrite !u32_small by lia. split; [reflexivity|].
      destruct (glyph (x - 1) y); [apply touched_SetRawPixel|]; exact Hu. }
    rewrite E2. pose proof (T2 s1 H1) as H2. generalize dependent (F2 s1). intros s2 _ H2.
    rewrite (touched_underline s2 H2).
    match goal with |- SetUpdateArea _ _ ?t4 = _ => assert (E3 : t4 = F3 s2) end.
    { unfold F3. destruct (m_bUnderlineAttribute s0); [|reflexivity].
      destruct (GetUnderline cg <? h) eqn:Hu; [|reflexivity].
      apply Z.ltb_lt in Hu.
      apply (for_range_ext (touched s0)); [|exact H2]. intros x u Hx Hu'.
      rewrite !u32_small by lia. split; [reflexivity|]. apply touched_SetRawPixel, Hu'. }
    rewrite E3. reflexivity. }
  (* what the passes draw *)
  set (c1 := fun x y : Z => if glyph (x - px) (y - py) then ink else paper).
  assert (D1 : draws s0 F1 in_cell c1).
  { unfold F1. eapply draws_weaken; cycle 2.
    - apply draws_for_range. intros y Hy.
      apply draws_for_range. intros x Hx.
      apply (draws_pixel s0 Hok0 (px + x) (py + y) _ c1); [lia | lia |].
      unfold c1. replace (px + x - px) with x by lia. replace (py + y - py) with y by lia.
      reflexivity.
    - intros x y _ _. unfold in_cell. fold cg w h. cbv beta. split.
      + intros [Hx Hy]. exists (y - py). split; [lia|]. exists (x - px). split; lia.
      + intros (i & Hi & j & Hj & -> & ->). lia.
    - reflexivity. }
  set (R2 := fun x y : Z => m_bBoldAttribute s0 = true /\ in_cell x y /\ px + 1 <= x
                            /\ glyph (x - px - 1) (y - py) = true).
  assert (D2 : draws s0 F2 R2 (fun _ _ => ink)).
  { unfold F2, R2. destruct (m_bBoldAttribute s0).
    - eapply draws_weaken; cycle 2.
      + apply draws_for_range. intros y Hy.
        apply (draws_for_range s0 1 w _
                 (fun x x' y' => glyph (x - 1) y = true /\ x' = px + x /\ y' = py + y)).
        intros x Hx. destruct (glyph (x - 1) y) eqn:Hg.
        * eapply draws_weaken; cycle 2.
          -- apply (draws_pixel s0 Hok0 (px + x) (py + y) ink (fun _ _ => ink));
               [lia | lia | reflexivity].
          -- intros x' y' _ _. cbv beta. tauto.
          -- reflexivity.
        * eapply draws_weaken; cycle 2.
          -- apply draws_id.
          -- intros x' y' _ _. cbv beta. split; [intros (E & _); discriminate | tauto].
          -- reflexivity.
      + intros x y _ _. unfold in_cell. fold cg w h. cbv beta. split.
        * intros (_ & [Hx Hy] & Hx1 & Hg). exists (y - py). split; [lia|].
          exists (x - px). split; [lia|].
          replace (x - px - 1) with (x - px - 1) in Hg by lia. split; [exact Hg | lia].
        * intros (i & Hi & j & Hj & Hg & -> & ->). split; [reflexivity|].
          split; [lia|]. split; [lia|].
          replace (px + j - px - 1) with (j - 1) by lia.
          replace (py + i - py) with i by lia. exact Hg.
      + reflexivity.
    - eapply draws_weaken; cycle 2.
      + apply draws_id.
      + intros x y _ _. cbv beta. split; [intros (E & _); discriminate | tauto].
      + reflexivity. }
  set (R3 := fun x y : Z => m_bUnderlineAttribute s0 = true /\ GetUnderline cg < h
                            /\ in_cell x y /\ y = py + GetUnderline cg).
  assert (D3 : draws s0 F3 R3 (fun _ _ => ink)).
  { unfold F3, R3. destruct (m_bUnderlineAttribute s0);
      [destruct (Z.ltb_spec (GetUnderline cg) h)|].
    - eapply draws_weaken; cycle 2.
      + apply draws_for_range. intros x Hx.
        apply (draws_pixel s0 Hok0 (px + x) (py + GetUnderline cg) ink (fun _ _ => ink));
          [lia | lia | reflexivity].
      + intros x y _ _. unfold in_cell. fold cg w h. cbv beta. split.
        * intros (_ & _ & [Hx Hy] & ->). exists (x - px). split; lia.
        * intros (i & Hi & -> & ->). repeat split; lia.
      + reflexivity.
    - eapply draws_weaken; cycle 2.
      + apply draws_id.
      + intros x y _ _. cbv beta. split; [lia | tauto].
      + reflexivity.
    - eapply draws_weaken; cycle 2.
      + apply draws_id.
      + intros x y _ _. cbv beta. split; [intros (E & _); discriminate | tauto].
      + reflexivity. }
  set (c2 := fun x y : Z => if glyph (x - px) (y - py) then ink
                            else if m_bBoldAttribute s0 && (1 <=? x - px)
                                    && glyph (x - px - 1) (y - py)
                                 then ink else paper).
  assert (D12 : draws s0 (fun s => F2 (F1 s)) (fun x y => in_cell x y \/ R2 x y) c2).
  { apply (draws_comp s0 F1 F2 in_cell R2 c1 (fun _ _ => ink) c2 D1 D2).
    - intros x y _ _ (Hb & _ & Hx1 & Hg). unfold c2. rewrite Hb, Hg.
      destruct (Z.leb_spec 1 (x - px)); [|lia]. destruct (glyph (x - px) (y - py)); reflexivity.
    - intros x y _ _ Hc Hn. unfold c2, c1.
      destruct (glyph (x - px) (y - py)); [reflexivity|].
      destruct (m_bBoldAttribute s0) eqn:Hb; [|reflexivity].
      destruct (Z.leb_spec 1 (x - px)); [|reflexivity].
      destruct (glyph (x - px - 1) (y - py)) eqn:Hg; [|reflexivity].
      exfalso. apply Hn. unfold R2. rewrite ?Hb.
      split; [reflexivity|]. split; [exact Hc|]. split; [lia | exact Hg]. }
  set (c3 := fun x y : Z => cell_color pf chChar nColor s0 (x - px) (y - py)).
  assert (D123 : draws s0 (fun s => F3 (F2 (F1 s)))
                   (fun x y => (in_cell x y \/ R2 x y) \/ R3 x y) c3).
  { apply (draws_comp s0 (fun s => F2 (F1 s)) F3 _ R3 c2 (fun _ _ => ink) c3 D12 D3).
    - intros x y _ _ (Hb & Hlt & _ & ->). unfold c3, cell_color. cbv zeta. fold cg h ink.
      rewrite Hb. destruct (Z.ltb_spec (GetUnderline cg) h); [|lia].
      replace (py + GetUnderline cg - py) with (GetUnderline cg) by lia.
      rewrite Z.eqb_refl. reflexivity.
    - intros x y _ _ Hc Hn. unfold c3, cell_color, c2. cbv zeta. fold cg h ink paper.
      assert (Hcell : in_cell x y) by (destruct Hc as [Hc | (_ & Hc & _)]; exact Hc).
      assert (E : m_bUnderlineAttribute s0 && (GetUnderline cg <? h)
                  && (y - py =? GetUnderline cg) = false).
      { destruct (m_bUnderlineAttribute s0) eqn:Hb; [|reflexivity].
        destruct (Z.ltb_spec (GetUnderline cg) h); [|reflexivity].
        destruct (Z.eqb_spec (y - py) (GetUnderline cg)); [|reflexivity].
        exfalso. apply Hn. unfold R3. rewrite ?Hb.
        split; [reflexivity|]. split; [assumption|]. split; [exact Hcell | lia]. }
      rewrite E. fold (glyph (x - px) (y - py)). fold (glyph (x - px - 1) (y - py)).
      destruct (glyph (x - px) (y - py)); reflexivity. }
  eapply draws_weaken; cycle 2.
  - apply (draws_same s0 (fun s => F3 (F2 (F1 s))) F4 _ (fun _ _ => False) c3 D123).
    apply draws_SetUpdateArea.
  - intros x y _ _. unfold R2, R3. cbv beta. tauto.
  - reflexivity.
Qed.

End Glyph.

(** X15: [DisplayChar(chChar, nPosX, nPosY, nColor)] paints the cell at
    ([nPosX], [nPosY]) and nothing else: the underline row (with the
    underline attribute), the pixels of the glyph and, with the bold
    attribute, their right neighbours get the ink colour, the other pixels of
    the cell the text background. *)
Theorem DisplayCharAt_pixels pf chChar px py nColor s x y :
  surface_ok s ->
  0 <= px -> px + GetCharWidth (pCharGen s) <= m_nWidth s ->
  0 <= py -> py + GetCharHeight (pCharGen s) <= m_nHeight s ->
  0 <= GetUnderline (pCharGen s) ->
  0 <= x < m_nWidth s -> 0 <= y < m_nHeight s ->
  GetRawPixel x y (DisplayCharAt pf chChar px py nColor s)
  = if (px <=? x) && (x <? px + GetCharWidth (pCharGen s))
       && (py <=? y) && (y <? py + GetCharHeight (pCharGen s))
    then raw_color (m_nDepth s) (cell_color pf chChar nColor s (x - px) (y - py))
    else GetRawPixel x y s.
Proof.
  intros Hok Hpx Hpw Hpy Hph Hul Hx Hy.
  apply (draws_now s (DisplayCharAt pf chChar px py nColor) _
           (fun x y => cell_color pf chChar nColor s (x - px) (y - py))
           (fun x y => (px <=? x) && (x <? px + GetCharWidth (pCharGen s))
                       && (py <=? y) && (y <? py + GetCharHeight (pCharGen s))) x y
           (draws_DisplayCharAt pf s Hok chChar px py nColor Hpx Hpw Hpy Hph Hul));
    [|assumption|assumption].
  unfold in_cell. rewrite !andb_true_iff, !Z.leb_le, !Z.ltb_lt. tauto.
Qed.

(** ** Scrolling, pixel row by pixel row *)

(** A pixel is read from the bytes of its row. *)
Lemma GetRawPixel_rows s s' x y y' :
  surface_ok s ->
  m_nWidth s' = m_nWidth s -> m_nDepth s' = m_nDepth s ->
  0 <= x < m_nWidth s -> 0 <= y < m_nHeight s -> 0 <= y' < m_nHeight s ->
  (forall j, 0 <= j < m_nPitch s ->
     rd (m_pBuffer8 s') (y' * m_nPitch s + j) = rd (m_pBuffer8 s) (y * m_nPitch s + j)) ->
  GetRawPixel x y' s' = GetRawPixel x y s.
Proof.
  intros Hok Ew Ed Hx Hy Hy' Hrow.
  pose proof (ok_pitch s Hok) as Hp. pose proof (ok_pixels s Hok) as Hpx.
  assert (Hi : forall v, 0 <= v < m_nHeight s ->
            0 <= m_nWidth s * v + x < m_nWidth s * m_nHeight s).
  { intros v Hv. split; [apply Z.add_nonneg_nonneg; [apply Z.mul_nonneg_nonneg|]; lia|].
    assert (m_nWidth s * (v + 1) <= m_nWidth s * m_nHeight s)
      by (apply Z.mul_le_mono_nonneg_l; lia).
    lia. }
  pose proof (Hi y Hy) as Hiy. pose proof (Hi y' Hy') as Hiy'.
  unfold GetRawPixel. cbv zeta. rewrite Ew, Ed.
  rewrite (u32_small (m_nWidth s * y' + x)), (u32_small (m_nWidth s * y + x)) by lia.
  destruct (ok_depth s Hok) as [E | [E | [E | E]]]; rewrite E in *; cbn [Z.eqb Pos.eqb].
  - assert (Hdiv : forall v, (m_nWidth s * v + x) / 8 = v * m_nPitch s + x / 8).
    { intros v. replace (m_nWidth s * v + x) with (x + v * m_nPitch s * 8) by lia.
      rewrite Z.div_add by lia. lia. }
    rewrite !Hdiv.
    assert (0 <= x / 8 < m_nPitch s).
    { split; [apply Z.div_pos; lia|]. apply Z.div_lt_upper_bound; lia. }
    rewrite Hrow by lia. reflexivity.
  - replace (m_nWidth s * y' + x) with (y' * m_nPitch s + x) by lia.
    replace (m_nWidth s * y + x) with (y * m_nPitch s + x) by lia.
    apply Hrow. lia.
  - cbn [load_le].
    replace (2 * (m_nWidth s * y' + x)) with (y' * m_nPitch s + 2 * x) by lia.
    replace (2 * (m_nWidth s * y + x)) with (y * m_nPitch s + 2 * x) by lia.
    replace (y' * m_nPitch s + 2 * x + 1) with (y' * m_nPitch s + (2 * x + 1)) by lia.
    replace (y * m_nPitch s + 2 * x + 1) with (y * m_nPitch s + (2 * x + 1)) by lia.
    rewrite !Hrow by lia. reflexivity.
  - cbn [load_le].
    replace (4 * (m_nWidth s * y' + x)) with (y' * m_nPitch s + 4 * x) by lia.
    replace (4 * (m_nWidth s * y + x)) with (y * m_nPitch s + 4 * x) by lia.
    replace (y' * m_nPitch s + 4 * x + 1) with (y' * m_nPitch s + (4 * x + 1)) by lia.
    replace (y * m_nPitch s + 4 * x + 1) with (y * m_nPitch s + (4 * x + 1)) by lia.
    replace (y' * m_nPitch s + (4 * x + 1) + 1) with (y' * m_nPitch s + (4 * x + 2)) by lia.
    replace (y * m_nPitch s + (4 * x + 1) + 1) with (y * m_nPitch s + (4 * x + 2)) by lia.
    replace (y' * m_nPitch s + (4 * x + 2) + 1) with (y' * m_nPitch s + (4 * x + 3)) by lia.
    replace (y * m_nPitch s + (4 * x + 2) + 1) with (y * m_nPitch s + (4 * x + 3)) by lia.
    rewrite !Hrow by lia. reflexivity.
Qed.

Lemma rd_memmove_outside b dst src n i :
  0 <= dst -> 0 <= src -> 0 <= n ->
  dst + n <= Z.of_nat (length b) -> src + n <= Z.of_nat (length b) ->
  0 <= i -> i < dst \/ dst + n <= i ->
  rd (memmove b dst src n) i = rd b i.
Proof.
  intros. unfold rd. rewrite memmove_lookup_outside by lia. reflexivity.
Qed.

Lemma rd_memmove_inside b dst src n i :
  0 <= dst -> 0 <= src -> 0 <= n ->
  dst + n <= Z.of_nat (length b) -> src + n <= Z.of_nat (length b) ->
  dst <= i < dst + n ->
  rd (memmove b dst src n) i = rd b (i - dst + src).
Proof.
  intros. unfold rd. rewrite memmove_lookup_inside by lia. do 2 f_equal. lia.
Qed.

(** The bytes after lines are taken out at [a] and the band up to [e] is
    closed up and filled at its end. *)
Lemma rd_lines_out b F a I e k :
  0 <= a -> 0 <= I -> a + I <= e -> e <= Z.of_nat (length b) ->
  Z.of_nat (length F) = I -> 0 <= k ->
  rd (blit (memmove b a (a + I) (e - a - I)) (e - I) F) k
  = if k <? a then rd b k
    else if k <? e - I then rd b (k + I)
    else if k <? e then rd F (k - (e - I))
    else rd b k.
Proof.
  intros Ha HI HaI He HF Hk.
  assert (HL : length (memmove b a (a + I) (e - a - I)) = length b)
    by (apply memmove_length; lia).
  destruct (Z.ltb_spec k a).
  - rewrite rd_blit_outside by lia. apply rd_memmove_outside; lia.
  - destruct (Z.ltb_spec k (e - I)).
    + rewrite rd_blit_outside by lia. rewrite rd_memmove_inside by lia. f_equal. lia.
    + destruct (Z.ltb_spec k e).
      * apply rd_blit_inside; lia.
      * rewrite rd_blit_outside by lia. apply rd_memmove_outside; lia.
Qed.

(** The bytes after lines are put in at [a]: the band up to [e] moves down
    and the gap is filled. *)
Lemma rd_lines_in b F a I e k :
  0 <= a -> 0 <= I -> a + I <= e -> e <= Z.of_nat (length b) ->
  Z.of_nat (length F) = I -> 0 <= k ->
  rd (blit (memmove b (a + I) a (e - a - I)) a F) k
  = if k <? a then rd b k
    else if k <? a + I then rd F (k - a)
    else if k <? e then rd b (k - I)
    else rd b k.
Proof.
  intros Ha HI HaI He HF Hk.
  assert (HL : length (memmove b (a + I) a (e - a - I)) = length b)
    by (apply memmove_length; lia).
  destruct (Z.ltb_spec k a).
  - rewrite rd_blit_outside by lia. apply rd_memmove_outside; lia.
  - destruct (Z.ltb_spec k (a + I)).
    + apply rd_blit_inside; lia.
    + rewrite rd_blit_outside by lia. destruct (Z.ltb_spec k e).
      * rewrite rd_memmove_inside by lia. f_equal. lia.
      * apply rd_memmove_outside; lia.
Qed.

Lemma unit_bytes_pos s : surface_ok s -> 0 < unit_bytes (m_nDepth s).
Proof.
  intros Hok. unfold unit_bytes.
  destruct (ok_depth s Hok) as [E | [E | [E | E]]]; rewrite E; reflexivity.
Qed.

(** A row of fill pattern reads as the fill colour. *)
Lemma GetRawPixel_filled_row s s' c x y :
  surface_ok s ->
  m_nWidth s' = m_nWidth s -> m_nDepth s' = m_nDepth s ->
  0 <= x < m_nWidth s -> 0 <= y < m_nHeight s ->
  (forall j, 0 <= j < m_nPitch s ->
     rd (m_pBuffer8 s') (y * m_nPitch s + j)
     = rd (fill_unit (m_nDepth s) c) (j mod unit_bytes (m_nDepth s))) ->
  GetRawPixel x y s' = raw_color (m_nDepth s) c.
Proof.
  intros Hok Ew Ed Hx Hy Hrow.
  pose proof (unit_bytes_pos s Hok) as Hu.
  pose proof (surface_ok_pitch s Hok) as Hp.
  pose proof (ok_length s Hok) as Hlen.
  pose proof (line_bytes_unit s (m_nHeight s) Hok) as Hmod.
  apply Z.mod_divide in Hmod; [|lia]. destruct Hmod as [cnt Hcnt].
  assert (Hc0 : 0 <= cnt).
  { destruct (Z.le_gt_cases 0 cnt) as [L|L]; [exact L|].
    assert (0 <= m_nPitch s * m_nHeight s) by (apply Z.mul_nonneg_nonneg; lia).
    apply (Z.mul_lt_mono_pos_r (unit_bytes (m_nDepth s))) in L; lia. }
  set (sF := set_m_pBuffer8 (blit (m_pBuffer8 s) (0 * m_nPitch s)
                               (fill_elems (m_nDepth s) c cnt)) s).
  pose proof (GetRawPixel_fill s 0 cnt c x y Hok ltac:(lia) ltac:(lia) Hx Hy) as HF.
  fold sF in HF. destruct (Z.leb_spec 0 y); [|lia]. rewrite <- HF.
  assert (Hfl : Z.of_nat (length (fill_elems (m_nDepth s) c cnt))
                = m_nHeight s * m_nPitch s).
  { rewrite fill_elems_length by exact Hc0.
    rewrite (fill_unit_bytes _ _ (ok_depth s Hok)). lia. }
  assert (HokF : surface_ok sF).
  { apply (surface_ok_transfer s sF); [reflexivity| |exact Hok].
    unfold sF. cbn [m_pBuffer8 set_m_pBuffer8]. apply blit_length; lia. }
  apply (GetRawPixel_rows sF s' x y y HokF); try assumption.
  intros j Hj. change (m_nPitch sF) with (m_nPitch s) in *. rewrite (Hrow j Hj).
  unfold sF. cbn [m_pBuffer8 set_m_pBuffer8].
  assert (Hk : 0 <= y * m_nPitch s + j < m_nHeight s * m_nPitch s).
  { split; [apply Z.add_nonneg_nonneg; [apply Z.mul_nonneg_nonneg|]; lia|].
    assert ((y + 1) * m_nPitch s <= m_nHeight s * m_nPitch s)
      by (apply Z.mul_le_mono_nonneg_r; lia).
    lia. }
  rewrite rd_blit_inside by lia.
  replace (y * m_nPitch s + j - 0 * m_nPitch s) with (y * m_nPitch s + j) by lia.
  rewrite rd_fill_elems
    by (rewrite (fill_unit_bytes _ _ (ok_depth s Hok)); lia).
  rewrite (fill_unit_bytes _ _ (ok_depth s Hok)). f_equal.
  pose proof (line_bytes_unit s y Hok) as Hy0.
  rewrite Z.add_comm, <- Zplus_mod_idemp_r.
  replace (y * m_nPitch s) with (m_nPitch s * y) by lia.
  rewrite Hy0, Z.add_0_r. reflexivity.
Qed.

Lemma row_offset_mod s k j :
  surface_ok s -> (m_nPitch s * k + j) mod unit_bytes (m_nDepth s)
                  = j mod unit_bytes (m_nDepth s).
Proof.
  intros Hok. rewrite Z.add_comm, <- Zplus_mod_idemp_r.
  rewrite (line_bytes_unit s k Hok), Z.add_0_r. reflexivity.
Qed.

Lemma rd_background s I o :
  surface_ok s -> 0 <= o < I -> I mod unit_bytes (m_nDepth s) = 0 ->
  rd (background_bytes s I) o
  = rd (fill_unit (m_nDepth s) (m_BackgroundColor s)) (o mod unit_bytes (m_nDepth s)).
Proof.
  intros Hok Ho Hm. pose proof (unit_bytes_pos s Hok) as Hu.
  unfold background_bytes.
  apply Z.mod_divide in Hm; [|lia]. destruct Hm as [q Hq].
  rewrite rd_fill_elems; rewrite (fill_unit_bytes _ _ (ok_depth s Hok)).
  - reflexivity.
  - rewrite Hq, Z.div_mul by lia. lia.
Qed.

Lemma row_bytes s y j :
  surface_ok s -> 0 <= y < m_nHeight s -> 0 <= j < m_nPitch s ->
  0 <= y * m_nPitch s + j < (y + 1) * m_nPitch s.
Proof.
  intros Hok Hy Hj. split; [|lia].
  apply Z.add_nonneg_nonneg; [apply Z.mul_nonneg_nonneg|]; lia.
Qed.

Lemma rows_lt a b p : 0 < p -> a < b -> (a + 1) * p <= b * p.
Proof. intros Hp Hab. apply Z.mul_le_mono_nonneg_r; lia. Qed.

Lemma rows_le a b p : 0 < p -> a <= b -> a * p <= b * p.
Proof. intros Hp Hab. apply Z.mul_le_mono_nonneg_r; lia. Qed.

(** Lines taken out of a band of rows, pixel by pixel. *)
Lemma rows_out s s' a I e Ya Ih Ye x y :
  surface_ok s ->
  m_nWidth s' = m_nWidth s -> m_nDepth s' = m_nDepth s ->
  m_pBuffer8 s'
  = blit (memmove (m_pBuffer8 s) a (a + I) (e - a - I)) (e - I) (background_bytes s I) ->
  a = Ya * m_nPitch s -> I = Ih * m_nPitch s -> e = Ye * m_nPitch s ->
  0 <= Ya -> 0 <= Ih -> Ya + Ih <= Ye -> Ye <= m_nHeight s ->
  0 <= x < m_nWidth s -> 0 <= y < m_nHeight s ->
  GetRawPixel x y s'
  = if y <? Ya then GetRawPixel x y s
    else if y <? Ye - Ih then GetRawPixel x (y + Ih) s
    else if y <? Ye then raw_color (m_nDepth s) (m_BackgroundColor s)
    else GetRawPixel x y s.
Proof.
  intros Hok Ew Ed Hb Ea EI Ee HYa HIh HYe HH Hx Hy.
  pose proof (surface_ok_pitch s Hok) as Hp.
  pose proof (ok_length s Hok) as Hlen.
  pose proof (line_bytes_unit s Ih Hok) as HIm.
  replace (m_nPitch s * Ih) with I in HIm by lia.
  assert (Ha0 : 0 <= a) by (subst a; apply Z.mul_nonneg_nonneg; lia).
  assert (HI0 : 0 <= I) by (subst I; apply Z.mul_nonneg_nonneg; lia).
  assert (HaI : a + I <= e).
  { subst a I e. rewrite <- Z.mul_add_distr_r. apply rows_le; lia. }
  assert (Hel : e <= Z.of_nat (length (m_pBuffer8 s))).
  { rewrite Hlen. subst e. apply rows_le; lia. }
  assert (HF : Z.of_nat (length (background_bytes s I)) = I)
    by (apply background_bytes_length; [exact (ok_depth s Hok) | exact HI0 | exact HIm]).
  assert (Hrd : forall j, 0 <= j < m_nPitch s ->
    rd (m_pBuffer8 s') (y * m_nPitch s + j)
    = if y <? Ya then rd (m_pBuffer8 s) (y * m_nPitch s + j)
      else if y <? Ye - Ih then rd (m_pBuffer8 s) ((y + Ih) * m_nPitch s + j)
      else if y <? Ye
           then rd (fill_unit (m_nDepth s) (m_BackgroundColor s))
                   (j mod unit_bytes (m_nDepth s))
           else rd (m_pBuffer8 s) (y * m_nPitch s + j)).
  { intros j Hj. pose proof (row_bytes s y j Hok Hy Hj) as Hk.
    rewrite Hb, rd_lines_out by lia.
    destruct (Z.ltb_spec y Ya) as [L1|L1].
    { pose proof (rows_lt y Ya (m_nPitch s) Hp L1).
      destruct (Z.ltb_spec (y * m_nPitch s + j) a); [reflexivity | lia]. }
    pose proof (rows_le Ya y (m_nPitch s) Hp L1).
    destruct (Z.ltb_spec (y * m_nPitch s + j) a); [lia|].
    destruct (Z.ltb_spec y (Ye - Ih)) as [L2|L2].
    { pose proof (rows_lt y (Ye - Ih) (m_nPitch s) Hp L2).
      destruct (Z.ltb_spec (y * m_nPitch s + j) (e - I)); [f_equal; lia | lia]. }
    pose proof (rows_le (Ye - Ih) y (m_nPitch s) Hp L2).
    destruct (Z.ltb_spec (y * m_nPitch s + j) (e - I)); [lia|].
    destruct (Z.ltb_spec y Ye) as [L3|L3].
    { pose proof (rows_lt y Ye (m_nPitch s) Hp L3).
      destruct (Z.ltb_spec (y * m_nPitch s + j) e); [|lia].
      rewrite rd_background by (try assumption; lia). f_equal.
      replace (y * m_nPitch s + j - (e - I)) with (m_nPitch s * (y - Ye + Ih) + j) by lia.
      apply row_offset_mod, Hok. }
    pose proof (rows_le Ye y (m_nPitch s) Hp L3).
    destruct (Z.ltb_spec (y * m_nPitch s + j) e); [lia | reflexivity]. }
  destruct (Z.ltb_spec y Ya).
  { apply (GetRawPixel_rows s s' x y y Hok); try assumption. }
  destruct (Z.ltb_spec y (Ye - Ih)).
  { apply (GetRawPixel_rows s s' x (y + Ih) y Hok); try assumption; lia. }
  destruct (Z.ltb_spec y Ye).
  { apply (GetRawPixel_filled_row s s' _ x y Hok); assumption. }
  apply (GetRawPixel_rows s s' x y y Hok); try assumption.
Qed.

(** Lines put into a band of rows, pixel by pixel. *)
Lemma rows_in s s' a I e Ya Ih Ye x y :
  surface_ok s ->
  m_nWidth s' = m_nWidth s -> m_nDepth s' = m_nDepth s ->
  m_pBuffer8 s'
  = blit (memmove (m_pBuffer8 s) (a + I) a (e - a - I)) a (background_bytes s I) ->
  a = Ya * m_nPitch s -> I = Ih * m_nPitch s -> e = Ye * m_nPitch s ->
  0 <= Ya -> 0 <= Ih -> Ya + Ih <= Ye -> Ye <= m_nHeight s ->
  0 <= x < m_nWidth s -> 0 <= y < m_nHeight s ->
  GetRawPixel x y s'
  = if y <? Ya then GetRawPixel x y s
    else if y <? Ya + Ih then raw_color (m_nDepth s) (m_BackgroundColor s)
    else if y <? Ye then GetRawPixel x (y - Ih) s
    else GetRawPixel x y s.
Proof.
  intros Hok Ew Ed Hb Ea EI Ee HYa HIh HYe HH Hx Hy.
  pose proof (surface_ok_pitch s Hok) as Hp.
  pose proof (ok_length s Hok) as Hlen.
  pose proof (line_bytes_unit s Ih Hok) as HIm.
  replace (m_nPitch s * Ih) with I in HIm by lia.
  assert (Ha0 : 0 <= a) by (subst a; apply Z.mul_nonneg_nonneg; lia).
  assert (HI0 : 0 <= I) by (subst I; apply Z.mul_nonneg_nonneg; lia).
  assert (HaI : a + I <= e).
  { subst a I e. rewrite <- Z.mul_add_distr_r. apply rows_le; lia. }
  assert (Hel : e <= Z.of_nat (length (m_pBuffer8 s))).
  { rewrite Hlen. subst e. apply rows_le; lia. }
  assert (HF : Z.of_nat (length (background_bytes s I)) = I)
    by (apply background_bytes_length; [exact (ok_depth s Hok) | exact HI0 | exact HIm]).
  assert (EaI : a + I = (Ya + Ih) * m_nPitch s) by lia.
  assert (Hrd : forall j, 0 <= j < m_nPitch s ->
    rd (m_pBuffer8 s') (y * m_nPitch s + j)
    = if y <? Ya then rd (m_pBuffer8 s) (y * m_nPitch s + j)
      else if y <? Ya + Ih
           then rd (fill_unit (m_nDepth s) (m_BackgroundColor s))
                   (j mod unit_bytes (m_nDepth s))
      else if y <? Ye then rd (m_pBuffer8 s) ((y - Ih) * m_nPitch s + j)
      else rd (m_pBuffer8 s) (y * m_nPitch s + j)).
  { intros j Hj. pose proof (row_bytes s y j Hok Hy Hj) as Hk.
    rewrite Hb, rd_lines_in by lia.
    destruct (Z.ltb_spec y Ya) as [L1|L1].
    { pose proof (rows_lt y Ya (m_nPitch s) Hp L1).
      destruct (Z.ltb_spec (y * m_nPitch s + j) a); [reflexivity | lia]. }
    pose proof (rows_le Ya y (m_nPitch s) Hp L1).
    destruct (Z.ltb_spec (y * m_nPitch s + j) a); [lia|].
    destruct (Z.ltb_spec y (Ya + Ih)) as [L2|L2].
    { pose proof (rows_lt y (Ya + Ih) (m_nPitch s) Hp L2).
      destruct (Z.ltb_spec (y * m_nPitch s + j) (a + I)); [|lia].
      rewrite rd_background by (try assumption; lia). f_equal.
      replace (y * m_nPitch s + j - a) with (m_nPitch s * (y - Ya) + j) by lia.
      apply row_offset_mod, Hok. }
    pose proof (rows_le (Ya + Ih) y (m_nPitch s) Hp L2).
    destruct (Z.ltb_spec (y * m_nPitch s + j) (a + I)); [lia|].
    destruct (Z.ltb_spec y Ye) as [L3|L3].
    { pose proof (rows_lt y Ye (m_nPitch s) Hp L3).
      destruct (Z.ltb_spec (y * m_nPitch s + j) e); [f_equal; lia | lia]. }
    pose proof (rows_le Ye y (m_nPitch s) Hp L3).
    destruct (Z.ltb_spec (y * m_nPitch s + j) e); [lia | reflexivity]. }
  destruct (Z.ltb_spec y Ya).
  { apply (GetRawPixel_rows s s' x y y Hok); try assumption. }
  destruct (Z.ltb_spec y (Ya + Ih)).
  { apply (GetRawPixel_filled_row s s' _ x y Hok); assumption. }
  destruct (Z.ltb_spec y Ye).
  { apply (GetRawPixel_rows s s' x (y - Ih) y Hok); try assumption; lia. }
  apply (GetRawPixel_rows s s' x y y Hok); try assumption.
Qed.

Section Rows.

Variable pf : Platform.

(** X16: [Scroll] moves every pixel row of the scroll region up by one text
    line, gives the last text line of the region the background colour, and
    leaves the rows above and below the region as they are. *)
Theorem Scroll_rows s x y :
  surface_ok s ->
  m_nScrollStart s + GetCharHeight (pCharGen s) <= m_nScrollEnd s ->
  0 <= x < m_nWidth s -> 0 <= y < m_nHeight s ->
  GetRawPixel x y (Scroll pf s)
  = if y <? m_nScrollStart s then GetRawPixel x y s
    else if y <? m_nScrollEnd s - GetCharHeight (pCharGen s)
    then GetRawPixel x (y + GetCharHeight (pCharGen s)) s
    else if y <? m_nScrollEnd s then raw_color (m_nDepth s) (m_BackgroundColor s)
    else GetRawPixel x y s.
Proof.
  intros Hok Hfit Hx Hy.
  destruct (Scroll_pixels_ok pf s Hok Hfit) as (Hb & _).
  pose proof (Scroll_control pf s) as E. control_inv E.
  pose proof (ok_region s Hok) as (Hs0 & Hse & Heh).
  pose proof (ok_height s Hok) as Hh.
  apply (rows_out s (Scroll pf s) (m_nScrollStart s * m_nPitch s)
           (m_nPitch s * GetCharHeight (pCharGen s)) (m_nScrollEnd s * m_nPitch s)
           (m_nScrollStart s) (GetCharHeight (pCharGen s))
           (m_nScrollEnd s) x y Hok); try assumption; try reflexivity; lia.
Qed.

(** X17: [InsertLines n] works on [lines_count n s] text lines: the rows from
    the cursor row to the end of the scroll region move down by that many
    lines, the lines at the cursor get the background colour, and what is
    pushed past the end of the region is lost; the other rows stay.  With the
    cursor outside the scroll region, or [n = 0], no pixel changes. *)
Theorem InsertLines_rows n s x y :
  surface_ok s -> 0 <= n ->
  0 <= x < m_nWidth s -> 0 <= y < m_nHeight s ->
  GetRawPixel x y (InsertLines pf n s)
  = match lines_count n s with
    | None => GetRawPixel x y s
    | Some c =>
        let rows := c * GetCharHeight (pCharGen s) in
        if y <? m_nCursorY s then GetRawPixel x y s
        else if y <? m_nCursorY s + rows
        then raw_color (m_nDepth s) (m_BackgroundColor s)
        else if y <? m_nScrollEnd s then GetRawPixel x (y - rows) s
        else GetRawPixel x y s
    end.
Proof.
  intros Hok Hn Hx Hy.
  pose proof (InsertLines_control pf n s) as E. control_inv E.
  destruct (lines_count n s) as [c|] eqn:Hc.
  - destruct (InsertLines_ok pf n s c Hok Hn Hc) as (Hb & _).
    destruct (lines_count_spec n s c Hok Hn Hc) as (Hcy & Hc1 & Hfit & _).
    pose proof (ok_region s Hok) as (Hs0 & Hse & Heh).
    pose proof (ok_height s Hok) as Hh.
    assert (0 <= c * GetCharHeight (pCharGen s)) by (apply Z.mul_nonneg_nonneg; lia).
    cbv zeta.
    apply (rows_in s (InsertLines pf n s) (m_nCursorY s * m_nPitch s)
             (m_nPitch s * GetCharHeight (pCharGen s) * c) (m_nScrollEnd s * m_nPitch s)
             (m_nCursorY s)
             (c * GetCharHeight (pCharGen s)) (m_nScrollEnd s) x y Hok);
      try assumption; try reflexivity; lia.
  - apply GetRawPixel_ext; try assumption.
    rewrite InsertLines_buffer, Hc. reflexivity.
Qed.

(** X18: [DeleteLines n] works on [lines_count n s] text lines: the rows
    below them, up to the end of the scroll region, move up to the cursor
    row, the lines that become free at the end of the region get the
    background colour, and the other rows stay.  With the cursor outside the
    scroll region, or [n = 0], no pixel changes. *)
Theorem DeleteLines_rows n s x y :
  surface_ok s -> 0 <= n ->
  0 <= x < m_nWidth s -> 0 <= y < m_nHeight s ->
  GetRawPixel x y (DeleteLines pf n s)
  = match lines_count n s with
    | None => GetRawPixel x y s
    | Some c =>
        let rows := c * GetCharHeight (pCharGen s) in
        if y <? m_nCursorY s then GetRawPixel x y s
        else if y <? m_nScrollEnd s - rows then GetRawPixel x (y + rows) s
        else if y <? m_nScrollEnd s
        then raw_color (m_nDepth s) (m_BackgroundColor s)
        else GetRawPixel x y s
    end.
Proof.
  intros Hok Hn Hx Hy.
  pose proof (DeleteLines_control pf n s) as E. control_inv E.
  destruct (lines_count n s) as [c|] eqn:Hc.
  - destruct (DeleteLines_ok pf n s c Hok Hn Hc) as (Hb & _).
    destruct (lines_count_spec n s c Hok Hn Hc) as (Hcy & Hc1 & Hfit & _).
    pose proof (ok_region s Hok) as (Hs0 & Hse & Heh).
    pose proof (ok_height s Hok) as Hh.
    assert (0 <= c * GetCharHeight (pCharGen s)) by (apply Z.mul_nonneg_nonneg; lia).
    cbv zeta.
    apply (rows_out s (DeleteLines pf n s) (m_nCursorY s * m_nPitch s)
             (m_nPitch s * GetCharHeight (pCharGen s) * c) (m_nScrollEnd s * m_nPitch s)
             (m_nCursorY s)
             (c * GetCharHeight (pCharGen s)) (m_nScrollEnd s) x y Hok);
      try assumption; try reflexivity; lia.
  - apply GetRawPixel_ext; try assumption.
    rewrite DeleteLines_buffer, Hc. reflexivity.
Qed.

End Rows.

(** ** Cursor motion at the margins *)

Lemma row_down_0 a b p r : row_down a b p r 0 = r.
Proof. unfold row_down. cbn. apply Z.add_0_r. Qed.

Lemma mod_succ m R :
  0 <= m -> 0 < R ->
  (m + 1) mod R = if m mod R + 1 >=? R then 0 else m mod R + 1.
Proof.
  intros Hm HR. pose proof (Z.mod_pos_bound m R HR) as Hb.
  pose proof (Z.div_mod m R ltac:(lia)) as Hd.
  destruct (Z.geb_spec (m mod R + 1) R) as [L|L].
  - symmetry. apply (Z.mod_unique_pos _ _ (m / R + 1)); lia.
  - symmetry. apply (Z.mod_unique_pos _ _ (m / R)); lia.
Qed.

Lemma div_succ m R :
  0 <= m -> 0 < R ->
  (m + 1) / R = if m mod R + 1 >=? R then m / R + 1 else m / R.
Proof.
  intros Hm HR. pose proof (Z.mod_pos_bound m R HR) as Hb.
  pose proof (Z.div_mod m R ltac:(lia)) as Hd.
  destruct (Z.geb_spec (m mod R + 1) R) as [L|L].
  - symmetry. apply (Z.div_unique_pos _ _ _ 0); lia.
  - symmetry. apply (Z.div_unique_pos _ _ _ (m mod R + 1)); lia.
Qed.

Lemma row_down_succ a b p r q :
  a < b -> 0 <= q ->
  row_down a b p r (q + 1)
  = if row_down a b p r q + 1 >=? b then if p then a else row_down a b p r q
    else row_down a b p r q + 1.
Proof.
  intros Hab Hq. unfold row_down.
  destruct (Z.eqb_spec (q + 1) 0) as [?|_]; [lia|]. cbn [orb].
  destruct (Z.eqb_spec q 0) as [->|Hq0]; cbn [orb].
  - rewrite Z.add_0_r. change (0 + 1) with 1.
    destruct (Z.ltb_spec (r + 1) b) as [L|L].
    + destruct (Z.geb_spec (r + 1) b); [lia | reflexivity].
    + destruct (Z.geb_spec (r + 1) b); [|lia].
      destruct p; [|destruct (Z.ltb_spec r b); lia].
      destruct (Z.ltb_spec r b).
      * replace (r + 1 - b) with 0 by lia. rewrite Z.mod_0_l by lia. lia.
      * replace (1 - 1) with 0 by lia. rewrite Z.mod_0_l by lia. lia.
  - destruct (Z.ltb_spec (r + (q + 1)) b) as [L|L].
    + destruct (Z.ltb_spec (r + q) b); [|lia].
      destruct (Z.geb_spec (r + q + 1) b); lia.
    + destruct (Z.ltb_spec (r + q) b) as [L'|L'].
      * destruct (Z.geb_spec (r + q + 1) b); [|lia].
        destruct (Z.ltb_spec r b); [|lia].
        destruct p; [|lia].
        replace (r + (q + 1) - b) with 0 by lia. rewrite Z.mod_0_l by lia. lia.
      * destruct p.
        -- set (m := if r <? b then r + q - b else q - 1).
           assert (Hm : 0 <= m) by (unfold m; destruct (Z.ltb_spec r b); lia).
           replace (if r <? b then r + (q + 1) - b else q + 1 - 1) with (m + 1)
             by (unfold m; destruct (Z.ltb_spec r b); lia).
           rewrite mod_succ by lia.
           pose proof (Z.mod_pos_bound m (b - a) ltac:(lia)).
           destruct (Z.geb_spec (m mod (b - a) + 1) (b - a));
             destruct (Z.geb_spec (a + m mod (b - a) + 1) b); lia.
        -- destruct (Z.ltb_spec r b).
           ++ destruct (Z.geb_spec (b - 1 + 1) b); lia.
           ++ destruct (Z.geb_spec (r + 1) b); lia.
Qed.

Lemma row_down_bounds a b p r q rows :
  0 <= a < b -> b <= rows -> 0 <= r < rows -> 0 <= q ->
  0 <= row_down a b p r q < rows.
Proof.
  intros Hab Hb Hr Hq. unfold row_down.
  destruct (Z.eqb_spec q 0) as [->|Hq0]; cbn [orb]; [lia|].
  destruct (Z.ltb_spec (r + q) b); [lia|].
  destruct p.
  - match goal with |- context [?m mod (b - a)] =>
      pose proof (Z.mod_pos_bound m (b - a) ltac:(lia)) end. lia.
  - destruct (Z.ltb_spec r b); lia.
Qed.

Lemma scrolls_down_0 b p r : scrolls_down b p r 0 = 0.
Proof. unfold scrolls_down. destruct p, (Z.ltb_spec r b); lia. Qed.

Lemma scrolls_down_nonneg b p r q : 0 <= q -> 0 <= scrolls_down b p r q.
Proof. intros Hq. unfold scrolls_down. destruct p, (Z.ltb_spec r b); lia. Qed.

Lemma scrolls_down_succ a b p r q :
  a < b -> 0 <= q ->
  scrolls_down b p r (q + 1)
  = scrolls_down b p r q
    + if (row_down a b p r q + 1 >=? b) && negb p then 1 else 0.
Proof.
  intros Hab Hq. unfold scrolls_down, row_down.
  destruct p; cbn [negb]; [rewrite andb_false_r; reflexivity|].
  rewrite andb_true_r.
  destruct (Z.eqb_spec q 0) as [->|Hq0]; cbn [orb].
  - rewrite Z.add_0_r. destruct (Z.ltb_spec r b), (Z.geb_spec (r + 1) b); lia.
  - destruct (Z.ltb_spec r b), (Z.ltb_spec (r + q) b);
      repeat match goal with |- context [?x >=? ?y] => destruct (Z.geb_spec x y) end;
      lia.
Qed.

Lemma divide_cells h v : 0 < h -> (h | v) -> v = v / h * h.
Proof. intros Hh [k ->]. rewrite Z.div_mul by lia. reflexivity. Qed.

Lemma cell_reached a b w : 0 < w -> (a * w >=? b * w) = (a >=? b).
Proof.
  intros Hw. destruct (Z.geb_spec a b) as [L|L].
  - apply Z.geb_le, Z.mul_le_mono_nonneg_r; lia.
  - rewrite Z.geb_leb. apply Z.leb_gt, Z.mul_lt_mono_pos_r; assumption.
Qed.

Lemma set_m_nCursorX_same s : set_m_nCursorX (m_nCursorX s) s = s.
Proof. destruct s; reflexivity. Qed.

Lemma set_m_nCursorY_same s : set_m_nCursorY (m_nCursorY s) s = s.
Proof. destruct s; reflexivity. Qed.

Lemma control_set_m_nCursorY v t u :
  control t = control u -> control (set_m_nCursorY v t) = control (set_m_nCursorY v u).
Proof. intros E. control_inv E. unfold control. cbn. congruence. Qed.

Lemma control_set_m_nCursorX v t u :
  control t = control u -> control (set_m_nCursorX v t) = control (set_m_nCursorX v u).
Proof. intros E. control_inv E. unfold control. cbn. congruence. Qed.

Lemma control_set_m_State v t u :
  control t = control u -> control (set_m_State v t) = control (set_m_State v u).
Proof. intros E. control_inv E. unfold control. cbn. congruence. Qed.

(** The facts of [grid_ok s], in the context. *)
Ltac grid_cells H :=
  let U := fresh "Hused" in
  pose proof (grid_used_width _ H) as U;
  let U' := fresh "Hcell" in
  pose proof (grid_used_height _ H) as U';
  let G := fresh "G" in
  pose proof H as G;
  destruct G as [G_gen G_w G_h G_uw G_uh G_small G_start G_end G_region G_x G_y G_sx G_sy].

Section Motion.

Variable pf : Platform.

(** What the pixel work of [Scroll] reads besides the pixels. *)
Definition scroll_frame (s : CTRenderer) :=
  (m_pCharGen s, m_nScrollStart s, m_nScrollEnd s, m_nPitch s, m_nWidth s,
   m_nDepth s, m_BackgroundColor s).

(** [t] is [s] with the cursor at pixel [(x, y)] and the scroll region
    scrolled [j] times. *)
Definition moved (s t : CTRenderer) (x y : Z) (j : nat) : Prop :=
  control t = control (set_m_nCursorY y (set_m_nCursorX x s))
  /\ m_pBuffer8 t = m_pBuffer8 (Nat.iter j (Scroll pf) s)
  /\ (j = 0%nat -> t = set_m_nCursorY y (set_m_nCursorX x s)).

Lemma control_scroll_frame t u : control t = control u -> scroll_frame t = scroll_frame u.
Proof. intros E. control_inv E. unfold scroll_frame. congruence. Qed.

Lemma Scroll_pixels_frame n t u :
  scroll_frame t = scroll_frame u -> m_pBuffer8 t = m_pBuffer8 u ->
  m_pBuffer8 (Scroll_pixels n t) = m_pBuffer8 (Scroll_pixels n u).
Proof.
  intros E B. unfold scroll_frame in E. injection E as _ Es Ee Ep Ew Ed Eb.
  unfold Scroll_pixels. cbn zeta. rewrite Es, Ee, Ep, B.
  match goal with |- context [if negb (?n =? 0) then _ else _] =>
    destruct (negb (n =? 0)) end; cbn; rewrite ?Ew, ?Ed, ?Eb, ?B;
  repeat case_match; cbn; congruence.
Qed.

Lemma Scroll_buffer_frame t u :
  scroll_frame t = scroll_frame u -> m_pBuffer8 t = m_pBuffer8 u ->
  m_pBuffer8 (Scroll pf t) = m_pBuffer8 (Scroll pf u).
Proof.
  intros E B. rewrite !Scroll_buffer.
  assert (Ecg : pCharGen t = pCharGen u).
  { unfold pCharGen. unfold scroll_frame in E. injection E as -> _ _ _ _ _ _. reflexivity. }
  rewrite Ecg. apply Scroll_pixels_frame; assumption.
Qed.

Lemma Scroll_iter_control j s : control (Nat.iter j (Scroll pf) s) = control s.
Proof.
  induction j as [|j IH]; [reflexivity|].
  rewrite Nat.iter_succ, Scroll_control. exact IH.
Qed.

Lemma Scroll_iter_buffer j t u :
  scroll_frame t = scroll_frame u -> m_pBuffer8 t = m_pBuffer8 u ->
  m_pBuffer8 (Nat.iter j (Scroll pf) t) = m_pBuffer8 (Nat.iter j (Scroll pf) u).
Proof.
  intros E B. induction j as [|j IH]; [exact B|].
  rewrite !Nat.iter_succ. apply Scroll_buffer_frame; [|exact IH].
  rewrite (control_scroll_frame _ _ (Scroll_iter_control j t)).
  rewrite (control_scroll_frame _ _ (Scroll_iter_control j u)). exact E.
Qed.

Lemma moved_start s : moved s s (m_nCursorX s) (m_nCursorY s) 0.
Proof.
  assert (E : set_m_nCursorY (m_nCursorY s) (set_m_nCursorX (m_nCursorX s) s) = s)
    by (destruct s; reflexivity).
  unfold moved. rewrite E. auto.
Qed.

Lemma moved_set_m_nCursorX v s t x y j :
  moved s t x y j -> moved s (set_m_nCursorX v t) v y j.
Proof.
  intros (Ec & Eb & Ee). split; [|split].
  - apply (control_set_m_nCursorX v) in Ec. exact Ec.
  - exact Eb.
  - intros Hj. rewrite (Ee Hj). reflexivity.
Qed.

(** One step down from a cell of the grid. *)
Lemma moved_CursorDown s t x r j :
  grid_ok s ->
  0 <= r -> r * GetCharHeight (pCharGen s) < m_nUsedHeight s ->
  moved s t x (r * GetCharHeight (pCharGen s)) j ->
  let h := GetCharHeight (pCharGen s) in
  let b := m_nScrollEnd s / h in
  moved s (CursorDown pf t) x
    ((if r + 1 >=? b then if m_bAutoPage s then m_nScrollStart s / h else r
      else r + 1) * h)
    (if (r + 1 >=? b) && negb (m_bAutoPage s) then S j else j).
Proof.
  intros H Hr Hy (Ec & Eb & Ee) h b. grid_cells H. fold h in Hy, Hcell, G_h, G_start, G_end, G_y.
  assert (HE : m_nScrollEnd s = b * h) by (apply divide_cells; assumption).
  assert (HS : m_nScrollStart s = m_nScrollStart s / h * h)
    by (apply divide_cells; assumption).
  assert (Ecg : pCharGen t = pCharGen s) by (apply (control_pCharGen _ _ Ec)).
  assert (Ey : m_nCursorY t = r * h) by (control_inv Ec; assumption).
  assert (Ee' : m_nScrollEnd t = m_nScrollEnd s) by (control_inv Ec; assumption).
  assert (Es' : m_nScrollStart t = m_nScrollStart s) by (control_inv Ec; assumption).
  assert (Ep : m_bAutoPage t = m_bAutoPage s) by (control_inv Ec; assumption).
  unfold CursorDown. cbv zeta. gsimpl. rewrite Ecg, Ey, Ee', Ep. fold h.
  rewrite (u32_small (r * h + h)) by lia.
  replace (r * h + h) with ((r + 1) * h) by ring.
  rewrite HE at 1. rewrite cell_reached by assumption.
  destruct (Z.geb_spec (r + 1) b) as [L|L]; cbn [andb].
  - destruct (m_bAutoPage s); cbn [negb].
    + rewrite Es', <- HS. split; [|split].
      * apply (control_set_m_nCursorY (m_nScrollStart s)) in Ec. exact Ec.
      * exact Eb.
      * intros Hj. rewrite (Ee Hj). reflexivity.
    + set (t1 := set_m_nCursorY ((r + 1) * h) t).
      pose proof (Scroll_control pf t1) as E2.
      assert (Ecg2 : pCharGen (Scroll pf t1) = pCharGen s)
        by (rewrite (control_pCharGen _ _ E2); exact Ecg).
      assert (Ey2 : m_nCursorY (Scroll pf t1) = (r + 1) * h)
        by (control_inv E2; assumption).
      rewrite Ecg2, Ey2. fold h.
      replace ((r + 1) * h - h) with (r * h) by ring.
      rewrite u32_small by lia.
      split; [|split].
      * apply (control_set_m_nCursorY (r * h)) in E2. rewrite E2.
        apply (control_set_m_nCursorY (r * h)) in Ec. exact Ec.
      * change (m_pBuffer8 (Scroll pf t1) = m_pBuffer8 (Scroll pf (Nat.iter j (Scroll pf) s))).
        apply Scroll_buffer_frame; [|exact Eb].
        rewrite (control_scroll_frame _ _ (Scroll_iter_control j s)).
        apply (control_scroll_frame _ _ Ec).
      * discriminate.
  - split; [|split].
    + apply (control_set_m_nCursorY ((r + 1) * h)) in Ec. exact Ec.
    + exact Eb.
    + intros Hj. rewrite (Ee Hj). reflexivity.
Qed.

(** One step right from a cell of the grid. *)
Lemma moved_CursorRight s t c r j :
  grid_ok s ->
  0 <= c < m_nUsedWidth s / GetCharWidth (pCharGen s) ->
  0 <= r -> r * GetCharHeight (pCharGen s) < m_nUsedHeight s ->
  moved s t (c * GetCharWidth (pCharGen s)) (r * GetCharHeight (pCharGen s)) j ->
  let w := GetCharWidth (pCharGen s) in
  let h := GetCharHeight (pCharGen s) in
  let b := m_nScrollEnd s / h in
  if c + 1 >=? m_nUsedWidth s / w
  then moved s (CursorRight pf t) 0
         ((if r + 1 >=? b then if m_bAutoPage s then m_nScrollStart s / h else r
           else r + 1) * h)
         (if (r + 1 >=? b) && negb (m_bAutoPage s) then S j else j)
  else moved s (CursorRight pf t) ((c + 1) * w) (r * h) j.
Proof.
  intros H Hc Hr Hy Hm w h b. grid_cells H.
  fold w in Hc, Hused, G_w, G_x. fold h in Hy, Hm. fold w in Hm.
  assert (HW : m_nUsedWidth s = m_nUsedWidth s / w * w)
    by (apply divide_cells; tauto).
  assert (Hcw : c * w < m_nUsedWidth s).
  { rewrite HW. apply Z.mul_lt_mono_pos_r; lia. }
  assert (0 <= c * w) by (apply Z.mul_nonneg_nonneg; lia).
  pose proof Hm as (Ec & Eb & Ee).
  assert (Ecg : pCharGen t = pCharGen s) by (apply (control_pCharGen _ _ Ec)).
  assert (Ex : m_nCursorX t = c * w) by (control_inv Ec; assumption).
  assert (Eu : m_nUsedWidth t = m_nUsedWidth s) by (control_inv Ec; assumption).
  unfold CursorRight. cbv zeta. gsimpl. rewrite Ecg, Ex, Eu. fold w.
  rewrite (u32_small (c * w + w)) by lia.
  replace (c * w + w) with ((c + 1) * w) by ring.
  assert (Hcmp : ((c + 1) * w >=? m_nUsedWidth s) = (c + 1 >=? m_nUsedWidth s / w))
    by (rewrite HW at 1; apply cell_reached; assumption).
  rewrite Hcmp.
  destruct (Z.geb_spec (c + 1) (m_nUsedWidth s / w)) as [L|L].
  - change (NewLine pf (set_m_nCursorX ((c + 1) * w) t))
      with (CursorDown pf (set_m_nCursorX 0 t)).
    apply (moved_CursorDown s _ 0 r j H Hr Hy).
    apply (moved_set_m_nCursorX 0) in Hm. exact Hm.
  - apply (moved_set_m_nCursorX ((c + 1) * w)) in Hm. exact Hm.
Qed.

(** The rows of a grid, in cells. *)
Lemma grid_cell_rows s :
  grid_ok s ->
  let h := GetCharHeight (pCharGen s) in
  0 <= m_nScrollStart s / h < m_nScrollEnd s / h
  /\ m_nScrollEnd s / h <= m_nUsedHeight s / h
  /\ 0 <= m_nCursorY s / h < m_nUsedHeight s / h
  /\ m_nUsedHeight s = m_nUsedHeight s / h * h
  /\ m_nCursorY s = m_nCursorY s / h * h
  /\ m_nScrollStart s = m_nScrollStart s / h * h
  /\ m_nScrollEnd s = m_nScrollEnd s / h * h.
Proof.
  intros H h. grid_cells H. fold h in Hcell, G_h, G_start, G_end, G_y.
  pose proof (divide_cells h _ G_h (proj1 Hcell)) as E1.
  pose proof (divide_cells h _ G_h (proj1 G_y)) as E2.
  pose proof (divide_cells h _ G_h G_start) as E3.
  pose proof (divide_cells h _ G_h G_end) as E4.
  assert (Hlt : forall a b, a * h < b * h -> a < b)
    by (intros a b; apply Z.mul_lt_mono_pos_r; assumption).
  assert (Hle : forall a b, a * h <= b * h -> a <= b)
    by (intros a b; apply Z.mul_le_mono_pos_r; assumption).
  repeat split; try assumption.
  - apply Z.div_pos; lia.
  - apply Hlt. rewrite <- E3, <- E4. lia.
  - apply Hle. rewrite <- E4, <- E1. lia.
  - apply Z.div_pos; lia.
  - apply Hlt. rewrite <- E2, <- E1. lia.
Qed.

(** The columns of a grid, in cells. *)
Lemma grid_cell_columns s :
  grid_ok s ->
  let w := GetCharWidth (pCharGen s) in
  0 <= m_nCursorX s / w < m_nUsedWidth s / w
  /\ m_nUsedWidth s = m_nUsedWidth s / w * w
  /\ m_nCursorX s = m_nCursorX s / w * w.
Proof.
  intros H w. grid_cells H. fold w in Hused, G_w, G_x.
  pose proof (divide_cells w _ G_w (proj1 Hused)) as E1.
  pose proof (divide_cells w _ G_w (proj1 G_x)) as E2.
  repeat split; try assumption.
  - apply Z.div_pos; lia.
  - apply (Z.mul_lt_mono_pos_r w); [assumption|]. rewrite <- E1, <- E2. lia.
Qed.

Lemma count_step (c : bool) z :
  0 <= z -> Z.to_nat (z + if c then 1 else 0) = if c then S (Z.to_nat z) else Z.to_nat z.
Proof. intros Hz. destruct c; lia. Qed.

(** [k] steps down from a cell of the grid. *)
Lemma CursorDown_run k s :
  grid_ok s ->
  moved s (Nat.iter k (CursorDown pf) s) (m_nCursorX s)
    (down_row (Z.of_nat k) s * GetCharHeight (pCharGen s))
    (Z.to_nat (down_scrolls (Z.of_nat k) s)).
Proof.
  intros H. destruct (grid_cell_rows s H) as (Hab & Hb & Hr & EU & EY & ES & EE).
  unfold down_row, down_scrolls. cbv zeta.
  set (h := GetCharHeight (pCharGen s)) in *.
  induction k as [|k IH].
  - change (Z.of_nat 0) with 0. rewrite row_down_0, scrolls_down_0, <- EY.
    apply moved_start.
  - rewrite Nat.iter_succ, Nat2Z.inj_succ, <- Z.add_1_r.
    rewrite row_down_succ, (scrolls_down_succ (m_nScrollStart s / h)) by lia.
    rewrite count_step by (apply scrolls_down_nonneg; lia).
    pose proof (row_down_bounds (m_nScrollStart s / h) (m_nScrollEnd s / h)
                  (m_bAutoPage s) (m_nCursorY s / h) (Z.of_nat k) (m_nUsedHeight s / h)
                  Hab Hb Hr ltac:(lia)) as Hrow.
    apply (moved_CursorDown s _ _ _ _ H); [lia | | exact IH].
    rewrite EU. apply Z.mul_lt_mono_pos_r; [|lia].
    destruct H; assumption.
Qed.

(** [k] steps right from a cell of the grid. *)
Lemma CursorRight_run k s :
  grid_ok s ->
  let w := GetCharWidth (pCharGen s) in
  let cells := m_nCursorX s / w + Z.of_nat k in
  let cols := m_nUsedWidth s / w in
  moved s (Nat.iter k (CursorRight pf) s) (cells mod cols * w)
    (down_row (cells / cols) s * GetCharHeight (pCharGen s))
    (Z.to_nat (down_scrolls (cells / cols) s)).
Proof.
  intros H w. cbv zeta.
  destruct (grid_cell_rows s H) as (Hab & Hb & Hr & EU & EY & ES & EE).
  destruct (grid_cell_columns s H) as (Hc & EW & EX). fold w in Hc, EW, EX.
  unfold down_row, down_scrolls. cbv zeta.
  set (h := GetCharHeight (pCharGen s)) in *.
  set (cols := m_nUsedWidth s / w) in *.
  set (c := m_nCursorX s / w) in *.
  assert (Hh : 0 < h) by (destruct H; assumption).
  induction k as [|k IH].
  - change (Z.of_nat 0) with 0. rewrite Z.add_0_r.
    rewrite (Z.mod_small c cols), (Z.div_small c cols) by lia.
    rewrite row_down_0, scrolls_down_0, <- EY, <- EX. apply moved_start.
  - rewrite Nat.iter_succ, Nat2Z.inj_succ, <- Z.add_1_r, Z.add_assoc.
    set (m := c + Z.of_nat k) in *.
    assert (Hm : 0 <= m) by (unfold m; lia).
    pose proof (Z.mod_pos_bound m cols ltac:(lia)) as Hmod.
    assert (Hq : 0 <= m / cols) by (apply Z.div_pos; lia).
    pose proof (row_down_bounds (m_nScrollStart s / h) (m_nScrollEnd s / h)
                  (m_bAutoPage s) (m_nCursorY s / h) (m / cols) (m_nUsedHeight s / h)
                  Hab Hb Hr Hq) as Hrow.
    assert (Hy : row_down (m_nScrollStart s / h) (m_nScrollEnd s / h)
                   (m_bAutoPage s) (m_nCursorY s / h) (m / cols) * h < m_nUsedHeight s).
    { rewrite EU. apply Z.mul_lt_mono_pos_r; lia. }
    pose proof (moved_CursorRight s _ _ _ _ H Hmod (proj1 Hrow) Hy IH) as Hstep.
    cbv zeta in Hstep. fold w h cols in Hstep.
    rewrite mod_succ, div_succ by lia.
    destruct (Z.geb_spec (m mod cols + 1) cols) as [L|L].
    + rewrite row_down_succ, (scrolls_down_succ (m_nScrollStart s / h)) by lia.
      rewrite count_step by (apply scrolls_down_nonneg; lia).
      exact Hstep.
    + exact Hstep.
Qed.

(** Above the scroll region and in its first row, [CursorUp] does nothing. *)
Lemma CursorUp_top k s :
  m_nCursorY s <= m_nScrollStart s -> Nat.iter k CursorUp s = s.
Proof.
  intros Hy. induction k as [|k IH]; [reflexivity|].
  rewrite Nat.iter_succ, IH. unfold CursorUp.
  destruct (Z.gtb_spec (m_nCursorY s) (m_nScrollStart s)); [lia | reflexivity].
Qed.

(** There, [CursorLeft] stops in column 0. *)
Lemma CursorLeft_top k s :
  0 < GetCharWidth (pCharGen s) ->
  (GetCharWidth (pCharGen s) | m_nCursorX s) -> 0 <= m_nCursorX s < 4294967296 ->
  m_nCursorY s <= m_nScrollStart s ->
  Nat.iter k CursorLeft s
  = set_m_nCursorX (Z.max 0 (m_nCursorX s - Z.of_nat k * GetCharWidth (pCharGen s))) s.
Proof.
  intros Hw [c Hc] Hx Hy. set (w := GetCharWidth (pCharGen s)) in *.
  assert (Hc0 : 0 <= c) by nia.
  induction k as [|k IH].
  - change (Z.of_nat 0) with 0. rewrite Z.mul_0_l, Z.sub_0_r, Z.max_r by lia.
    symmetry. apply set_m_nCursorX_same.
  - rewrite Nat.iter_succ, IH. unfold CursorLeft. gsimpl. fold w.
    rewrite Hc, Nat2Z.inj_succ, <- Z.add_1_r.
    replace (c * w - Z.of_nat k * w) with ((c - Z.of_nat k) * w) by ring.
    replace (c * w - (Z.of_nat k + 1) * w) with ((c - Z.of_nat k - 1) * w) by ring.
    destruct (Z.le_gt_cases (c - Z.of_nat k) 0) as [L|L].
    + assert ((c - Z.of_nat k) * w <= 0) by (apply Z.mul_nonpos_nonneg; lia).
      assert ((c - Z.of_nat k - 1) * w <= 0) by (apply Z.mul_nonpos_nonneg; lia).
      rewrite !Z.max_l by lia. cbn [Z.gtb Z.compare].
      destruct (Z.gtb_spec (m_nCursorY s) (m_nScrollStart s)); [lia | reflexivity].
    + assert (0 < (c - Z.of_nat k) * w) by (apply Z.mul_pos_pos; lia).
      assert (0 <= (c - Z.of_nat k - 1) * w) by (apply Z.mul_nonneg_nonneg; lia).
      assert ((c - Z.of_nat k) * w <= c * w) by (apply Z.mul_le_mono_nonneg_r; lia).
      rewrite !Z.max_r by lia.
      destruct (Z.gtb_spec ((c - Z.of_nat k) * w) 0); [|lia].
      replace ((c - Z.of_nat k) * w - w) with ((c - Z.of_nat k - 1) * w) by ring.
      rewrite u32_small by lia. reflexivity.
Qed.

Lemma mod_pred i R :
  1 <= i -> 0 < R ->
  (i - 1) mod R = (if i mod R =? 0 then R - 1 else i mod R - 1)
  /\ (i - 1) / R = (if i mod R =? 0 then i / R - 1 else i / R).
Proof.
  intros Hi HR. pose proof (Z.mod_pos_bound i R HR) as Hb.
  pose proof (Z.div_mod i R ltac:(lia)) as Hd.
  destruct (Z.eqb_spec (i mod R) 0) as [E|E]; split; symmetry.
  - apply (Z.mod_unique_pos _ _ (i / R - 1)); lia.
  - apply (Z.div_unique_pos _ _ _ (R - 1)); lia.
  - apply (Z.mod_unique_pos _ _ (i / R)); lia.
  - apply (Z.div_unique_pos _ _ _ (i mod R - 1)); lia.
Qed.

(** In and below the first row of the scroll region, [CursorLeft] goes back
    through the cells in reading order, to the first cell of the region at
    most. *)
Lemma CursorLeft_run k s :
  grid_ok s -> m_nScrollStart s <= m_nCursorY s ->
  let w := GetCharWidth (pCharGen s) in
  let h := GetCharHeight (pCharGen s) in
  let cols := m_nUsedWidth s / w in
  let i := Z.max 0 (region_index s - Z.of_nat k) in
  Nat.iter k CursorLeft s
  = set_m_nCursorY (m_nScrollStart s + i / cols * h) (set_m_nCursorX (i mod cols * w) s).
Proof.
  intros H Hy w h cols. cbv zeta.
  destruct (grid_cell_rows s H) as (Hab & Hb & Hr & EU & EY & ES & EE).
  destruct (grid_cell_columns s H) as (Hc & EW & EX).
  fold w in Hc, EW, EX. fold h in Hab, Hb, Hr, EU, EY, ES, EE. fold cols in Hc, EW.
  grid_cells H. fold w in G_w, Hused. fold h in G_h, Hcell.
  unfold region_index. fold w h cols.
  set (c := m_nCursorX s / w) in *.
  set (a := m_nScrollStart s / h) in *.
  set (r := m_nCursorY s / h) in *.
  assert (Hrho : (m_nCursorY s - m_nScrollStart s) / h = r - a).
  { rewrite EY, ES. replace (r * h - a * h) with ((r - a) * h) by ring.
    apply Z.div_mul. lia. }
  rewrite Hrho.
  assert (Har : a <= r).
  { apply (Z.mul_le_mono_pos_r _ _ h); [assumption|]. rewrite <- EY, <- ES. exact Hy. }
  set (i0 := (r - a) * cols + c).
  assert (Hi0 : 0 <= i0).
  { assert (0 <= (r - a) * cols) by (apply Z.mul_nonneg_nonneg; lia). unfold i0. lia. }
  set (at_cell := fun i => set_m_nCursorY (m_nScrollStart s + i / cols * h)
                             (set_m_nCursorX (i mod cols * w) s)).
  assert (step : forall i, 0 <= i <= i0 ->
            CursorLeft (at_cell i) = at_cell (Z.max 0 (i - 1))).
  { intros i Hi. unfold at_cell, CursorLeft. gsimpl. fold w h.
    pose proof (Z.mod_pos_bound i cols ltac:(lia)) as Hmod.
    assert (Hdiv : 0 <= i / cols <= r - a).
    { split; [apply Z.div_pos; lia|].
      replace (r - a) with (i0 / cols).
      - apply Z.div_le_mono; lia.
      - unfold i0. rewrite Z.div_add_l by lia. rewrite (Z.div_small c) by lia. lia. }
    assert (Hx1 : 0 <= i mod cols * w) by (apply Z.mul_nonneg_nonneg; lia).
    assert (Hx2 : i mod cols * w < cols * w) by (apply Z.mul_lt_mono_pos_r; lia).
    assert (Hy1 : 0 <= i / cols * h) by (apply Z.mul_nonneg_nonneg; lia).
    assert (Hy2 : i / cols * h <= (r - a) * h) by (apply Z.mul_le_mono_nonneg_r; lia).
    destruct (Z.eq_dec i 0) as [->|Hne].
    - rewrite Z.max_l by lia. rewrite Z.mod_0_l, Z.div_0_l by lia.
      cbn [Z.mul Z.gtb Z.compare]. rewrite Z.add_0_r.
      destruct (Z.gtb_spec (m_nScrollStart s) (m_nScrollStart s)); [lia | reflexivity].
    - rewrite Z.max_r by lia.
      destruct (mod_pred i cols ltac:(lia) ltac:(lia)) as [Em Ed]. rewrite Em, Ed.
      destruct (Z.eqb_spec (i mod cols) 0) as [E0|E0].
      + rewrite E0, Z.mul_0_l.
        destruct (Z.gtb_spec 0 0) as [?|_]; [lia|].
        assert (1 <= i / cols).
        { pose proof (Z.div_mod i cols ltac:(lia)). nia. }
        assert (h * 1 <= h * (i / cols)) by (apply Z.mul_le_mono_nonneg_l; lia).
        destruct (Z.gtb_spec (m_nScrollStart s + i / cols * h) (m_nScrollStart s)); [|lia].
        rewrite EW. replace (cols * w - w) with ((cols - 1) * w) by ring.
        assert (0 <= (cols - 1) * w) by (apply Z.mul_nonneg_nonneg; lia).
        assert ((cols - 1) * w < cols * w) by (apply Z.mul_lt_mono_pos_r; lia).
        rewrite !u32_small by lia.
        replace (m_nScrollStart s + i / cols * h - h)
          with (m_nScrollStart s + (i / cols - 1) * h) by ring.
        reflexivity.
      + assert (w * 1 <= w * (i mod cols)) by (apply Z.mul_le_mono_nonneg_l; lia).
        destruct (Z.gtb_spec (i mod cols * w) 0); [|lia].
        replace (i mod cols * w - w) with ((i mod cols - 1) * w) by ring.
        assert (0 <= (i mod cols - 1) * w) by (apply Z.mul_nonneg_nonneg; lia).
        rewrite u32_small by lia. reflexivity. }
  assert (run : Nat.iter k CursorLeft (at_cell i0) = at_cell (Z.max 0 (i0 - Z.of_nat k))).
  { induction k as [|k IH].
    - change (Z.of_nat 0) with 0. rewrite Z.sub_0_r, Z.max_r by lia. reflexivity.
    - rewrite Nat.iter_succ, IH, step by lia. f_equal. lia. }
  assert (E0 : at_cell i0 = s).
  { assert (Ed0 : i0 / cols = r - a).
    { unfold i0. rewrite Z.div_add_l by lia. rewrite (Z.div_small c) by lia. lia. }
    assert (Em0 : i0 mod cols = c).
    { unfold i0. rewrite Z.add_comm, Z.mod_add by lia. apply Z.mod_small. lia. }
    unfold at_cell. rewrite Ed0, Em0. replace (m_nScrollStart s + (r - a) * h) with (m_nCursorY s)
      by (rewrite EY, ES; ring).
    rewrite <- EX. destruct s; reflexivity. }
  rewrite E0 in run. exact run.
Qed.

(** The end of a cursor sequence: the interpreter back in [StateStart]. *)
Lemma moved_done n s t x y j :
  let sP := set_m_State StateNumber1 (set_m_nParam1 n (set_m_nParam2 0 s)) in
  let done := set_m_State StateStart (set_m_nParam1 n (set_m_nParam2 0 s)) in
  moved sP t x y j ->
  control (set_m_State StateStart t) = control (set_m_nCursorY y (set_m_nCursorX x done))
  /\ m_pBuffer8 (set_m_State StateStart t) = m_pBuffer8 (Nat.iter j (Scroll pf) s)
  /\ (j = 0%nat -> set_m_State StateStart t = set_m_nCursorY y (set_m_nCursorX x done)).
Proof.
  intros sP done (Ec & Eb & Ee). split; [|split].
  - apply (control_set_m_State StateStart) in Ec. exact Ec.
  - change (m_pBuffer8 t = m_pBuffer8 (Nat.iter j (Scroll pf) s)). rewrite Eb.
    apply Scroll_iter_buffer; reflexivity.
  - intros Hj. rewrite (Ee Hj). reflexivity.
Qed.

(** C1 (amended).  [ESC [ n A], [B], [C] and [D] with [0 <= n <= 199], fed to
    [Write(char)] in ANSI mode from [StateStart]; [k = max 1 n] is the number
    of cells, [w] and [h] are the cell width and height, and [done] is the
    start state with the interpreter back in [StateStart] and the parameters
    [n] and [0].  The cursor is not clamped at every margin:

    - up: a cursor at or below the first row of the scroll region, a whole
      number of rows from it, goes up [k] rows but not above that row; a
      cursor at or above that row stays; nothing else differs from [done];
    - down, right and left, as long as the target is above the end of the
      scroll region, left of the usable width, and at or right of column 0:
      the cursor moves [k] cells and nothing else differs from [done];
    - left, at or above the first row of the region, from a column of the
      grid: the cursor stops in column 0; nothing else differs from [done];
    - on the cell grid ([grid_ok]), left from the first row of the region or
      below: the cursor goes back [k] cells in reading order, to the first
      cell of the region at most; nothing else differs from [done];
    - on the cell grid, down: the cursor ends in row [down_row k] (the last
      row of the region when it would leave the region or, in auto page
      mode, the rows of the region again from the first one); the fields of
      [control] are those of [done] with that cursor, the pixel buffer is
      the one [down_scrolls k] calls of [Scroll] leave, and if
      [down_scrolls k] is 0 nothing else differs from [done];
    - on the cell grid, right: the cursor goes [k] cells on in reading
      order, each line end passed being one step down into column 0, with
      the same three statements for the number of line ends passed. *)
Theorem csi_cursor_motion (n : Z) (s : CTRenderer) :
  m_State s = StateStart -> m_bVT52Mode s = false -> 0 <= n <= 199 ->
  0 < GetCharWidth (pCharGen s) -> 0 < GetCharHeight (pCharGen s) ->
  0 <= m_nCursorX s < 4294967296 -> 0 <= m_nCursorY s < 4294967296 ->
  let k := Z.max 1 n in
  let w := GetCharWidth (pCharGen s) in
  let h := GetCharHeight (pCharGen s) in
  let cols := m_nUsedWidth s / w in
  let done := set_m_State StateStart (set_m_nParam1 n (set_m_nParam2 0 s)) in
  (0 <= m_nScrollStart s <= m_nCursorY s ->
   (m_nCursorY s - m_nScrollStart s) mod h = 0 ->
   Write_chars pf (CSI n (chr "A")) s
   = set_m_nCursorY (Z.max (m_nScrollStart s) (m_nCursorY s - k * h)) done) /\
  (m_nCursorY s + k * h < m_nScrollEnd s <= 4294967296 ->
   Write_chars pf (CSI n (chr "B")) s = set_m_nCursorY (m_nCursorY s + k * h) done) /\
  (m_nCursorX s + k * w < m_nUsedWidth s <= 4294967296 ->
   Write_chars pf (CSI n (chr "C")) s = set_m_nCursorX (m_nCursorX s + k * w) done) /\
  (k * w <= m_nCursorX s ->
   Write_chars pf (CSI n (chr "D")) s = set_m_nCursorX (m_nCursorX s - k * w) done) /\
  (m_nCursorY s <= m_nScrollStart s ->
   Write_chars pf (CSI n (chr "A")) s = done) /\
  ((w | m_nCursorX s) -> m_nCursorY s <= m_nScrollStart s ->
   Write_chars pf (CSI n (chr "D")) s
   = set_m_nCursorX (Z.max 0 (m_nCursorX s - k * w)) done) /\
  (grid_ok s ->
   (m_nScrollStart s <= m_nCursorY s ->
    let i := Z.max 0 (region_index s - k) in
    Write_chars pf (CSI n (chr "D")) s
    = set_m_nCursorY (m_nScrollStart s + i / cols * h)
        (set_m_nCursorX (i mod cols * w) done)) /\
   (let r := Write_chars pf (CSI n (chr "B")) s in
    let target := set_m_nCursorY (down_row k s * h) done in
    control r = control target
    /\ m_pBuffer8 r
       = m_pBuffer8 (Nat.iter (Z.to_nat (down_scrolls k s)) (Scroll pf) s)
    /\ (down_scrolls k s = 0 -> r = target)) /\
   (let cells := m_nCursorX s / w + k in
    let r := Write_chars pf (CSI n (chr "C")) s in
    let target := set_m_nCursorY (down_row (cells / cols) s * h)
                    (set_m_nCursorX (cells mod cols * w) done) in
    control r = control target
    /\ m_pBuffer8 r
       = m_pBuffer8 (Nat.iter (Z.to_nat (down_scrolls (cells / cols) s)) (Scroll pf) s)
    /\ (down_scrolls (cells / cols) s = 0 -> r = target))).
Proof.
  intros Hs Hv Hn Hw Hh Hx Hy k w h cols done.
  set (sP := set_m_State StateNumber1 (set_m_nParam1 n (set_m_nParam2 0 s))).
  assert (HP : forall c, Write_chars pf (CSI n c) s = Write_char pf c sP).
  { intros c. unfold CSI. rewrite app_assoc, Write_chars_app, csi_number by assumption.
    reflexivity. }
  assert (Hcg : pCharGen sP = pCharGen s) by reflexivity.
  destruct (Write_char_Number1_motion pf sP eq_refl) as (EA & EB & EC & ED).
  rewrite !HP, EA, EB, EC, ED.
  rewrite !for_range_const, <- !Nat.iter_succ_r.
  change (m_nParam1 sP) with n.
  set (K := S (Z.to_nat (n - 1))).
  assert (HK : Z.of_nat K = k) by (unfold K, k; lia).
  split; [|split; [|split; [|split; [|split; [|split]]]]].
  - intros Hr Hd.
    unfold K. rewrite CursorUp_iter; [| exact Hh | exact Hr | apply Hy | exact Hd].
    rewrite repeat_count. reflexivity.
  - intros Hb.
    rewrite CursorDown_iter;
      [| apply Z.lt_le_incl, Hh | apply Hy | rewrite HK; apply Hb | apply Hb].
    rewrite HK. reflexivity.
  - intros Hb.
    rewrite CursorRight_iter;
      [| apply Z.lt_le_incl, Hw | apply Hx | rewrite HK; apply Hb | apply Hb].
    rewrite HK. reflexivity.
  - intros Hb.
    rewrite CursorLeft_iter; [| exact Hw | rewrite HK; exact Hb | apply Hx].
    rewrite HK. reflexivity.
  - intros Htop. rewrite CursorUp_top by exact Htop. reflexivity.
  - intros Hdx Htop.
    rewrite CursorLeft_top; [| exact Hw | exact Hdx | exact Hx | exact Htop].
    rewrite HK. reflexivity.
  - intros H.
    assert (HG : grid_ok sP).
    { apply set_m_State_grid, set_m_nParam1_grid, set_m_nParam2_grid, H. }
    split; [|split].
    + intros Hreg. cbv zeta.
      rewrite (CursorLeft_run K sP HG Hreg). rewrite HK. reflexivity.
    + cbv zeta.
      pose proof (CursorDown_run K sP HG) as Hrun. rewrite HK in Hrun.
      apply moved_done in Hrun.
      change (set_m_nCursorX (m_nCursorX sP) ?u) with (set_m_nCursorX (m_nCursorX u) u) in Hrun.
      rewrite set_m_nCursorX_same in Hrun.
      destruct Hrun as (Ec & Eb & Ee).
      split; [exact Ec | split; [exact Eb|]].
      intros H0. apply Ee.
      change (down_scrolls k sP) with (down_scrolls k s). rewrite H0. reflexivity.
    + cbv zeta.
      pose proof (CursorRight_run K sP HG) as Hrun. cbv zeta in Hrun. rewrite HK in Hrun.
      apply moved_done in Hrun.
      destruct Hrun as (Ec & Eb & Ee).
      split; [exact Ec | split; [exact Eb|]].
      intros H0. apply Ee.
      change (down_scrolls ?q sP) with (down_scrolls q s). 
      change (m_nCursorX sP) with (m_nCursorX s).
      change (m_nUsedWidth sP) with (m_nUsedWidth s).
      change (pCharGen sP) with (pCharGen s). fold w cols. rewrite H0. reflexivity.
Qed.

End Motion.

(** * The properties on the concrete terminal *)

(** Closed goals, after evaluation. *)
Ltac finish_closed :=
  lazymatch goal with
  | |- _ /\ _ => split; finish_closed
  | |- _ \/ _ => first [left; finish_closed | right; finish_closed]
  | |- True => exact I
  | |- _ = _ => reflexivity
  | |- _ -> _ => let H := fresh in intro H; discriminate H
  end.

Ltac by_compute := vm_compute; finish_closed.

Ltac surface_ok_compute :=
  constructor; [eexists; vm_compute; reflexivity | by_compute ..].

Ltac screen_ok_compute :=
  constructor; [surface_ok_compute | by_compute ..].

(** [csi_cursor_motion] on the terminal of four rows of four cells, the
    scroll region being the whole screen: one cell each way from the second
    column of the second row; five cells each way from there, where up stops
    in the first row, left in the first cell, down in the last row after
    three scrolls, and right in the third column of the next row; up and
    left from the first cell, where the cursor stays; and five cells down in
    auto page mode, where the cursor goes on from the first row and nothing
    is scrolled. *)
Lemma csi_cursor_motion_witness :
  let cursor := fun s => (m_nCursorX s, m_nCursorY s) in
  (cursor booted_mid = (10, 20)
   /\ cursor (Write_chars demo (CSI 1 (chr "A")) booted_mid) = (10, 0)
   /\ cursor (Write_chars demo (CSI 1 (chr "B")) booted_mid) = (10, 40)
   /\ cursor (Write_chars demo (CSI 1 (chr "C")) booted_mid) = (20, 20)
   /\ cursor (Write_chars demo (CSI 1 (chr "D")) booted_mid) = (0, 20))
  /\ (cursor (Write_chars demo (CSI 5 (chr "A")) booted_mid) = (10, 0)
      /\ cursor (Write_chars demo (CSI 5 (chr "D")) booted_mid) = (0, 0)
      /\ cursor (Write_chars demo (CSI 5 (chr "B")) booted_mid) = (10, 60)
      /\ m_pBuffer8 (Write_chars demo (CSI 5 (chr "B")) booted_mid)
         = m_pBuffer8 (Scroll demo (Scroll demo (Scroll demo booted_mid)))
      /\ Write_chars demo (CSI 5 (chr "C")) booted_mid
         = set_m_nCursorY 40 (set_m_nCursorX 20
             (set_m_State StateStart (set_m_nParam1 5 (set_m_nParam2 0 booted_mid)))))
  /\ (cursor booted = (0, 0)
      /\ cursor (Write_chars demo (CSI 1 (chr "A")) booted) = (0, 0)
      /\ cursor (Write_chars demo (CSI 1 (chr "D")) booted) = (0, 0))
  /\ Write_chars demo (CSI 5 (chr "B")) (SetAutoPageMode true booted_mid)
     = set_m_nCursorY 40
         (set_m_State StateStart
            (set_m_nParam1 5 (set_m_nParam2 0 (SetAutoPageMode true booted_mid)))).
Proof.
  cbv zeta.
  assert (G : grid_ok booted_mid) by (apply grid_okb_spec; vm_compute; reflexivity).
  split; [|split; [|split]].
  - destruct (csi_cursor_motion demo 1 booted_mid) as (HA & HB & HC & HD & _);
      [by_compute ..|].
    rewrite HA, HB, HC, HD; by_compute.
  - destruct (csi_cursor_motion demo 5 booted_mid)
      as (HA & _ & _ & _ & _ & _ & HG); [by_compute ..|].
    destruct (HG G) as (HD & (EcB & EbB & _) & (_ & _ & EC)).
    rewrite HA, HD by by_compute.
    destruct (control_grid_frame _ _ EcB) as (_ & ExB & EyB).
    rewrite ExB, EyB, EbB, EC by by_compute. by_compute.
  - destruct (csi_cursor_motion demo 1 booted) as (_ & _ & _ & _ & HA & HD & _);
      [by_compute ..|].
    assert (D : (GetCharWidth (pCharGen booted) | m_nCursorX booted))
      by (exists 0; vm_compute; reflexivity).
    rewrite HA by by_compute. rewrite (HD D) by by_compute. by_compute.
  - assert (G' : grid_ok (SetAutoPageMode true booted_mid))
      by (apply grid_okb_spec; vm_compute; reflexivity).
    destruct (csi_cursor_motion demo 5 (SetAutoPageMode true booted_mid))
      as (_ & _ & _ & _ & _ & _ & HG); [by_compute ..|].
    destruct (HG G') as (_ & (_ & _ & EB) & _).
    rewrite EB by by_compute. by_compute.
Defined.

(** C1, as stated, fails: with the cursor in the last column of the first
    row, [ESC [ 1 C] does not stay in that row; the cursor goes to the first
    column of the next row. *)
Lemma csi_cursor_right_wraps :
  let s' := Write_chars demo (CSI 1 (chr "C")) booted_edge in
  m_nCursorX booted_edge = 30 /\ m_nCursorY booted_edge = 0
  /\ m_nUsedWidth booted_edge = 40
  /\ m_nCursorX s' = 0 /\ m_nCursorY s' = 20.
Proof. by_compute. Qed.

(** [clear_screen_and_home] on the terminal after [Initialize]. *)
Lemma clear_screen_and_home_witness :
  cleared_and_home booted (Write_chars demo clear_and_home booted).
Proof.
  assert (H1 : m_State booted = StateStart) by by_compute.
  assert (H2 : m_bVT52Mode booted = false) by by_compute.
  assert (H3 : screen_ok booted) by screen_ok_compute.
  exact (proj1 (clear_screen_and_home demo booted H1 H2 H3)).
Defined.

(** C2, as stated, fails: with the scroll region on rows 2 to 3, the cursor
    is at pixel (0,20) after [ESC [ 2 J ESC [ H], not at (0,0). *)
Lemma clear_and_home_in_region :
  let r := snd (Write demo clear_and_home booted_region) in
  m_nScrollStart booted_region = 20
  /\ m_nCursorX r = 0 /\ m_nCursorY r = 20 /\ m_nCursorY r <> 0.
Proof. by_compute. Qed.

(** [smooth_scroll_same_pixels]: the animated scroll after three [Update]s
    and the immediate scroll. *)
Lemma smooth_scroll_same_pixels_witness :
  m_bSmoothScrollActive (Scroll demo booted) = true
  /\ m_bSmoothScrollActive (Scroll demo booted_jump) = false
  /\ m_pBuffer8 (Nat.iter 3 Update (Scroll demo booted))
     = m_pBuffer8 (Nat.iter 0 Update (Scroll demo booted_jump)).
Proof.
  assert (H1 : control booted = control booted_jump) by (vm_compute; reflexivity).
  assert (H2 : m_pBuffer8 booted = m_pBuffer8 booted_jump) by (vm_compute; reflexivity).
  split; [by_compute | split; [by_compute|]].
  exact (proj1 (smooth_scroll_same_pixels demo booted booted_jump 3 0 H1 H2)).
Defined.

(** [insert_then_delete_line] on the terminal with an [X] in the last row. *)
Lemma insert_then_delete_line_witness :
  m_pBuffer8 (DeleteLines demo 1 (InsertLines demo 1 booted_drawn))
  = blit (m_pBuffer8 booted_drawn)
         (m_nScrollEnd booted_drawn * m_nPitch booted_drawn
          - m_nPitch booted_drawn * GetCharHeight (pCharGen booted_drawn))
         (background_bytes booted_drawn
            (m_nPitch booted_drawn * GetCharHeight (pCharGen booted_drawn))).
Proof.
  assert (H1 : surface_ok booted_drawn) by surface_ok_compute.
  assert (H2 : m_nScrollStart booted_drawn <= m_nCursorY booted_drawn) by by_compute.
  assert (H3 : m_nCursorY booted_drawn + GetCharHeight (pCharGen booted_drawn)
               <= m_nScrollEnd booted_drawn) by by_compute.
  exact (insert_then_delete_line demo booted_drawn H1 H2 H3).
Defined.
(** C4, as stated, fails: the [X] drawn in the last row of the band is gone
    after [InsertLines(1)] and [DeleteLines(1)] at the first row. *)
Lemma insert_then_delete_loses_last_line :
  let s' := DeleteLines demo 1 (InsertLines demo 1 booted_drawn) in
  m_nScrollStart booted_drawn = 0 /\ m_nCursorY booted_drawn = 0
  /\ m_nScrollEnd booted_drawn = 80
  /\ GetRawPixel 1 60 booted_drawn = 61277 /\ GetRawPixel 1 60 s' = 0.
Proof. by_compute. Qed.

(** [scroll_region_frame] on a terminal of ten rows: the region is rows 6 to
    9, and the first and the last byte of the buffer survive a scroll. *)
Lemma scroll_region_frame_witness :
  let s := boot 20 200 in
  let s1 := Write_chars demo [ESC; chr "["; chr "6"; chr ";"; chr "9"; chr "r"] s in
  m_nScrollStart s1 = 5 * GetCharHeight (pCharGen s)
  /\ m_nScrollEnd s1 = 9 * GetCharHeight (pCharGen s)
  /\ m_pBuffer8 (Scroll demo s1) !! 0%nat = m_pBuffer8 s1 !! 0%nat
  /\ m_pBuffer8 (InsertLines demo 2 s1) !! Z.to_nat 7999 = m_pBuffer8 s1 !! Z.to_nat 7999.
Proof.
  cbv zeta.
  assert (H1 : m_State (boot 20 200) = StateStart) by by_compute.
  assert (H2 : m_bVT52Mode (boot 20 200) = false) by by_compute.
  assert (H3 : 0 < GetCharHeight (pCharGen (boot 20 200))) by by_compute.
  assert (H4 : 9 * GetCharHeight (pCharGen (boot 20 200)) <= m_nUsedHeight (boot 20 200))
    by by_compute.
  assert (H5 : m_nUsedHeight (boot 20 200) < 4294967296) by by_compute.
  pose proof (scroll_region_frame demo (boot 20 200) H1 H2 H3 H4 H5) as T.
  cbv zeta in T.
  destruct T as (Hs & He & Hf).
  set (s1 := Write_chars demo _ (boot 20 200)) in *.
  assert (K1 : surface_ok s1) by (unfold s1; surface_ok_compute).
  assert (K2 : pCharGen s1 = pCharGen (boot 20 200)) by (vm_compute; reflexivity).
  assert (K3 : 0 <= 0) by by_compute.
  assert (K4 : 0 <= 2) by by_compute.
  assert (K5 : Z.of_nat 0 < 5 * GetCharHeight (pCharGen (boot 20 200)) * m_nPitch s1
                \/ 9 * GetCharHeight (pCharGen (boot 20 200)) * m_nPitch s1
                   <= Z.of_nat 0) by by_compute.
  assert (K6 : Z.of_nat (Z.to_nat 7999)
                < 5 * GetCharHeight (pCharGen (boot 20 200)) * m_nPitch s1
                \/ 9 * GetCharHeight (pCharGen (boot 20 200)) * m_nPitch s1
                   <= Z.of_nat (Z.to_nat 7999)) by by_compute.
  clearbody s1.
  split; [exact Hs | split; [exact He | split]].
  - exact (proj1 (Hf s1 0 0%nat K1 K2 eq_refl eq_refl K3 K5)).
  - exact (proj1 (proj2 (Hf s1 2 (Z.to_nat 7999) K1 K2 eq_refl eq_refl K4 K6))).
Defined.

(** [SetFont_failure] when the heap refuses the character generator. *)
Lemma SetFont_failure_witness :
  fst (SetFont demo 1 FontFlagsNone booted_denied) = false
  /\ m_pCharGen (snd (SetFont demo 1 FontFlagsNone booted_denied)) = None.
Proof.
  assert (H : heap_grants booted_denied (heap_requests booted_denied) = false
              \/ heap_grants booted_denied (S (S (heap_requests booted_denied))) = false)
    by (left; by_compute).
  destruct (SetFont_failure demo 1 FontFlagsNone booted_denied H) as (H1 & H2 & _).
  split; assumption.
Defined.
(** C6, as stated, fails: when the heap refuses the character generator,
    [SetFont] returns FALSE but the renderer has lost the character generator
    it had, and the cursor that was visible is not visible any more. *)
Lemma SetFont_failure_not_intact :
  let r := SetFont demo 1 FontFlagsNone booted_denied in
  fst r = false
  /\ m_pCharGen booted_denied <> None /\ m_pCharGen (snd r) = None
  /\ m_bCursorVisible booted_denied = true /\ m_bCursorVisible (snd r) = false.
Proof. by_compute. Qed.

(** [SetFont_success] for the 8x20 font, the cursor in the second column of
    the second row. *)
Lemma SetFont_success_witness :
  m_bCursorVisible (snd (SetFont demo 1 FontFlagsNone booted_mid))
  = m_bCursorVisible booted_mid && m_bCursorOn booted_mid
  /\ m_nCursorX (snd (SetFont demo 1 FontFlagsNone booted_mid))
     = GetCursorColumn (snd (SetFont demo 1 FontFlagsNone booted_mid))
       * GetCharWidth (CCharGenerator_new demo 1 FontFlagsNone).
Proof.
  assert (H1 : fst (SetFont demo 1 FontFlagsNone booted_mid) = true) by by_compute.
  assert (H2 : 0 < GetCharWidth (CCharGenerator_new demo 1 FontFlagsNone)
               <= m_nWidth booted_mid) by by_compute.
  assert (H3 : 0 < GetCharHeight (CCharGenerator_new demo 1 FontFlagsNone)
               <= m_nHeight booted_mid) by by_compute.
  assert (H4 : m_nWidth booted_mid < 4294967296) by by_compute.
  assert (H5 : m_nHeight booted_mid < 4294967296) by by_compute.
  assert (H6 : 0 <= GetCursorColumn booted_mid) by by_compute.
  assert (H7 : 0 <= GetCursorRow booted_mid) by by_compute.
  destruct (SetFont_success demo 1 FontFlagsNone booted_mid H1 H2 H3 H4 H5 H6 H7)
    as (_ & _ & _ & Hx & _ & Hv).
  split; [exact Hv | exact Hx].
Defined.
(** C7, as stated, fails: after [SetCursorMode(false)] with the cursor shown,
    a successful [SetFont] leaves the cursor not visible. *)
Lemma SetFont_hides_cursor_when_off :
  let r := SetFont demo 1 FontFlagsNone booted_cursor_off in
  fst r = true
  /\ m_bCursorVisible booted_cursor_off = true /\ m_bCursorVisible (snd r) = false.
Proof. by_compute. Qed.

(** C8.  The cursor invariant does not survive [Write]: after the cursor is
    saved in row 4 of the 10x20 grid, the font is doubled ([ESC # 3], cells
    of 20x40) and the cursor is restored ([ESC 8]), the cursor is at pixel
    row 60, which is not a multiple of the cell height 40, and its cell ends
    below the usable height 80. *)
Theorem restore_cursor_off_grid :
  let s := snd (Write demo save_resize_restore booted) in
  GetCharHeight (pCharGen s) = 40 /\ m_nUsedHeight s = 80
  /\ m_nCursorY s = 60
  /\ m_nCursorY s mod GetCharHeight (pCharGen s) <> 0
  /\ m_nUsedHeight s < m_nCursorY s + GetCharHeight (pCharGen s).
Proof. by_compute. Qed.

(** [parameter_cap] after [ESC [ 2 0]: one more [0] makes 200. *)
Lemma parameter_cap_witness :
  Write_char demo (chr "0") (Write_chars demo [ESC; chr "["; chr "2"; chr "0"] booted)
  = set_m_State StateStart
      (set_m_nParam1
         (10 * m_nParam1 (Write_chars demo [ESC; chr "["; chr "2"; chr "0"] booted)
          + (chr "0" - chr "0"))
         (Write_chars demo [ESC; chr "["; chr "2"; chr "0"] booted))
  /\ 0 <= m_nParam1 (Write_chars demo [ESC; chr "["; chr "2"; chr "0"] booted) <= 199.
Proof.
  assert (H : parser_inv booted) by by_compute.
  destruct (parameter_cap demo [ESC; chr "["; chr "2"; chr "0"] booted H) as (Hd & H1 & _).
  assert (Hdig : is_digit (chr "0") = true) by by_compute.
  assert (Hst : m_State (Write_chars demo [ESC; chr "["; chr "2"; chr "0"] booted)
                = StateNumber1) by by_compute.
  assert (Hbig : 199 < 10 * m_nParam1 (Write_chars demo [ESC; chr "["; chr "2"; chr "0"] booted)
                       + (chr "0" - chr "0")) by by_compute.
  split; [exact (proj1 (Hd (chr "0") Hdig) Hst Hbig) | exact (H1 Hst)].
Defined.

(** [vt52_home_is_absolute] with the scroll region on rows 2 to 3. *)
Lemma vt52_home_is_absolute_witness :
  m_nCursorY (Write_chars demo [ESC; chr "["; chr "H"] booted_region)
  = m_nScrollStart booted_region
  /\ m_nCursorY (Write_chars demo [ESC; chr "H"] (SetVT52Mode true booted_region)) = 0.
Proof.
  assert (H1 : m_State booted_region = StateStart) by by_compute.
  assert (H2 : m_bVT52Mode booted_region = false) by by_compute.
  assert (H3 : m_State (SetVT52Mode true booted_region) = StateStart) by by_compute.
  assert (H4 : m_bVT52Mode (SetVT52Mode true booted_region) = true) by by_compute.
  split.
  - exact (proj2 (proj2 (vt52_home_is_absolute demo booted_region H1) H2)).
  - exact (proj1 (proj2 (proj1 (vt52_home_is_absolute demo
                                  (SetVT52Mode true booted_region) H3) H4))).
Defined.

(** [Write_keeps_cursor_on_grid] on the terminal after [Initialize], for a
    cursor address beyond the screen, a tab, a scroll region and text. *)
Lemma Write_keeps_cursor_on_grid_witness :
  term_ok (snd (Write demo
    [ESC; chr "["; chr "9"; chr ";"; chr "9"; chr "H"; 9; chr "a"; 10;
     ESC; chr "["; chr "2"; chr ";"; chr "3"; chr "r"; ESC; chr "M"; ESC; chr "["]
    booted)).
Proof.
  assert (H1 : term_ok booted).
  { split; [apply grid_okb_spec; vm_compute; reflexivity | by_compute]. }
  apply (Write_keeps_cursor_on_grid demo _ booted H1).
  repeat (constructor; [by_compute|]). constructor.
Defined.

(** [CursorMove_address] on the terminal after [Initialize]: row 3, column 5. *)
Lemma CursorMove_address_witness :
  let s' := CursorMove 3 5 booted in
  if addressable 3 5 booted
  then GetCursorRow s' = 3 - 1 /\ GetCursorColumn s' = 5 - 1
       /\ m_nCursorX s' = (5 - 1) * GetCharWidth (pCharGen booted)
       /\ m_nCursorY s' = (3 - 1) * GetCharHeight (pCharGen booted)
  else s' = booted.
Proof.
  assert (H : grid_ok booted) by (apply grid_okb_spec; vm_compute; reflexivity).
  assert (H1 : 0 <= 3 <= 255) by lia.
  assert (H2 : 0 <= 5 <= 255) by lia.
  exact (CursorMove_address 3 5 booted H H1 H2).
Defined.

(** [vt52_direct_address] on the terminal after [Initialize], in VT52 mode:
    the bytes for row 3 and column 5. *)
Lemma vt52_direct_address_witness :
  let s' := Write_chars demo [ESC; chr "Y"; 32 + 3; 32 + 5] (SetVT52Mode true booted) in
  m_State s' = StateStart
  /\ if addressable 3 5 (SetVT52Mode true booted)
     then GetCursorRow s' = 3 - 1 /\ GetCursorColumn s' = 5 - 1
     else m_nCursorX s' = m_nCursorX (SetVT52Mode true booted)
          /\ m_nCursorY s' = m_nCursorY (SetVT52Mode true booted).
Proof.
  assert (H : grid_ok (SetVT52Mode true booted))
    by (apply grid_okb_spec; vm_compute; reflexivity).
  assert (H0 : m_State (SetVT52Mode true booted) = StateStart) by by_compute.
  assert (Hv : m_bVT52Mode (SetVT52Mode true booted) = true) by by_compute.
  assert (H1 : 0 <= 3 <= 223) by lia.
  assert (H2 : 0 <= 5 <= 223) by lia.
  exact (vt52_direct_address demo 3 5 (SetVT52Mode true booted) H H0 Hv H1 H2).
Defined.

(** [SetScrollRegion_rows] on the terminal after [Initialize]: rows 2 to 3. *)
Lemma SetScrollRegion_rows_witness :
  let s' := SetScrollRegion 2 3 booted in
  m_nCursorX s' = 0 /\ m_nCursorY s' = m_nScrollStart s'
  /\ if region_rows 2 3 booted
     then m_nScrollStart s' = (2 - 1) * GetCharHeight (pCharGen booted)
          /\ m_nScrollEnd s' = 3 * GetCharHeight (pCharGen booted)
     else m_nScrollStart s' = m_nScrollStart booted
          /\ m_nScrollEnd s' = m_nScrollEnd booted.
Proof.
  assert (H : grid_ok booted) by (apply grid_okb_spec; vm_compute; reflexivity).
  assert (H1 : 0 <= 2 <= 199) by lia.
  assert (H2 : 0 <= 3 <= 199) by lia.
  exact (SetScrollRegion_rows 2 3 booted H H1 H2).
Defined.

(** [Goto_clamps] on the terminal after [Initialize]: row 1, and a column
    beyond the last. *)
Lemma Goto_clamps_witness :
  let s' := Goto 1 9 booted in
  GetCursorRow s' = Z.min 1 (GetRows booted - 1)
  /\ GetCursorColumn s' = Z.min 9 (GetColumns booted - 1)
  /\ grid_ok s'.
Proof.
  assert (H : grid_ok booted) by (apply grid_okb_spec; vm_compute; reflexivity).
  assert (H1 : 0 <= 1) by lia.
  assert (H2 : 0 <= 9) by lia.
  exact (Goto_clamps 1 9 booted H H1 H2).
Defined.

(** [tab_stop_round_trip] on the terminal after [Initialize]: a stop set in
    column 2, read in column 2. *)
Lemma tab_stop_round_trip_witness :
  IsTabStop 2 (SetTabStop 2 true booted)
  = (if (2 =? 2) && (2 <? TabStopsMax) then true else IsTabStop 2 booted)
  /\ (TabStopsMax <= 2 -> IsTabStop 2 booted = false)
  /\ (TabStopsMax <= 2 -> SetTabStop 2 true booted = booted).
Proof.
  assert (H : tabs_ok booted) by (vm_compute; reflexivity).
  assert (H1 : 0 <= 2) by lia.
  exact (tab_stop_round_trip 2 true 2 booted H H1 H1).
Defined.

(** [InitDefaultTabStops_stops] on the terminal after [Initialize]: column 16
    of 20. *)
Lemma InitDefaultTabStops_stops_witness :
  IsTabStop 16 (InitDefaultTabStops 20 booted)
  = (0 <? 16) && (16 mod 8 =? 0) && (16 <? Z.min 20 TabStopsMax).
Proof.
  assert (H : tabs_ok booted) by (vm_compute; reflexivity).
  assert (H1 : 0 <= 20) by lia.
  assert (H2 : 0 <= 16) by lia.
  exact (InitDefaultTabStops_stops 20 16 booted H H1 H2).
Defined.

(** [clear_all_tab_stops] on the terminal after [Initialize] with a stop set
    in column 2. *)
Lemma clear_all_tab_stops_witness :
  let s' := Write_chars demo [ESC; chr "["; chr "3"; chr "g"] (SetTabStop 2 true booted) in
  IsTabStop 2 s' = false /\ m_State s' = StateStart.
Proof.
  assert (H0 : m_State (SetTabStop 2 true booted) = StateStart) by by_compute.
  assert (Hv : m_bVT52Mode (SetTabStop 2 true booted) = false) by by_compute.
  assert (H : tabs_ok (SetTabStop 2 true booted)) by (vm_compute; reflexivity).
  assert (H1 : 0 <= 2) by lia.
  exact (clear_all_tab_stops demo 2 (SetTabStop 2 true booted) H0 Hv H H1).
Defined.

(** [Tabulator_next_stop] on the terminal after [Initialize] with a stop set
    in column 2. *)
Lemma Tabulator_next_stop_witness :
  Tabulator demo (SetTabStop 2 true booted)
  = set_m_nCursorX (2 * GetCharWidth (pCharGen (SetTabStop 2 true booted)))
      (SetTabStop 2 true booted)
  /\ GetCursorColumn (Tabulator demo (SetTabStop 2 true booted)) = 2.
Proof.
  assert (H : grid_ok (SetTabStop 2 true booted))
    by (apply grid_okb_spec; vm_compute; reflexivity).
  assert (H1 : GetCursorColumn (SetTabStop 2 true booted) < 2
               < GetColumns (SetTabStop 2 true booted)) by by_compute.
  assert (H2 : IsTabStop 2 (SetTabStop 2 true booted) = true) by by_compute.
  assert (H3 : forall k, GetCursorColumn (SetTabStop 2 true booted) < k < 2 ->
                 IsTabStop k (SetTabStop 2 true booted) = false).
  { intros k Hk.
    assert (E : GetCursorColumn (SetTabStop 2 true booted) = 0) by by_compute.
    rewrite E in Hk. assert (k = 1) as -> by lia. by_compute. }
  exact (Tabulator_next_stop demo 2 (SetTabStop 2 true booted) H H1 H2 H3).
Defined.

(** [Tabulator_no_stop] on the terminal after [Initialize], which has four
    columns and no stop set. *)
Lemma Tabulator_no_stop_witness :
  Tabulator demo booted =
    let next := (GetCursorColumn booted / 8 + 1) * 8 in
    if next <? GetColumns booted
    then set_m_nCursorX (next * GetCharWidth (pCharGen booted)) booted
    else NewLine demo booted.
Proof.
  assert (H : grid_ok booted) by (apply grid_okb_spec; vm_compute; reflexivity).
  assert (H3 : forall k, GetCursorColumn booted < k < GetColumns booted ->
                 IsTabStop k booted = false).
  { intros k Hk.
    assert (E : GetCursorColumn booted = 0) by by_compute.
    assert (E' : GetColumns booted = 4) by by_compute.
    rewrite E, E' in Hk.
    assert (D : k = 1 \/ k = 2 \/ k = 3) by lia.
    destruct D as [-> | [-> | ->]]; by_compute. }
  exact (Tabulator_no_stop demo booted H H3).
Defined.

(** [save_restore_cursor] with the cursor in the second column of the second
    row: bold, dim, two letters, a line feed and cursor home in between. *)
Lemma save_restore_cursor_witness :
  let bs := [ESC; chr "["; chr "1"; chr "m"; ESC; chr "["; chr "2"; chr "m";
             chr "a"; chr "b"; 10; ESC; chr "["; chr "H"] in
  let s1 := Write_chars demo ([ESC; chr "7"] ++ bs) booted_mid in
  let s2 := Write_chars demo [ESC; chr "8"] s1 in
  cursor_attributes s2 = cursor_attributes booted_mid
  /\ m_bDimAttribute s2 = m_bDimAttribute s1
  /\ m_FontFlags s2 = m_FontFlags s1.
Proof.
  cbv zeta.
  assert (H1 : m_State booted_mid = StateStart) by by_compute.
  assert (H2 : m_bVT52Mode booted_mid = false) by by_compute.
  assert (H3 : m_nCursorX booted_mid < m_nWidth booted_mid) by by_compute.
  assert (H4 : m_nCursorY booted_mid < m_nHeight booted_mid) by by_compute.
  set (bs := [ESC; chr "["; chr "1"; chr "m"; ESC; chr "["; chr "2"; chr "m";
              chr "a"; chr "b"; 10; ESC; chr "["; chr "H"]).
  assert (H5 : escapes_free (chr "7") bs = true) by (vm_compute; reflexivity).
  assert (H6 : m_State (Write_chars demo ([ESC; chr "7"] ++ bs) booted_mid) = StateStart)
    by by_compute.
  assert (H7 : m_bVT52Mode (Write_chars demo ([ESC; chr "7"] ++ bs) booted_mid) = false)
    by by_compute.
  exact (save_restore_cursor demo bs booted_mid H1 H2 H3 H4 H5 H6 H7).
Defined.

(** [ClearLineEnd_pixels] on the terminal with an [X] drawn: a pixel of the
    cursor row. *)
Lemma ClearLineEnd_pixels_witness :
  GetRawPixel 3 5 (ClearLineEnd booted_drawn)
  = if (m_nCursorX booted_drawn <=? 3) && (m_nCursorY booted_drawn <=? 5)
       && (5 <? m_nCursorY booted_drawn + GetCharHeight (pCharGen booted_drawn))
    then raw_color (m_nDepth booted_drawn) (m_BackgroundColor booted_drawn)
    else GetRawPixel 3 5 booted_drawn.
Proof.
  assert (H1 : surface_ok booted_drawn) by surface_ok_compute.
  assert (H2 : grid_ok booted_drawn) by (apply grid_okb_spec; vm_compute; reflexivity).
  assert (H3 : 0 <= 3 < m_nWidth booted_drawn) by by_compute.
  assert (H4 : 0 <= 5 < m_nHeight booted_drawn) by by_compute.
  exact (ClearLineEnd_pixels booted_drawn 3 5 H1 H2 H3 H4).
Defined.

(** [EraseChars_pixels] on the terminal with an [X] drawn: two cells. *)
Lemma EraseChars_pixels_witness :
  GetRawPixel 3 5 (EraseChars 2 booted_drawn)
  = if (m_nCursorX booted_drawn <=? 3)
       && (3 <? Z.min (m_nCursorX booted_drawn + 2 * GetCharWidth (pCharGen booted_drawn))
                      (m_nUsedWidth booted_drawn))
       && (m_nCursorY booted_drawn <=? 5)
       && (5 <? m_nCursorY booted_drawn + GetCharHeight (pCharGen booted_drawn))
    then raw_color (m_nDepth booted_drawn) (m_BackgroundColor booted_drawn)
    else GetRawPixel 3 5 booted_drawn.
Proof.
  assert (H1 : surface_ok booted_drawn) by surface_ok_compute.
  assert (H2 : grid_ok booted_drawn) by (apply grid_okb_spec; vm_compute; reflexivity).
  assert (Hn : 0 <= 2 <= 199) by lia.
  assert (H3 : 0 <= 3 < m_nWidth booted_drawn) by by_compute.
  assert (H4 : 0 <= 5 < m_nHeight booted_drawn) by by_compute.
  exact (EraseChars_pixels 2 booted_drawn 3 5 H1 H2 Hn H3 H4).
Defined.

(** [ClearDisplayEnd_pixels] on the terminal with an [X] drawn: a pixel of
    the last row. *)
Lemma ClearDisplayEnd_pixels_witness :
  GetRawPixel 3 65 (ClearDisplayEnd booted_drawn)
  = if ((m_nCursorX booted_drawn <=? 3) && (m_nCursorY booted_drawn <=? 65))
       || (m_nCursorY booted_drawn + GetCharHeight (pCharGen booted_drawn) <=? 65)
    then raw_color (m_nDepth booted_drawn) (m_BackgroundColor booted_drawn)
    else GetRawPixel 3 65 booted_drawn.
Proof.
  assert (H1 : surface_ok booted_drawn) by surface_ok_compute.
  assert (H2 : grid_ok booted_drawn) by (apply grid_okb_spec; vm_compute; reflexivity).
  assert (Hs : m_nSize booted_drawn = m_nHeight booted_drawn * m_nPitch booted_drawn)
    by by_compute.
  assert (H3 : 0 <= 3 < m_nWidth booted_drawn) by by_compute.
  assert (H4 : 0 <= 65 < m_nHeight booted_drawn) by by_compute.
  exact (ClearDisplayEnd_pixels booted_drawn 3 65 H1 H2 Hs H3 H4).
Defined.

(** [DisplayCharAt_pixels] on the terminal after [Initialize]: an [X] in the
    second cell of the second row. *)
Lemma DisplayCharAt_pixels_witness :
  GetRawPixel 13 25 (DisplayCharAt demo (chr "X") 10 20 65535 booted)
  = if (10 <=? 13) && (13 <? 10 + GetCharWidth (pCharGen booted))
       && (20 <=? 25) && (25 <? 20 + GetCharHeight (pCharGen booted))
    then raw_color (m_nDepth booted) (cell_color demo (chr "X") 65535 booted (13 - 10) (25 - 20))
    else GetRawPixel 13 25 booted.
Proof.
  assert (H1 : surface_ok booted) by surface_ok_compute.
  assert (H2 : 0 <= 10) by lia.
  assert (H3 : 10 + GetCharWidth (pCharGen booted) <= m_nWidth booted) by by_compute.
  assert (H4 : 0 <= 20) by lia.
  assert (H5 : 20 + GetCharHeight (pCharGen booted) <= m_nHeight booted) by by_compute.
  assert (H6 : 0 <= GetUnderline (pCharGen booted)) by by_compute.
  assert (H7 : 0 <= 13 < m_nWidth booted) by by_compute.
  assert (H8 : 0 <= 25 < m_nHeight booted) by by_compute.
  exact (DisplayCharAt_pixels demo (chr "X") 10 20 65535 booted 13 25
           H1 H2 H3 H4 H5 H6 H7 H8).
Defined.

(** [Scroll_rows] on the terminal with an [X] drawn in the last row: a pixel
    of the third row. *)
Lemma Scroll_rows_witness :
  GetRawPixel 3 45 (Scroll demo booted_drawn)
  = if 45 <? m_nScrollStart booted_drawn then GetRawPixel 3 45 booted_drawn
    else if 45 <? m_nScrollEnd booted_drawn - GetCharHeight (pCharGen booted_drawn)
    then GetRawPixel 3 (45 + GetCharHeight (pCharGen booted_drawn)) booted_drawn
    else if 45 <? m_nScrollEnd booted_drawn
    then raw_color (m_nDepth booted_drawn) (m_BackgroundColor booted_drawn)
    else GetRawPixel 3 45 booted_drawn.
Proof.
  assert (H1 : surface_ok booted_drawn) by surface_ok_compute.
  assert (H2 : m_nScrollStart booted_drawn + GetCharHeight (pCharGen booted_drawn)
               <= m_nScrollEnd booted_drawn) by by_compute.
  assert (H3 : 0 <= 3 < m_nWidth booted_drawn) by by_compute.
  assert (H4 : 0 <= 45 < m_nHeight booted_drawn) by by_compute.
  exact (Scroll_rows demo booted_drawn 3 45 H1 H2 H3 H4).
Defined.

(** [InsertLines_rows] on the terminal with an [X] drawn: one line at the
    cursor row. *)
Lemma InsertLines_rows_witness :
  GetRawPixel 3 5 (InsertLines demo 1 booted_drawn)
  = match lines_count 1 booted_drawn with
    | None => GetRawPixel 3 5 booted_drawn
    | Some c =>
        let rows := c * GetCharHeight (pCharGen booted_drawn) in
        if 5 <? m_nCursorY booted_drawn then GetRawPixel 3 5 booted_drawn
        else if 5 <? m_nCursorY booted_drawn + rows
        then raw_color (m_nDepth booted_drawn) (m_BackgroundColor booted_drawn)
        else if 5 <? m_nScrollEnd booted_drawn then GetRawPixel 3 (5 - rows) booted_drawn
        else GetRawPixel 3 5 booted_drawn
    end.
Proof.
  assert (H1 : surface_ok booted_drawn) by surface_ok_compute.
  assert (H2 : 0 <= 1) by lia.
  assert (H3 : 0 <= 3 < m_nWidth booted_drawn) by by_compute.
  assert (H4 : 0 <= 5 < m_nHeight booted_drawn) by by_compute.
  exact (InsertLines_rows demo 1 booted_drawn 3 5 H1 H2 H3 H4).
Defined.

(** [DeleteLines_rows] on the terminal with an [X] drawn in the last row: a
    pixel of the third row. *)
Lemma DeleteLines_rows_witness :
  GetRawPixel 3 45 (DeleteLines demo 1 booted_drawn)
  = match lines_count 1 booted_drawn with
    | None => GetRawPixel 3 45 booted_drawn
    | Some c =>
        let rows := c * GetCharHeight (pCharGen booted_drawn) in
        if 45 <? m_nCursorY booted_drawn then GetRawPixel 3 45 booted_drawn
        else if 45 <? m_nScrollEnd booted_drawn - rows
        then GetRawPixel 3 (45 + rows) booted_drawn
        else if 45 <? m_nScrollEnd booted_drawn
        then raw_color (m_nDepth booted_drawn) (m_BackgroundColor booted_drawn)
        else GetRawPixel 3 45 booted_drawn
    end.
Proof.
  assert (H1 : surface_ok booted_drawn) by surface_ok_compute.
  assert (H2 : 0 <= 1) by lia.
  assert (H3 : 0 <= 3 < m_nWidth booted_drawn) by by_compute.
  assert (H4 : 0 <= 45 < m_nHeight booted_drawn) by by_compute.
  exact (DeleteLines_rows demo 1 booted_drawn 3 45 H1 H2 H3 H4).
Defined.
